(* ===== verification/_CoqProject ===== *)
-Q . S2P
Prelude.v
Address.v
Phys.v
FrameAlloc.v
PageTable.v
Sv39.v
Sv39Tree.v
IdAlloc.v
UserBuf.v
UserCopy.v
Block.v
PageStore.v
Zram.v
Swap.v
Frames.v
FileTrait.v
MapArea.v
MapAreaOom.v
MapAreaFault.v
MemorySet.v
UserSpace.v
SpaceOk.v
SpaceDemo.v
SpaceFacts.v
SpaceFork.v
Pipe.v
FdTable.v
BlockCache.v
Fat.v
Efs.v
Timer.v
Sched.v
Futex.v
Process.v
Handles.v
Family.v
Tasks.v
Signal.v
SignalOk.v
SignalFrame.v
Ext4Bitmap.v
Ext4Disk.v
Ext4Alloc.v
Ext4Ok.v
Ext4AllocOk.v
Ext4AllocFacts.v
Ext4Extent.v
Ext4ExtentOk.v
Ext4File.v
Ext4FileOk.v
Ext4FileFacts.v
VirtQueue.v
VirtQueueOk.v
VirtQueueInv.v
VirtQueueFacts.v
