(* ===== verification/Prelude.v ===== *)
(** * GCore: a verification library for the GCore kernel

    GCore ([os/src/]) is a Unix-like kernel in Rust for RISC-V (and LoongArch).
    The library models its memory system, from physical frames to the address
    space of a process; the task system over it, with the scheduler, futexes,
    process life cycle, signals and clocks; and the storage under both: block
    devices and the VirtIO queue, caches, the FAT32 allocation table, ext4 files,
    pipes and descriptor tables.
    The build modelled is the default one: RISC-V on QEMU
    ([board_rvqemu]), [oom_handler] with swap and zram on, [zero_init] off,
    overflow checks off (a release build).

    ** How the code is translated

    A function of the code is a function here, of the same name where the name
    is free, with its state passed and returned. A panic (a failed [assert!],
    [unwrap] of an error, an index out of range, [unreachable!]) and undefined
    behaviour are the [None] of an [option]; Rust's [Result] is [result]. A
    [usize] is a [Z] whose operations wrap at 64 bits where they are written
    ([+w], [-w], [*w], [<<w]), likewise [u16] and [u32]. A theorem that an
    operation equals [Some _] therefore says that it returns and does not
    panic. Loops over a list are structural; the others carry fuel, which is
    the number of pages or bytes the loop has to go through, and are shown to
    return with it; where the code can loop for ever the result says so, as the
    [OutOfFuel] of [run]. Physical memory is a map from addresses to bytes; a frame
    held by an [Arc] has a count in [prc], and the drop of the last handle runs
    the [Drop] of the tracker.

    ** The parts

    - [Address] ([mm/address.rs]): addresses, page numbers, the range iterator.
      [Phys]: bytes of physical memory, read and written by page and word.
    - [FrameAlloc] ([mm/frame_allocator.rs]): the stack allocator of frames, the
      tracker handles, raw runs of frames, and the out-of-memory retry. The
      theorems: nobody is given a frame that is held, exhaustion is exactly
      having no frame left, [frames_alloc] is all or nothing, double frees are
      detected.
    - [PageTable] ([mm/page_table.rs]): the trait as a class, [PageTable], with
      its laws, [PageTableSpec]. [Sv39], [Sv39Tree]
      ([hal/arch/riscv/sv39.rs]): the three-level table in memory, an instance;
      the tree refines a finite map from page slots to frames and permissions.
    - [UserBuf], [UserCopy] ([mm/page_table.rs]): scattered user buffers and the
      copies between kernel and user memory, proved against [PageTableSpec].
    - [IdAlloc] ([task/pid.rs], [hal/arch/riscv/kern_stack.rs]): identifiers and
      the placement of kernel stacks.
    - [Block] ([drivers/block/]): block devices as a class, the VirtIO driver's
      sector arithmetic and the memory-backed disk as instances.
    - [PageStore]: a store of pages under identifiers, as a class with its
      laws; [Zram] ([mm/zram.rs]) and [Swap] ([fs/swap.rs], over any block
      device) are instances.
    - [Frames] ([mm/map_area.rs], [Frame]): a page in memory, compressed,
      swapped out or not allocated, and the moves between these. [World] is
      physical memory with both stores; [world_ok] says that the counts of all
      three cover a list of existing frames, and [page_of] is the contents of a
      frame wherever it is.
    - [FileTrait] ([fs/file_trait.rs]): the files that areas map.
    - [MapArea] ([mm/map_area.rs], [LinearMap], [MapArea]): a range of pages.
      [MapAreaOom]: evicting pages keeps contents. [MapAreaFault]: bringing a
      page in, unmapping one, copying on write.
    - [MemorySet] ([mm/memory_set.rs]): an address space: insertion and removal
      of areas, page faults, clean-up, [mmap], [munmap], [mprotect], [brk], and
      the system calls over them ([syscall/process.rs]). [UserSpace]: the
      kernel's map, ELF images ([task/elf.rs]), [fork], thread resources, the
      initial stack. [SpaceOk]: the invariant of a space, page faults and
      clean-up on it. [SpaceDemo]: a concrete space. [SpaceFacts]: error paths.
      [SpaceFork]: after [fork] parent and child share pages and see none of
      each other's writes.
    - [Pipe] ([fs/dev/pipe.rs]): the ring buffer is a bounded queue of bytes.
      [FdTable] ([fs/file_descriptor.rs], and the calls of [syscall/fs.rs] over
      it): the descriptor table is a finite map, with the cases in which it is
      not.
    - [BlockCache] ([fs/cache.rs]): reads and writes through the cache are
      those of the device. [Fat], [Efs] ([fs/fat32/]): the chains of the
      allocation table stay disjoint as long as one of the two sources of free
      clusters can serve a request; the swap area gets the blocks of clusters
      that were free.
    - [Timer] ([timer.rs], and the accounting of [task/task.rs]): clocks, time
      arithmetic as arithmetic on nanoseconds, interval timers.
    - [Sched] ([task/manager.rs], [task/processor.rs], [task/mod.rs]): the state
      [Sys] of the task system (control blocks, queues, the running task, timed
      waits, futex tables), its operations and the invariant [sched_ok].
      [Futex] ([task/threads.rs]): a wait is two halves, up to the switch and
      after it. [Process] ([task/mod.rs], [task/task.rs]): exit, clone, wait;
      the address space is the class [TaskVm]. A system call that sleeps may keep
      an [Arc] of its task on the kernel stack; [handles] of [Sys] are the tasks
      held so. [Handles]: what the operations do to held tasks. [Family]: the
      process tree. [Tasks]: the operations as the steps of a machine; its
      invariant, that every ready task runs, that exit and wait return, and how
      they go wrong for a thread killed while it is held.
    - [Signal] ([task/signal.rs], [syscall/process.rs]): signal sets, actions,
      delivery to a frame on the user stack, [sigreturn], sleeping calls.
      [SignalOk]: which signal is taken, what can be masked. [SignalFrame]: a
      handler returns to the program it interrupted; error paths.
    - ext4 ([fs/ext4/]). [Ext4Bitmap] ([bitmap.rs], [crc.rs]): bitmaps and the
      CRC32C checksum, which is the polynomial division. [Ext4Disk]
      ([superblock.rs], [block_group.rs], [ext4_inode.rs]): the structures on
      disk. [Ext4Alloc] ([balloc.rs], [ialloc.rs]): allocation of blocks and
      inodes; [Ext4Ok], [Ext4AllocOk], [Ext4AllocFacts]: a block is handed out
      once. [Ext4Extent] ([extent.rs]): the extent tree; [Ext4ExtentOk]: the
      search finds what a linear search of the extents finds. [Ext4File]
      ([file.rs]): reading and writing; [Ext4FileOk], [Ext4FileFacts]: a file
      behaves as its bytes.
    - [VirtQueue] ([dependency/virtio-drivers/src/queue.rs]): the queue between a
      driver and a device. [VirtQueueOk], [VirtQueueInv]: the free list and the
      chains of the outstanding requests. [VirtQueueFacts]: in every run the
      requests stay apart, whatever the device writes.

    A component is proved against the class of the one below, never its
    implementation: the areas know a table only by [PageTableSpec] and the
    stores by [PageStoreSpec]. Lemmas about one area quantify over [rest], the
    frames that exist elsewhere, so that the lemma holds in any space and, in
    turn, for several spaces at once.

    ** Outside the model

    Code of other packages is a parameter with its documented behaviour as the
    hypothesis: the LZ4 codec (decompressing what was compressed gives it
    back), the VirtIO disk (a disk of sectors), the headers [xmas_elf]
    reports. Linker symbols are parameters. The handler that frees frames under
    memory pressure runs over all tasks and is an argument ([oom]) of the
    allocation functions; the theorems cover every such handler. Locks, the
    other harts, the translation cache, logging and formatting are not
    modelled: an operation runs under the lock its caller holds, except that a
    lock taken twice by one task is a panic where a theorem depends on it. The
    heap of timed waits is any function that pops a least element.

    Not modelled: traps, context switches and registers of the board (assembly
    and hardware); the VirtIO transports and device protocols; the drivers of
    other boards; the network calls, which wrap the smoltcp crate; the directory
    tree, the directory entries of both file systems and the FAT32 inodes, the
    removal of ext4 extents, and the page cache of open files; and the LoongArch
    port. *)

From stdpp Require Export base gmap list numbers list_numbers option sorting.
From Stdlib Require Export ZArith Lia.

#[global] Open Scope Z_scope.

(** [lia] also eliminates division and remainder by a constant. *)
Ltac Zify.zify_post_hook ::= Z.to_euclidean_division_equations.

(** ** Notation scope *)

Declare Scope kernel_scope.
Delimit Scope kernel_scope with K.

(** ** Results

    Rust's [Result<T, E>]. A panic (a failed [assert!], [unwrap] on an error,
    an index out of range, [unreachable!]) is the [None] of an [option] that
    wraps the whole outcome, so [option (result A E)] has the three outcomes
    the code has. *)

Inductive result (A E : Type) : Type :=
| Ok (a : A)
| Err (e : E).
Arguments Ok {A E} a.
Arguments Err {A E} e.

(** [Result::is_err]. *)
Definition is_err {A E} (r : result A E) : bool :=
  match r with Ok _ => false | Err _ => true end.

(** [Result::unwrap]: a panic on [Err]. *)
Definition unwrap {A E} (r : result A E) : option A :=
  match r with Ok a => Some a | Err _ => None end.

(** [assert!]. *)
Definition assert_ (b : bool) : option unit := if b then Some tt else None.

Lemma assert_Some b u : assert_ b = Some u <-> b = true.
Proof. destruct b, u; simpl; naive_solver. Qed.

(** ** Fallible stateful code

    [KM S E A]: code that reads and writes a state [S] and returns
    [Result<A, E>]. The early return of [?] is [mbind]; a panic is [None]. *)

Definition KM (S E A : Type) : Type := S -> option (result A E * S).

#[export] Instance KM_ret {S E} : MRet (KM S E) := fun A a s => Some (Ok a, s).
#[export] Instance KM_bind {S E} : MBind (KM S E) := fun A B f m s =>
  match m s with
  | Some (Ok a, s') => f a s'
  | Some (Err e, s') => Some (Err e, s')
  | None => None
  end.

Definition km_err {S E A} (e : E) : KM S E A := fun s => Some (Err e, s).
Definition km_panic {S E A} : KM S E A := fun _ => None.
Definition km_get {S E} : KM S E S := fun s => Some (Ok s, s).
Definition km_put {S E} (s' : S) : KM S E unit := fun _ => Some (Ok tt, s').
Definition km_lift {S E A} (o : option A) : KM S E A :=
  fun s => match o with Some a => Some (Ok a, s) | None => None end.

(** The steps of a run of a sequence. *)
Lemma km_bind_ok {S E A B} (m : KM S E A) (f : A -> KM S E B) s a s' :
  m s = Some (Ok a, s') -> (m ≫= f) s = f a s'.
Proof. intros H. unfold mbind, KM_bind. by rewrite H. Qed.

Lemma km_bind_err {S E A B} (m : KM S E A) (f : A -> KM S E B) s e s' :
  m s = Some (Err e, s') -> (m ≫= f) s = Some (Err e, s').
Proof. intros H. unfold mbind, KM_bind. by rewrite H. Qed.

Lemma km_bind_inv {S E A B} (m : KM S E A) (f : A -> KM S E B) s r :
  (m ≫= f) s = Some r ->
  (exists a s', m s = Some (Ok a, s') /\ f a s' = Some r) \/
  (exists e s', m s = Some (Err e, s') /\ r = (Err e, s')).
Proof.
  unfold mbind, KM_bind. destruct (m s) as [[[a | e] s'] |] eqn:E1; [| | done].
  - intros H. left. eauto.
  - intros [= <-]. right. eauto.
Qed.

(** ** Machine integers

    Both build profiles of the kernel compile with [overflow-checks] off, so
    every arithmetic operator of an unsigned type wraps. A [usize] (and a
    [u64]) is a [Z] in [[0, 2^64)]; the wrapping is written out at the
    operators. *)

Definition wrapn (w z : Z) : Z := z mod 2 ^ w.

Abbreviation wrap64 := (wrapn 64).
Abbreviation wrap32 := (wrapn 32).
Abbreviation wrap16 := (wrapn 16).
Abbreviation wrap8 := (wrapn 8).

Notation "a +w b" := (wrapn 64 (a + b)) (at level 50, left associativity) : kernel_scope.
Notation "a -w b" := (wrapn 64 (a - b)) (at level 50, left associativity) : kernel_scope.
Notation "a *w b" := (wrapn 64 (a * b)) (at level 40, left associativity) : kernel_scope.
Notation "a <<w n" := (wrapn 64 (Z.shiftl a n)) (at level 40, left associativity) : kernel_scope.

(** The bitwise complement [!x] of a 64-bit value. *)
Definition not64 (x : Z) : Z := Z.lxor x (Z.ones 64).

(** [x as i64] for a 64-bit pattern [x] (two's complement). *)
Definition to_signed64 (x : Z) : Z :=
  if x <? 2 ^ 63 then x else x - 2 ^ 64.

#[global] Open Scope kernel_scope.

Definition usize_max : Z := 2 ^ 64 - 1.

(** A value that fits its width. *)
Definition fits (w z : Z) : Prop := 0 <= z < 2 ^ w.
Abbreviation u64 := (fits 64).
Abbreviation u16 := (fits 16).
Abbreviation u8 := (fits 8).

#[global] Arguments wrapn : simpl never.
#[global] Arguments not64 : simpl never.

Create HintDb kernel.

Lemma wrapn_bound w z : 0 <= w -> fits w (wrapn w z).
Proof. intros Hw. apply Z.mod_pos_bound. lia. Qed.

Lemma wrapn_small w z : fits w z -> wrapn w z = z.
Proof. intros H. by apply Z.mod_small. Qed.

Lemma wrap64_bound z : u64 (wrap64 z).
Proof. by apply wrapn_bound. Qed.

Lemma wrap64_small z : 0 <= z < 2 ^ 64 -> wrap64 z = z.
Proof. apply (wrapn_small 64). Qed.

#[export] Hint Resolve wrapn_bound wrap64_bound : kernel.

(** Rewrites every [wrap64] whose argument [lia] can show to be in range. *)
Ltac wrap_simpl :=
  unfold fits in *;
  repeat match goal with
  | |- context [wrapn 64 ?z] => rewrite (wrap64_small z) by lia
  | H : context [wrapn 64 ?z] |- _ => rewrite (wrap64_small z) in H by lia
  end.

(** ** Bit-level lemmas *)

Lemma land_ones_mod a n : 0 <= n -> Z.land a (Z.ones n) = a mod 2 ^ n.
Proof. intros. by apply Z.land_ones. Qed.

Lemma shiftl_mul a n : 0 <= n -> Z.shiftl a n = a * 2 ^ n.
Proof. intros. by apply Z.shiftl_mul_pow2. Qed.

Lemma shiftr_div a n : 0 <= n -> Z.shiftr a n = a / 2 ^ n.
Proof. intros. by apply Z.shiftr_div_pow2. Qed.

(** A value of [w] bits has no bit at or above [w]. *)
Lemma fits_testbit_high w z i : 0 <= w -> fits w z -> w <= i -> Z.testbit z i = false.
Proof.
  intros Hw [Hz0 Hz1] Hi.
  destruct (decide (z = 0)) as [-> | Hne]; [apply Z.testbit_0_l |].
  apply Z.bits_above_log2; [lia |].
  apply Z.lt_le_trans with w; [| lia].
  apply Z.log2_lt_pow2; lia.
Qed.

Lemma fits_of_testbit w z :
  0 <= w -> 0 <= z -> (forall i, w <= i -> Z.testbit z i = false) -> fits w z.
Proof.
  intros Hw Hz Hbit. split; [done |].
  destruct (decide (z = 0)) as [-> | Hne]; [lia |].
  apply Z.log2_lt_pow2; [lia |].
  destruct (decide (Z.log2 z < w)) as [| Hge]; [done |].
  pose proof (Z.bit_log2 z ltac:(lia)) as Hl. rewrite Hbit in Hl by lia. done.
Qed.

Lemma fits_lor w a b : 0 <= w -> fits w a -> fits w b -> fits w (Z.lor a b).
Proof.
  intros Hw Ha Hb. apply fits_of_testbit; [done | | ].
  - apply Z.lor_nonneg. by destruct Ha, Hb.
  - intros i Hi. rewrite Z.lor_spec.
    by rewrite !(fits_testbit_high w).
Qed.

Lemma fits_land_l w a b : 0 <= w -> fits w a -> fits w (Z.land a b).
Proof.
  intros Hw Ha. apply fits_of_testbit; [done | | ].
  - apply Z.land_nonneg. left. by destruct Ha.
  - intros i Hi. rewrite Z.land_spec. by rewrite (fits_testbit_high w a).
Qed.

Lemma fits_lxor w a b : 0 <= w -> fits w a -> fits w b -> fits w (Z.lxor a b).
Proof.
  intros Hw Ha Hb. apply fits_of_testbit; [done | | ].
  - apply Z.lxor_nonneg. destruct Ha, Hb. tauto.
  - intros i Hi. rewrite Z.lxor_spec. by rewrite !(fits_testbit_high w).
Qed.

Lemma fits_ones w : 0 <= w -> fits w (Z.ones w).
Proof. intros. unfold fits. rewrite Z.ones_equiv. lia. Qed.

Lemma fits_not64 x : u64 x -> u64 (not64 x).
Proof. intros. apply fits_lxor; [lia | done | by apply fits_ones]. Qed.

Lemma not64_spec x i : 0 <= i -> Z.testbit (not64 x) i = xorb (Z.testbit x i) (i <? 64).
Proof.
  intros Hi. unfold not64. rewrite Z.lxor_spec. f_equal.
  destruct (Z.ltb_spec i 64).
  - apply Z.ones_spec_low. lia.
  - apply Z.ones_spec_high. lia.
Qed.

#[export] Hint Resolve fits_lor fits_land_l fits_lxor fits_not64 : kernel.

Lemma testbit_ones n i : 0 <= n -> 0 <= i -> Z.testbit (Z.ones n) i = (i <? n).
Proof.
  intros Hn Hi. destruct (Z.ltb_spec i n).
  - apply Z.ones_spec_low. lia.
  - apply Z.ones_spec_high. lia.
Qed.

Lemma testbit_wrapn w z i :
  0 <= w -> 0 <= i -> Z.testbit (wrapn w z) i = (i <? w) && Z.testbit z i.
Proof.
  intros Hw Hi. unfold wrapn. destruct (Z.ltb_spec i w).
  - rewrite Z.mod_pow2_bits_low; [done | lia].
  - rewrite Z.mod_pow2_bits_high; [done | lia].
Qed.

Lemma testbit_pow2 n i : 0 <= n -> 0 <= i -> Z.testbit (2 ^ n) i = (i =? n).
Proof.
  intros Hn Hi. destruct (Z.eqb_spec i n) as [-> |].
  - by apply Z.pow2_bits_true.
  - by apply Z.pow2_bits_false.
Qed.

(** Extensionality of bit vectors, from the sign bit up. *)
Ltac bitwise i := apply Z.bits_inj'; intros i ?.

(** ** Lists used as Rust vectors and slices *)

(** [v[i]]: a panic out of range. The index is a [usize]. *)
Definition vec_get {A} (v : list A) (i : Z) : option A :=
  if i <? 0 then None else v !! Z.to_nat i.

(** [v[i] = x]: a panic out of range. *)
Definition vec_set {A} (v : list A) (i : Z) (x : A) : option (list A) :=
  if (0 <=? i) && (i <? Z.of_nat (length v)) then Some (<[Z.to_nat i := x]> v) else None.

(** [Vec::len] as a [usize]. *)
Definition vlen {A} (v : list A) : Z := Z.of_nat (length v).

(** [Vec::pop]: the last element and the rest. *)
Definition vec_pop {A} (v : list A) : option (A * list A) :=
  match last v with
  | Some x => Some (x, take (length v - 1) v)
  | None => None
  end.

(** [Vec::resize]. *)
Definition vec_resize {A} (v : list A) (n : Z) (x : A) : list A :=
  resize (Z.to_nat n) x v.

(** [slice::rotate_left]: a panic when the amount exceeds the length. *)
Definition rotate_left {A} (v : list A) (k : Z) : option (list A) :=
  if (0 <=? k) && (k <=? vlen v)
  then Some (drop (Z.to_nat k) v ++ take (Z.to_nat k) v) else None.

(** [&v[a..b]]: a panic when [a > b] or [b > v.len()]. *)
Definition slice {A} (v : list A) (a b : Z) : option (list A) :=
  if (0 <=? a) && (a <=? b) && (b <=? vlen v)
  then Some (take (Z.to_nat (b - a)) (drop (Z.to_nat a) v)) else None.

(** [v[a..b].copy_from_slice(src)]: a panic when the lengths differ. *)
Definition copy_slice {A} (v : list A) (a b : Z) (src : list A) : option (list A) :=
  if (0 <=? a) && (a <=? b) && (b <=? vlen v) && (vlen src =? b - a)
  then Some (take (Z.to_nat a) v ++ src ++ drop (Z.to_nat b) v) else None.

Lemma vec_pop_Some {A} (v : list A) x r : vec_pop v = Some (x, r) -> v = r ++ [x].
Proof.
  unfold vec_pop. destruct (last v) as [y |] eqn:E; [| done].
  intros [= -> <-]. apply last_Some in E as [l ->].
  rewrite length_app, Nat.add_sub. by rewrite take_app_length.
Qed.

Lemma vec_pop_None {A} (v : list A) : vec_pop v = None <-> v = [].
Proof.
  unfold vec_pop. destruct (last v) eqn:E.
  - split; [done |]. intros ->. done.
  - apply last_None in E. done.
Qed.

Lemma vec_pop_snoc {A} (v : list A) x : vec_pop (v ++ [x]) = Some (x, v).
Proof.
  unfold vec_pop. rewrite last_snoc, length_app. simpl.
  rewrite Nat.add_sub. by rewrite take_app_length.
Qed.

Lemma vec_get_Some {A} (v : list A) i x :
  vec_get v i = Some x <-> 0 <= i < vlen v /\ v !! Z.to_nat i = Some x.
Proof.
  unfold vec_get, vlen. destruct (Z.ltb_spec i 0).
  - split; [done | lia].
  - split; [| tauto]. intros Hx. split; [| done].
    apply lookup_lt_Some in Hx. lia.
Qed.

Lemma vec_get_is_Some {A} (v : list A) i : 0 <= i < vlen v -> is_Some (vec_get v i).
Proof.
  intros H. unfold vec_get, vlen in *. destruct (Z.ltb_spec i 0); [lia |].
  apply lookup_lt_is_Some_2. lia.
Qed.

Lemma vec_set_Some {A} (v : list A) i x v' :
  vec_set v i x = Some v' <-> 0 <= i < vlen v /\ v' = <[Z.to_nat i := x]> v.
Proof.
  unfold vec_set, vlen.
  destruct (Z.leb_spec 0 i), (Z.ltb_spec i (Z.of_nat (length v))); simpl;
    naive_solver lia.
Qed.

Lemma vec_set_lookup {A} (v : list A) idx x y :
  0 <= idx -> v !! Z.to_nat idx = Some x -> vec_set v idx y = Some (<[Z.to_nat idx := y]> v).
Proof.
  intros H0 Hx. apply lookup_lt_Some in Hx. apply vec_set_Some. unfold vlen. split; [lia | done].
Qed.

Lemma vlen_app {A} (v w : list A) : vlen (v ++ w) = vlen v + vlen w.
Proof. unfold vlen. rewrite length_app. lia. Qed.

Lemma vlen_nonneg {A} (v : list A) : 0 <= vlen v.
Proof. unfold vlen. lia. Qed.

#[export] Hint Resolve vlen_nonneg : kernel.

Lemma slice_Some {A} (v : list A) a b s :
  slice v a b = Some s <->
  0 <= a <= b /\ b <= vlen v /\ s = take (Z.to_nat (b - a)) (drop (Z.to_nat a) v).
Proof.
  unfold slice.
  destruct (Z.leb_spec 0 a), (Z.leb_spec a b), (Z.leb_spec b (vlen v)); simpl;
    naive_solver lia.
Qed.

Lemma copy_slice_Some {A} (v : list A) a b src v' :
  copy_slice v a b src = Some v' <->
  0 <= a <= b /\ b <= vlen v /\ vlen src = b - a /\
  v' = take (Z.to_nat a) v ++ src ++ drop (Z.to_nat b) v.
Proof.
  unfold copy_slice.
  destruct (Z.leb_spec 0 a), (Z.leb_spec a b), (Z.leb_spec b (vlen v)),
    (Z.eqb_spec (vlen src) (b - a)); simpl; naive_solver lia.
Qed.

(** ** Filters that keep all or nothing *)

Lemma filter_all {A} (P : A -> Prop) `{!forall x, Decision (P x)} (l : list A) : (forall x, x ∈ l -> P x) -> filter P l = l.
Proof.
  induction l as [| x l IH]; intros HP; [done |]. rewrite filter_cons_True by (apply HP; left).
  f_equal. apply IH. intros y Hy. apply HP. by right.
Qed.
Lemma filter_none {A} (P : A -> Prop) `{!forall x, Decision (P x)} (l : list A) : (forall x, x ∈ l -> ~ P x) -> filter P l = [].
Proof.
  induction l as [| x l IH]; intros HP; [done |]. rewrite filter_cons_False by (apply HP; left).
  apply IH. intros y Hy. apply HP. by right.
Qed.

(** ** Computations that may not end

    Where the code loops or recurses without a bound, a run returns, panics, or
    has used up its fuel. *)

Inductive run (A : Type) := Ret (a : A) | Panic | OutOfFuel.
Arguments Ret {A} a.
Arguments Panic {A}.
Arguments OutOfFuel {A}.
Definition lift {A} (o : option A) : run A := match o with Some a => Ret a | None => Panic end.
#[export] Instance run_ret : MRet run := @Ret.
#[export] Instance run_bind : MBind run := fun A B f m =>
  match m with Ret a => f a | Panic => Panic | OutOfFuel => OutOfFuel end.

(** ** Proof automation *)

(** Splits [option]-monadic hypotheses and boolean tests. *)
Ltac bool_cases :=
  repeat match goal with
  | H : context [Z.eqb ?a ?b] |- _ => destruct (Z.eqb_spec a b)
  | H : context [Z.ltb ?a ?b] |- _ => destruct (Z.ltb_spec a b)
  | H : context [Z.leb ?a ?b] |- _ => destruct (Z.leb_spec a b)
  | |- context [Z.eqb ?a ?b] => destruct (Z.eqb_spec a b)
  | |- context [Z.ltb ?a ?b] => destruct (Z.ltb_spec a b)
  | |- context [Z.leb ?a ?b] => destruct (Z.leb_spec a b)
  end.
