(* ===== verification/Address.v ===== *)
(** * Addresses and page numbers

    [mm/address.rs]: the newtypes [PhysAddr], [VirtAddr], [PhysPageNum] and
    [VirtPageNum] (all a [usize], here a [Z]), the conversions between an
    address and the page that holds it, the split of a virtual page number into
    page-table indexes, and the half-open ranges of page numbers that every
    mapping loop of the kernel iterates over. The constants are those of
    [hal/arch/riscv/config.rs]. *)

From S2P Require Import Prelude.

(** ** Configuration constants *)

Definition PAGE_SIZE : Z := 0x1000.
Definition PAGE_SIZE_BITS : Z := 0xc.
Definition MEMORY_START : Z := 0x80000000.
Definition MEMORY_SIZE : Z := 0x30000000.
Definition MEMORY_END : Z := MEMORY_START + MEMORY_SIZE.
Definition TASK_SIZE : Z := 0xc0000000.
Definition USER_STACK_BASE : Z := TASK_SIZE - PAGE_SIZE.
Definition USER_STACK_SIZE : Z := PAGE_SIZE * 0x40.
Definition USER_HEAP_SIZE : Z := PAGE_SIZE * 0x20.
Definition KERNEL_STACK_SIZE : Z := PAGE_SIZE * 0x20.
Definition MMAP_BASE : Z := 0x60000000.
Definition MMAP_END : Z := 0x80000000.
Definition SKIP_NUM : Z := 2.
Definition TRAMPOLINE : Z := usize_max - PAGE_SIZE + 1.
Definition SIGNAL_TRAMPOLINE : Z := TRAMPOLINE - PAGE_SIZE.
Definition TRAP_CONTEXT_BASE : Z := SIGNAL_TRAMPOLINE - PAGE_SIZE.

(** ** Virtual and physical addresses

    [VirtAddr] and [PhysAddr] have the same methods in the source, written
    twice; the two impl blocks are translated separately. *)

Abbreviation VirtAddr := Z (only parsing).
Abbreviation PhysAddr := Z (only parsing).
Abbreviation VirtPageNum := Z (only parsing).
Abbreviation PhysPageNum := Z (only parsing).

Definition va_floor (va : VirtAddr) : VirtPageNum := va / PAGE_SIZE.
Definition va_ceil (va : VirtAddr) : VirtPageNum :=
  ((va -w 1) +w PAGE_SIZE) / PAGE_SIZE.
Definition va_page_offset (va : VirtAddr) : Z := Z.land va (PAGE_SIZE - 1).
Definition va_aligned (va : VirtAddr) : bool := va_page_offset va =? 0.

Definition pa_floor (pa : PhysAddr) : PhysPageNum := pa / PAGE_SIZE.
Definition pa_ceil (pa : PhysAddr) : PhysPageNum :=
  ((pa -w 1) +w PAGE_SIZE) / PAGE_SIZE.
Definition pa_page_offset (pa : PhysAddr) : Z := Z.land pa (PAGE_SIZE - 1).
Definition pa_aligned (pa : PhysAddr) : bool := pa_page_offset pa =? 0.

(** [From<VirtAddr> for VirtPageNum]: the [assert_eq!] is a panic. *)
Definition vpn_from_va (va : VirtAddr) : option VirtPageNum :=
  if va_page_offset va =? 0 then Some (va_floor va) else None.
Definition va_from_vpn (vpn : VirtPageNum) : VirtAddr := vpn <<w PAGE_SIZE_BITS.
Definition ppn_from_pa (pa : PhysAddr) : option PhysPageNum :=
  if pa_page_offset pa =? 0 then Some (pa_floor pa) else None.
Definition pa_from_ppn (ppn : PhysPageNum) : PhysAddr := ppn <<w PAGE_SIZE_BITS.

Definition vpn_start_addr (vpn : VirtPageNum) : VirtAddr := vpn <<w PAGE_SIZE_BITS.
Definition vpn_offset (vpn : VirtPageNum) (offset : Z) : VirtAddr :=
  (vpn <<w PAGE_SIZE_BITS) +w offset.
Definition ppn_start_addr (ppn : PhysPageNum) : PhysAddr := ppn <<w PAGE_SIZE_BITS.
Definition ppn_offset (ppn : PhysPageNum) (offset : Z) : PhysAddr :=
  (ppn <<w PAGE_SIZE_BITS) +w offset.

(** [VirtPageNum::indexes::<T>]: the loop runs [i] from [T-1] down to [0]. *)
Fixpoint indexes_loop (i : nat) (vpn : Z) (idx : list Z) : list Z :=
  match i with
  | O => idx
  | S i' => indexes_loop i' (Z.shiftr vpn 9) (<[i' := Z.land vpn 511]> idx)
  end.
Definition indexes (T : nat) (vpn : VirtPageNum) : list Z :=
  indexes_loop T vpn (replicate T 0).

(** ** Ranges of page numbers *)

Record SimpleRange := mkRange { range_l : Z; range_r : Z }.

(** [SimpleRange::new]: the [assert!] is a panic. *)
Definition range_new (start end_ : Z) : option SimpleRange :=
  if start <=? end_ then Some (mkRange start end_) else None.
Definition get_start (r : SimpleRange) : Z := range_l r.
Definition get_end (r : SimpleRange) : Z := range_r r.

Record SimpleRangeIterator := mkRangeIter { it_current : Z; it_end : Z }.

(** [StepByOne::step]. *)
Definition step (x : Z) : Z := x +w 1.

Definition range_into_iter (r : SimpleRange) : SimpleRangeIterator :=
  mkRangeIter (range_l r) (range_r r).
Definition range_next (it : SimpleRangeIterator) : option Z * SimpleRangeIterator :=
  if it_current it =? it_end it then (None, it)
  else (Some (it_current it), mkRangeIter (step (it_current it)) (it_end it)).

(** What a [for] loop sees: the items up to the first [None]; [None] as a
    whole when [fuel] calls of [next] do not reach it. *)
Fixpoint range_drain (fuel : nat) (it : SimpleRangeIterator) : option (list Z) :=
  match fuel with
  | O => None
  | S fuel' =>
      match range_next it with
      | (None, _) => Some []
      | (Some t, it') => ts ← range_drain fuel' it'; Some (t :: ts)
      end
  end.

(** The page numbers of a range in order, as every mapping loop uses them. *)
Definition range_items (r : SimpleRange) : list Z :=
  seqZ (range_l r) (range_r r - range_l r).

#[global] Arguments indexes : simpl never.

(** ** Lemmas *)

Lemma PAGE_SIZE_pow : PAGE_SIZE = 2 ^ PAGE_SIZE_BITS.
Proof. reflexivity. Qed.

Lemma page_offset_mod va : va_page_offset va = va mod PAGE_SIZE.
Proof.
  unfold va_page_offset. change (PAGE_SIZE - 1) with (Z.ones 12).
  by rewrite Z.land_ones.
Qed.

Lemma va_from_vpn_small vpn : 0 <= vpn < 2 ^ 52 -> va_from_vpn vpn = vpn * PAGE_SIZE.
Proof.
  intros H. unfold va_from_vpn, PAGE_SIZE_BITS, PAGE_SIZE.
  rewrite shiftl_mul by lia. by wrap_simpl.
Qed.

Lemma ppn_offset_small ppn off :
  0 <= ppn < 2 ^ 52 -> 0 <= off < PAGE_SIZE -> ppn_offset ppn off = ppn * PAGE_SIZE + off.
Proof.
  unfold ppn_offset, PAGE_SIZE_BITS, PAGE_SIZE. intros Hp Ho.
  rewrite shiftl_mul by lia. by wrap_simpl.
Qed.

Lemma va_split va : va = va_floor va * PAGE_SIZE + va_page_offset va.
Proof.
  rewrite page_offset_mod. unfold va_floor, PAGE_SIZE. lia.
Qed.

Lemma va_offset_bound va : 0 <= va_page_offset va < PAGE_SIZE.
Proof. rewrite page_offset_mod. unfold PAGE_SIZE. lia. Qed.

Lemma va_floor_bound va : u64 va -> 0 <= va_floor va < 2 ^ 52.
Proof. unfold va_floor, PAGE_SIZE, fits. lia. Qed.

#[export] Hint Resolve va_offset_bound va_floor_bound : kernel.

Lemma length_indexes_loop i vpn idx : length (indexes_loop i vpn idx) = length idx.
Proof.
  revert vpn idx. induction i as [| i IH]; intros vpn idx; simpl; [done |].
  by rewrite IH, length_insert.
Qed.

(** Entries at or above the loop counter are final. *)
Lemma indexes_loop_ge i vpn idx j :
  (i <= j)%nat -> indexes_loop i vpn idx !! j = idx !! j.
Proof.
  revert vpn idx. induction i as [| i IH]; intros vpn idx Hj; simpl; [done |].
  rewrite IH by lia. apply list_lookup_insert_ne. lia.
Qed.

Lemma indexes_loop_lookup i vpn idx j :
  (j < i <= length idx)%nat ->
  indexes_loop i vpn idx !! j = Some ((vpn / 512 ^ Z.of_nat (i - 1 - j)) mod 512).
Proof.
  revert vpn idx. induction i as [| i IH]; intros vpn idx Hj; [lia |]. simpl.
  destruct (decide (j = i)) as [-> | Hne].
  - rewrite indexes_loop_ge by lia. rewrite list_lookup_insert_eq by lia.
    replace (i - 0 - i)%nat with O by lia.
    change 511 with (Z.ones 9). by rewrite Z.land_ones, Z.div_1_r.
  - rewrite IH by (rewrite length_insert; lia).
    rewrite shiftr_div by lia. rewrite Z.div_div by lia.
    do 2 f_equal. f_equal. change (2 ^ 9) with 512.
    rewrite <- Z.pow_succ_r by lia. f_equal. lia.
Qed.

(** The radix-512 digits determine the page number. *)
Fixpoint vpn_of_indexes (idx : list Z) (acc : Z) : Z :=
  match idx with
  | [] => acc
  | i :: idx' => vpn_of_indexes idx' (acc * 512 + i)
  end.

Lemma vpn_digits vpn :
  0 <= vpn < 512 * 512 * 512 ->
  (((vpn / (512 * 512)) mod 512) * 512 + (vpn / 512) mod 512) * 512 + (vpn / 1) mod 512 = vpn.
Proof.
  intros Hv. rewrite Z.div_1_r, <- Z.div_div by lia.
  pose proof (Z.div_mod vpn 512 ltac:(lia)) as H1.
  assert (Hq : 0 <= vpn / 512 < 512 * 512)
    by (split; [apply Z.div_pos | apply Z.div_lt_upper_bound]; lia).
  revert H1 Hq. generalize (vpn mod 512) (vpn / 512). intros r q H1 Hq.
  assert (0 <= q / 512 < 512)
    by (split; [apply Z.div_pos | apply Z.div_lt_upper_bound]; lia).
  rewrite (Z.mod_small (q / 512)) by done.
  pose proof (Z.div_mod q 512 ltac:(lia)). lia.
Qed.

Lemma range_drain_items n l r :
  0 <= l -> l + Z.of_nat n = r -> r < 2 ^ 64 ->
  range_drain (S n) (mkRangeIter l r) = Some (seqZ l (Z.of_nat n)).
Proof.
  revert l. induction n as [| n IH]; intros l Hl Hr Hb; cbn -[seqZ range_drain].
  - rewrite Z.add_0_r in Hr. subst l. cbn. unfold range_next. simpl.
    by rewrite Z.eqb_refl.
  - change (range_drain (S (S n)) ?it) with
      (match range_next it with
       | (None, _) => Some []
       | (Some t, it') => ts ← range_drain (S n) it'; Some (t :: ts)
       end).
    unfold range_next. cbn [it_current it_end].
    destruct (Z.eqb_spec l r); [lia |].
    unfold step. rewrite wrap64_small by lia.
    rewrite IH by lia. cbn [mbind option_bind].
    rewrite (seqZ_cons l (Z.of_nat (S n))) by lia.
    by replace (Z.pred (Z.of_nat (S n))) with (Z.of_nat n) by lia.
Qed.

Lemma elem_of_range_items r x : x ∈ range_items r <-> range_l r <= x < range_r r.
Proof. unfold range_items. rewrite elem_of_seqZ. lia. Qed.

(** ** Theorems *)

(** [ceil] is the least page number at or above the address, for every
    address up to the trampoline page (address 0, which the code tests for
    first, included). *)
Theorem va_ceil_spec va :
  u64 va -> va <= TRAMPOLINE ->
  (va_ceil va - 1) * PAGE_SIZE < va <= va_ceil va * PAGE_SIZE.
Proof.
  unfold va_ceil, fits, TRAMPOLINE, PAGE_SIZE, usize_max. intros H Ht.
  destruct (decide (va = 0)) as [-> |].
  - vm_compute. done.
  - wrap_simpl. lia.
Qed.

Lemma va_ceil_spec_witness :
  va_ceil 0x1001 = 2 /\ (va_ceil 0x1001 - 1) * PAGE_SIZE < 0x1001 <= va_ceil 0x1001 * PAGE_SIZE.
Proof. split; [by vm_compute |]. apply va_ceil_spec; by vm_compute. Defined.

(** The loop [for x in range] runs over the half-open interval in order
    and stops: [next] called until it returns [None] yields exactly the page
    numbers from the start to the one before the end. *)
Theorem range_for_items l r rg :
  0 <= l -> r < 2 ^ 64 -> range_new l r = Some rg ->
  range_drain (S (Z.to_nat (r - l))) (range_into_iter rg) = Some (range_items rg).
Proof.
  unfold range_new. intros Hl Hr. destruct (Z.leb_spec l r); [| done].
  intros [= <-]. unfold range_into_iter, range_items. cbn.
  change (range_drain (S (Z.to_nat (r - l))) (mkRangeIter l r) = Some (seqZ l (r - l))).
  rewrite range_drain_items; [| lia..]. by rewrite Z2Nat.id by lia.
Qed.

Lemma range_for_items_witness :
  range_drain 4 (range_into_iter (mkRange 7 10)) = Some (range_items (mkRange 7 10)) /\
  range_items (mkRange 7 10) = [7; 8; 9].
Proof. split; [apply (range_for_items 7 10); by vm_compute | by vm_compute]. Defined.

(** The three 9-bit indices of a page number are in range and determine
    the page number: no two page numbers below [2^27] select the same entry. *)
Theorem indexes_roundtrip vpn :
  0 <= vpn < 512 ^ 3 ->
  length (indexes 3 vpn) = 3%nat /\
  Forall (fun i => 0 <= i < 512) (indexes 3 vpn) /\
  vpn_of_indexes (indexes 3 vpn) 0 = vpn.
Proof.
  intros Hv. unfold indexes.
  assert (Hl : length (indexes_loop 3 vpn (replicate 3 0)) = 3%nat)
    by by rewrite length_indexes_loop.
  pose proof (indexes_loop_lookup 3 vpn (replicate 3 0) 0 ltac:(simpl; lia)) as H0.
  pose proof (indexes_loop_lookup 3 vpn (replicate 3 0) 1 ltac:(simpl; lia)) as H1.
  pose proof (indexes_loop_lookup 3 vpn (replicate 3 0) 2 ltac:(simpl; lia)) as H2.
  destruct (indexes_loop 3 vpn (replicate 3 0)) as [| a [| b [| c [|]]]]; try done.
  simpl in H0, H1, H2. injection H0 as ->. injection H1 as ->. injection H2 as ->.
  split; [done |]. split.
  - repeat constructor; by apply Z.mod_pos_bound.
  - simpl vpn_of_indexes. apply vpn_digits. lia.
Qed.

Lemma indexes_roundtrip_witness :
  indexes 3 0x80605 = [2; 3; 5] /\ vpn_of_indexes (indexes 3 0x80605) 0 = 0x80605.
Proof. split; [by vm_compute |]. apply indexes_roundtrip. by vm_compute. Defined.
