(* ===== verification/Phys.v ===== *)
(** * Physical memory

    The kernel reaches physical memory through raw pointers built from a
    physical page number ([PhysPageNum::get_bytes_array], [get_dwords_array],
    [get_pte_array], [PhysAddr::get_mut] of [mm/address.rs]). Here it is one
    store of bytes indexed by physical address, shared by every component, so
    that two references to the same page see each other's writes. *)

From S2P Require Import Prelude Address.

(** A cell holds eight bits, whatever number the map has for it; a byte never
    written reads as zero, so any initial contents is a map. *)
Abbreviation memory := (gmap Z Z) (only parsing).

Definition mem_get (m : memory) (a : Z) : Z := wrap8 (default 0 (m !! a)).

Fixpoint write_bytes (m : memory) (a : Z) (bs : list Z) : memory :=
  match bs with
  | [] => m
  | b :: bs' => write_bytes (<[a := b]> m) (a + 1) bs'
  end.
Definition read_bytes (m : memory) (a n : Z) : list Z :=
  (fun i => mem_get m (a + i)) <$> seqZ 0 n.

(** Little-endian encoding, as both supported architectures store a [u64]. *)
Fixpoint le_split (n : nat) (v : Z) : list Z :=
  match n with
  | O => []
  | S n' => v mod 256 :: le_split n' (v / 256)
  end.
Fixpoint le_combine (bs : list Z) : Z :=
  match bs with
  | [] => 0
  | b :: bs' => b + 256 * le_combine bs'
  end.

Definition read64 (m : memory) (a : Z) : Z := le_combine (read_bytes m a 8).
Definition write64 (m : memory) (a v : Z) : memory := write_bytes m a (le_split 8 v).

(** [ppn.get_bytes_array()]: the 4096 bytes of a page. *)
Definition get_bytes_array (m : memory) (ppn : Z) : list Z :=
  read_bytes m (pa_from_ppn ppn) 4096.
(** [ppn.get_bytes_array()[off..].copy_from_slice(bs)] for [bs] that fits. *)
Definition put_bytes_array (m : memory) (ppn : Z) (off : Z) (bs : list Z) : memory :=
  write_bytes m (pa_from_ppn ppn + off) bs.
(** [ppn.get_pte_array()[i]] and [ppn.get_dwords_array()[i]]: the [i]-th of the
    512 double words of a page. *)
Definition get_dword (m : memory) (ppn i : Z) : Z := read64 m (pa_from_ppn ppn + 8 * i).
Definition put_dword (m : memory) (ppn i v : Z) : memory :=
  write64 m (pa_from_ppn ppn + 8 * i) v.

(** ** Lemmas *)

Lemma mem_get_write_bytes m a bs x :
  mem_get (write_bytes m a bs) x =
  if decide (a <= x < a + vlen bs) then wrap8 (default 0 (bs !! Z.to_nat (x - a)))
  else mem_get m x.
Proof.
  revert m a. induction bs as [| b bs IH]; intros m a; simpl.
  - unfold vlen. simpl. rewrite decide_False by lia. done.
  - rewrite IH. unfold vlen. simpl length.
    destruct (decide (a + 1 <= x < a + 1 + Z.of_nat (length bs))).
    + rewrite decide_True by lia.
      replace (Z.to_nat (x - a)) with (S (Z.to_nat (x - (a + 1)))) by lia. done.
    + unfold mem_get. destruct (decide (x = a)) as [-> |].
      * rewrite lookup_insert_eq, decide_True by lia.
        by replace (Z.to_nat (a - a)) with O by lia.
      * rewrite lookup_insert_ne by done. by rewrite decide_False by lia.
Qed.

Lemma mem_get_write_bytes_out m a bs x :
  x < a \/ a + vlen bs <= x -> mem_get (write_bytes m a bs) x = mem_get m x.
Proof. intros. rewrite mem_get_write_bytes, decide_False by lia. done. Qed.

Lemma length_read_bytes m a n : 0 <= n -> length (read_bytes m a n) = Z.to_nat n.
Proof. intros. unfold read_bytes. by rewrite length_fmap, length_seqZ. Qed.

Lemma read_bytes_lookup m a n i :
  0 <= Z.of_nat i < n -> read_bytes m a n !! i = Some (mem_get m (a + Z.of_nat i)).
Proof.
  intros. unfold read_bytes. rewrite list_lookup_fmap.
  rewrite lookup_seqZ_lt by lia. done.
Qed.

Lemma read_bytes_ext m m' a n :
  (forall x, a <= x < a + n -> mem_get m x = mem_get m' x) ->
  read_bytes m a n = read_bytes m' a n.
Proof.
  intros H. unfold read_bytes. apply list_fmap_ext.
  intros i x Hx. apply lookup_seqZ in Hx. apply H. lia.
Qed.

(** A list of bytes. *)
Definition bytes (bs : list Z) : Prop := Forall (fits 8) bs.

Lemma mem_get_byte m a : fits 8 (mem_get m a).
Proof. by apply wrapn_bound. Qed.

Lemma read_bytes_bytes m a n : bytes (read_bytes m a n).
Proof.
  unfold bytes, read_bytes. apply Forall_fmap, Forall_true. intros i. apply mem_get_byte.
Qed.

#[export] Hint Resolve mem_get_byte read_bytes_bytes : kernel.

Lemma read_write_bytes m a bs :
  bytes bs -> read_bytes (write_bytes m a bs) a (vlen bs) = bs.
Proof.
  intros Hbs. apply list_eq. intros i. destruct (decide (i < length bs)%nat).
  - rewrite read_bytes_lookup by (unfold vlen; lia).
    rewrite mem_get_write_bytes, decide_True by (unfold vlen; lia).
    replace (Z.to_nat (a + Z.of_nat i - a)) with i by lia.
    destruct (lookup_lt_is_Some_2 bs i) as [b Hb]; [done |]. rewrite Hb. simpl.
    f_equal. apply wrapn_small. by eapply Forall_lookup_1 in Hbs.
  - rewrite !(proj2 (lookup_ge_None _ _)); [done | lia |].
    rewrite length_read_bytes by (unfold vlen; lia). unfold vlen. lia.
Qed.

Lemma read_bytes_write_disj m a bs b n :
  b + n <= a \/ a + vlen bs <= b -> read_bytes (write_bytes m a bs) b n = read_bytes m b n.
Proof. intros. apply read_bytes_ext. intros. apply mem_get_write_bytes_out. lia. Qed.

Lemma length_le_split n v : length (le_split n v) = n.
Proof. revert v. induction n as [| n IH]; intros v; simpl; [done |]. by rewrite IH. Qed.

Lemma le_split_bytes n v : bytes (le_split n v).
Proof.
  revert v. induction n as [| n IH]; intros v; simpl; constructor; [| apply IH].
  unfold fits. lia.
Qed.

Lemma le_combine_split n v : 0 <= v < 256 ^ Z.of_nat n -> le_combine (le_split n v) = v.
Proof.
  revert v. induction n as [| n IH]; intros v Hv.
  - simpl in *. lia.
  - rewrite Nat2Z.inj_succ, Z.pow_succ_r in Hv by lia.
    simpl. rewrite IH; [lia |].
    split; [apply Z.div_pos; lia |]. apply Z.div_lt_upper_bound; lia.
Qed.

Lemma le_combine_bound bs : bytes bs -> 0 <= le_combine bs < 256 ^ vlen bs.
Proof.
  unfold vlen, bytes, fits. induction 1 as [| b bs Hb _ IH]; [simpl; lia |].
  cbn [length le_combine]. rewrite Nat2Z.inj_succ, Z.pow_succ_r by lia. lia.
Qed.

Lemma read64_write64 m a v : u64 v -> read64 (write64 m a v) a = v.
Proof.
  intros Hv. unfold read64, write64.
  replace 8 with (vlen (le_split 8 v)) at 2 by (unfold vlen; by rewrite length_le_split).
  rewrite read_write_bytes by apply le_split_bytes. by apply le_combine_split.
Qed.

Lemma read64_fits m a : u64 (read64 m a).
Proof.
  unfold read64, fits. pose proof (le_combine_bound _ (read_bytes_bytes m a 8)) as H.
  unfold vlen in H. by rewrite length_read_bytes in H by lia.
Qed.

Lemma mem_get_write64_out m a v x :
  x < a \/ a + 8 <= x -> mem_get (write64 m a v) x = mem_get m x.
Proof.
  intros H. apply mem_get_write_bytes_out. unfold vlen. rewrite length_le_split. lia.
Qed.

Lemma read64_ext m m' a :
  (forall x, a <= x < a + 8 -> mem_get m x = mem_get m' x) -> read64 m a = read64 m' a.
Proof. intros H. unfold read64. by rewrite (read_bytes_ext m m'). Qed.

Lemma read64_write64_disj m a v b :
  b + 8 <= a \/ a + 8 <= b -> read64 (write64 m a v) b = read64 m b.
Proof. intros. apply read64_ext. intros. apply mem_get_write64_out. lia. Qed.

(** ** Pages

    A page number the hardware can hold in a page-table entry. *)
Definition ppn_ok (ppn : Z) : Prop := 0 <= ppn < 2 ^ 44.

Lemma pa_from_ppn_ok ppn : ppn_ok ppn -> pa_from_ppn ppn = ppn * 4096.
Proof.
  unfold ppn_ok, pa_from_ppn, PAGE_SIZE_BITS. intros.
  rewrite shiftl_mul by lia. by wrap_simpl.
Qed.

(** Two states of memory that agree on one page. *)
Definition page_eq (m m' : memory) (ppn : Z) : Prop :=
  forall o, 0 <= o < 4096 -> mem_get m (ppn * 4096 + o) = mem_get m' (ppn * 4096 + o).

#[export] Instance page_eq_equiv ppn : Equivalence (fun m m' => page_eq m m' ppn).
Proof.
  split; unfold page_eq.
  - by intros m o _.
  - intros m m' H o Ho. symmetry. by apply H.
  - intros m1 m2 m3 H H' o Ho. rewrite H by done. by apply H'.
Qed.

Lemma page_eq_refl m ppn : page_eq m m ppn.
Proof. by intros o _. Qed.

Lemma page_eq_trans m1 m2 m3 ppn : page_eq m1 m2 ppn -> page_eq m2 m3 ppn -> page_eq m1 m3 ppn.
Proof. intros H1 H2 o Ho. rewrite H1 by done. by apply H2. Qed.

#[export] Hint Resolve page_eq_refl : kernel.

Lemma get_dword_page_eq m m' ppn i :
  ppn_ok ppn -> 0 <= i < 512 -> page_eq m m' ppn -> get_dword m ppn i = get_dword m' ppn i.
Proof.
  intros Hp Hi H. unfold get_dword. rewrite pa_from_ppn_ok by done.
  apply read64_ext. intros x Hx. pose proof (H (x - ppn * 4096) ltac:(lia)) as Hb.
  by replace (ppn * 4096 + (x - ppn * 4096)) with x in Hb by lia.
Qed.

Lemma get_bytes_page_eq m m' ppn :
  ppn_ok ppn -> page_eq m m' ppn -> get_bytes_array m ppn = get_bytes_array m' ppn.
Proof.
  intros Hp H. unfold get_bytes_array. rewrite pa_from_ppn_ok by done.
  apply read_bytes_ext. intros x Hx. pose proof (H (x - ppn * 4096) ltac:(lia)) as Hb.
  by replace (ppn * 4096 + (x - ppn * 4096)) with x in Hb by lia.
Qed.

Lemma put_dword_page_eq m ppn i v ppn' :
  ppn_ok ppn -> 0 <= i < 512 -> ppn <> ppn' -> page_eq (put_dword m ppn i v) m ppn'.
Proof.
  intros Hp Hi Hne o Ho. unfold put_dword. rewrite pa_from_ppn_ok by done.
  apply mem_get_write64_out. lia.
Qed.

Lemma get_put_dword m ppn i v :
  u64 v -> get_dword (put_dword m ppn i v) ppn i = v.
Proof. intros. by apply read64_write64. Qed.

Lemma get_put_dword_ne m ppn i v ppn' i' :
  ppn_ok ppn -> ppn_ok ppn' -> 0 <= i < 512 -> 0 <= i' < 512 ->
  ppn <> ppn' \/ i <> i' ->
  get_dword (put_dword m ppn i v) ppn' i' = get_dword m ppn' i'.
Proof.
  intros. unfold get_dword, put_dword. rewrite !pa_from_ppn_ok by done.
  apply read64_write64_disj. lia.
Qed.

Lemma get_dword_fits m ppn i : u64 (get_dword m ppn i).
Proof. apply read64_fits. Qed.

#[export] Hint Resolve get_dword_fits : kernel.

Lemma put_bytes_page_eq m ppn off bs ppn' :
  ppn_ok ppn -> 0 <= off -> off + vlen bs <= 4096 -> ppn <> ppn' ->
  page_eq (put_bytes_array m ppn off bs) m ppn'.
Proof.
  intros Hp H0 Hl Hne o Ho. unfold put_bytes_array. rewrite pa_from_ppn_ok by done.
  apply mem_get_write_bytes_out. lia.
Qed.

Lemma length_get_bytes_array m ppn : length (get_bytes_array m ppn) = Z.to_nat 4096.
Proof. unfold get_bytes_array. by rewrite length_read_bytes by lia. Qed.

(** Overwriting a whole page makes it hold exactly the new contents. *)
Lemma get_put_bytes_array m ppn bs :
  bytes bs -> vlen bs = 4096 -> get_bytes_array (put_bytes_array m ppn 0 bs) ppn = bs.
Proof.
  intros Hb Hl. unfold get_bytes_array, put_bytes_array. rewrite Z.add_0_r, <- Hl.
  by apply read_write_bytes.
Qed.
