(* ===== verification/FrameAlloc.v ===== *)
(** * The physical frame allocator

    [mm/frame_allocator.rs]: the stack allocator of physical frames, the
    reference-counted frame handles ([Arc<FrameTracker>]) that return a frame
    to it when the last one is dropped, and the global entry points with the
    out-of-memory handler. The build is the default one: feature [oom_handler]
    on, feature [zero_init] off. *)

From S2P Require Import Prelude Address Phys.

(** ** The stack allocator *)

Record StackFrameAllocator := mkFA {
  current : Z;
  end_ : Z;
  recycled : list Z
}.

(** [FrameTracker::new]: clears the frame, double word by double word. *)
Definition FrameTracker_new (m : memory) (ppn : PhysPageNum) : memory :=
  foldl (fun m i => put_dword m ppn i 0) m (seqZ 0 512).

Definition fa_new : StackFrameAllocator := mkFA 0 0 [].

Definition fa_init (fa : StackFrameAllocator) (l r : PhysPageNum) : StackFrameAllocator :=
  mkFA l r (recycled fa).

Definition fa_unallocated_frames (fa : StackFrameAllocator) : Z :=
  (end_ fa -w current fa) +w vlen (recycled fa).

(** [alloc]: a recycled frame first, then the next fresh one; the frame is
    cleared either way. *)
Definition fa_alloc (m : memory) (fa : StackFrameAllocator)
    : option Z * (memory * StackFrameAllocator) :=
  match vec_pop (recycled fa) with
  | Some (ppn, rest) => (Some ppn, (FrameTracker_new m ppn, mkFA (current fa) (end_ fa) rest))
  | None =>
      if current fa =? end_ fa then (None, (m, fa))
      else
        let cur := current fa +w 1 in
        (Some (cur -w 1), (FrameTracker_new m (cur -w 1), mkFA cur (end_ fa) (recycled fa)))
  end.

(** [alloc_uninit]: the same without clearing. *)
Definition fa_alloc_uninit (fa : StackFrameAllocator) : option Z * StackFrameAllocator :=
  match vec_pop (recycled fa) with
  | Some (ppn, rest) => (Some ppn, mkFA (current fa) (end_ fa) rest)
  | None =>
      if current fa =? end_ fa then (None, fa)
      else
        let cur := current fa +w 1 in
        (Some (cur -w 1), mkFA cur (end_ fa) (recycled fa))
  end.

(** [dealloc]: [debug] is [option_env!("MODE") == Some("debug")]. As [&&] binds
    tighter than [||], the search of the recycled list runs in every mode. *)
Definition fa_dealloc (debug : bool) (fa : StackFrameAllocator) (ppn : PhysPageNum)
    : option StackFrameAllocator :=
  if (debug && (current fa <=? ppn)) || existsb (Z.eqb ppn) (recycled fa) then None
  else Some (mkFA (current fa) (end_ fa) (recycled fa ++ [ppn])).

Definition fa_alloc_contiguous (fa : StackFrameAllocator) (num : Z)
    : option Z * StackFrameAllocator :=
  if end_ fa -w current fa <? num then (None, fa)
  else (Some (current fa), mkFA (current fa +w num) (end_ fa) (recycled fa)).

(** [init_frame_allocator]: from the end of the kernel image to [MEMORY_END]. *)
Definition init_frame_allocator (ekernel : Z) (fa : StackFrameAllocator) : StackFrameAllocator :=
  fa_init fa (pa_ceil ekernel) (pa_floor MEMORY_END).

(** ** Reference-counted frames

    The part of the kernel's state that frames live in: memory, the global
    [FRAME_ALLOCATOR], and the strong count of every live [Arc<FrameTracker>],
    which is identified by the frame it tracks. *)

Record Phys := mkPhys {
  pmem : memory;
  pfa : StackFrameAllocator;
  prc : gmap Z nat
}.

Definition with_mem (f : memory -> memory) (w : Phys) : Phys := mkPhys (f (pmem w)) (pfa w) (prc w).

(** [FRAME_ALLOCATOR.write().alloc().map(Arc::new)]. *)
Definition alloc_tracker (w : Phys) : option Z * Phys :=
  match fa_alloc (pmem w) (pfa w) with
  | (Some ppn, (m, fa)) => (Some ppn, mkPhys m fa (<[ppn := 1%nat]> (prc w)))
  | (None, (m, fa)) => (None, mkPhys m fa (prc w))
  end.
Definition alloc_tracker_uninit (w : Phys) : option Z * Phys :=
  match fa_alloc_uninit (pfa w) with
  | (Some ppn, fa) => (Some ppn, mkPhys (pmem w) fa (<[ppn := 1%nat]> (prc w)))
  | (None, fa) => (None, mkPhys (pmem w) fa (prc w))
  end.

(** [frame_dealloc]. *)
Definition frame_dealloc (debug : bool) (w : Phys) (ppn : Z) : option Phys :=
  fa ← fa_dealloc debug (pfa w) ppn; Some (mkPhys (pmem w) fa (prc w)).

(** [Arc::clone]. *)
Definition arc_clone (w : Phys) (ppn : Z) : Phys :=
  mkPhys (pmem w) (pfa w) (alter S ppn (prc w)).

(** [Arc::strong_count]. *)
Definition strong_count (w : Phys) (ppn : Z) : nat := default O (prc w !! ppn).

(** Dropping one [Arc<FrameTracker>]: the last one runs [FrameTracker::drop]. *)
Definition arc_drop (debug : bool) (w : Phys) (ppn : Z) : option Phys :=
  match prc w !! ppn with
  | Some (S O) => frame_dealloc debug (mkPhys (pmem w) (pfa w) (delete ppn (prc w))) ppn
  | Some (S n) => Some (mkPhys (pmem w) (pfa w) (<[ppn := n]> (prc w)))
  | _ => None
  end.

(** ** The out-of-memory handler and the global entry points *)

Section Oom.
Context {W : Type}.
(** [fs::directory_tree::oom()], the clean-up of the current task's address
    space when its lock is free ([None] when [try_lock] fails), and
    [task::do_oom]. *)
Context (fs_oom : W -> Z * W).
Context (current_shallow_clean : W -> option (Z * W)).
Context (task_do_oom : Z -> W -> result unit unit * W).

Definition oom_handler (req : Z) (w : W) : result unit unit * W :=
  let '(released, w) := fs_oom w in
  if req <=? released then (Ok tt, w)
  else
    let '(released, w) :=
      match current_shallow_clean w with
      | Some (n, w) => (released +w n, w)
      | None => (released, w)
      end in
    if req <=? released then (Ok tt, w)
    else task_do_oom (req -w released) w.
End Oom.

Section Alloc.
(** The handler's effect on the frames; its result is ignored here. *)
Context (oom : Z -> Phys -> Phys).

Definition frame_alloc (w : Phys) : option Z * Phys :=
  match alloc_tracker w with
  | (Some ppn, w) => (Some ppn, w)
  | (None, w) => alloc_tracker (oom 1 w)
  end.

Definition frame_alloc_uninit (w : Phys) : option Z * Phys :=
  match alloc_tracker_uninit w with
  | (Some ppn, w) => (Some ppn, w)
  | (None, w) => alloc_tracker_uninit (oom 1 w)
  end.

Definition frame_reserve (num : Z) (w : Phys) : Phys :=
  let remain := fa_unallocated_frames (pfa w) in
  if remain <? num then oom (num -w remain) w else w.

(** [frames_alloc]: on failure the vector of handles collected so far is
    dropped, front to back. *)
Fixpoint drop_frames (debug : bool) (w : Phys) (frames : list Z) : option Phys :=
  match frames with
  | [] => Some w
  | f :: fs => w ← arc_drop debug w f; drop_frames debug w fs
  end.
Fixpoint frames_alloc_loop (debug : bool) (num : nat) (w : Phys) (frames : list Z)
    : option (option (list Z) * Phys) :=
  match num with
  | O => Some (Some frames, w)
  | S n =>
      match frame_alloc w with
      | (Some ppn, w) => frames_alloc_loop debug n w (frames ++ [ppn])
      | (None, w) => w ← drop_frames debug w frames; Some (None, w)
      end
  end.
Definition frames_alloc (debug : bool) (num : Z) (w : Phys) : option (option (list Z) * Phys) :=
  frames_alloc_loop debug (Z.to_nat num) w [].
End Alloc.

Definition frames_alloc_contiguous_raw (w : Phys) (num : Z) : option Z * Phys :=
  let '(r, fa) := fa_alloc_contiguous (pfa w) num in (r, mkPhys (pmem w) fa (prc w)).

Fixpoint frames_dealloc_loop (debug : bool) (fa : StackFrameAllocator) (start_ppn : Z)
    (is_ : list Z) : option StackFrameAllocator :=
  match is_ with
  | [] => Some fa
  | i :: is' =>
      fa ← fa_dealloc debug fa (start_ppn +w i); frames_dealloc_loop debug fa start_ppn is'
  end.
Definition frames_dealloc_contiguous (debug : bool) (w : Phys) (start_ppn num_pages : Z)
    : option Phys :=
  fa ← frames_dealloc_loop debug (pfa w) start_ppn (seqZ 0 num_pages);
  Some (mkPhys (pmem w) fa (prc w)).

(** ** The invariant

    [fa_inv base fa owned]: the frames handed out and not yet returned are
    [owned]; together with the recycled ones they are exactly the frames
    between [base] and the bump pointer, each in one place only. *)

Record fa_inv (base : Z) (fa : StackFrameAllocator) (owned : gset Z) : Prop := {
  inv_bounds : 0 <= base <= current fa /\ current fa <= end_ fa <= 2 ^ 44;
  inv_nodup : NoDup (recycled fa);
  inv_part : forall p, base <= p < current fa <-> (p ∈ owned \/ p ∈ recycled fa);
  inv_disj : forall p, p ∈ owned -> p ∉ recycled fa
}.

Lemma fa_inv_owned_ok base fa owned p : fa_inv base fa owned -> p ∈ owned -> ppn_ok p.
Proof.
  intros H Hp. pose proof (proj2 (inv_part _ _ _ H p) (or_introl Hp)).
  pose proof (inv_bounds _ _ _ H). unfold ppn_ok. lia.
Qed.

Lemma existsb_eqb ppn l : existsb (Z.eqb ppn) l = true <-> ppn ∈ l.
Proof.
  rewrite existsb_exists. setoid_rewrite list_elem_of_In. split.
  - by intros (x & Hx & ->%Z.eqb_eq).
  - intros Hx. exists ppn. by rewrite Z.eqb_refl.
Qed.

(** The pure part of both [alloc]s: which frame, and the new allocator. *)
Lemma fa_alloc_as_uninit m fa :
  fa_alloc m fa =
  let '(r, fa') := fa_alloc_uninit fa in
  (r, (match r with Some ppn => FrameTracker_new m ppn | None => m end, fa')).
Proof.
  unfold fa_alloc, fa_alloc_uninit.
  destruct (vec_pop (recycled fa)) as [[p r] |]; [done |]. by destruct (_ =? _).
Qed.

Lemma fa_alloc_uninit_Some base fa owned ppn fa' :
  fa_inv base fa owned -> fa_alloc_uninit fa = (Some ppn, fa') ->
  ppn ∉ owned /\ base <= ppn < end_ fa /\ fa_inv base fa' ({[ppn]} ∪ owned) /\
  end_ fa' = end_ fa.
Proof.
  intros [Hb Hnd Hp Hd]. unfold fa_alloc_uninit.
  destruct (vec_pop (recycled fa)) as [[p r] |] eqn:E.
  - intros [= -> <-]. apply vec_pop_Some in E. rewrite E in *.
    apply NoDup_app in Hnd as (Hr & Hx & _).
    assert (Hin : ppn ∈ r ++ [ppn]) by set_solver.
    pose proof (proj2 (Hp ppn) (or_intror Hin)).
    split_and!; [by intros Ho; apply (Hd _ Ho) | lia | lia | | done].
    constructor; simpl; [lia | done | |].
    + intros q. rewrite Hp. set_solver.
    + intros q Hq Hqr. apply elem_of_union in Hq as [Hq | Hq]; [| set_solver].
      apply elem_of_singleton in Hq as ->. by apply (Hx ppn Hqr), list_elem_of_singleton.
  - apply vec_pop_None in E. destruct (Z.eqb_spec (current fa) (end_ fa)); [done |].
    wrap_simpl. rewrite E in *. intros [= <- <-].
    replace (current fa + 1 - 1) with (current fa) by lia.
    split_and!; [| lia | lia | | done].
    + intros Ho. pose proof (proj2 (Hp _) (or_introl Ho)). lia.
    + constructor; simpl; [lia | constructor | |].
      * intros q. specialize (Hp q). rewrite elem_of_union, elem_of_singleton. split.
        -- intros Hq. destruct (decide (q = current fa)); [tauto |].
           destruct (proj1 Hp) as [|]; [lia | tauto | set_solver].
        -- intros [[-> | Hq] | Hq]; [lia | | set_solver].
           assert (base <= q < current fa) by tauto. lia.
      * intros q _. apply not_elem_of_nil.
Qed.

Lemma fa_alloc_uninit_None base fa owned fa' :
  fa_inv base fa owned -> fa_alloc_uninit fa = (None, fa') ->
  fa' = fa /\ forall p, base <= p < end_ fa <-> p ∈ owned.
Proof.
  intros [Hb _ Hp _]. unfold fa_alloc_uninit.
  destruct (vec_pop (recycled fa)) as [[p r] |] eqn:E; [done |].
  apply vec_pop_None in E. destruct (Z.eqb_spec (current fa) (end_ fa)) as [He |]; [| done].
  intros [= <-]. split; [done |]. intros p. rewrite <- He, Hp, E. set_solver.
Qed.

Lemma fa_dealloc_owned debug base fa owned ppn :
  fa_inv base fa owned -> ppn ∈ owned ->
  exists fa', fa_dealloc debug fa ppn = Some fa' /\ fa_inv base fa' (owned ∖ {[ppn]}) /\
              end_ fa' = end_ fa.
Proof.
  intros [Hb Hnd Hp Hd] Ho. unfold fa_dealloc.
  pose proof (proj2 (Hp _) (or_introl Ho)).
  destruct (Z.leb_spec (current fa) ppn); [lia |]. rewrite andb_false_r. simpl.
  destruct (existsb _ _) eqn:E; [by apply existsb_eqb, Hd in E |].
  eexists. split; [done |]. split; [| done].
  constructor; simpl; [lia | | |].
  - apply NoDup_app. split; [done |]. split; [| apply NoDup_singleton].
    intros x Hx Hx'. apply list_elem_of_singleton in Hx' as ->. by apply (Hd ppn).
  - intros q. rewrite Hp, elem_of_app, list_elem_of_singleton, elem_of_difference,
      elem_of_singleton. destruct (decide (q = ppn)) as [-> |]; tauto.
  - intros q [Hq Hne]%elem_of_difference. rewrite elem_of_app, list_elem_of_singleton.
    intros [Hq' | ->]; [by apply (Hd q) | set_solver].
Qed.

Lemma fa_unallocated_count base fa owned :
  fa_inv base fa owned ->
  fa_unallocated_frames fa = end_ fa - base - Z.of_nat (size owned).
Proof.
  intros [Hb Hnd Hp Hd]. unfold fa_unallocated_frames.
  assert (Hs : (size owned + length (recycled fa) = Z.to_nat (current fa - base))%nat).
  { rewrite <- (size_list_to_set (C := gset Z) (recycled fa)) by done.
    rewrite <- size_union by set_solver.
    replace (owned ∪ list_to_set (recycled fa))
      with (list_to_set (seqZ base (current fa - base)) : gset Z).
    - rewrite size_list_to_set by apply NoDup_seqZ. by rewrite length_seqZ.
    - apply set_eq. intros q.
      rewrite elem_of_list_to_set, elem_of_seqZ, elem_of_union, elem_of_list_to_set.
      rewrite <- Hp. lia. }
  unfold vlen. wrap_simpl. lia.
Qed.

(** ** Clearing a frame *)

Lemma mem_get_write64_zero m a x :
  mem_get (write64 m a 0) x = if decide (a <= x < a + 8) then 0 else mem_get m x.
Proof.
  unfold write64. rewrite mem_get_write_bytes. change (vlen (le_split 8 0)) with 8.
  case_decide; [| done].
  assert (Hk : exists k, (k < 8)%nat /\ Z.to_nat (x - a) = k) by (exists (Z.to_nat (x - a)); lia).
  destruct Hk as (k & Hk & ->). do 8 (destruct k as [| k]; [done |]). lia.
Qed.

Lemma mem_get_zero_dwords m ppn n x :
  ppn_ok ppn ->
  mem_get (foldl (fun m i => put_dword m ppn i 0) m (seqZ 0 (Z.of_nat n))) x =
  if decide (ppn * 4096 <= x < ppn * 4096 + 8 * Z.of_nat n) then 0 else mem_get m x.
Proof.
  intros Hp. induction n as [| n IH].
  - cbn -[Z.mul]. rewrite decide_False by lia. done.
  - rewrite seqZ_S, foldl_app. cbn [foldl]. unfold put_dword at 1.
    rewrite mem_get_write64_zero, IH, pa_from_ppn_ok by done.
    repeat case_decide; lia || done.
Qed.

Lemma FrameTracker_new_get m ppn x :
  ppn_ok ppn ->
  mem_get (FrameTracker_new m ppn) x =
  if decide (ppn * 4096 <= x < ppn * 4096 + 4096) then 0 else mem_get m x.
Proof.
  intros Hp. unfold FrameTracker_new. change 512 with (Z.of_nat 512).
  rewrite mem_get_zero_dwords by done. done.
Qed.

(** A cleared page. *)
Definition zero_page : list Z := replicate (Z.to_nat 4096) 0.

Lemma FrameTracker_new_zero m ppn :
  ppn_ok ppn -> get_bytes_array (FrameTracker_new m ppn) ppn = zero_page.
Proof.
  intros Hp. apply list_eq. intros i. destruct (decide (Z.of_nat i < 4096)).
  - unfold get_bytes_array. rewrite read_bytes_lookup by lia.
    rewrite FrameTracker_new_get, pa_from_ppn_ok, decide_True by (done || lia).
    symmetry. apply lookup_replicate_2. lia.
  - rewrite !(proj2 (lookup_ge_None _ _)); [done | unfold zero_page; rewrite length_replicate; lia |].
    rewrite length_get_bytes_array. lia.
Qed.

Lemma FrameTracker_new_dword m ppn i :
  ppn_ok ppn -> 0 <= i < 512 -> get_dword (FrameTracker_new m ppn) ppn i = 0.
Proof.
  intros Hp Hi. unfold get_dword, read64, read_bytes. rewrite pa_from_ppn_ok by done.
  change (seqZ 0 8) with [0; 1; 2; 3; 4; 5; 6; 7]. cbn [fmap list_fmap le_combine].
  rewrite !FrameTracker_new_get by done. by rewrite !decide_True by lia.
Qed.

Lemma FrameTracker_new_page_eq m ppn ppn' :
  ppn_ok ppn -> ppn <> ppn' -> page_eq (FrameTracker_new m ppn) m ppn'.
Proof.
  intros Hp Hne o Ho. rewrite FrameTracker_new_get by done.
  by rewrite decide_False by lia.
Qed.

#[global] Opaque FrameTracker_new zero_page get_dword put_dword get_bytes_array put_bytes_array.

(** ** The invariant of the counted frames

    [raw] are the frames handed out by [frames_alloc_contiguous_raw], which
    have no tracker. *)

Record phys_inv (base : Z) (raw : gset Z) (w : Phys) : Prop := {
  pi_fa : fa_inv base (pfa w) (dom (prc w) ∪ raw);
  pi_disj : dom (prc w) ## raw;
  pi_pos : forall p n, prc w !! p = Some n -> n <> O
}.

(** [p] is free: neither tracked nor handed out raw. *)
Definition is_free (raw : gset Z) (w : Phys) (p : Z) : Prop := p ∉ dom (prc w) ∪ raw.

Lemma phys_live_ok base raw w p n : phys_inv base raw w -> prc w !! p = Some n -> ppn_ok p.
Proof.
  intros H Hp. eapply fa_inv_owned_ok; [apply H |].
  apply elem_of_union_l, elem_of_dom. eauto.
Qed.

Lemma phys_live_base base raw w p n : phys_inv base raw w -> prc w !! p = Some n -> base <= p.
Proof.
  intros H Hp. apply (inv_part _ _ _ (pi_fa _ _ _ H) p). left.
  apply elem_of_union_l, elem_of_dom. eauto.
Qed.

Lemma alloc_tracker_uninit_Some base raw w ppn w' :
  phys_inv base raw w -> alloc_tracker_uninit w = (Some ppn, w') ->
  is_free raw w ppn /\ ppn_ok ppn /\ pmem w' = pmem w /\
  prc w' = <[ppn := 1%nat]> (prc w) /\ phys_inv base raw w'.
Proof.
  intros [Hfa Hd Hc]. unfold alloc_tracker_uninit.
  destruct (fa_alloc_uninit (pfa w)) as [[p |] fa] eqn:E; [| done].
  intros [= -> <-]. pose proof (fa_alloc_uninit_Some _ _ _ _ _ Hfa E) as (Hn & Hr & Hi & He).
  pose proof (inv_bounds _ _ _ Hfa).
  split_and!; [done | unfold ppn_ok; lia | done | done |].
  constructor; simpl.
  - by rewrite dom_insert_L, <- (assoc_L (∪)).
  - rewrite dom_insert_L. unfold is_free in *. set_solver.
  - intros q n. rewrite lookup_insert_Some. intros [[_ <-] | [_ Hq]]; [done |]. by eapply Hc.
Qed.

Lemma alloc_tracker_as_uninit w :
  alloc_tracker w =
  let '(r, w') := alloc_tracker_uninit w in
  (r, match r with Some ppn => with_mem (fun m => FrameTracker_new m ppn) w' | None => w' end).
Proof.
  unfold alloc_tracker, alloc_tracker_uninit. rewrite fa_alloc_as_uninit.
  by destruct (fa_alloc_uninit (pfa w)) as [[p |] fa].
Qed.

Lemma phys_inv_with_mem base raw f w : phys_inv base raw w -> phys_inv base raw (with_mem f w).
Proof. by intros []; constructor. Qed.

#[export] Hint Resolve phys_inv_with_mem : kernel.

Lemma alloc_tracker_Some base raw w ppn w' :
  phys_inv base raw w -> alloc_tracker w = (Some ppn, w') ->
  is_free raw w ppn /\ ppn_ok ppn /\ pmem w' = FrameTracker_new (pmem w) ppn /\
  prc w' = <[ppn := 1%nat]> (prc w) /\ phys_inv base raw w'.
Proof.
  intros Hi. rewrite alloc_tracker_as_uninit.
  destruct (alloc_tracker_uninit w) as [[p |] w1] eqn:E; [| done]. intros [= -> <-].
  pose proof (alloc_tracker_uninit_Some _ _ _ _ _ Hi E) as (Hf & Hk & Hm & Hr & Hi').
  split_and!; [done.. | simpl; by rewrite Hm | done | auto with kernel].
Qed.

Lemma alloc_tracker_range base raw w ppn w' :
  phys_inv base raw w -> alloc_tracker w = (Some ppn, w') -> base <= ppn < end_ (pfa w).
Proof.
  intros [Hi _ _]. rewrite alloc_tracker_as_uninit. unfold alloc_tracker_uninit.
  destruct (fa_alloc_uninit (pfa w)) as [[q |] fa] eqn:E; [| done]. intros [= <- _].
  by apply (fa_alloc_uninit_Some _ _ _ _ _ Hi) in E as (_ & Hr & _).
Qed.

Lemma phys_unallocated base raw w :
  phys_inv base raw w ->
  fa_unallocated_frames (pfa w) =
  end_ (pfa w) - base - Z.of_nat (size (dom (prc w) ∪ raw)).
Proof. intros H. by apply fa_unallocated_count, H. Qed.

Lemma fa_alloc_uninit_total base fa owned :
  fa_inv base fa owned -> 0 < fa_unallocated_frames fa ->
  exists ppn fa', fa_alloc_uninit fa = (Some ppn, fa').
Proof.
  intros Hi Hf. destruct (fa_alloc_uninit fa) as [[p |] fa'] eqn:E; [eauto |].
  exfalso. revert Hf. unfold fa_alloc_uninit, fa_unallocated_frames in *.
  destruct (vec_pop (recycled fa)) as [[]|] eqn:Ev; [done |].
  apply vec_pop_None in Ev. rewrite Ev.
  destruct (Z.eqb_spec (current fa) (end_ fa)) as [-> |]; [| done].
  rewrite Z.sub_diag. vm_compute. done.
Qed.

Lemma alloc_tracker_uninit_total base raw w :
  phys_inv base raw w -> 0 < fa_unallocated_frames (pfa w) ->
  exists ppn w', alloc_tracker_uninit w = (Some ppn, w').
Proof.
  intros [Hi _ _] Hf. destruct (fa_alloc_uninit_total _ _ _ Hi Hf) as (p & fa & E).
  unfold alloc_tracker_uninit. rewrite E. eauto.
Qed.

Lemma fa_unallocated_nonneg fa : 0 <= fa_unallocated_frames fa.
Proof. apply wrap64_bound. Qed.

(** One allocation uses one frame. *)
Lemma alloc_tracker_uninit_uses base raw w ppn w' :
  phys_inv base raw w -> alloc_tracker_uninit w = (Some ppn, w') ->
  fa_unallocated_frames (pfa w') = fa_unallocated_frames (pfa w) - 1.
Proof.
  intros Hi E. pose proof (alloc_tracker_uninit_Some _ _ _ _ _ Hi E) as (Hf & _ & _ & Hr & Hi').
  rewrite (phys_unallocated _ _ _ Hi), (phys_unallocated _ _ _ Hi'), Hr.
  rewrite dom_insert_L, <- (assoc_L (∪)), size_union by (unfold is_free in Hf; set_solver).
  rewrite size_singleton. revert E. unfold alloc_tracker_uninit.
  destruct (fa_alloc_uninit (pfa w)) as [[p |] fa] eqn:E'; [| done]. intros [= _ <-]. simpl.
  rewrite (proj2 (proj2 (proj2 (fa_alloc_uninit_Some _ _ _ _ _ (pi_fa _ _ _ Hi) E')))). lia.
Qed.

Section GlobalAlloc.
Context (oom : Z -> Phys -> Phys).

(** With a free frame the handler does not run. *)
Lemma frame_alloc_uninit_ok base raw w :
  phys_inv base raw w -> 0 < fa_unallocated_frames (pfa w) ->
  exists ppn w', frame_alloc_uninit oom w = (Some ppn, w') /\
    is_free raw w ppn /\ ppn_ok ppn /\ pmem w' = pmem w /\
    prc w' = <[ppn := 1%nat]> (prc w) /\ phys_inv base raw w' /\
    fa_unallocated_frames (pfa w') = fa_unallocated_frames (pfa w) - 1.
Proof.
  intros Hi Hf. destruct (alloc_tracker_uninit_total _ _ _ Hi Hf) as (p & w' & E).
  exists p, w'. unfold frame_alloc_uninit. rewrite E. split; [done |].
  pose proof (alloc_tracker_uninit_Some _ _ _ _ _ Hi E) as (? & ? & ? & ? & ?).
  split_and!; [assumption.. |]. by eapply alloc_tracker_uninit_uses.
Qed.

Lemma frame_alloc_ok base raw w :
  phys_inv base raw w -> 0 < fa_unallocated_frames (pfa w) ->
  exists ppn w', frame_alloc oom w = (Some ppn, w') /\
    is_free raw w ppn /\ ppn_ok ppn /\ pmem w' = FrameTracker_new (pmem w) ppn /\
    prc w' = <[ppn := 1%nat]> (prc w) /\ phys_inv base raw w' /\
    fa_unallocated_frames (pfa w') = fa_unallocated_frames (pfa w) - 1.
Proof.
  intros Hi Hf. destruct (alloc_tracker_uninit_total _ _ _ Hi Hf) as (p & w' & E).
  pose proof (alloc_tracker_as_uninit w) as E'. rewrite E in E'.
  exists p, (with_mem (fun m => FrameTracker_new m p) w'). unfold frame_alloc. rewrite E'.
  split; [done |].
  pose proof (alloc_tracker_Some _ _ _ _ _ Hi E') as (? & ? & ? & ? & ?).
  split_and!; [assumption.. |]. simpl. by eapply alloc_tracker_uninit_uses.
Qed.
End GlobalAlloc.

(** Dropping a handle: the count goes down, and the frame is returned with the
    last one. The frame is tracked, so [dealloc] does not panic. *)
Lemma arc_drop_ok debug base raw w p n :
  phys_inv base raw w -> prc w !! p = Some n ->
  exists w', arc_drop debug w p = Some w' /\ pmem w' = pmem w /\
    prc w' = (if decide (n = 1%nat) then delete p (prc w) else <[p := (n - 1)%nat]> (prc w)) /\
    phys_inv base raw w'.
Proof.
  intros [Hfa Hd Hc] Hp. unfold arc_drop. rewrite Hp.
  pose proof (Hc _ _ Hp). destruct n as [| [| n]]; [done | |].
  - unfold frame_dealloc. simpl.
    destruct (fa_dealloc_owned debug _ _ _ p Hfa) as (fa' & -> & Hfa' & He).
    { apply elem_of_union_l, elem_of_dom. eauto. }
    simpl. eexists. split; [done |]. simpl. split_and!; [done | done |].
    assert (p ∈ dom (prc w)) by (apply elem_of_dom; eauto).
    constructor; simpl.
    + rewrite dom_delete_L.
      replace (dom (prc w) ∖ {[p]} ∪ raw) with ((dom (prc w) ∪ raw) ∖ {[p]}); [done |].
      apply set_eq. intros x. set_solver.
    + rewrite dom_delete_L. set_solver.
    + intros q k. rewrite lookup_delete_Some. intros [_ Hq]. by eapply Hc.
  - eexists. split; [done |]. simpl. split_and!; [done | done |].
    assert (Hdom : dom (<[p := S n]> (prc w)) = dom (prc w)).
    { rewrite dom_insert_L. assert (p ∈ dom (prc w)) by (apply elem_of_dom; eauto). set_solver. }
    constructor; simpl; [by rewrite Hdom | by rewrite Hdom |].
    intros q k. rewrite lookup_insert_Some. intros [[_ <-] | [_ Hq]]; [done |]. by eapply Hc.
Qed.

(** The last drop gives one frame back. *)
Lemma arc_drop_frees debug base raw w p n w' :
  phys_inv base raw w -> prc w !! p = Some n -> arc_drop debug w p = Some w' ->
  fa_unallocated_frames (pfa w') =
  fa_unallocated_frames (pfa w) + (if decide (n = 1%nat) then 1 else 0).
Proof.
  intros Hi Hp E. destruct (arc_drop_ok debug _ _ _ _ _ Hi Hp) as (w2 & E2 & _ & Hr & Hi').
  rewrite E in E2. injection E2 as <-.
  assert (He : end_ (pfa w') = end_ (pfa w)).
  { revert E. unfold arc_drop. rewrite Hp. destruct n as [| [| n]]; [done | |].
    - unfold frame_dealloc. cbn [pfa].
      destruct (fa_dealloc_owned debug _ _ _ p (pi_fa _ _ _ Hi)) as (fa' & -> & _ & He).
      { apply elem_of_union_l, elem_of_dom. eauto. }
      intros [= <-]. done.
    - intros [= <-]. done. }
  rewrite (phys_unallocated _ _ _ Hi), (phys_unallocated _ _ _ Hi'), He, Hr.
  assert (Hin : p ∈ dom (prc w)) by (apply elem_of_dom; eauto).
  destruct (decide (n = 1%nat)).
  - assert (Hs : dom (prc w) ∪ raw = {[p]} ∪ (dom (delete p (prc w)) ∪ raw)).
    { rewrite dom_delete_L. apply set_eq. intros x. destruct (decide (x = p)); set_solver. }
    rewrite Hs, (size_union {[p]}), size_singleton; [lia |].
    pose proof (pi_disj _ _ _ Hi). rewrite dom_delete_L. set_solver.
  - rewrite dom_insert_L. replace ({[p]} ∪ dom (prc w)) with (dom (prc w)) by set_solver. lia.
Qed.

Lemma arc_clone_ok base raw w p n :
  phys_inv base raw w -> prc w !! p = Some n ->
  phys_inv base raw (arc_clone w p) /\ prc (arc_clone w p) = <[p := S n]> (prc w).
Proof.
  intros [Hfa Hd Hc] Hp.
  assert (Hr : alter S p (prc w) = <[p := S n]> (prc w)).
  { apply map_eq. intros q. rewrite lookup_alter, lookup_insert.
    destruct (decide (p = q)) as [<- |]; [by rewrite Hp | done]. }
  assert (Hdom : dom (alter S p (prc w)) = dom (prc w)) by apply dom_alter_L.
  split; [| done]. constructor; simpl; [by rewrite Hdom | by rewrite Hdom |].
  rewrite Hr. intros q k. rewrite lookup_insert_Some.
  intros [[_ <-] | [_ Hq]]; [done |]. by eapply Hc.
Qed.

(** ** Contiguous runs *)

Definition run (start num : Z) : gset Z := list_to_set (seqZ start num).

Lemma elem_of_run start num p : p ∈ run start num <-> start <= p < start + num.
Proof. unfold run. rewrite elem_of_list_to_set, elem_of_seqZ. lia. Qed.

Lemma fa_alloc_contiguous_ok base fa owned num start fa' :
  fa_inv base fa owned -> 0 <= num -> fa_alloc_contiguous fa num = (Some start, fa') ->
  start = current fa /\ start + num <= end_ fa /\
  (forall p, p ∈ run start num -> p ∉ owned) /\ fa_inv base fa' (owned ∪ run start num).
Proof.
  intros [Hb Hnd Hp Hd] Hn. unfold fa_alloc_contiguous. wrap_simpl.
  destruct (Z.ltb_spec (end_ fa - current fa) num); [done |]. intros [= <- <-].
  assert (Hfresh : forall p, p ∈ run (current fa) num -> p ∉ owned /\ p ∉ recycled fa).
  { intros p Hr%elem_of_run. split; intros Ho.
    - pose proof (proj2 (Hp p) (or_introl Ho)). lia.
    - pose proof (proj2 (Hp p) (or_intror Ho)). lia. }
  split_and!; [done | lia | by apply Hfresh |].
  rewrite wrap64_small by lia. constructor; simpl; [lia | done | |].
  - intros p. rewrite elem_of_union, elem_of_run. specialize (Hp p). split.
    + intros Hr. destruct (decide (p < current fa)); [| left; right; lia].
      destruct (proj1 Hp); [lia | tauto | tauto].
    + intros [[Ho | Hr] | Hr]; [| lia |]; assert (base <= p < current fa) by tauto; lia.
  - intros p [Ho | Hr]%elem_of_union; [by apply Hd | by apply Hfresh].
Qed.

Lemma frames_dealloc_loop_ok debug base fa owned start (is_ : list Z) :
  fa_inv base fa owned -> NoDup is_ ->
  (forall i, i ∈ is_ -> 0 <= i /\ start + i ∈ owned) ->
  exists fa', frames_dealloc_loop debug fa start is_ = Some fa' /\
    fa_inv base fa' (owned ∖ list_to_set ((fun i => start + i) <$> is_)).
Proof.
  revert fa owned. induction is_ as [| i is_ IH]; intros fa owned Hi Hnd Hin.
  - exists fa. split; [done |]. simpl. by rewrite difference_empty_L.
  - apply NoDup_cons in Hnd as [Hni Hnd].
    destruct (Hin i ltac:(set_solver)) as [Hi0 Ho].
    assert (0 <= start + i < 2 ^ 44).
    { pose proof (fa_inv_owned_ok _ _ _ _ Hi Ho). unfold ppn_ok in *. lia. }
    destruct (fa_dealloc_owned debug _ _ _ _ Hi Ho) as (fa1 & E & Hi1 & _).
    simpl. wrap_simpl. rewrite E. simpl.
    destruct (IH fa1 (owned ∖ {[start + i]}) Hi1 Hnd) as (fa2 & E2 & Hi2).
    { intros j Hj. destruct (Hin j ltac:(set_solver)) as [Hj0 Hoj]. split; [done |].
      apply elem_of_difference. split; [done |]. rewrite elem_of_singleton.
      intros ?. assert (j = i) by lia. by subst. }
    exists fa2. split; [done |].
    match type of Hi2 with
      fa_inv _ _ ?A => match goal with |- fa_inv _ _ ?B => replace B with A; [done |] end
    end.
    simpl. apply set_eq. set_solver.
Qed.

(** ** The allocator as a transition system

    One step is one operation on the global allocator or on a live handle; the
    [raw] set records the runs handed out without trackers. *)

Inductive phys_step (debug : bool) : gset Z * Phys -> gset Z * Phys -> Prop :=
| step_alloc raw w r w' : alloc_tracker w = (r, w') -> phys_step debug (raw, w) (raw, w')
| step_alloc_uninit raw w r w' :
    alloc_tracker_uninit w = (r, w') -> phys_step debug (raw, w) (raw, w')
| step_clone raw w p : is_Some (prc w !! p) -> phys_step debug (raw, w) (raw, arc_clone w p)
| step_drop raw w p w' :
    is_Some (prc w !! p) -> arc_drop debug w p = Some w' -> phys_step debug (raw, w) (raw, w')
| step_write raw w f : phys_step debug (raw, w) (raw, with_mem f w)
| step_contig raw w num r w' :
    0 <= num -> frames_alloc_contiguous_raw w num = (r, w') ->
    phys_step debug (raw, w)
      (match r with Some s => raw ∪ run s num | None => raw end, w')
| step_contig_free raw w start num w' :
    0 <= start -> run start num ⊆ raw ->
    frames_dealloc_contiguous debug w start num = Some w' ->
    phys_step debug (raw, w) (raw ∖ run start num, w').

(** The state after [init_frame_allocator], before any allocation. *)
Definition phys_boot (ekernel : Z) (m : memory) : gset Z * Phys :=
  (∅, mkPhys m (init_frame_allocator ekernel fa_new) ∅).

Lemma phys_boot_inv ekernel m :
  0 < ekernel <= MEMORY_END -> phys_inv (pa_ceil ekernel) ∅ (phys_boot ekernel m).2.
Proof.
  unfold MEMORY_END, MEMORY_START, MEMORY_SIZE. intros He.
  assert (pa_ceil ekernel <= pa_floor MEMORY_END /\ 0 <= pa_ceil ekernel).
  { unfold pa_ceil, pa_floor, MEMORY_END, MEMORY_START, MEMORY_SIZE, PAGE_SIZE.
    wrap_simpl. lia. }
  assert (pa_floor MEMORY_END <= 2 ^ 44) by (vm_compute; done).
  constructor; simpl; [| set_solver | by intros ?? ?%lookup_empty_Some].
  constructor; simpl; [lia | constructor | |].
  - intros p. rewrite dom_empty_L, union_empty_l_L. set_solver by lia.
  - intros p. rewrite dom_empty_L. set_solver.
Qed.

Lemma phys_step_inv debug base raw w raw' w' :
  phys_inv base raw w -> phys_step debug (raw, w) (raw', w') -> phys_inv base raw' w'.
Proof.
  intros Hi Hs. inversion Hs; subst; clear Hs; eauto with kernel.
  - destruct r as [p |]; [by eapply alloc_tracker_Some |].
    match goal with H : alloc_tracker _ = _ |- _ => rewrite alloc_tracker_as_uninit in H;
      unfold alloc_tracker_uninit in H end.
    destruct (fa_alloc_uninit (pfa w)) as [[p |] fa] eqn:E; [done |]. simplify_eq.
    apply (fa_alloc_uninit_None _ _ _ _ (pi_fa _ _ _ Hi)) in E as [-> _]. by destruct Hi.
  - destruct r as [p |]; [by eapply alloc_tracker_uninit_Some |].
    match goal with H : alloc_tracker_uninit _ = _ |- _ => unfold alloc_tracker_uninit in H end.
    destruct (fa_alloc_uninit (pfa w)) as [[p |] fa] eqn:E; [done |]. simplify_eq.
    apply (fa_alloc_uninit_None _ _ _ _ (pi_fa _ _ _ Hi)) in E as [-> _]. by destruct Hi.
  - match goal with H : is_Some _ |- _ => destruct H as [n Hn] end.
    by eapply arc_clone_ok.
  - match goal with H : is_Some _ |- _ => destruct H as [n Hn] end.
    destruct (arc_drop_ok debug _ _ _ _ _ Hi Hn) as (w1 & E & _ & _ & Hi1). congruence.
  - destruct Hi as [Hfa Hd Hc].
    match goal with H : frames_alloc_contiguous_raw _ _ = _ |- _ =>
      unfold frames_alloc_contiguous_raw in H end.
    destruct (fa_alloc_contiguous (pfa w) num) as [[s |] fa] eqn:E; simplify_eq; simpl.
    + eapply fa_alloc_contiguous_ok in E as (_ & _ & Hf & Hi'); [| done | done].
      constructor; simpl; [by rewrite (assoc_L (∪)) | | done]. set_solver.
    + unfold fa_alloc_contiguous in E. destruct (_ <? _); simplify_eq. by constructor.
  - destruct Hi as [Hfa Hd Hc].
    match goal with H : frames_dealloc_contiguous _ _ _ _ = _ |- _ =>
      unfold frames_dealloc_contiguous in H end.
    destruct (frames_dealloc_loop_ok debug _ _ _ start (seqZ 0 num) Hfa) as (fa' & E & Hi').
    { apply NoDup_seqZ. }
    { intros i Hi%elem_of_seqZ. split; [lia |]. apply elem_of_union_r.
      match goal with H : run _ _ ⊆ _ |- _ => apply H end. apply elem_of_run. lia. }
    simplify_option_eq.
    assert (Hrun : list_to_set ((fun i => start + i) <$> seqZ 0 num) = run start num).
    { apply set_eq. intros x. rewrite elem_of_run, elem_of_list_to_set, list_elem_of_fmap.
      setoid_rewrite elem_of_seqZ. split.
      - intros (y & -> & Hy). lia.
      - intros Hx. exists (x - start). lia. }
    constructor; simpl; [| set_solver | done].
    rewrite Hrun in Hi'.
    replace (dom (prc w) ∪ raw ∖ run start num) with ((dom (prc w) ∪ raw) ∖ run start num);
      [done |].
    apply set_eq. intros x.
    match goal with H : run _ _ ⊆ _ |- _ => specialize (H x) end. set_solver.
Qed.

Lemma phys_steps_inv debug base s s' :
  rtc (phys_step debug) s s' -> phys_inv base s.1 s.2 -> phys_inv base s'.1 s'.2.
Proof.
  induction 1 as [| [raw w] [raw' w'] ? Hs _ IH]; [done |].
  intros Hi. apply IH. by eapply phys_step_inv.
Qed.

(** ** Allocating several frames *)

Section FramesAlloc.
Context (oom : Z -> Phys -> Phys).

Lemma drop_frames_ok debug base raw w frames :
  phys_inv base raw w -> NoDup frames -> (forall p, p ∈ frames -> prc w !! p = Some 1%nat) ->
  exists w', drop_frames debug w frames = Some w' /\ phys_inv base raw w' /\
    pmem w' = pmem w /\
    forall q, prc w' !! q = if decide (q ∈ frames) then None else prc w !! q.
Proof.
  revert w. induction frames as [| f fs IH]; intros w Hi Hnd Hf.
  { exists w. split_and!; [done.. |]. intros q. by rewrite decide_False by set_solver. }
  apply NoDup_cons in Hnd as [Hn Hnd].
  destruct (arc_drop_ok debug _ _ _ _ _ Hi (Hf f ltac:(set_solver))) as (w1 & E & Hm & Hr & Hi1).
  rewrite decide_True in Hr by done.
  destruct (IH w1 Hi1 Hnd) as (w2 & E2 & Hi2 & Hm2 & Hr2).
  { intros p Hp. rewrite Hr, lookup_delete_ne by (intros ->; done). apply Hf. set_solver. }
  exists w2. simpl. rewrite E. simpl. split_and!; [done | done | congruence |].
  intros q. rewrite Hr2, Hr. destruct (decide (q = f)) as [-> |].
  - rewrite lookup_delete_eq. repeat case_decide; set_solver.
  - rewrite lookup_delete_ne by done. repeat case_decide; set_solver.
Qed.

(** Enough frames: the loop collects that many, all fresh and distinct. *)
Lemma frames_alloc_loop_enough debug base raw n w frames :
  phys_inv base raw w -> Z.of_nat n <= fa_unallocated_frames (pfa w) ->
  exists new w', frames_alloc_loop oom debug n w frames = Some (Some (frames ++ new), w') /\
    length new = n /\ NoDup new /\ phys_inv base raw w' /\
    (forall p, p ∈ new -> is_free raw w p /\ prc w' !! p = Some 1%nat) /\
    (forall q, q ∉ new -> prc w' !! q = prc w !! q).
Proof.
  revert w frames. induction n as [| n IH]; intros w frames Hi Hn.
  { exists [], w. rewrite app_nil_r. split_and!; [done | done | constructor | done | |];
      set_solver. }
  destruct (frame_alloc_ok oom _ _ _ Hi ltac:(lia))
    as (p & w1 & E & Hf & _ & _ & Hr & Hi1 & Hu).
  destruct (IH w1 (frames ++ [p]) Hi1 ltac:(lia)) as (new & w2 & E2 & Hl & Hnd & Hi2 & Hnew & Hold).
  assert (Hp : p ∉ new).
  { intros Hp. destruct (Hnew p Hp) as [Hfree _]. apply Hfree. unfold is_free.
    rewrite Hr, dom_insert_L. set_solver. }
  exists (p :: new), w2. simpl. rewrite E, E2, <- (assoc_L (++)). simpl.
  split_and!; [done | by rewrite Hl | by constructor | done | |].
  - intros q [-> | Hq]%elem_of_cons.
    + split; [done |]. rewrite Hold by done. by rewrite Hr, lookup_insert_eq.
    + destruct (Hnew q Hq) as [Hfree Hc]. split; [| done].
      unfold is_free in *. rewrite Hr, dom_insert_L in Hfree. set_solver.
  - intros q Hq. rewrite Hold by set_solver. rewrite Hr.
    apply lookup_insert_ne. set_solver.
Qed.
(** Too few frames and a handler that frees nothing: the handles collected
    so far are dropped again. *)
Lemma frames_alloc_loop_fails debug base raw n w frames :
  (forall k w, oom k w = w) ->
  phys_inv base raw w -> NoDup frames -> (forall p, p ∈ frames -> prc w !! p = Some 1%nat) ->
  fa_unallocated_frames (pfa w) < Z.of_nat n ->
  exists w', frames_alloc_loop oom debug n w frames = Some (None, w') /\ phys_inv base raw w' /\
    forall q, prc w' !! q = if decide (q ∈ frames) then None else prc w !! q.
Proof.
  intros Ho. revert w frames. induction n as [| n IH]; intros w frames Hi Hnd Hf Hn.
  { pose proof (fa_unallocated_nonneg (pfa w)). lia. }
  destruct (decide (0 < fa_unallocated_frames (pfa w))) as [Hp | Hz].
  - destruct (frame_alloc_ok oom _ _ _ Hi Hp) as (p & w1 & E & Hfree & _ & _ & Hr & Hi1 & Hu).
    assert (Hpf : p ∉ frames).
    { intros Hpf. apply Hfree. apply elem_of_union_l, elem_of_dom. eauto. }
    destruct (IH w1 (frames ++ [p]) Hi1) as (w2 & E2 & Hi2 & Hr2).
    + apply NoDup_app. split; [done |]. split; [set_solver | apply NoDup_singleton].
    + intros q [Hq | ->%list_elem_of_singleton]%elem_of_app; rewrite Hr.
      * rewrite lookup_insert_ne by (intros ->; done). by apply Hf.
      * apply lookup_insert_eq.
    + lia.
    + exists w2. simpl. rewrite E. split_and!; [done | done |].
      intros q. rewrite Hr2, Hr. destruct (decide (q = p)) as [-> |].
      * rewrite decide_True, decide_False by set_solver. symmetry.
        apply not_elem_of_dom. unfold is_free in Hfree. set_solver.
      * rewrite lookup_insert_ne by done. repeat case_decide; set_solver.
  - assert (E : alloc_tracker w = (None, w)).
    { rewrite alloc_tracker_as_uninit.
      destruct (alloc_tracker_uninit w) as [[q |] w'] eqn:Eu.
      - pose proof (alloc_tracker_uninit_uses _ _ _ _ _ Hi Eu).
        pose proof (fa_unallocated_nonneg (pfa w')). lia.
      - unfold alloc_tracker_uninit in Eu.
        destruct (fa_alloc_uninit (pfa w)) as [[q |] fa] eqn:E'; simplify_eq.
        apply (fa_alloc_uninit_None _ _ _ _ (pi_fa _ _ _ Hi)) in E' as [-> _].
        by destruct w. }
    destruct (drop_frames_ok debug _ _ _ _ Hi Hnd Hf) as (w1 & E1 & Hi1 & _ & Hr1).
    exists w1. simpl. unfold frame_alloc. rewrite E, Ho, E. simpl. rewrite E1. done.
Qed.
End FramesAlloc.

(** ** Theorems *)

(** C1: From boot, whatever sequence of allocations, clones, drops, raw runs
    and memory writes happened, the frame the allocator hands out next is one
    nobody holds, lies between the end of the kernel image and the end of
    memory, and comes cleared, while every page in use keeps its contents; and
    dropping a live handle never panics. *)
Theorem frames_never_shared debug ekernel m s :
  0 < ekernel <= MEMORY_END -> rtc (phys_step debug) (phys_boot ekernel m) s ->
  (forall p w', alloc_tracker s.2 = (Some p, w') ->
     prc s.2 !! p = None /\ p ∉ s.1 /\ pa_ceil ekernel <= p < end_ (pfa s.2) /\
     get_bytes_array (pmem w') p = zero_page /\
     forall q, q <> p -> page_eq (pmem w') (pmem s.2) q) /\
  (forall p, is_Some (prc s.2 !! p) -> is_Some (arc_drop debug s.2 p)).
Proof.
  intros He Hs. pose proof (phys_steps_inv debug (pa_ceil ekernel) _ _ Hs) as Hi.
  specialize (Hi (phys_boot_inv _ _ He)). split.
  - intros p w' E. pose proof (alloc_tracker_Some _ _ _ _ _ Hi E) as (Hf & Hk & Hm & _ & _).
    apply not_elem_of_union in Hf as [Hf1 Hf2].
    split; [by apply not_elem_of_dom |]. split; [done |].
    split; [by eapply alloc_tracker_range |]. rewrite Hm.
    split; [by apply FrameTracker_new_zero |].
    intros q Hq. by apply FrameTracker_new_page_eq.
  - intros p [n Hn]. destruct (arc_drop_ok debug _ _ _ _ _ Hi Hn) as (w' & -> & _). eauto.
Qed.

Lemma frames_never_shared_witness :
  let w := (alloc_tracker (phys_boot 0x80400000 ∅).2).2 in
  is_Some (prc w !! 0x80400) /\
  (forall p, is_Some (prc w !! p) -> is_Some (arc_drop false w p)).
Proof.
  intros w. split; [vm_compute; eauto |].
  apply (frames_never_shared false 0x80400000 ∅ (∅, w)).
  - by vm_compute.
  - apply rtc_once, (step_alloc _ _ _ (Some 0x80400)). apply injective_projections; [by vm_compute | done].
Defined.

(** C29: [unallocated_frames] counts exactly the frames nobody holds, and
    [alloc] fails only when it is zero, that is when every frame of the region
    is in use; a failed [alloc] changes nothing. *)
Theorem alloc_fails_iff_exhausted base raw w :
  phys_inv base raw w ->
  fa_unallocated_frames (pfa w) = end_ (pfa w) - base - Z.of_nat (size (dom (prc w) ∪ raw)) /\
  ((alloc_tracker w).1 = None <-> fa_unallocated_frames (pfa w) = 0) /\
  ((alloc_tracker w).1 = None ->
     (alloc_tracker w).2 = w /\ forall p, base <= p < end_ (pfa w) <-> p ∈ dom (prc w) ∪ raw).
Proof.
  intros Hi. pose proof (phys_unallocated _ _ _ Hi) as Hu.
  rewrite alloc_tracker_as_uninit. destruct (alloc_tracker_uninit w) as [r w'] eqn:E. simpl.
  split; [done |].
  assert (Hnone : r = None -> w' = w /\
      forall p, base <= p < end_ (pfa w) <-> p ∈ dom (prc w) ∪ raw).
  { intros ->. unfold alloc_tracker_uninit in E.
    destruct (fa_alloc_uninit (pfa w)) as [[q |] fa] eqn:E'; simplify_eq.
    apply (fa_alloc_uninit_None _ _ _ _ (pi_fa _ _ _ Hi)) in E' as [-> Hr].
    split; [by destruct w | done]. }
  split.
  - split.
    + intros Hr. destruct (Hnone Hr) as [_ Hall].
      rewrite Hu. pose proof (inv_bounds _ _ _ (pi_fa _ _ _ Hi)).
      replace (dom (prc w) ∪ raw) with (run base (end_ (pfa w) - base)).
      * unfold run. rewrite size_list_to_set by apply NoDup_seqZ. rewrite length_seqZ. lia.
      * apply set_eq. intros p. rewrite elem_of_run, <- Hall. lia.
    + intros H0. destruct r as [p |]; [| done].
      pose proof (alloc_tracker_uninit_uses _ _ _ _ _ Hi E) as Hu'.
      pose proof (fa_unallocated_nonneg (pfa w')). lia.
  - intros Hr. destruct (Hnone Hr) as [-> Hall]. rewrite Hr. done.
Qed.

Lemma alloc_fails_iff_exhausted_witness :
  fa_unallocated_frames (pfa (phys_boot 0xB0000000 ∅).2) = 0 /\
  (alloc_tracker (phys_boot 0xB0000000 ∅).2).1 = None.
Proof.
  split; [by vm_compute |].
  apply (alloc_fails_iff_exhausted (pa_ceil 0xB0000000) ∅).
  - apply phys_boot_inv. by vm_compute.
  - by vm_compute.
Defined.

(** [frames_alloc num] with at least [num] frames free returns [num]
    distinct frames that nobody held, each with one handle, and touches no other
    handle; when frames run out and the handler frees nothing, every frame
    taken so far is returned and no handle is left behind. *)
Theorem frames_alloc_all_or_nothing oom debug base raw num w :
  phys_inv base raw w -> 0 <= num ->
  (num <= fa_unallocated_frames (pfa w) ->
   exists fs w', frames_alloc oom debug num w = Some (Some fs, w') /\ vlen fs = num /\
     NoDup fs /\ (forall p, p ∈ fs -> prc w !! p = None /\ prc w' !! p = Some 1%nat) /\
     (forall q, q ∉ fs -> prc w' !! q = prc w !! q)) /\
  (fa_unallocated_frames (pfa w) < num -> (forall n w, oom n w = w) ->
   exists w', frames_alloc oom debug num w = Some (None, w') /\ prc w' = prc w /\
     phys_inv base raw w').
Proof.
  intros Hi Hn. split.
  - intros Hle.
    destruct (frames_alloc_loop_enough oom debug base raw (Z.to_nat num) w [] Hi ltac:(lia))
      as (new & w' & E & Hl & Hnd & _ & Hnew & Hold).
    exists new, w'. split_and!; [done | unfold vlen; lia | done | | done].
    intros p Hp. destruct (Hnew p Hp) as [Hf Hc]. split; [| done].
    unfold is_free in Hf. apply not_elem_of_dom. set_solver.
  - intros Hlt Hoom.
    destruct (frames_alloc_loop_fails oom debug base raw (Z.to_nat num) w [] Hoom Hi)
      as (w' & E & Hi' & Hr); [constructor | set_solver | lia |].
    exists w'. split_and!; [done | | done]. apply map_eq. intros q.
    rewrite Hr. by rewrite decide_False by set_solver.
Qed.

Lemma frames_alloc_all_or_nothing_witness :
  exists w', frames_alloc (fun _ w => w) false 3 (phys_boot 0xAFFFE000 ∅).2 = Some (None, w') /\
    prc w' = ∅.
Proof.
  destruct (frames_alloc_all_or_nothing (fun _ w => w) false (pa_ceil 0xAFFFE000) ∅ 3
              (phys_boot 0xAFFFE000 ∅).2) as [_ H].
  - apply phys_boot_inv. by vm_compute.
  - lia.
  - destruct H as (w' & E & Hr & _); [by vm_compute | done |]. eauto.
Defined.

(** [dealloc] of a frame that is already on the recycled list panics in
    every build mode, while [dealloc] of a frame in use never does: a double
    free cannot put one frame on the list twice. *)
Theorem dealloc_detects_double_free debug base raw w p :
  phys_inv base raw w ->
  (p ∈ recycled (pfa w) -> frame_dealloc debug w p = None) /\
  (p ∈ dom (prc w) ∪ raw -> is_Some (frame_dealloc debug w p)).
Proof.
  intros Hi. split; intros Hp; unfold frame_dealloc.
  - unfold fa_dealloc. apply existsb_eqb in Hp. by rewrite Hp, orb_true_r.
  - destruct (fa_dealloc_owned debug _ _ _ p (pi_fa _ _ _ Hi) Hp) as (fa & -> & _). simpl. eauto.
Qed.

Lemma dealloc_detects_double_free_witness :
  let w := mkPhys ∅ (mkFA 12 20 [10]) {[11 := 1%nat]} in
  frame_dealloc false w 10 = None /\ is_Some (frame_dealloc false w 11).
Proof.
  intros w.
  assert (Hi : phys_inv 10 ∅ w).
  { constructor; simpl.
    - constructor; simpl; [lia | apply NoDup_singleton | |].
      + intros q. rewrite dom_singleton_L. split.
        * intros Hq. destruct (decide (q = 10)) as [-> |]; [set_solver |].
          assert (q = 11) as -> by lia. set_solver.
        * intros [Hq | Hq]; [assert (q = 11) by set_solver | assert (q = 10) by set_solver]; lia.
      + intros q Hq Hq'. assert (q = 11) by set_solver. assert (q = 10) by set_solver. lia.
    - set_solver.
    - intros q n [_ <-]%lookup_singleton_Some. done. }
  split.
  - apply (dealloc_detects_double_free false 10 ∅ w 10 Hi). set_solver.
  - apply (dealloc_detects_double_free false 10 ∅ w 11 Hi). simpl. set_solver.
Defined.
