(* ===== verification/PageTable.v ===== *)
(** * The page-table interface

    The trait [PageTable] of [mm/page_table.rs] and the permission bits of
    [mm/map_area.rs]. The kernel's memory areas and its accesses to user memory
    are generic in the trait; their theorems are proved against the laws of
    [PageTableSpec], which an implementation ([Sv39]) discharges. *)

From S2P Require Import Prelude Address Phys FrameAlloc.

(** ** [MapPermission] *)

Definition MP_R : Z := Z.shiftl 1 1.
Definition MP_W : Z := Z.shiftl 1 2.
Definition MP_X : Z := Z.shiftl 1 3.
Definition MP_U : Z := Z.shiftl 1 4.
Definition MP_all : Z := Z.lor (Z.lor MP_R MP_W) (Z.lor MP_X MP_U).

(** The operations of the [bitflags!] types the kernel uses: [contains],
    [difference], and [from_bits], which rejects undeclared bits. *)
Definition flags_contains (self other : Z) : bool := Z.land self other =? other.
Definition flags_difference (self other : Z) : Z := Z.ldiff self other.
Definition flags_from_bits (all bits : Z) : option Z :=
  if Z.ldiff bits all =? 0 then Some bits else None.

(** A value of type [MapPermission]. *)
Definition perm_ok (p : Z) : Prop := 0 <= p /\ Z.ldiff p MP_all = 0.

(** ** The trait

    A method takes the table and the frames ([Phys]) it reads or writes and
    returns them with its result; [None] is a panic. *)
Class PageTable (T : Type) := {
  pt_new : Phys -> option (T * Phys);
  pt_from_token : Z -> T;
  pt_token : T -> Z;
  pt_map : T -> Phys -> VirtPageNum -> PhysPageNum -> Z -> option (T * Phys);
  pt_unmap : T -> Phys -> VirtPageNum -> Phys;
  pt_is_mapped : T -> Phys -> VirtPageNum -> bool;
  pt_translate : T -> Phys -> VirtPageNum -> option PhysPageNum;
  pt_translate_va : T -> Phys -> VirtAddr -> option PhysAddr;
  pt_block_and_ret_mut : T -> Phys -> VirtPageNum -> option PhysPageNum * Phys;
  pt_set_ppn : T -> Phys -> VirtPageNum -> PhysPageNum -> result unit unit * Phys;
  pt_set_pte_flags : T -> Phys -> VirtPageNum -> Z -> result unit unit * Phys;
  pt_get_pte_flags : T -> Phys -> VirtPageNum -> option Z
}.

(** ** What an implementation promises

    [pt_slot] is the entry a page number selects: page numbers with the same
    slot share one entry. [pt_view] is the mapping the table holds, from slots
    to a frame and its permission. [pt_frames] are the frames the table itself
    is made of. *)
Class PageTableSpec (T : Type) `{!PageTable T} := {
  pt_slot : VirtPageNum -> list Z;
  pt_view : T -> Phys -> list Z -> option (PhysPageNum * Z);
  pt_frames : T -> gset Z;
  pt_inv : Z -> gset Z -> T -> Phys -> Prop;

  pt_inv_phys base raw t w : pt_inv base raw t w -> phys_inv base raw w;
  pt_inv_frames base raw t w p :
    pt_inv base raw t w -> p ∈ pt_frames t -> prc w !! p = Some 1%nat;

  (** The table depends on nothing but its own frames. *)
  pt_stable base raw t w w' :
    pt_inv base raw t w -> phys_inv base raw w' ->
    (forall p, p ∈ pt_frames t -> page_eq (pmem w') (pmem w) p /\ prc w' !! p = Some 1%nat) ->
    pt_inv base raw t w' /\ forall k, pt_view t w' k = pt_view t w k;

  pt_translate_view base raw t w vpn :
    pt_inv base raw t w -> 0 <= vpn -> pt_translate t w vpn = fst <$> pt_view t w (pt_slot vpn);
  pt_is_mapped_view base raw t w vpn :
    pt_inv base raw t w -> 0 <= vpn ->
    pt_is_mapped t w vpn = bool_decide (is_Some (pt_view t w (pt_slot vpn)));
  pt_translate_va_view base raw t w va :
    pt_inv base raw t w -> u64 va ->
    pt_translate_va t w va =
    (fun e => ppn_offset e.1 (va_page_offset va)) <$> pt_view t w (pt_slot (va_floor va));
  pt_get_pte_flags_view base raw t w vpn :
    pt_inv base raw t w -> 0 <= vpn ->
    pt_get_pte_flags t w vpn = snd <$> pt_view t w (pt_slot vpn);

  pt_view_ok base raw t w k e :
    pt_inv base raw t w -> pt_view t w k = Some e -> ppn_ok e.1 /\ perm_ok e.2;

  (** The table rebuilt from its token walks the same entries. *)
  pt_token_walk base raw t w :
    pt_inv base raw t w ->
    (forall vpn, pt_translate (pt_from_token (pt_token t)) w vpn = pt_translate t w vpn) /\
    (forall va, pt_translate_va (pt_from_token (pt_token t)) w va = pt_translate_va t w va);

  pt_new_spec base raw w :
    phys_inv base raw w -> 1 <= fa_unallocated_frames (pfa w) ->
    exists t w', pt_new w = Some (t, w') /\ pt_inv base raw t w' /\
      (forall k, pt_view t w' k = None) /\
      (forall p, p ∈ pt_frames t -> is_free raw w p) /\
      (forall p, p ∉ pt_frames t -> page_eq (pmem w') (pmem w) p /\ prc w' !! p = prc w !! p) /\
      fa_unallocated_frames (pfa w') = fa_unallocated_frames (pfa w) - 1;

  (** [map] succeeds on a free slot when two frames are free (the two lower
      levels it may have to create) and changes that slot only. *)
  pt_map_spec base raw t w vpn ppn perm :
    pt_inv base raw t w -> 0 <= vpn -> ppn_ok ppn -> perm_ok perm ->
    pt_view t w (pt_slot vpn) = None -> 2 <= fa_unallocated_frames (pfa w) ->
    exists t' w', pt_map t w vpn ppn perm = Some (t', w') /\ pt_inv base raw t' w' /\
      (forall k, pt_view t' w' k = if decide (k = pt_slot vpn) then Some (ppn, perm)
                                   else pt_view t w k) /\
      pt_frames t ⊆ pt_frames t' /\
      (forall p, p ∈ pt_frames t' -> p ∈ pt_frames t \/ is_free raw w p) /\
      (forall p, p ∉ pt_frames t' -> page_eq (pmem w') (pmem w) p /\ prc w' !! p = prc w !! p) /\
      fa_unallocated_frames (pfa w) - 2 <= fa_unallocated_frames (pfa w')
        <= fa_unallocated_frames (pfa w);

  (** The operations on an existing entry: each rewrites one entry of one of
      the table's frames. *)
  pt_unmap_spec base raw t w vpn :
    pt_inv base raw t w -> 0 <= vpn ->
    pt_inv base raw t (pt_unmap t w vpn) /\
    (forall k, pt_view t (pt_unmap t w vpn) k =
               if decide (k = pt_slot vpn) then None else pt_view t w k) /\
    prc (pt_unmap t w vpn) = prc w /\ pfa (pt_unmap t w vpn) = pfa w /\
    (forall p, p ∉ pt_frames t -> page_eq (pmem (pt_unmap t w vpn)) (pmem w) p);
  pt_block_spec base raw t w vpn :
    pt_inv base raw t w -> 0 <= vpn ->
    let '(r, w') := pt_block_and_ret_mut t w vpn in
    r = fst <$> pt_view t w (pt_slot vpn) /\ pt_inv base raw t w' /\
    (forall k, pt_view t w' k =
               if decide (k = pt_slot vpn)
               then (fun e => (e.1, flags_difference e.2 MP_W)) <$> pt_view t w k
               else pt_view t w k) /\
    prc w' = prc w /\ pfa w' = pfa w /\
    (forall p, p ∉ pt_frames t -> page_eq (pmem w') (pmem w) p);
  pt_set_ppn_spec base raw t w vpn ppn :
    pt_inv base raw t w -> 0 <= vpn -> ppn_ok ppn ->
    let '(r, w') := pt_set_ppn t w vpn ppn in
    r = (if pt_view t w (pt_slot vpn) then Ok tt else Err tt) /\ pt_inv base raw t w' /\
    (forall k, pt_view t w' k =
               if decide (k = pt_slot vpn) then (fun e => (ppn, e.2)) <$> pt_view t w k
               else pt_view t w k) /\
    prc w' = prc w /\ pfa w' = pfa w /\
    (forall p, p ∉ pt_frames t -> page_eq (pmem w') (pmem w) p);
  pt_set_flags_spec base raw t w vpn perm :
    pt_inv base raw t w -> 0 <= vpn -> perm_ok perm ->
    let '(r, w') := pt_set_pte_flags t w vpn perm in
    r = (if pt_view t w (pt_slot vpn) then Ok tt else Err tt) /\ pt_inv base raw t w' /\
    (forall k, pt_view t w' k =
               if decide (k = pt_slot vpn) then (fun e => (e.1, perm)) <$> pt_view t w k
               else pt_view t w k) /\
    prc w' = prc w /\ pfa w' = pfa w /\
    (forall p, p ∉ pt_frames t -> page_eq (pmem w') (pmem w) p)
}.

(** ** Lemmas on flags *)

Lemma land_pow2 a n : 0 <= n -> Z.land a (2 ^ n) = if Z.testbit a n then 2 ^ n else 0.
Proof.
  intros Hn. bitwise i. rewrite Z.land_spec, testbit_pow2 by done.
  destruct (Z.eqb_spec i n) as [-> |].
  - rewrite andb_true_r. destruct (Z.testbit a n) eqn:E; [by rewrite Z.pow2_bits_true |].
    by rewrite Z.testbit_0_l.
  - rewrite andb_false_r. destruct (Z.testbit a n); [| by rewrite Z.testbit_0_l].
    rewrite testbit_pow2 by done. by destruct (Z.eqb_spec i n).
Qed.

Lemma land_pow2_ne0 a n : 0 <= n -> negb (Z.land a (2 ^ n) =? 0) = Z.testbit a n.
Proof.
  intros Hn. rewrite land_pow2 by done. destruct (Z.testbit a n); [| done].
  destruct (Z.eqb_spec (2 ^ n) 0); lia.
Qed.

Lemma flags_contains_pow2 a n : 0 <= n -> flags_contains a (2 ^ n) = Z.testbit a n.
Proof.
  intros Hn. unfold flags_contains. rewrite land_pow2 by done.
  destruct (Z.testbit a n); [apply Z.eqb_refl |]. destruct (Z.eqb_spec 0 (2 ^ n)); lia.
Qed.

(** The bits of a permission are bits 1 to 4. *)
Lemma MP_all_spec i : 0 <= i -> Z.testbit MP_all i = (1 <=? i) && (i <=? 4).
Proof.
  intros Hi. change MP_all with 30. destruct (decide (i < 8)).
  - assert (Hc : i = 0 \/ i = 1 \/ i = 2 \/ i = 3 \/ i = 4 \/ i = 5 \/ i = 6 \/ i = 7) by lia.
    by destruct Hc as [-> | [-> | [-> | [-> | [-> | [-> | [-> | ->]]]]]]].
  - rewrite (fits_testbit_high 8 30 i) by (unfold fits; lia).
    destruct (Z.leb_spec 1 i), (Z.leb_spec i 4); lia || done.
Qed.

Lemma perm_ok_high p i : perm_ok p -> 0 <= i -> (i < 1 \/ 4 < i) -> Z.testbit p i = false.
Proof.
  intros [_ H] Hi Hr. assert (E : Z.testbit (Z.ldiff p MP_all) i = false)
    by (rewrite H; apply Z.testbit_0_l).
  rewrite Z.ldiff_spec, MP_all_spec in E by done.
  destruct (Z.leb_spec 1 i), (Z.leb_spec i 4); try lia; simpl in E;
    by rewrite andb_true_r in E.
Qed.

Lemma perm_ok_fits p : perm_ok p -> fits 8 p.
Proof.
  intros H. apply fits_of_testbit; [lia | apply H |].
  intros i Hi. apply perm_ok_high; [done | lia | lia].
Qed.

Lemma perm_ok_difference p q : perm_ok p -> perm_ok (flags_difference p q).
Proof.
  intros [H0 H]. unfold flags_difference. split.
  - apply Z.ldiff_nonneg. by left.
  - bitwise i. rewrite !Z.ldiff_spec, Z.testbit_0_l.
    assert (E : Z.testbit (Z.ldiff p MP_all) i = false) by (rewrite H; apply Z.testbit_0_l).
    rewrite Z.ldiff_spec in E. destruct (Z.testbit p i), (Z.testbit MP_all i); simpl in *;
      try done; by rewrite andb_false_r.
Qed.

#[export] Hint Resolve perm_ok_difference : kernel.

(** ** The table as a finite map

    A sequence of operations on a table, and the same sequence on a finite map
    from slots to frames with permissions. *)

Inductive pt_op :=
| OpMap (vpn ppn perm : Z)
| OpUnmap (vpn : Z)
| OpBlock (vpn : Z)
| OpSetFlags (vpn perm : Z).

Definition pt_op_ok (o : pt_op) : Prop :=
  match o with
  | OpMap vpn ppn perm => 0 <= vpn /\ ppn_ok ppn /\ perm_ok perm
  | OpUnmap vpn | OpBlock vpn => 0 <= vpn
  | OpSetFlags vpn perm => 0 <= vpn /\ perm_ok perm
  end.

Section Refinement.
Context {T : Type} `{!PageTable T, !PageTableSpec T}.

Definition pt_exec (o : pt_op) (t : T) (w : Phys) : option (T * Phys) :=
  match o with
  | OpMap vpn ppn perm => pt_map t w vpn ppn perm
  | OpUnmap vpn => Some (t, pt_unmap t w vpn)
  | OpBlock vpn => Some (t, (pt_block_and_ret_mut t w vpn).2)
  | OpSetFlags vpn perm => Some (t, (pt_set_pte_flags t w vpn perm).2)
  end.

(** Mapping a mapped slot is a panic, in the code and here. *)
Definition spec_exec (o : pt_op) (s : gmap (list Z) (Z * Z)) : option (gmap (list Z) (Z * Z)) :=
  match o with
  | OpMap vpn ppn perm =>
      match s !! pt_slot vpn with
      | Some _ => None
      | None => Some (<[pt_slot vpn := (ppn, perm)]> s)
      end
  | OpUnmap vpn => Some (delete (pt_slot vpn) s)
  | OpBlock vpn => Some (alter (fun e => (e.1, flags_difference e.2 MP_W)) (pt_slot vpn) s)
  | OpSetFlags vpn perm => Some (alter (fun e => (e.1, perm)) (pt_slot vpn) s)
  end.

Fixpoint pt_run (ops : list pt_op) (t : T) (w : Phys) : option (T * Phys) :=
  match ops with
  | [] => Some (t, w)
  | o :: ops' => '(t, w) ← pt_exec o t w; pt_run ops' t w
  end.
Fixpoint spec_run (ops : list pt_op) (s : gmap (list Z) (Z * Z))
    : option (gmap (list Z) (Z * Z)) :=
  match ops with
  | [] => Some s
  | o :: ops' => s ← spec_exec o s; spec_run ops' s
  end.

(** One operation simulates its specification. *)
Lemma pt_exec_refines base raw t w s o s' :
  pt_inv base raw t w -> (forall k, pt_view t w k = s !! k) -> pt_op_ok o ->
  2 <= fa_unallocated_frames (pfa w) -> spec_exec o s = Some s' ->
  exists t' w', pt_exec o t w = Some (t', w') /\ pt_inv base raw t' w' /\
    (forall k, pt_view t' w' k = s' !! k) /\
    fa_unallocated_frames (pfa w) - 2 <= fa_unallocated_frames (pfa w').
Proof.
  intros Hi Hv Ho Hu. destruct o as [vpn ppn perm | vpn | vpn | vpn perm]; simpl in Ho |- *.
  - destruct Ho as (Hn & Hp & Hq). rewrite <- Hv.
    destruct (pt_view t w (pt_slot vpn)) eqn:E; [done |]. intros [= <-].
    destruct (pt_map_spec _ _ _ _ _ _ _ Hi Hn Hp Hq E Hu)
      as (t' & w' & -> & Hi' & Hk & _ & _ & _ & Hu' & _).
    exists t', w'. split_and!; [done | done | | lia].
    intros k. rewrite Hk, lookup_insert, Hv. by repeat case_decide.
  - intros [= <-]. destruct (pt_unmap_spec _ _ _ _ _ Hi Ho) as (Hi' & Hk & _ & Hf & _).
    eexists _, _. split; [reflexivity |]. rewrite Hf. split_and!; [done | | lia].
    intros k. rewrite Hk, lookup_delete, Hv. by repeat case_decide.
  - intros [= <-]. pose proof (pt_block_spec _ _ _ _ _ Hi Ho) as Hb.
    destruct (pt_block_and_ret_mut t w vpn) as [r w']. destruct Hb as (_ & Hi' & Hk & _ & Hf & _).
    eexists _, _. split; [reflexivity |]. cbn [snd]. rewrite Hf. split_and!; [done | | lia].
    intros k. rewrite Hk, lookup_alter, Hv.
    repeat case_decide; congruence || done.
  - destruct Ho as (Hn & Hq). intros [= <-].
    pose proof (pt_set_flags_spec _ _ _ _ _ _ Hi Hn Hq) as Hb.
    destruct (pt_set_pte_flags t w vpn perm) as [r w']. destruct Hb as (_ & Hi' & Hk & _ & Hf & _).
    eexists _, _. split; [reflexivity |]. cbn [snd]. rewrite Hf. split_and!; [done | | lia].
    intros k. rewrite Hk, lookup_alter, Hv.
    repeat case_decide; congruence || done.
Qed.

Lemma pt_run_refines base raw ops t w s s' :
  pt_inv base raw t w -> (forall k, pt_view t w k = s !! k) -> Forall pt_op_ok ops ->
  2 * vlen ops <= fa_unallocated_frames (pfa w) -> spec_run ops s = Some s' ->
  exists t' w', pt_run ops t w = Some (t', w') /\ pt_inv base raw t' w' /\
    forall k, pt_view t' w' k = s' !! k.
Proof.
  revert t w s. induction ops as [| o ops IH]; intros t w s Hi Hv Ho Hu; simpl.
  - intros [= <-]. eauto.
  - apply Forall_cons in Ho as [Ho Hos]. unfold vlen in *. cbn [length] in Hu.
    destruct (spec_exec o s) as [s1 |] eqn:E; simpl; [| done]. intros Hs.
    destruct (pt_exec_refines _ _ _ _ _ _ _ Hi Hv Ho ltac:(lia) E) as (t1 & w1 & -> & Hi1 & Hv1 & Hu1).
    simpl. apply (IH t1 w1 s1); [done | done | done | lia | done].
Qed.
End Refinement.
