(* ===== verification/Sv39.v ===== *)
(** * The Sv39 page table

    [hal/arch/riscv/sv39.rs]: page-table entries as bit patterns and the
    three-level table walked in physical memory, with the methods of the
    [PageTable] trait. The [sfence.vma] of [tlb_invalidate] and the write of
    [satp] in [activate] have no effect on memory and are not modelled. *)

From S2P Require Import Prelude Address Phys FrameAlloc PageTable.

(** ** Page-table entries *)

Definition PTE_V : Z := Z.shiftl 1 0.
Definition PTE_R : Z := Z.shiftl 1 1.
Definition PTE_W : Z := Z.shiftl 1 2.
Definition PTE_X : Z := Z.shiftl 1 3.
Definition PTE_U : Z := Z.shiftl 1 4.
Definition PTE_G : Z := Z.shiftl 1 5.
Definition PTE_A : Z := Z.shiftl 1 6.
Definition PTE_D : Z := Z.shiftl 1 7.

Definition PPN_MASK : Z := Z.shiftl (Z.shiftl 1 44 - 1) 10.

Definition pte_new (ppn flags : Z) : Z := Z.lor (ppn <<w 10) flags.
Definition pte_empty : Z := 0.
Definition pte_ppn (bits : Z) : Z := Z.shiftr (Z.land bits PPN_MASK) 10.
(** [PTEFlags::from_bits(self.bits as u8).unwrap()]: all eight bits are declared. *)
Definition pte_flags (bits : Z) : Z := wrap8 bits.
Definition pte_is_valid (bits : Z) : bool := negb (Z.land (pte_flags bits) PTE_V =? 0).
Definition pte_is_dirty (bits : Z) : bool := negb (Z.land (pte_flags bits) PTE_D =? 0).
Definition pte_readable (bits : Z) : bool := negb (Z.land (pte_flags bits) PTE_R =? 0).
Definition pte_writable (bits : Z) : bool := negb (Z.land (pte_flags bits) PTE_W =? 0).
Definition pte_executable (bits : Z) : bool := negb (Z.land (pte_flags bits) PTE_X =? 0).
Definition pte_clear_access (bits : Z) : Z := Z.land bits (not64 PTE_A).
Definition pte_clear_dirty (bits : Z) : Z := Z.land bits (not64 PTE_D).
Definition pte_revoke_read (bits : Z) : Z := Z.land bits (not64 PTE_R).
Definition pte_revoke_write (bits : Z) : Z := Z.land bits (not64 PTE_W).
Definition pte_revoke_execute (bits : Z) : Z := Z.land bits (not64 PTE_X).
Definition pte_set_permission (bits flags : Z) : Z :=
  Z.lor (Z.land bits 0xffffffffffffffe1) flags.
Definition pte_set_ppn (bits ppn : Z) : Z :=
  Z.lor (Z.land bits (not64 PPN_MASK)) (Z.land (ppn <<w 10) PPN_MASK).

#[global] Arguments pte_new : simpl never.
#[global] Arguments pte_ppn : simpl never.
#[global] Arguments pte_flags : simpl never.
#[global] Arguments pte_is_valid : simpl never.
#[global] Arguments pte_revoke_write : simpl never.
#[global] Arguments pte_set_permission : simpl never.

(** ** The table *)

Record Sv39PageTable := mkSv39 { root_ppn : Z; sv_frames : list Z }.

Section Methods.
Context (oom : Z -> Phys -> Phys).

(** The loop of [find_pte_create] from one level down: the result is the
    frame and the index of the terminal entry. *)
Fixpoint find_pte_create_loop (idxs : list Z) (ppn : Z) (pt : Sv39PageTable) (w : Phys)
    : option ((Z * Z) * Sv39PageTable * Phys) :=
  match idxs with
  | [] => None
  | [i] => Some ((ppn, i), pt, w)
  | i :: rest =>
      let pte := get_dword (pmem w) ppn i in
      if pte_is_valid pte then find_pte_create_loop rest (pte_ppn pte) pt w
      else
        match frame_alloc oom w with
        | (Some frame, w) =>
            let pte := pte_new frame PTE_V in
            find_pte_create_loop rest (pte_ppn pte)
              (mkSv39 (root_ppn pt) (sv_frames pt ++ [frame]))
              (with_mem (fun m => put_dword m ppn i pte) w)
        | (None, _) => None
        end
  end.
Definition find_pte_create (pt : Sv39PageTable) (w : Phys) (vpn : VirtPageNum)
    : option ((Z * Z) * Sv39PageTable * Phys) :=
  find_pte_create_loop (indexes 3 vpn) (root_ppn pt) pt w.

(** [find_pte]; [find_pte_refmut] has the same body with a mutable reference. *)
Fixpoint find_pte_loop (m : memory) (idxs : list Z) (ppn : Z) : option (Z * Z) :=
  match idxs with
  | [] => None
  | i :: rest =>
      let pte := get_dword m ppn i in
      if negb (pte_is_valid pte) then None
      else match rest with
           | [] => Some (ppn, i)
           | _ => find_pte_loop m rest (pte_ppn pte)
           end
  end.
Definition find_pte (pt : Sv39PageTable) (w : Phys) (vpn : VirtPageNum) : option (Z * Z) :=
  find_pte_loop (pmem w) (indexes 3 vpn) (root_ppn pt).
Definition find_pte_refmut (pt : Sv39PageTable) (w : Phys) (vpn : VirtPageNum)
    : option (Z * Z) :=
  find_pte_loop (pmem w) (indexes 3 vpn) (root_ppn pt).

Definition load_pte (w : Phys) (s : Z * Z) : Z := get_dword (pmem w) s.1 s.2.
Definition store_pte (w : Phys) (s : Z * Z) (bits : Z) : Phys :=
  with_mem (fun m => put_dword m s.1 s.2 bits) w.

Definition sv_new (w : Phys) : option (Sv39PageTable * Phys) :=
  match frame_alloc oom w with
  | (Some frame, w) => Some (mkSv39 frame [frame], w)
  | (None, _) => None
  end.
Definition sv_from_token (satp : Z) : Sv39PageTable :=
  mkSv39 (Z.land satp (Z.shiftl 1 44 - 1)) [].
Definition sv_token (pt : Sv39PageTable) : Z := Z.lor (Z.shiftl 8 60) (root_ppn pt).

Definition sv_is_mapped (pt : Sv39PageTable) (w : Phys) (vpn : VirtPageNum) : bool :=
  match find_pte pt w vpn with
  | Some s => if pte_is_valid (load_pte w s) then true else false
  | None => false
  end.

Definition sv_map (pt : Sv39PageTable) (w : Phys) (vpn : VirtPageNum) (ppn : PhysPageNum)
    (flags : Z) : option (Sv39PageTable * Phys) :=
  '(s, pt, w) ← find_pte_create pt w vpn;
  if pte_is_valid (load_pte w s) then None
  else Some (pt, store_pte w s
         (pte_new ppn (Z.lor (Z.lor (Z.lor flags PTE_V) PTE_A) PTE_D))).

Definition sv_unmap (pt : Sv39PageTable) (w : Phys) (vpn : VirtPageNum) : Phys :=
  match find_pte_refmut pt w vpn with
  | Some s => store_pte w s pte_empty
  | None => w
  end.

Definition sv_translate (pt : Sv39PageTable) (w : Phys) (vpn : VirtPageNum)
    : option PhysPageNum :=
  (fun s => pte_ppn (load_pte w s)) <$> find_pte pt w vpn.
Definition sv_translate_va (pt : Sv39PageTable) (w : Phys) (va : VirtAddr) : option PhysAddr :=
  (fun s => pa_from_ppn (pte_ppn (load_pte w s)) +w va_page_offset va)
    <$> find_pte pt w (va_floor va).

(** An operation of the form [if let Some(pte) = find_pte_refmut(vpn)
    { pte.f(); Ok(()) } else { Err(()) }]. *)
Definition update_pte (f : Z -> Z) (pt : Sv39PageTable) (w : Phys) (vpn : VirtPageNum)
    : result unit unit * Phys :=
  match find_pte_refmut pt w vpn with
  | Some s => (Ok tt, store_pte w s (f (load_pte w s)))
  | None => (Err tt, w)
  end.

Definition sv_block_and_ret_mut (pt : Sv39PageTable) (w : Phys) (vpn : VirtPageNum)
    : option PhysPageNum * Phys :=
  match find_pte_refmut pt w vpn with
  | Some s =>
      let w := store_pte w s (pte_revoke_write (load_pte w s)) in
      (Some (pte_ppn (load_pte w s)), w)
  | None => (None, w)
  end.
Definition sv_revoke_read pt w vpn := update_pte pte_revoke_read pt w vpn.
Definition sv_revoke_write pt w vpn := update_pte pte_revoke_write pt w vpn.
Definition sv_revoke_execute pt w vpn := update_pte pte_revoke_execute pt w vpn.
Definition sv_set_ppn pt w vpn ppn := update_pte (fun b => pte_set_ppn b ppn) pt w vpn.
Definition sv_set_pte_flags pt w vpn flags :=
  update_pte (fun b => pte_set_permission b flags) pt w vpn.
Definition sv_clear_access_bit pt w vpn := update_pte pte_clear_access pt w vpn.
Definition sv_clear_dirty_bit pt w vpn := update_pte pte_clear_dirty pt w vpn.

Definition perm_of_flags (f : Z) : Z :=
  let perm := 0 in
  let perm := if flags_contains f PTE_R then Z.lor perm MP_R else perm in
  let perm := if flags_contains f PTE_W then Z.lor perm MP_W else perm in
  let perm := if flags_contains f PTE_X then Z.lor perm MP_X else perm in
  if flags_contains f PTE_U then Z.lor perm MP_U else perm.
Definition sv_get_pte_flags (pt : Sv39PageTable) (w : Phys) (vpn : VirtPageNum) : option Z :=
  (fun s => perm_of_flags (pte_flags (load_pte w s))) <$> find_pte pt w vpn.

Definition sv_is_valid (pt : Sv39PageTable) (w : Phys) (vpn : VirtPageNum) : option bool :=
  (fun s => pte_is_valid (load_pte w s)) <$> find_pte pt w vpn.
Definition sv_is_dirty (pt : Sv39PageTable) (w : Phys) (vpn : VirtPageNum) : option bool :=
  (fun s => pte_is_dirty (load_pte w s)) <$> find_pte pt w vpn.
Definition sv_readable (pt : Sv39PageTable) (w : Phys) (vpn : VirtPageNum) : option bool :=
  (fun s => pte_readable (load_pte w s)) <$> find_pte pt w vpn.
Definition sv_writable (pt : Sv39PageTable) (w : Phys) (vpn : VirtPageNum) : option bool :=
  (fun s => pte_writable (load_pte w s)) <$> find_pte pt w vpn.
Definition sv_executable (pt : Sv39PageTable) (w : Phys) (vpn : VirtPageNum) : option bool :=
  (fun s => pte_executable (load_pte w s)) <$> find_pte pt w vpn.

(** The implementation of the trait. *)
#[export] Instance Sv39_PageTable : PageTable Sv39PageTable := {
  pt_new := sv_new;
  pt_from_token := sv_from_token;
  pt_token := sv_token;
  pt_map := sv_map;
  pt_unmap := sv_unmap;
  pt_is_mapped := sv_is_mapped;
  pt_translate := sv_translate;
  pt_translate_va := sv_translate_va;
  pt_block_and_ret_mut := sv_block_and_ret_mut;
  pt_set_ppn := sv_set_ppn;
  pt_set_pte_flags := sv_set_pte_flags;
  pt_get_pte_flags := sv_get_pte_flags
}.
End Methods.

(** ** Lemmas on entries *)

Lemma PPN_MASK_spec i : 0 <= i -> Z.testbit PPN_MASK i = (10 <=? i) && (i <? 54).
Proof.
  intros Hi. unfold PPN_MASK. change (Z.shiftl 1 44 - 1) with (Z.ones 44).
  rewrite Z.shiftl_spec by done. destruct (Z.leb_spec 10 i).
  - rewrite testbit_ones by lia. simpl. bool_cases; lia || done.
  - by rewrite Z.testbit_neg_r by lia.
Qed.

Lemma pte_ppn_spec bits i :
  0 <= i -> Z.testbit (pte_ppn bits) i = (i <? 44) && Z.testbit bits (i + 10).
Proof.
  intros Hi. unfold pte_ppn. rewrite Z.shiftr_spec, Z.land_spec, PPN_MASK_spec by lia.
  bool_cases; try lia; simpl; by rewrite ?andb_true_r, ?andb_false_r.
Qed.

Lemma pte_ppn_ok bits : ppn_ok (pte_ppn bits).
Proof.
  apply (fits_of_testbit 44); [lia | |].
  - unfold pte_ppn. apply Z.shiftr_nonneg, Z.land_nonneg. right. by vm_compute.
  - intros i Hi. rewrite pte_ppn_spec by lia. bool_cases; lia || done.
Qed.

(** Two entries with the same frame bits. *)
Lemma pte_ppn_ext a b :
  (forall i, 10 <= i < 54 -> Z.testbit a i = Z.testbit b i) -> pte_ppn a = pte_ppn b.
Proof.
  intros H. bitwise i. rewrite !pte_ppn_spec by done.
  destruct (Z.ltb_spec i 44); [| done]. simpl. apply H. lia.
Qed.

Lemma pte_new_spec ppn flags i :
  ppn_ok ppn -> fits 8 flags -> 0 <= i ->
  Z.testbit (pte_new ppn flags) i =
  if i <? 10 then Z.testbit flags i else Z.testbit ppn (i - 10).
Proof.
  intros Hp Hf Hi. unfold pte_new. rewrite Z.lor_spec, testbit_wrapn, Z.shiftl_spec by lia.
  destruct (Z.ltb_spec i 10).
  - rewrite (Z.testbit_neg_r ppn) by lia. by rewrite andb_false_r.
  - rewrite (fits_testbit_high 8 flags i), orb_false_r by (done || lia).
    destruct (Z.ltb_spec i 64); [done |].
    symmetry. apply (fits_testbit_high 44); [lia | done | lia].
Qed.

Lemma pte_new_fits ppn flags : ppn_ok ppn -> fits 8 flags -> u64 (pte_new ppn flags).
Proof.
  intros Hp Hf. unfold pte_new. apply fits_lor; [lia | apply wrap64_bound |].
  unfold fits in *. lia.
Qed.

Lemma pte_new_ppn ppn flags : ppn_ok ppn -> fits 8 flags -> pte_ppn (pte_new ppn flags) = ppn.
Proof.
  intros Hp Hf. bitwise i. rewrite pte_ppn_spec, pte_new_spec by (done || lia).
  destruct (Z.ltb_spec (i + 10) 10); [lia |].
  replace (i + 10 - 10) with i by lia.
  destruct (Z.ltb_spec i 44); [done |]. simpl. symmetry.
  by apply (fits_testbit_high 44).
Qed.

Lemma pte_flag_bit bits n : 0 <= n < 8 ->
  negb (Z.land (pte_flags bits) (2 ^ n) =? 0) = Z.testbit bits n.
Proof.
  intros Hn. rewrite land_pow2_ne0 by lia. unfold pte_flags.
  rewrite testbit_wrapn by lia. by destruct (Z.ltb_spec n 8); [| lia].
Qed.

Lemma pte_is_valid_bit bits : pte_is_valid bits = Z.testbit bits 0.
Proof. apply (pte_flag_bit bits 0). lia. Qed.
Lemma pte_writable_bit bits : pte_writable bits = Z.testbit bits 2.
Proof. apply (pte_flag_bit bits 2). lia. Qed.

(** The permission an entry grants: bits 1 to 4. *)
Definition pte_perm (bits : Z) : Z := perm_of_flags (pte_flags bits).

Lemma pte_perm_spec bits i :
  0 <= i -> Z.testbit (pte_perm bits) i = (1 <=? i) && (i <=? 4) && Z.testbit bits i.
Proof.
  intros Hi. unfold pte_perm, perm_of_flags.
  change PTE_R with (2 ^ 1). change PTE_W with (2 ^ 2).
  change PTE_X with (2 ^ 3). change PTE_U with (2 ^ 4).
  change MP_R with (2 ^ 1). change MP_W with (2 ^ 2).
  change MP_X with (2 ^ 3). change MP_U with (2 ^ 4).
  rewrite !flags_contains_pow2 by lia. unfold pte_flags.
  rewrite !testbit_wrapn by lia. cbn [Z.ltb Z.compare Pos.compare Pos.compare_cont andb].
  assert (Hl : forall (b : bool) x n, 0 <= n ->
    Z.testbit (if b then Z.lor x (2 ^ n) else x) i = Z.testbit x i || (b && (i =? n))).
  { intros [] x n Hn; simpl; [| by rewrite orb_false_r].
    by rewrite Z.lor_spec, testbit_pow2. }
  rewrite !Hl by lia. rewrite Z.testbit_0_l. simpl orb.
  destruct (decide (1 <= i <= 4)) as [Hr |].
  - assert (Hc : i = 1 \/ i = 2 \/ i = 3 \/ i = 4) by lia.
    destruct Hc as [-> | [-> | [-> | ->]]]; simpl; rewrite ?andb_true_r, ?andb_false_r; simpl;
      rewrite ?orb_false_r; done.
  - bool_cases; lia || (simpl; by rewrite ?andb_false_r).
Qed.

Lemma pte_perm_ext a b :
  (forall i, 1 <= i <= 4 -> Z.testbit a i = Z.testbit b i) -> pte_perm a = pte_perm b.
Proof.
  intros H. bitwise i. rewrite !pte_perm_spec by done.
  destruct (Z.leb_spec 1 i), (Z.leb_spec i 4); try done. simpl. apply H. lia.
Qed.

(** [pte_perm] of an entry whose bits 1 to 4 are those of a permission. *)
Lemma pte_perm_eq bits perm :
  perm_ok perm -> (forall i, 1 <= i <= 4 -> Z.testbit bits i = Z.testbit perm i) ->
  pte_perm bits = perm.
Proof.
  intros Hp H. bitwise i. rewrite pte_perm_spec by done.
  destruct (Z.leb_spec 1 i), (Z.leb_spec i 4); simpl.
  - apply H. lia.
  - symmetry. apply perm_ok_high; [done | done | lia].
  - symmetry. apply perm_ok_high; [done | done | lia].
  - lia.
Qed.

Lemma pte_perm_ok bits : perm_ok (pte_perm bits).
Proof.
  assert (H0 : 0 <= pte_perm bits).
  { unfold pte_perm, perm_of_flags. repeat case_match; by vm_compute. }
  split; [done |]. bitwise i. rewrite Z.ldiff_spec, MP_all_spec, pte_perm_spec, Z.testbit_0_l by done.
  by destruct ((1 <=? i) && (i <=? 4)); simpl; rewrite ?andb_false_r.
Qed.
