(* ===== verification/Sv39Tree.v ===== *)
(** * Correctness of the Sv39 page table

    The tables reachable from the root form a tree, described by a map from
    index paths (of length at most two) to the frames that hold the tables. The
    tree invariant is preserved by every method, and the methods implement the
    laws of [PageTableSpec]. *)

From S2P Require Import Prelude Address Phys FrameAlloc PageTable Sv39.

Definition idx_ok (i : Z) : Prop := 0 <= i < 512.

Lemma indexes3 vpn : exists i0 i1 i2,
  indexes 3 vpn = [i0; i1; i2] /\ idx_ok i0 /\ idx_ok i1 /\ idx_ok i2.
Proof.
  unfold indexes. cbn [replicate indexes_loop].
  eexists _, _, _. split; [reflexivity |]. unfold idx_ok.
  change 511 with (Z.ones 9). rewrite !land_ones_mod by lia. lia.
Qed.

(** ** Entries after an update *)

Lemma land_not64_spec bits n i :
  u64 bits -> 0 <= n < 64 -> 0 <= i ->
  Z.testbit (Z.land bits (not64 (2 ^ n))) i = Z.testbit bits i && negb (i =? n).
Proof.
  intros Hb Hn Hi. rewrite Z.land_spec, not64_spec, testbit_pow2 by lia.
  destruct (Z.ltb_spec i 64).
  - by rewrite xorb_true_r.
  - by rewrite (fits_testbit_high 64 bits i).
Qed.

Lemma revoke_write_fields bits :
  u64 bits ->
  u64 (pte_revoke_write bits) /\ pte_is_valid (pte_revoke_write bits) = pte_is_valid bits /\
  pte_ppn (pte_revoke_write bits) = pte_ppn bits /\
  pte_perm (pte_revoke_write bits) = flags_difference (pte_perm bits) MP_W.
Proof.
  intros Hb. unfold pte_revoke_write. change PTE_W with (2 ^ 2).
  split_and!; [by apply fits_land_l | | |].
  - rewrite !pte_is_valid_bit, land_not64_spec by lia || done. simpl. by rewrite andb_true_r.
  - apply pte_ppn_ext. intros i Hi. rewrite land_not64_spec by lia || done.
    destruct (Z.eqb_spec i 2); [lia |]. by rewrite andb_true_r.
  - unfold flags_difference. bitwise i. rewrite Z.ldiff_spec, !pte_perm_spec, land_not64_spec by lia || done.
    change MP_W with (2 ^ 2). rewrite testbit_pow2 by lia. by rewrite andb_assoc.
Qed.

Lemma set_permission_spec bits perm i :
  u64 bits -> perm_ok perm -> 0 <= i ->
  Z.testbit (pte_set_permission bits perm) i =
  if (1 <=? i) && (i <=? 4) then Z.testbit perm i else Z.testbit bits i.
Proof.
  intros Hb Hp Hi. unfold pte_set_permission. rewrite Z.lor_spec, Z.land_spec.
  change 0xffffffffffffffe1 with (not64 MP_all).
  rewrite not64_spec, MP_all_spec by done.
  destruct (Z.leb_spec 1 i), (Z.leb_spec i 4); simpl.
  - destruct (Z.ltb_spec i 64); [| lia]. by rewrite andb_false_r.
  - rewrite (perm_ok_high perm i), orb_false_r by lia || done.
    destruct (Z.ltb_spec i 64); [by rewrite andb_true_r |].
    by rewrite (fits_testbit_high 64 bits i).
  - rewrite (perm_ok_high perm i), orb_false_r by lia || done.
    destruct (Z.ltb_spec i 64); [by rewrite andb_true_r | lia].
  - lia.
Qed.

Lemma set_ppn_spec bits ppn i :
  u64 bits -> 0 <= i ->
  Z.testbit (pte_set_ppn bits ppn) i =
  if (10 <=? i) && (i <? 54) then Z.testbit ppn (i - 10) else Z.testbit bits i.
Proof.
  intros Hb Hi. unfold pte_set_ppn. rewrite Z.lor_spec, !Z.land_spec, not64_spec by done.
  rewrite testbit_wrapn, Z.shiftl_spec, PPN_MASK_spec by lia.
  destruct (Z.leb_spec 10 i), (Z.ltb_spec i 54), (Z.ltb_spec i 64); try lia; simpl;
    rewrite ?andb_true_r, ?andb_false_r, ?orb_false_r; try done.
  by rewrite (fits_testbit_high 64 bits i).
Qed.

Lemma set_ppn_fields bits ppn :
  u64 bits -> ppn_ok ppn ->
  u64 (pte_set_ppn bits ppn) /\ pte_is_valid (pte_set_ppn bits ppn) = pte_is_valid bits /\
  pte_ppn (pte_set_ppn bits ppn) = ppn /\ pte_perm (pte_set_ppn bits ppn) = pte_perm bits.
Proof.
  intros Hb Hp. split_and!.
  - apply fits_lor; [lia | by apply fits_land_l | apply fits_land_l; [lia | apply wrap64_bound]].
  - by rewrite !pte_is_valid_bit, set_ppn_spec by (done || lia).
  - bitwise i. rewrite pte_ppn_spec, set_ppn_spec by (done || lia).
    destruct (Z.ltb_spec i 44).
    + destruct (Z.leb_spec 10 (i + 10)), (Z.ltb_spec (i + 10) 54); try lia.
      simpl. by replace (i + 10 - 10) with i by lia.
    + simpl. symmetry. by apply (fits_testbit_high 44).
  - apply pte_perm_ext. intros i Hi. rewrite set_ppn_spec by (done || lia).
    by destruct (Z.leb_spec 10 i); [lia |].
Qed.

Lemma set_permission_fields bits perm :
  u64 bits -> perm_ok perm ->
  u64 (pte_set_permission bits perm) /\
  pte_is_valid (pte_set_permission bits perm) = pte_is_valid bits /\
  pte_ppn (pte_set_permission bits perm) = pte_ppn bits /\
  pte_perm (pte_set_permission bits perm) = perm.
Proof.
  intros Hb Hp. split_and!.
  - apply fits_lor; [lia | by apply fits_land_l |].
    apply perm_ok_fits in Hp. unfold fits in *. lia.
  - by rewrite !pte_is_valid_bit, set_permission_spec by lia || done.
  - apply pte_ppn_ext. intros i Hi. rewrite set_permission_spec by lia || done.
    destruct (Z.leb_spec 1 i), (Z.leb_spec i 4); lia || done.
  - apply pte_perm_eq; [done |]. intros i Hi. rewrite set_permission_spec by lia || done.
    destruct (Z.leb_spec 1 i), (Z.leb_spec i 4); lia || done.
Qed.

(** The entry [map] writes. *)
Lemma mapped_entry_fields ppn perm :
  ppn_ok ppn -> perm_ok perm ->
  let e := pte_new ppn (Z.lor (Z.lor (Z.lor perm PTE_V) PTE_A) PTE_D) in
  u64 e /\ pte_is_valid e = true /\ pte_ppn e = ppn /\ pte_perm e = perm.
Proof.
  intros Hp Hq e.
  assert (Hf : fits 8 (Z.lor (Z.lor (Z.lor perm PTE_V) PTE_A) PTE_D)).
  { repeat (apply fits_lor; [lia | | by vm_compute]). by apply perm_ok_fits. }
  split_and!; [by apply pte_new_fits | | by apply pte_new_ppn |].
  - unfold e. rewrite pte_is_valid_bit, pte_new_spec, !Z.lor_spec by lia || done.
    simpl. by rewrite orb_true_r.
  - apply pte_perm_eq; [done |]. intros i Hi. unfold e.
    rewrite pte_new_spec, !Z.lor_spec by lia || done.
    assert (Hc : i = 1 \/ i = 2 \/ i = 3 \/ i = 4) by lia.
    destruct Hc as [-> | [-> | [-> | ->]]]; simpl; by rewrite !orb_false_r.
Qed.

Lemma table_entry_fields f :
  ppn_ok f -> u64 (pte_new f PTE_V) /\ pte_is_valid (pte_new f PTE_V) = true /\
              pte_ppn (pte_new f PTE_V) = f.
Proof.
  intros Hf. assert (Hv : fits 8 PTE_V) by by vm_compute.
  split_and!; [by apply pte_new_fits | | by apply pte_new_ppn].
  by rewrite pte_is_valid_bit, pte_new_spec by lia || done.
Qed.

Lemma zero_invalid : pte_is_valid 0 = false.
Proof. reflexivity. Qed.

(** ** The tree of tables *)

Record sv_tree (root : Z) (m : memory) (tb : gmap (list Z) Z) : Prop := {
  tr_root : tb !! [] = Some root;
  tr_inj : forall p q t, tb !! p = Some t -> tb !! q = Some t -> p = q;
  tr_path : forall p t, tb !! p = Some t -> (length p <= 2)%nat /\ ppn_ok t;
  tr_parent : forall p i, tb !! p = None -> tb !! (p ++ [i]) = None;
  tr_entry : forall p t i, tb !! p = Some t -> (length p < 2)%nat -> idx_ok i ->
    tb !! (p ++ [i]) =
    if pte_is_valid (get_dword m t i) then Some (pte_ppn (get_dword m t i)) else None
}.

(** The walk follows the tree. *)
Lemma find_pte_tree root m tb i0 i1 i2 :
  sv_tree root m tb -> idx_ok i0 -> idx_ok i1 ->
  find_pte_loop m [i0; i1; i2] root =
  match tb !! [i0; i1] with
  | Some t => if pte_is_valid (get_dword m t i2) then Some (t, i2) else None
  | None => None
  end.
Proof.
  intros Ht H0 H1. pose proof (tr_entry _ _ _ Ht [] root i0 (tr_root _ _ _ Ht) ltac:(simpl; lia) H0) as E0.
  simpl in E0. cbn [find_pte_loop]. destruct (pte_is_valid (get_dword m root i0)); simpl.
  - pose proof (tr_entry _ _ _ Ht [i0] _ i1 E0 ltac:(simpl; lia) H1) as E1. simpl in E1.
    rewrite E1. destruct (pte_is_valid (get_dword m (pte_ppn _) i1)); simpl; [| done].
    by destruct (pte_is_valid (get_dword m (pte_ppn (get_dword m (pte_ppn _) i1)) i2)).
  - pose proof (tr_parent _ _ _ Ht [i0] i1 E0) as E1. simpl in E1. by rewrite E1.
Qed.

Definition key_ok (k : list Z) : Prop := length k = 3%nat /\ Forall idx_ok k.

#[export] Instance key_ok_dec k : Decision (key_ok k).
Proof. unfold key_ok, idx_ok. apply _. Defined.

(** What a leaf entry means. *)
Definition entry_view (m : memory) (s : Z * Z) : Z * Z :=
  (pte_ppn (get_dword m s.1 s.2), pte_perm (get_dword m s.1 s.2)).

Definition sv_view (pt : Sv39PageTable) (w : Phys) (k : list Z) : option (Z * Z) :=
  if decide (key_ok k) then entry_view (pmem w) <$> find_pte_loop (pmem w) k (root_ppn pt)
  else None.

Definition sv_frame_set (pt : Sv39PageTable) : gset Z := list_to_set (sv_frames pt).

Definition sv_inv (base : Z) (raw : gset Z) (pt : Sv39PageTable) (w : Phys) : Prop :=
  phys_inv base raw w /\
  (forall f, f ∈ sv_frame_set pt -> prc w !! f = Some 1%nat) /\
  exists tb, sv_tree (root_ppn pt) (pmem w) tb /\
    (forall p t, tb !! p = Some t -> t ∈ sv_frame_set pt).

Lemma key_ok_inv k : key_ok k ->
  exists i0 i1 i2, k = [i0; i1; i2] /\ idx_ok i0 /\ idx_ok i1 /\ idx_ok i2.
Proof.
  intros [Hl Hf]. destruct k as [| i0 [| i1 [| i2 [|]]]]; try done.
  inversion Hf as [| ? ? H0 Hf1]; subst. inversion Hf1 as [| ? ? H1 Hf2]; subst.
  inversion Hf2; subst. eauto 10.
Qed.

Lemma key_ok_indexes vpn : key_ok (indexes 3 vpn).
Proof.
  destruct (indexes3 vpn) as (i0 & i1 & i2 & -> & H0 & H1 & H2).
  split; [done |]. by rewrite !Forall_cons.
Qed.

#[export] Hint Resolve key_ok_indexes : kernel.

(** The view through the tree: the leaf table of the path, then the entry. *)
Lemma sv_view_tree pt w tb i0 i1 i2 :
  sv_tree (root_ppn pt) (pmem w) tb -> idx_ok i0 -> idx_ok i1 -> idx_ok i2 ->
  sv_view pt w [i0; i1; i2] =
  match tb !! [i0; i1] with
  | Some t => if pte_is_valid (get_dword (pmem w) t i2)
              then Some (entry_view (pmem w) (t, i2)) else None
  | None => None
  end.
Proof.
  intros Ht H0 H1 H2. unfold sv_view. rewrite decide_True by (split; [done | by rewrite !Forall_cons]).
  rewrite (find_pte_tree _ _ tb) by done. destruct (tb !! [i0; i1]) as [t |]; [| done].
  by destruct (pte_is_valid _).
Qed.

(** The tree and the view only read the tables. *)
Lemma sv_tree_stable root m m' tb :
  sv_tree root m tb -> (forall p t, tb !! p = Some t -> page_eq m' m t) -> sv_tree root m' tb.
Proof.
  intros Ht He. constructor; try apply Ht.
  intros p t i Hp Hl Hi. rewrite (tr_entry _ _ _ Ht p t i Hp Hl Hi).
  rewrite (get_dword_page_eq m' m); [done | by eapply tr_path | done | by eapply He].
Qed.

Lemma sv_view_stable pt w w' tb k :
  sv_tree (root_ppn pt) (pmem w) tb -> (forall p t, tb !! p = Some t -> page_eq (pmem w') (pmem w) t) ->
  sv_view pt w' k = sv_view pt w k.
Proof.
  intros Ht He. destruct (decide (key_ok k)) as [Hk |]; [| unfold sv_view; by rewrite !decide_False].
  apply key_ok_inv in Hk as (i0 & i1 & i2 & -> & H0 & H1 & H2).
  rewrite (sv_view_tree pt w tb), (sv_view_tree pt w' tb); try done; [| by eapply sv_tree_stable].
  destruct (tb !! [i0; i1]) as [t |] eqn:E; [| done].
  unfold entry_view. simpl.
  by rewrite (get_dword_page_eq (pmem w') (pmem w)) by (done || by eapply tr_path || by eapply He).
Qed.

(** Rewriting one leaf entry. *)
Lemma leaf_store_tree root m tb i0 i1 i2 t v :
  sv_tree root m tb -> tb !! [i0; i1] = Some t -> idx_ok i2 ->
  sv_tree root (put_dword m t i2 v) tb.
Proof.
  intros Ht Hp Hi. constructor; try apply Ht.
  intros q t' i Hq Hl Hi'. rewrite (tr_entry _ _ _ Ht q t' i Hq Hl Hi').
  rewrite get_put_dword_ne; [done | by eapply tr_path | by eapply tr_path | done | done |].
  left. intros <-. pose proof (tr_inj _ _ _ Ht _ _ _ Hp Hq) as <-. simpl in Hl. lia.
Qed.

Lemma leaf_store_view pt w tb i0 i1 i2 t v k :
  sv_tree (root_ppn pt) (pmem w) tb -> tb !! [i0; i1] = Some t ->
  idx_ok i0 -> idx_ok i1 -> idx_ok i2 -> u64 v ->
  sv_view pt (store_pte w (t, i2) v) k =
  if decide (k = [i0; i1; i2])
  then (if pte_is_valid v then Some (pte_ppn v, pte_perm v) else None)
  else sv_view pt w k.
Proof.
  intros Ht Hp H0 H1 H2 Hv.
  destruct (decide (key_ok k)) as [Hk | Hk].
  2: { rewrite decide_False by (intros ->; apply Hk; split; [done | by rewrite !Forall_cons]).
       unfold sv_view. by rewrite !decide_False. }
  apply key_ok_inv in Hk as (j0 & j1 & j2 & -> & K0 & K1 & K2).
  rewrite (sv_view_tree pt (store_pte w (t, i2) v) tb); try done;
    [| by eapply leaf_store_tree].
  rewrite (sv_view_tree pt w tb) by done. unfold entry_view, store_pte, with_mem. simpl.
  destruct (decide ([j0; j1; j2] = [i0; i1; i2])) as [[= -> -> ->] | Hne].
  - rewrite Hp. by rewrite get_put_dword.
  - destruct (tb !! [j0; j1]) as [t' |] eqn:E; [| done].
    rewrite get_put_dword_ne; [done | by eapply tr_path | by eapply tr_path | done | done |].
    destruct (decide (t = t')) as [<- |]; [right | by left]. intros ->.
    pose proof (tr_inj _ _ _ Ht _ _ _ Hp E) as [= -> ->]. done.
Qed.

(** Creating the table below a missing entry: the new frame is cleared, so the
    tree grows by one table without entries and no mapping changes. *)
Section Grow.
Context (root : Z) (m : memory) (tb : gmap (list Z) Z) (p : list Z) (t i f : Z).
Context (Ht : sv_tree root m tb) (Hp : tb !! p = Some t) (Hl : (length p < 2)%nat).
Context (Hi : idx_ok i) (Hinv : pte_is_valid (get_dword m t i) = false).
Context (Hf : ppn_ok f) (Hfresh : forall q t', tb !! q = Some t' -> t' <> f).

Let m' := put_dword (FrameTracker_new m f) t i (pte_new f PTE_V).

Lemma grow_old q t' j :
  tb !! q = Some t' -> idx_ok j -> q <> p \/ j <> i ->
  get_dword m' t' j = get_dword m t' j.
Proof.
  intros Hq Hj Hne. unfold m'.
  rewrite get_put_dword_ne; [| by eapply tr_path | by eapply tr_path | done | done |].
  - apply get_dword_page_eq; [by eapply tr_path | done |].
    apply FrameTracker_new_page_eq; [done |]. by eapply not_eq_sym, Hfresh.
  - destruct (decide (t = t')) as [<- |]; [right | by left].
    pose proof (tr_inj _ _ _ Ht _ _ _ Hp Hq) as <-. naive_solver.
Qed.

Lemma grow_slot : get_dword m' t i = pte_new f PTE_V.
Proof. apply get_put_dword. by apply table_entry_fields. Qed.

Lemma grow_new j : idx_ok j -> get_dword m' f j = 0.
Proof.
  intros Hj. unfold m'.
  rewrite get_put_dword_ne; [| by eapply tr_path | done | done | done |].
  - by apply FrameTracker_new_dword.
  - left. by eapply Hfresh.
Qed.

Lemma grow_missing : tb !! (p ++ [i]) = None.
Proof. by rewrite (tr_entry _ _ _ Ht p t i Hp Hl Hi), Hinv. Qed.

Lemma grow_tree : sv_tree root m' (<[p ++ [i] := f]> tb).
Proof.
  assert (Hchild : forall q, tb !! (p ++ [i] ++ q) = None \/ q = []).
  { intros q. destruct q as [| j q _] using rev_ind; [by right | left].
    revert j. induction q as [| j' q IH] using rev_ind; intros j.
    - rewrite app_nil_l, app_assoc. apply (tr_parent _ _ _ Ht), grow_missing.
    - rewrite !app_assoc. apply (tr_parent _ _ _ Ht). rewrite <- !app_assoc. apply IH. }
  constructor.
  - rewrite lookup_insert_ne by (by destruct p). apply Ht.
  - intros q q' t'. rewrite !lookup_insert_Some.
    intros [[<- <-] | [? Hq]] [[<- Ef] | [? Hq']]; try done.
    + by apply Hfresh in Hq'.
    + subst. by apply Hfresh in Hq.
    + by eapply tr_inj.
  - intros q t'. rewrite lookup_insert_Some. intros [[<- <-] | [_ Hq]].
    + rewrite length_app. simpl. split; [lia | done].
    + by eapply tr_path.
  - intros q j. rewrite lookup_insert_None. intros [Hq Hqp]. apply lookup_insert_None.
    split; [by apply (tr_parent _ _ _ Ht) |].
    intros [-> _]%app_inj_tail. congruence.
  - intros q t' j. rewrite lookup_insert_Some. intros [[<- <-] | [Hne Hq]] Hlq Hj.
    + rewrite grow_new by done. rewrite zero_invalid, lookup_insert_ne.
      * rewrite <- app_assoc. by destruct (Hchild [j]).
      * intros E. apply (f_equal length) in E. rewrite !length_app in E. simpl in E. lia.
    + destruct (decide (q = p /\ j = i)) as [[-> ->] | Hnj].
      * assert (t' = t) as -> by congruence. rewrite grow_slot, lookup_insert_eq.
        destruct (table_entry_fields f Hf) as (_ & -> & ->). done.
      * rewrite lookup_insert_ne.
        -- rewrite (grow_old q); [by apply Ht | done | done |].
           destruct (decide (q = p)) as [-> |]; [right | by left].
           intros ->. by apply Hnj.
        -- intros [<- <-]%app_inj_tail. by apply Hnj.
Qed.
End Grow.

Lemma grow_view pt w w' tb p t i f k :
  sv_tree (root_ppn pt) (pmem w) tb -> tb !! p = Some t -> (length p < 2)%nat -> idx_ok i ->
  pte_is_valid (get_dword (pmem w) t i) = false -> ppn_ok f ->
  (forall q t', tb !! q = Some t' -> t' <> f) ->
  pmem w' = put_dword (FrameTracker_new (pmem w) f) t i (pte_new f PTE_V) ->
  sv_view pt w' k = sv_view pt w k.
Proof.
  intros Ht Hp Hl Hi Hinv Hf Hfresh Hm.
  destruct (decide (key_ok k)) as [Hk |]; [| unfold sv_view; by rewrite !decide_False].
  apply key_ok_inv in Hk as (j0 & j1 & j2 & -> & K0 & K1 & K2).
  rewrite (sv_view_tree pt w tb) by done.
  rewrite (sv_view_tree pt w' (<[p ++ [i] := f]> tb));
    [| rewrite Hm; by apply grow_tree | assumption..].
  rewrite Hm. unfold entry_view. simpl.
  destruct (decide (p ++ [i] = [j0; j1])) as [E | Hne].
  - rewrite E, lookup_insert_eq. rewrite (grow_new _ _ tb p) by done. rewrite zero_invalid.
    rewrite <- E. by rewrite (grow_missing (root_ppn pt) (pmem w) tb p t).
  - rewrite lookup_insert_ne by done. destruct (tb !! [j0; j1]) as [t' |] eqn:E; [| done].
    rewrite (grow_old (root_ppn pt) (pmem w) tb p t i f) with (q := [j0; j1]); [done.. |].
    left. intros <-. simpl in Hl. lia.
Qed.

(** What changes when [find_pte_create] adds tables. *)
Record sv_ext (raw : gset Z) (pt : Sv39PageTable) (w : Phys) (pt' : Sv39PageTable) (w' : Phys)
    : Prop := {
  ext_root : root_ppn pt' = root_ppn pt;
  ext_mono : sv_frame_set pt ⊆ sv_frame_set pt';
  ext_new : forall p, p ∈ sv_frame_set pt' -> p ∈ sv_frame_set pt \/ is_free raw w p;
  ext_frame : forall p, p ∉ sv_frame_set pt' ->
    page_eq (pmem w') (pmem w) p /\ prc w' !! p = prc w !! p
}.

Lemma sv_ext_refl raw pt w : sv_ext raw pt w pt w.
Proof. constructor; [done | done | by left | auto with kernel]. Qed.

Lemma sv_ext_trans raw pt w pt1 w1 pt2 w2 :
  (forall f, f ∈ sv_frame_set pt1 -> is_Some (prc w1 !! f)) ->
  sv_ext raw pt w pt1 w1 -> sv_ext raw pt1 w1 pt2 w2 -> sv_ext raw pt w pt2 w2.
Proof.
  intros Hlive [R1 M1 N1 F1] [R2 M2 N2 F2]. constructor.
  - congruence.
  - set_solver.
  - intros p Hp. destruct (N2 p Hp) as [Hp1 | Hf]; [by apply N1 |].
    destruct (decide (p ∈ sv_frame_set pt1)) as [Hin | Hout]; [by apply N1 |].
    right. unfold is_free in *. intros Hd. apply Hf.
    apply elem_of_union in Hd as [Hd | Hd]; [| by apply elem_of_union_r].
    apply elem_of_union_l, elem_of_dom. rewrite (proj2 (F1 p Hout)). by apply elem_of_dom.
  - intros p Hp. destruct (F2 p Hp) as [Q2 C2]. destruct (F1 p) as [Q1 C1]; [set_solver |].
    split; [by eapply page_eq_trans | congruence].
Qed.

Definition sv_inv_tb (base : Z) (raw : gset Z) (pt : Sv39PageTable) (w : Phys)
    (tb : gmap (list Z) Z) : Prop :=
  phys_inv base raw w /\
  (forall f, f ∈ sv_frame_set pt -> prc w !! f = Some 1%nat) /\
  sv_tree (root_ppn pt) (pmem w) tb /\ (forall p t, tb !! p = Some t -> t ∈ sv_frame_set pt).

Lemma sv_frame_set_push pt f :
  sv_frame_set (mkSv39 (root_ppn pt) (sv_frames pt ++ [f])) = sv_frame_set pt ∪ {[f]}.
Proof. unfold sv_frame_set. simpl. rewrite list_to_set_app_L. set_solver. Qed.

(** One level of [find_pte_create]. *)
Lemma find_pte_create_step oom base raw pt w tb p t i j rest :
  sv_inv_tb base raw pt w tb -> tb !! p = Some t -> (length p < 2)%nat -> idx_ok i ->
  1 <= fa_unallocated_frames (pfa w) ->
  exists pt' w' tb' t',
    find_pte_create_loop oom (i :: j :: rest) t pt w =
      find_pte_create_loop oom (j :: rest) t' pt' w' /\
    sv_inv_tb base raw pt' w' tb' /\ tb' !! (p ++ [i]) = Some t' /\
    sv_ext raw pt w pt' w' /\ (forall k, sv_view pt' w' k = sv_view pt w k) /\
    fa_unallocated_frames (pfa w) - 1 <= fa_unallocated_frames (pfa w')
      <= fa_unallocated_frames (pfa w).
Proof.
  intros (Hi & Hc & Ht & Hin) Hp Hl Hix Hfree.
  cbn [find_pte_create_loop]. pose proof (tr_entry _ _ _ Ht p t i Hp Hl Hix) as He.
  destruct (pte_is_valid (get_dword (pmem w) t i)) eqn:Hv.
  - exists pt, w, tb, (pte_ppn (get_dword (pmem w) t i)).
    split_and!; [done.. | apply sv_ext_refl | done | lia | lia].
  - destruct (frame_alloc_ok oom _ _ _ Hi ltac:(lia)) as (f & w1 & E & Hfr & Hfk & Hm & Hr & Hi1 & Hu).
    rewrite E. destruct (table_entry_fields f Hfk) as (_ & _ & Hpp). rewrite Hpp.
    assert (Hnf : f ∉ sv_frame_set pt).
    { intros Hf%Hc. apply Hfr, elem_of_union_l, elem_of_dom. eauto. }
    assert (Hfresh : forall q t', tb !! q = Some t' -> t' <> f)
      by (intros q t' Hq ->; exact (Hnf (Hin _ _ Hq))).
    pose proof (sv_frame_set_push pt f) as Hset.
    eexists _, _, (<[p ++ [i] := f]> tb), f. split; [reflexivity |].
    set (w' := with_mem _ w1).
    assert (Hm' : pmem w' = put_dword (FrameTracker_new (pmem w) f) t i (pte_new f PTE_V))
      by exact (f_equal (fun m => put_dword m t i (pte_new f PTE_V)) Hm).
    split_and!.
    + unfold sv_inv_tb. rewrite Hset. split_and!; [by apply phys_inv_with_mem | | |].
      * intros g [Hg | ->%elem_of_singleton]%elem_of_union; simpl; rewrite Hr.
        -- rewrite lookup_insert_ne by (intros ->; exact (Hnf Hg)). by apply Hc.
        -- apply lookup_insert_eq.
      * rewrite Hm'. by apply grow_tree.
      * intros q t'. rewrite lookup_insert_Some. intros [[_ <-] | [_ Hq]].
        -- by apply elem_of_union_r, elem_of_singleton.
        -- apply elem_of_union_l. by eapply Hin.
    + apply lookup_insert_eq.
    + constructor; rewrite ?Hset; [done | apply union_subseteq_l | |].
      * intros g [Hg | ->%elem_of_singleton]%elem_of_union; [by left | by right].
      * intros g [Hg Hgf]%not_elem_of_union. rewrite Hm'.
        rewrite not_elem_of_singleton in Hgf. split.
        -- apply page_eq_trans with (FrameTracker_new (pmem w) f).
           ++ apply put_dword_page_eq; [by eapply tr_path | done |].
              intros <-. exact (Hg (Hin _ _ Hp)).
           ++ apply FrameTracker_new_page_eq; congruence.
        -- simpl. rewrite Hr. apply lookup_insert_ne. congruence.
    + intros k. change (sv_view (mkSv39 _ _) w' k) with (sv_view pt w' k).
      exact (grow_view pt w w' tb p t i f k Ht Hp Hl Hix Hv Hfk Hfresh Hm').
    + unfold w'. simpl. lia.
    + unfold w'. simpl. lia.
Qed.

(** [find_pte_create] reaches the leaf slot. *)
Lemma find_pte_create_ok oom base raw pt w vpn i0 i1 i2 :
  sv_inv base raw pt w -> indexes 3 vpn = [i0; i1; i2] ->
  idx_ok i0 -> idx_ok i1 -> idx_ok i2 -> 2 <= fa_unallocated_frames (pfa w) ->
  exists pt' w' tb' t,
    find_pte_create oom pt w vpn = Some ((t, i2), pt', w') /\
    sv_inv_tb base raw pt' w' tb' /\ tb' !! [i0; i1] = Some t /\
    sv_ext raw pt w pt' w' /\ (forall k, sv_view pt' w' k = sv_view pt w k) /\
    fa_unallocated_frames (pfa w) - 2 <= fa_unallocated_frames (pfa w')
      <= fa_unallocated_frames (pfa w).
Proof.
  intros (Hi & Hc & tb & Ht & Hin) Hidx H0 H1 H2 Hu. unfold find_pte_create. rewrite Hidx.
  destruct (find_pte_create_step oom base raw pt w tb [] (root_ppn pt) i0 i1 [i2])
    as (pt1 & w1 & tb1 & t1 & E1 & I1 & L1 & X1 & V1 & U1);
    [done | apply Ht | simpl; lia | done | lia |].
  destruct (find_pte_create_step oom base raw pt1 w1 tb1 [i0] t1 i1 i2 [])
    as (pt2 & w2 & tb2 & t2 & E2 & I2 & L2 & X2 & V2 & U2);
    [done | done | simpl; lia | done | lia |].
  exists pt2, w2, tb2, t2. rewrite E1, E2. split_and!; [done | done | done | | | lia | lia].
  - eapply sv_ext_trans; [| done | done]. intros g Hg. apply I1 in Hg. eauto.
  - intros k. by rewrite V2, V1.
Qed.

(** ** The laws of the interface *)

Lemma sv_inv_stable base raw pt w w' :
  sv_inv base raw pt w -> phys_inv base raw w' ->
  (forall p, p ∈ sv_frame_set pt -> page_eq (pmem w') (pmem w) p /\ prc w' !! p = Some 1%nat) ->
  sv_inv base raw pt w' /\ forall k, sv_view pt w' k = sv_view pt w k.
Proof.
  intros (Hi & Hc & tb & Ht & Hin) Hi' Hs.
  assert (He : forall p t, tb !! p = Some t -> page_eq (pmem w') (pmem w) t).
  { intros p t Hp. by apply Hs, (Hin p). }
  split; [| intros k; by eapply sv_view_stable].
  split; [done |]. split; [intros f Hf; by apply Hs |].
  exists tb. split; [| done]. by eapply sv_tree_stable.
Qed.

(** The slot of a page number: found in a leaf table, or not mapped. *)
Lemma find_pte_cases base raw pt w vpn :
  sv_inv base raw pt w ->
  match find_pte pt w vpn with
  | Some s =>
      exists tb i0 i1, sv_inv_tb base raw pt w tb /\ indexes 3 vpn = [i0; i1; s.2] /\
        idx_ok i0 /\ idx_ok i1 /\ idx_ok s.2 /\ tb !! [i0; i1] = Some s.1 /\
        pte_is_valid (load_pte w s) = true /\
        sv_view pt w (indexes 3 vpn) = Some (entry_view (pmem w) s)
  | None => sv_view pt w (indexes 3 vpn) = None
  end.
Proof.
  intros (Hi & Hc & tb & Ht & Hin).
  destruct (indexes3 vpn) as (i0 & i1 & i2 & E & H0 & H1 & H2).
  unfold find_pte. rewrite E, (sv_view_tree pt w tb) by done.
  rewrite (find_pte_tree _ _ tb) by done.
  destruct (tb !! [i0; i1]) as [t |] eqn:Et; [| done].
  destruct (pte_is_valid (get_dword (pmem w) t i2)) eqn:Ev; [| done].
  exists tb, i0, i1. by split_and!; [split_and! | ..].
Qed.

Lemma store_inv base raw pt w tb i0 i1 i2 t v :
  sv_inv_tb base raw pt w tb -> tb !! [i0; i1] = Some t -> idx_ok i2 ->
  sv_inv base raw pt (store_pte w (t, i2) v) /\
  (forall p, p ∉ sv_frame_set pt -> page_eq (pmem (store_pte w (t, i2) v)) (pmem w) p).
Proof.
  intros (Hi & Hc & Ht & Hin) Hp H2. split.
  - split; [by apply phys_inv_with_mem |]. split; [done |].
    exists tb. split; [by eapply leaf_store_tree | done].
  - intros p Hn. apply put_dword_page_eq; [by eapply tr_path | done |].
    intros <-. exact (Hn (Hin _ _ Hp)).
Qed.

(** An update of the entry of [vpn] that keeps it valid. *)
Lemma update_pte_ok base raw pt w vpn f :
  sv_inv base raw pt w ->
  (forall b, u64 b -> u64 (f b) /\ pte_is_valid (f b) = pte_is_valid b) ->
  let '(r, w') := update_pte f pt w vpn in
  r = (if sv_view pt w (indexes 3 vpn) then Ok tt else Err tt) /\ sv_inv base raw pt w' /\
  (forall k, sv_view pt w' k =
     if decide (k = indexes 3 vpn)
     then (fun s => (pte_ppn (f (load_pte w s)), pte_perm (f (load_pte w s))))
            <$> find_pte pt w vpn
     else sv_view pt w k) /\
  prc w' = prc w /\ pfa w' = pfa w /\
  (forall p, p ∉ sv_frame_set pt -> page_eq (pmem w') (pmem w) p).
Proof.
  intros Hi Hf. pose proof (find_pte_cases _ _ _ _ vpn Hi) as Hc.
  unfold update_pte. change (find_pte_refmut pt w vpn) with (find_pte pt w vpn).
  destruct (find_pte pt w vpn) as [[t i2] |].
  - destruct Hc as (tb & i0 & i1 & Htb & E & H0 & H1 & H2 & Hl & Hv & Hview). cbn [fst snd] in *.
    destruct (Hf (load_pte w (t, i2))) as [Hu Hv']; [apply get_dword_fits |].
    destruct (store_inv _ _ _ _ _ _ _ i2 _ (f (load_pte w (t, i2))) Htb Hl H2) as [Hs Hp].
    rewrite Hview. split_and!; [done | done | | done | done | done].
    intros k. rewrite (leaf_store_view pt w tb i0 i1 i2) by (done || apply Htb).
    rewrite <- E. rewrite Hv', Hv. done.
  - rewrite Hc. split_and!; [done | done | | done | done | intros; apply page_eq_refl].
    intros k. destruct (decide (k = indexes 3 vpn)) as [-> |]; [done | done].
Qed.

Lemma sv_token_root base raw pt w :
  sv_inv base raw pt w -> root_ppn (sv_from_token (sv_token pt)) = root_ppn pt.
Proof.
  intros (_ & _ & tb & Ht & _).
  pose proof (proj2 (tr_path _ _ _ Ht [] _ (tr_root _ _ _ Ht))) as Hk.
  unfold sv_from_token, sv_token. cbn [root_ppn]. change (Z.shiftl 1 44 - 1) with (Z.ones 44).
  bitwise i. rewrite Z.land_spec, Z.lor_spec, testbit_ones, Z.shiftl_spec by lia.
  destruct (Z.ltb_spec i 44).
  - rewrite (Z.testbit_neg_r 8 (i - 60)) by lia. by rewrite andb_true_r.
  - rewrite andb_false_r. symmetry. by apply (fits_testbit_high 44).
Qed.

Section Laws.
Context (oom : Z -> Phys -> Phys).

Lemma sv_translate_law base raw pt w vpn :
  sv_inv base raw pt w -> sv_translate pt w vpn = fst <$> sv_view pt w (indexes 3 vpn).
Proof.
  intros Hi. pose proof (find_pte_cases _ _ _ _ vpn Hi) as Hc. unfold sv_translate.
  destruct (find_pte pt w vpn) as [s |]; [| by rewrite Hc].
  destruct Hc as (? & ? & ? & _ & _ & _ & _ & _ & _ & _ & ->). done.
Qed.

Lemma sv_is_mapped_law base raw pt w vpn :
  sv_inv base raw pt w ->
  sv_is_mapped pt w vpn = bool_decide (is_Some (sv_view pt w (indexes 3 vpn))).
Proof.
  intros Hi. pose proof (find_pte_cases _ _ _ _ vpn Hi) as Hc. unfold sv_is_mapped.
  destruct (find_pte pt w vpn) as [s |].
  - destruct Hc as (? & ? & ? & _ & _ & _ & _ & _ & _ & -> & ->).
    symmetry. apply bool_decide_eq_true. eauto.
  - rewrite Hc. symmetry. apply bool_decide_eq_false. by intros [].
Qed.

Lemma sv_translate_va_law base raw pt w va :
  sv_inv base raw pt w ->
  sv_translate_va pt w va =
  (fun e => ppn_offset e.1 (va_page_offset va)) <$> sv_view pt w (indexes 3 (va_floor va)).
Proof.
  intros Hi. pose proof (find_pte_cases _ _ _ _ (va_floor va) Hi) as Hc. unfold sv_translate_va.
  destruct (find_pte pt w (va_floor va)) as [s |]; [| by rewrite Hc].
  destruct Hc as (? & ? & ? & _ & _ & _ & _ & _ & _ & _ & ->). done.
Qed.

Lemma sv_get_flags_law base raw pt w vpn :
  sv_inv base raw pt w -> sv_get_pte_flags pt w vpn = snd <$> sv_view pt w (indexes 3 vpn).
Proof.
  intros Hi. pose proof (find_pte_cases _ _ _ _ vpn Hi) as Hc. unfold sv_get_pte_flags.
  destruct (find_pte pt w vpn) as [s |]; [| by rewrite Hc].
  destruct Hc as (? & ? & ? & _ & _ & _ & _ & _ & _ & _ & ->). done.
Qed.

Lemma sv_map_law base raw pt w vpn ppn perm :
  sv_inv base raw pt w -> ppn_ok ppn -> perm_ok perm ->
  sv_view pt w (indexes 3 vpn) = None -> 2 <= fa_unallocated_frames (pfa w) ->
  exists pt' w', sv_map oom pt w vpn ppn perm = Some (pt', w') /\ sv_inv base raw pt' w' /\
    (forall k, sv_view pt' w' k =
       if decide (k = indexes 3 vpn) then Some (ppn, perm) else sv_view pt w k) /\
    sv_frame_set pt ⊆ sv_frame_set pt' /\
    (forall p, p ∈ sv_frame_set pt' -> p ∈ sv_frame_set pt \/ is_free raw w p) /\
    (forall p, p ∉ sv_frame_set pt' ->
       page_eq (pmem w') (pmem w) p /\ prc w' !! p = prc w !! p) /\
    fa_unallocated_frames (pfa w) - 2 <= fa_unallocated_frames (pfa w')
      <= fa_unallocated_frames (pfa w).
Proof.
  intros Hi Hp Hq Hv Hu. destruct (indexes3 vpn) as (i0 & i1 & i2 & E & H0 & H1 & H2).
  destruct (find_pte_create_ok oom _ _ _ _ vpn i0 i1 i2 Hi E H0 H1 H2 Hu)
    as (pt' & w1 & tb & t & Ec & Htb & Hl & Hx & Hview & Hfree).
  unfold sv_map. rewrite Ec. cbn [mbind option_bind].
  assert (Hfreeslot : pte_is_valid (load_pte w1 (t, i2)) = false).
  { rewrite E, <- Hview, (sv_view_tree pt' w1 tb), Hl in Hv by (done || apply Htb).
    unfold load_pte. simpl. by destruct (pte_is_valid _). }
  rewrite Hfreeslot.
  destruct (mapped_entry_fields ppn perm Hp Hq) as (Hue & Hve & Hpe & Hme).
  destruct (store_inv _ _ _ _ _ _ _ i2 _
    (pte_new ppn (Z.lor (Z.lor (Z.lor perm PTE_V) PTE_A) PTE_D)) Htb Hl H2) as [Hs Hpg].
  eexists _, _. split; [reflexivity |]. split; [done |]. split.
  { intros k. rewrite (leaf_store_view pt' w1 tb i0 i1 i2) by (done || apply Htb).
    rewrite E, Hve, Hpe, Hme, Hview. done. }
  split; [apply Hx |]. split; [apply Hx |]. split; [| done].
  intros p Hn. destruct (ext_frame _ _ _ _ _ Hx p Hn) as [Q C].
  split; [| done]. eapply page_eq_trans; [by apply Hpg | done].
Qed.

Lemma sv_unmap_law base raw pt w vpn :
  sv_inv base raw pt w ->
  sv_inv base raw pt (sv_unmap pt w vpn) /\
  (forall k, sv_view pt (sv_unmap pt w vpn) k =
             if decide (k = indexes 3 vpn) then None else sv_view pt w k) /\
  prc (sv_unmap pt w vpn) = prc w /\ pfa (sv_unmap pt w vpn) = pfa w /\
  (forall p, p ∉ sv_frame_set pt -> page_eq (pmem (sv_unmap pt w vpn)) (pmem w) p).
Proof.
  intros Hi. pose proof (find_pte_cases _ _ _ _ vpn Hi) as Hc. unfold sv_unmap.
  change (find_pte_refmut pt w vpn) with (find_pte pt w vpn).
  destruct (find_pte pt w vpn) as [[t i2] |].
  - destruct Hc as (tb & i0 & i1 & Htb & E & H0 & H1 & H2 & Hl & _ & _). simpl in *.
    destruct (store_inv _ _ _ _ _ _ _ i2 _ pte_empty Htb Hl H2) as [Hs Hp].
    split_and!; [done | | done | done | done].
    intros k. rewrite (leaf_store_view pt w tb i0 i1 i2) by (done || apply Htb).
    rewrite <- E. done.
  - split_and!; [done | | done | done | intros; apply page_eq_refl].
    intros k. destruct (decide (k = indexes 3 vpn)) as [-> |]; done.
Qed.

Lemma sv_block_as_update pt w vpn :
  sv_block_and_ret_mut pt w vpn =
  ((fun s => pte_ppn (pte_revoke_write (load_pte w s))) <$> find_pte pt w vpn,
   (update_pte pte_revoke_write pt w vpn).2).
Proof.
  unfold sv_block_and_ret_mut, update_pte.
  change (find_pte_refmut pt w vpn) with (find_pte pt w vpn).
  destruct (find_pte pt w vpn) as [s |]; [| done]. simpl. do 2 f_equal.
  unfold load_pte, store_pte. simpl. rewrite get_put_dword; [done |].
  apply fits_land_l; [lia | apply get_dword_fits].
Qed.

Lemma sv_block_law base raw pt w vpn :
  sv_inv base raw pt w ->
  let '(r, w') := sv_block_and_ret_mut pt w vpn in
  r = fst <$> sv_view pt w (indexes 3 vpn) /\ sv_inv base raw pt w' /\
  (forall k, sv_view pt w' k =
             if decide (k = indexes 3 vpn)
             then (fun e => (e.1, flags_difference e.2 MP_W)) <$> sv_view pt w k
             else sv_view pt w k) /\
  prc w' = prc w /\ pfa w' = pfa w /\
  (forall p, p ∉ sv_frame_set pt -> page_eq (pmem w') (pmem w) p).
Proof.
  intros Hi. rewrite sv_block_as_update.
  pose proof (update_pte_ok _ _ _ _ vpn pte_revoke_write Hi) as Hu.
  destruct (update_pte pte_revoke_write pt w vpn) as [r w']. cbn [fst snd].
  destruct Hu as (_ & Hs & Hk & Hr & Hf & Hp).
  { intros b Hb. by destruct (revoke_write_fields b Hb) as (? & ? & _). }
  pose proof (find_pte_cases _ _ _ _ vpn Hi) as Hc.
  destruct (find_pte pt w vpn) as [s |].
  - destruct Hc as (tb & i0 & i1 & _ & _ & _ & _ & _ & _ & _ & Hview).
    destruct (revoke_write_fields (load_pte w s)) as (_ & _ & Hpp & Hpm);
      [apply get_dword_fits |].
    rewrite Hview. split_and!; [simpl; by rewrite Hpp | done | | done | done | done].
    intros k. rewrite Hk. destruct (decide (k = indexes 3 vpn)) as [-> |]; [| done].
    rewrite Hview. simpl. by rewrite Hpp, Hpm.
  - rewrite Hc. split_and!; [done | done | | done | done | done].
    intros k. rewrite Hk. destruct (decide (k = indexes 3 vpn)) as [-> |]; [| done].
    by rewrite Hc.
Qed.

Lemma sv_set_flags_law base raw pt w vpn perm :
  sv_inv base raw pt w -> perm_ok perm ->
  let '(r, w') := sv_set_pte_flags pt w vpn perm in
  r = (if sv_view pt w (indexes 3 vpn) then Ok tt else Err tt) /\ sv_inv base raw pt w' /\
  (forall k, sv_view pt w' k =
             if decide (k = indexes 3 vpn) then (fun e => (e.1, perm)) <$> sv_view pt w k
             else sv_view pt w k) /\
  prc w' = prc w /\ pfa w' = pfa w /\
  (forall p, p ∉ sv_frame_set pt -> page_eq (pmem w') (pmem w) p).
Proof.
  intros Hi Hq. unfold sv_set_pte_flags.
  pose proof (update_pte_ok _ _ _ _ vpn (fun b => pte_set_permission b perm) Hi) as Hu.
  destruct (update_pte _ pt w vpn) as [r w'].
  destruct Hu as (Hrr & Hs & Hk & Hr & Hf & Hp).
  { intros b Hb. by destruct (set_permission_fields b perm Hb Hq) as (? & ? & _). }
  split_and!; [done | done | | done | done | done].
  intros k. rewrite Hk. destruct (decide (k = indexes 3 vpn)) as [-> |]; [| done].
  pose proof (find_pte_cases _ _ _ _ vpn Hi) as Hc.
  destruct (find_pte pt w vpn) as [s |]; [| by rewrite Hc].
  destruct Hc as (tb & i0 & i1 & _ & _ & _ & _ & _ & _ & _ & Hview).
  destruct (set_permission_fields (load_pte w s) perm) as (_ & _ & Hpp & Hpm);
    [apply get_dword_fits | done |].
  rewrite Hview. simpl. by rewrite Hpp, Hpm.
Qed.

Lemma sv_set_ppn_law base raw pt w vpn ppn :
  sv_inv base raw pt w -> ppn_ok ppn ->
  let '(r, w') := sv_set_ppn pt w vpn ppn in
  r = (if sv_view pt w (indexes 3 vpn) then Ok tt else Err tt) /\ sv_inv base raw pt w' /\
  (forall k, sv_view pt w' k =
             if decide (k = indexes 3 vpn) then (fun e => (ppn, e.2)) <$> sv_view pt w k
             else sv_view pt w k) /\
  prc w' = prc w /\ pfa w' = pfa w /\
  (forall p, p ∉ sv_frame_set pt -> page_eq (pmem w') (pmem w) p).
Proof.
  intros Hi Hq. unfold sv_set_ppn.
  pose proof (update_pte_ok _ _ _ _ vpn (fun b => pte_set_ppn b ppn) Hi) as Hu.
  destruct (update_pte _ pt w vpn) as [r w'].
  destruct Hu as (Hrr & Hs & Hk & Hr & Hf & Hp).
  { intros b Hb. by destruct (set_ppn_fields b ppn Hb Hq) as (? & ? & _). }
  split_and!; [done | done | | done | done | done].
  intros k. rewrite Hk. destruct (decide (k = indexes 3 vpn)) as [-> |]; [| done].
  pose proof (find_pte_cases _ _ _ _ vpn Hi) as Hc.
  destruct (find_pte pt w vpn) as [s |]; [| by rewrite Hc].
  destruct Hc as (tb & i0 & i1 & _ & _ & _ & _ & _ & _ & _ & Hview).
  destruct (set_ppn_fields (load_pte w s) ppn) as (_ & _ & Hpp & Hpm);
    [apply get_dword_fits | done |].
  rewrite Hview. simpl. by rewrite Hpp, Hpm.
Qed.

Lemma sv_view_entry_ok pt w k e : sv_view pt w k = Some e -> ppn_ok e.1 /\ perm_ok e.2.
Proof.
  unfold sv_view. destruct (decide (key_ok k)); [| done].
  destruct (find_pte_loop _ _ _) as [s |]; [| done]. intros [= <-].
  split; [apply pte_ppn_ok | apply pte_perm_ok].
Qed.

Lemma sv_new_ok base raw w :
  phys_inv base raw w -> 1 <= fa_unallocated_frames (pfa w) ->
  exists pt w', sv_new oom w = Some (pt, w') /\ sv_inv base raw pt w' /\
    (forall k, sv_view pt w' k = None) /\
    (forall p, p ∈ sv_frame_set pt -> is_free raw w p) /\
    (forall p, p ∉ sv_frame_set pt -> page_eq (pmem w') (pmem w) p /\ prc w' !! p = prc w !! p) /\
    fa_unallocated_frames (pfa w') = fa_unallocated_frames (pfa w) - 1.
Proof.
  intros Hi Hu. destruct (frame_alloc_ok oom _ _ _ Hi ltac:(lia))
    as (f & w1 & E & Hfr & Hfk & Hm & Hr & Hi1 & Hu1).
  unfold sv_new. rewrite E. eexists _, _. split; [reflexivity |].
  assert (Ht : sv_tree f (pmem w1) {[ [] := f ]}).
  { constructor.
    - apply lookup_singleton_eq.
    - intros p q t. rewrite !lookup_singleton_Some. by intros [<- _] [<- _].
    - intros p t. rewrite lookup_singleton_Some. intros [<- <-]. split; [simpl; lia | done].
    - intros p i Hp. apply lookup_singleton_ne. by destruct p.
    - intros p t i. rewrite lookup_singleton_Some. intros [<- <-] _ Hi0.
      rewrite Hm, FrameTracker_new_dword by done. rewrite zero_invalid.
      by apply lookup_singleton_ne. }
  assert (Hset : forall p, p ∈ sv_frame_set (mkSv39 f [f]) <-> p = f).
  { intros p. unfold sv_frame_set. cbn [sv_frames].
    by rewrite list_to_set_singleton_L, elem_of_singleton. }
  split_and!; [| | intros p ->%Hset; done | | exact Hu1].
  - split; [done |]. split.
    + intros g ->%Hset. rewrite Hr. apply lookup_insert_eq.
    + exists {[ [] := f ]}. split; [done |]. intros p t.
      rewrite lookup_singleton_Some. intros [_ <-]. by apply Hset.
  - intros k. destruct (decide (key_ok k)) as [Hk |]; [| unfold sv_view; by rewrite decide_False].
    apply key_ok_inv in Hk as (i0 & i1 & i2 & -> & H0 & H1 & H2).
    rewrite (sv_view_tree _ _ {[ [] := f ]}) by assumption.
    by rewrite lookup_singleton_ne.
  - intros p Hp. rewrite Hset in Hp. rewrite Hm, Hr. split.
    + by apply FrameTracker_new_page_eq.
    + by rewrite lookup_insert_ne.
Qed.

#[export] Program Instance Sv39_Spec : @PageTableSpec Sv39PageTable (Sv39_PageTable oom) := {
  pt_slot := indexes 3;
  pt_view := sv_view;
  pt_frames := sv_frame_set;
  pt_inv := sv_inv
}.
Next Obligation. by intros base raw t w []. Qed.
Next Obligation. intros base raw t w p (_ & Hc & _). apply Hc. Qed.
Next Obligation. apply sv_inv_stable. Qed.
Next Obligation. intros base raw t w vpn Hi _. by apply (sv_translate_law base raw). Qed.
Next Obligation. intros base raw t w vpn Hi _. by apply (sv_is_mapped_law base raw). Qed.
Next Obligation. intros base raw t w va Hi _. by apply (sv_translate_va_law base raw). Qed.
Next Obligation. intros base raw t w vpn Hi _. by apply (sv_get_flags_law base raw). Qed.
Next Obligation. intros base raw t w k e _. apply sv_view_entry_ok. Qed.
Next Obligation.
  intros base raw t w Hi. pose proof (sv_token_root _ _ _ _ Hi) as E. simpl.
  unfold sv_translate, sv_translate_va, find_pte. by rewrite E.
Qed.
Next Obligation. intros base raw w. apply sv_new_ok. Qed.
Next Obligation. intros base raw t w vpn ppn perm Hi _. by apply sv_map_law. Qed.
Next Obligation. intros base raw t w vpn Hi _. by apply sv_unmap_law. Qed.
Next Obligation. intros base raw t w vpn Hi _. by apply sv_block_law. Qed.
Next Obligation. intros base raw t w vpn ppn Hi _. by apply sv_set_ppn_law. Qed.
Next Obligation. intros base raw t w vpn perm Hi _. by apply sv_set_flags_law. Qed.
End Laws.

(** ** Theorems *)

(** The state the witnesses start from: the frames of a machine whose kernel
    ends at [0x80400000], before and after the first table is created. *)
Definition boot : Phys := (phys_boot 0x80400000 ∅).2.
Definition boot1 : Phys := (alloc_tracker boot).2.

Lemma boot_inv : phys_inv (pa_ceil 0x80400000) ∅ boot.
Proof. apply phys_boot_inv. by vm_compute. Qed.

Lemma sv_new_boot : sv_new (fun _ w => w) boot = Some (mkSv39 0x80400 [0x80400], boot1).
Proof.
  assert (E : fst (alloc_tracker boot) = Some 0x80400) by by vm_compute.
  unfold sv_new, frame_alloc, boot1. destruct (alloc_tracker boot) as [o w].
  cbn [fst snd] in *. by rewrite E.
Qed.

Lemma boot1_inv :
  sv_inv (pa_ceil 0x80400000) ∅ (mkSv39 0x80400 [0x80400]) boot1 /\
  forall k, sv_view (mkSv39 0x80400 [0x80400]) boot1 k = None.
Proof.
  destruct (sv_new_ok (fun _ w => w) _ _ _ boot_inv) as (pt & w & E & Hi & Hv & _);
    [by vm_compute |].
  rewrite sv_new_boot in E. injection E as <- <-. by split.
Qed.

(** An address space for examples: pages [0x10] and [0x11] mapped, read-write
    for the user, to frames that are not neighbours. *)
Lemma demo_space_ok :
  exists pt w, sv_inv (pa_ceil 0x80400000) ∅ pt w /\
    (forall k, sv_view pt w k =
       if decide (k = indexes 3 0x11) then Some (0x3000, 0x16)
       else if decide (k = indexes 3 0x10) then Some (0x1000, 0x16) else None) /\
    forall f, f ∈ sv_frame_set pt -> 0x80400 <= f.
Proof.
  destruct boot1_inv as [Hi Hv].
  destruct (sv_map_law (fun _ w => w) _ _ _ _ 0x10 0x1000 0x16 Hi)
    as (pt1 & w1 & _ & Hi1 & Hv1 & _ & _ & _ & Hu1); [by vm_compute | by vm_compute | apply Hv | by vm_compute |].
  destruct (sv_map_law (fun _ w => w) _ _ _ _ 0x11 0x3000 0x16 Hi1)
    as (pt2 & w2 & _ & Hi2 & Hv2 & _); [by vm_compute | by vm_compute | | |].
  - rewrite Hv1, Hv. by case_decide.
  - apply Z.le_trans with (fa_unallocated_frames (pfa boot1) - 2); [by vm_compute | apply Hu1].
  - exists pt2, w2. split; [done |]. split.
    + intros k. rewrite Hv2, Hv1, Hv. done.
    + intros f Hf. destruct Hi2 as (Hp & Hc & _).
      change 0x80400 with (pa_ceil 0x80400000). exact (phys_live_base _ _ _ _ _ Hp (Hc f Hf)).
Qed.

(** A page-table entry encodes and decodes without loss: the frame number
    and the flags put in by [new] come out again, [set_ppn] replaces the frame
    number and nothing else, [set_permission] replaces the permission bits and
    nothing else, and [revoke_write] clears the write bit and nothing else. *)
Theorem pte_fields_roundtrip ppn flags ppn' perm :
  ppn_ok ppn -> fits 8 flags -> ppn_ok ppn' -> perm_ok perm ->
  let e := pte_new ppn flags in
  pte_ppn e = ppn /\ pte_flags e = flags /\
  pte_ppn (pte_set_ppn e ppn') = ppn' /\ pte_flags (pte_set_ppn e ppn') = flags /\
  pte_ppn (pte_set_permission e perm) = ppn /\ pte_perm (pte_set_permission e perm) = perm /\
  pte_is_valid (pte_set_permission e perm) = pte_is_valid e /\
  pte_is_dirty (pte_set_permission e perm) = pte_is_dirty e /\
  pte_ppn (pte_revoke_write e) = ppn /\
  pte_perm (pte_revoke_write e) = flags_difference (pte_perm e) MP_W.
Proof.
  intros Hp Hf Hp' Hq e.
  assert (Hu : u64 e) by by apply pte_new_fits.
  destruct (set_permission_fields e perm Hu Hq) as (_ & Hv1 & Hp1 & Hm1).
  destruct (revoke_write_fields e Hu) as (_ & _ & Hp2 & Hm2).
  destruct (set_ppn_fields e ppn' Hu Hp') as (_ & _ & Hp3 & _).
  assert (He : pte_ppn e = ppn) by by apply pte_new_ppn.
  split_and!; try done; try congruence.
  - unfold pte_flags. bitwise i. rewrite testbit_wrapn by lia. unfold e.
    rewrite pte_new_spec by done. destruct (Z.ltb_spec i 8).
    + simpl. by destruct (Z.ltb_spec i 10); [| lia].
    + by rewrite (fits_testbit_high 8 flags i).
  - unfold pte_flags. bitwise i. rewrite testbit_wrapn, set_ppn_spec by (done || lia). unfold e.
    rewrite pte_new_spec by done. destruct (Z.ltb_spec i 8).
    + simpl. destruct (Z.leb_spec 10 i); [lia |]. simpl. by destruct (Z.ltb_spec i 10); [| lia].
    + by rewrite (fits_testbit_high 8 flags i).
  - unfold pte_is_dirty. change PTE_D with (2 ^ 7). rewrite !pte_flag_bit by lia.
    by rewrite set_permission_spec by (done || lia).
Qed.

Lemma pte_fields_roundtrip_witness :
  pte_ppn (pte_set_ppn (pte_new 0x80400 0xdf) 0x80401) = 0x80401 /\
  pte_flags (pte_set_ppn (pte_new 0x80400 0xdf) 0x80401) = 0xdf.
Proof.
  destruct (pte_fields_roundtrip 0x80400 0xdf 0x80401 (Z.lor MP_R MP_U)) as (_ & _ & H1 & H2 & _);
    [by vm_compute.. |]. by split.
Defined.

(** C5: A fresh Sv39 table followed by any sequence of [map], [unmap],
    [block_and_ret_mut] and [set_pte_flags] behaves as a finite map from page
    slots to frames and permissions under the same sequence: it does not panic
    when the finite map does not, and ends with exactly that mapping, for every
    behaviour of the out-of-memory handler. *)
Theorem sv39_refines_finite_map oom base raw w ops s' :
  phys_inv base raw w -> Forall pt_op_ok ops ->
  2 * vlen ops + 1 <= fa_unallocated_frames (pfa w) ->
  @spec_run _ _ (Sv39_Spec oom) ops ∅ = Some s' ->
  exists pt0 w0 pt w', sv_new oom w = Some (pt0, w0) /\
    @pt_run _ (Sv39_PageTable oom) ops pt0 w0 = Some (pt, w') /\
    phys_inv base raw w' /\
    (forall vpn, sv_translate pt w' vpn = fst <$> s' !! indexes 3 vpn) /\
    (forall vpn, sv_get_pte_flags pt w' vpn = snd <$> s' !! indexes 3 vpn).
Proof.
  intros Hi Ho Hu Hs.
  destruct (sv_new_ok oom _ _ _ Hi) as (pt0 & w0 & E0 & Hi0 & Hv0 & Hu0);
    [pose proof (vlen_nonneg ops); lia |].
  destruct (@pt_run_refines _ (Sv39_PageTable oom) (Sv39_Spec oom) base raw ops pt0 w0 ∅ s') as (pt & w' & E & Hi' & Hv');
    [done | done | done | lia | done |].
  exists pt0, w0, pt, w'. split_and!; [done | done | by destruct Hi' | |]; intros vpn.
  - rewrite (sv_translate_law base raw) by done. by rewrite <- Hv'.
  - rewrite (sv_get_flags_law base raw) by done. by rewrite <- Hv'.
Qed.

Lemma sv39_refines_finite_map_witness :
  exists pt w', @pt_run _ (Sv39_PageTable (fun _ w => w))
      [OpMap 0x10 0x80500 0x16; OpMap 0x11 0x80501 0x1e; OpBlock 0x10; OpUnmap 0x11]
      (mkSv39 0x80400 [0x80400]) boot1 = Some (pt, w') /\
    sv_translate pt w' 0x10 = Some 0x80500 /\ sv_get_pte_flags pt w' 0x10 = Some 0x12 /\
    sv_translate pt w' 0x11 = None.
Proof.
  destruct (sv39_refines_finite_map (fun _ w => w) _ _ _
    [OpMap 0x10 0x80500 0x16; OpMap 0x11 0x80501 0x1e; OpBlock 0x10; OpUnmap 0x11]
    {[ [0; 0; 0x10] := (0x80500, 0x12) ]} boot_inv) as (pt0 & w0 & pt & w' & E0 & E & _ & Ht & Hf).
  - by repeat constructor.
  - by vm_compute.
  - by vm_compute.
  - exists pt, w'. rewrite Ht, Ht, Hf. split; [| by vm_compute].
    rewrite sv_new_boot in E0. injection E0 as <- <-. exact E.
Defined.

(** [map] of a page that is already mapped panics, whatever is free and
    whatever the out-of-memory handler does, and changes nothing before it;
    [unmap] of a page that is not mapped leaves memory as it is. *)
Theorem sv_map_mapped_panics oom base raw pt w vpn ppn flags :
  sv_inv base raw pt w ->
  (sv_is_mapped pt w vpn = true -> sv_map oom pt w vpn ppn flags = None) /\
  (sv_is_mapped pt w vpn = false -> sv_unmap pt w vpn = w).
Proof.
  intros Hi. pose proof (find_pte_cases _ _ _ _ vpn Hi) as Hc.
  unfold sv_is_mapped, sv_map, sv_unmap, find_pte_create.
  change (find_pte_refmut pt w vpn) with (find_pte pt w vpn).
  destruct (find_pte pt w vpn) as [[t i2] |] eqn:Ef.
  - destruct Hc as (tb & i0 & i1 & (_ & _ & Ht & _) & E & H0 & H1 & H2 & Hl & Hv & _).
    rewrite Hv. split; [intros _ | done]. rewrite E.
    pose proof (tr_entry _ _ _ Ht [] _ i0 (tr_root _ _ _ Ht) ltac:(simpl; lia) H0) as E0.
    simpl in E0. cbn [find_pte_create_loop fst snd] in *.
    destruct (pte_is_valid (get_dword (pmem w) (root_ppn pt) i0)).
    + pose proof (tr_entry _ _ _ Ht [i0] _ i1 E0 ltac:(simpl; lia) H1) as E1. simpl in E1.
      rewrite Hl in E1.
      destruct (pte_is_valid (get_dword (pmem w) (pte_ppn _) i1)); [| done].
      injection E1 as <-. cbn [mbind option_bind]. by rewrite Hv.
    + pose proof (tr_parent _ _ _ Ht [i0] i1 E0) as E1. simpl in E1. congruence.
  - split; done.
Qed.

Lemma sv_map_mapped_panics_witness :
  exists pt w, sv_map (fun _ w => w) (mkSv39 0x80400 [0x80400]) boot1 5 0x80600 0x12 = Some (pt, w) /\
    sv_map (fun _ w => w) pt w 5 0x80700 0x12 = None.
Proof.
  destruct boot1_inv as [Hi Hv].
  destruct (sv_map_law (fun _ w => w) _ _ _ _ 5 0x80600 0x12 Hi)
    as (pt' & w' & E' & Hi' & Hv' & _); [by vm_compute | by vm_compute | apply Hv | by vm_compute |].
  exists pt', w'. split; [exact E' |].
  apply (sv_map_mapped_panics (fun _ w => w) _ _ _ _ _ 0x80700 0x12 Hi').
  rewrite (sv_is_mapped_law _ _ _ _ 5 Hi'), Hv', decide_True by done.
  by apply bool_decide_eq_true.
Defined.

(** The token written to [satp] identifies the table: [from_token] of
    [token] walks the same tables, so every translation through it is the one
    of the table itself. *)
Theorem sv_token_roundtrip base raw pt w :
  sv_inv base raw pt w ->
  root_ppn (sv_from_token (sv_token pt)) = root_ppn pt /\
  forall vpn, sv_translate (sv_from_token (sv_token pt)) w vpn = sv_translate pt w vpn.
Proof.
  intros Hi. pose proof (sv_token_root _ _ _ _ Hi) as E. split; [done |].
  intros vpn. unfold sv_translate, find_pte. by rewrite E.
Qed.

Lemma sv_token_roundtrip_witness :
  sv_token (mkSv39 0x80400 [0x80400]) = 0x8000000000080400 /\
  root_ppn (sv_from_token (sv_token (mkSv39 0x80400 [0x80400]))) = 0x80400.
Proof.
  split; [by vm_compute |].
  apply (sv_token_roundtrip _ _ _ _ (proj1 boot1_inv)).
Defined.
