(* ===== verification/IdAlloc.v ===== *)
(** * Identifiers and the stacks placed by them

    [task/pid.rs] ([RecycleAllocator], used for process ids, thread ids and
    kernel stacks) and the address computations of
    [hal/arch/riscv/kern_stack.rs]. *)

From S2P Require Import Prelude Address.

(** ** [RecycleAllocator] *)

Record RecycleAllocator := mkRA { ra_current : Z; ra_recycled : list Z }.

Definition ra_new : RecycleAllocator := mkRA 1 [].

Definition ra_alloc (s : RecycleAllocator) : Z * RecycleAllocator :=
  match vec_pop (ra_recycled s) with
  | Some (id, rest) => (id, mkRA (ra_current s) rest)
  | None =>
      let s' := mkRA (ra_current s +w 1) (ra_recycled s) in
      (ra_current s' -w 1, s')
  end.

(** The two assertions hold in every build. *)
Definition ra_dealloc (s : RecycleAllocator) (id : Z) : option RecycleAllocator :=
  _ ← assert_ (id <? ra_current s);
  _ ← assert_ (negb (existsb (fun i => i =? id) (ra_recycled s)));
  Some (mkRA (ra_current s) (ra_recycled s ++ [id])).

Definition ra_get_allocated (s : RecycleAllocator) : Z := ra_current s -w vlen (ra_recycled s).

(** ** Stack positions *)

Definition kernel_stack_position (kstack_id : Z) : Z * Z :=
  let top := TRAMPOLINE -w (kstack_id *w (KERNEL_STACK_SIZE + PAGE_SIZE)) in
  let bottom := top -w KERNEL_STACK_SIZE in
  (bottom, top).

Definition kstack_get_top (self : Z) : Z := (kernel_stack_position self).2.

Definition trap_cx_bottom_from_tid (tid : Z) : Z := TRAP_CONTEXT_BASE -w (tid *w PAGE_SIZE).
Definition ustack_bottom_from_tid (tid : Z) : Z :=
  USER_STACK_BASE -w (tid *w (PAGE_SIZE + USER_STACK_SIZE)).

(** ** Runs of the allocator

    The handles ([PidHandle], [KernelStack]) give an identifier back when they
    are dropped, so [dealloc] is called on live identifiers only. [live] is the
    list of handles in existence. *)

Inductive ra_step : list Z * RecycleAllocator -> list Z * RecycleAllocator -> Prop :=
| ra_step_alloc live s id s' :
    ra_alloc s = (id, s') -> ra_step (live, s) (id :: live, s')
| ra_step_dealloc live live' s id s' :
    live ≡ₚ id :: live' -> ra_dealloc s id = Some s' -> ra_step (live, s) (live', s').

Definition ra_inv (live : list Z) (s : RecycleAllocator) : Prop :=
  NoDup (live ++ ra_recycled s) /\
  (forall x, x ∈ live ++ ra_recycled s <-> 1 <= x < ra_current s) /\
  1 <= ra_current s.

(** The counter cannot have wrapped before [2^64] identifiers exist at once. *)
Lemma ra_inv_count live s :
  ra_inv live s -> ra_current s = 1 + vlen live + vlen (ra_recycled s).
Proof.
  intros (Hn & Hx & H1).
  assert (Hp : live ++ ra_recycled s ≡ₚ seqZ 1 (ra_current s - 1)).
  { apply NoDup_Permutation; [done | apply NoDup_seqZ |].
    intros x. rewrite Hx, elem_of_seqZ. lia. }
  apply Permutation_length in Hp. rewrite length_app, length_seqZ in Hp. unfold vlen. lia.
Qed.

Lemma ra_alloc_inv live s id s' :
  ra_inv live s -> ra_current s + 1 < 2 ^ 64 -> ra_alloc s = (id, s') -> ra_inv (id :: live) s'.
Proof.
  intros (Hn & Hx & H1) Hb. unfold ra_alloc.
  destruct (vec_pop (ra_recycled s)) as [[i rest] |] eqn:E; intros [= <- <-]; unfold ra_inv; cbn.
  - apply vec_pop_Some in E. rewrite E in Hn, Hx.
    assert (Hp : i :: live ++ rest ≡ₚ live ++ rest ++ [i])
      by (rewrite (app_assoc live), Permutation_cons_append; done).
    split_and!; [| | lia].
    + by rewrite Hp.
    + intros x. by rewrite Hp, Hx.
  - apply vec_pop_None in E. rewrite E, app_nil_r in *. wrap_simpl. split_and!.
    + apply NoDup_cons. split; [| done]. rewrite Hx. lia.
    + intros x. rewrite elem_of_cons, Hx. lia.
    + lia.
Qed.

Lemma ra_dealloc_ok live live' s id :
  ra_inv live s -> live ≡ₚ id :: live' ->
  exists s', ra_dealloc s id = Some s' /\ ra_inv live' s' /\ ra_current s' = ra_current s.
Proof.
  intros (Hn & Hx & H1) Hp.
  assert (Hq : live ++ ra_recycled s ≡ₚ live' ++ ra_recycled s ++ [id]).
  { rewrite Hp. simpl. rewrite (app_assoc live'), <- Permutation_cons_append. done. }
  assert (Hid : id ∈ live) by (rewrite Hp; by left).
  assert (Hlt : 1 <= id < ra_current s) by (apply Hx, elem_of_app; by left).
  unfold ra_dealloc. destruct (Z.ltb_spec id (ra_current s)); [| lia].
  assert (existsb (fun i => i =? id) (ra_recycled s) = false) as ->.
  { apply not_true_iff_false. rewrite existsb_exists. intros (y & Hy & He).
    apply Z.eqb_eq in He as ->. apply NoDup_app in Hn as (_ & Hd & _).
    by apply (Hd id Hid), list_elem_of_In. }
  eexists. split; [reflexivity |]. split; [| done]. unfold ra_inv. cbn.
  split_and!; [by rewrite <- Hq | intros x; by rewrite <- Hq | lia].
Qed.

(** Identifiers in existence: live or waiting to be reused. *)
Definition ra_size (st : list Z * RecycleAllocator) : Z := vlen st.1 + vlen (ra_recycled st.2).

Lemma ra_step_size st st' : ra_step st st' -> ra_size st <= ra_size st'.
Proof.
  unfold ra_size. destruct 1 as [l s id s' E | l l' s id s' Hp E]; cbn.
  - unfold ra_alloc in E. destruct (vec_pop (ra_recycled s)) as [[i r] |] eqn:Ep;
      injection E as <- <-; cbn; unfold vlen; cbn; [| lia].
    apply vec_pop_Some in Ep as ->. rewrite length_app. cbn. lia.
  - unfold ra_dealloc in E. destruct (id <? ra_current s); [| done].
    destruct (existsb _ _); [done |]. injection E as <-. cbn.
    rewrite vlen_app. apply Permutation_length in Hp. unfold vlen in *. cbn in *. lia.
Qed.

Lemma ra_step_inv st st' :
  ra_step st st' -> ra_size st' + 2 < 2 ^ 64 -> ra_inv st.1 st.2 -> ra_inv st'.1 st'.2.
Proof.
  intros Hs Hb Hi. pose proof (ra_step_size _ _ Hs) as Hz.
  destruct Hs as [l s id s' E | l l' s id s' Hp E]; cbn in *.
  - pose proof (ra_inv_count _ _ Hi). unfold ra_size in *. cbn in *.
    apply (ra_alloc_inv l s); [done | lia | done].
  - destruct (ra_dealloc_ok l l' s id Hi Hp) as (s2 & E2 & Hi2 & _).
    rewrite E in E2. by injection E2 as ->.
Qed.

Lemma ra_steps_inv st :
  rtc ra_step ([], ra_new) st -> ra_size st + 2 < 2 ^ 64 -> ra_inv st.1 st.2.
Proof.
  intros Hs. apply rtc_ind_r with
    (P := fun st => ra_size st + 2 < 2 ^ 64 -> ra_inv st.1 st.2) in Hs; [done | |].
  - intros _. unfold ra_inv, ra_new. cbn.
    split_and!; [constructor | intros x; split; [by intros ?%not_elem_of_nil | lia] | lia].
  - intros y z _ Hyz IH Hb. pose proof (ra_step_size _ _ Hyz).
    apply (ra_step_inv _ _ Hyz Hb), IH. lia.
Qed.

(** The positions of the stacks whose identifiers keep them above the null
    page of the upper half. *)
Definition kstack_ok (id : Z) : Prop := 0 <= id < 2 ^ 40.

Lemma kernel_stack_position_eq id :
  kstack_ok id ->
  kernel_stack_position id =
  (TRAMPOLINE - id * 0x21000 - 0x20000, TRAMPOLINE - id * 0x21000).
Proof.
  unfold kstack_ok, kernel_stack_position, TRAMPOLINE, KERNEL_STACK_SIZE, PAGE_SIZE, usize_max.
  intros H. by wrap_simpl.
Qed.

(** ** Theorems *)

(** C23: Identifiers are never handed out twice: after any sequence of
    allocations and drops of live handles, the live identifiers are distinct and
    at least 1, the next allocation returns one that is not live, dropping a
    live handle never panics, and [get_allocated] is one more than the number
    of live handles. *)
Theorem ids_unique live s :
  rtc ra_step ([], ra_new) (live, s) -> ra_size (live, s) + 2 < 2 ^ 64 ->
  NoDup live /\ (forall x, x ∈ live -> 1 <= x) /\ (ra_alloc s).1 ∉ live /\
  (forall x, x ∈ live -> is_Some (ra_dealloc s x)) /\
  ra_get_allocated s = vlen live + 1.
Proof.
  intros Hs Hb. pose proof (ra_steps_inv _ Hs Hb) as Hi. unfold ra_size in Hb. cbn in Hi, Hb.
  pose proof (ra_inv_count _ _ Hi) as Hc. pose proof Hi as (Hn & Hx & H1).
  split_and!.
  - by apply NoDup_app in Hn as [? _].
  - intros x Hl. apply (Hx x), elem_of_app. by left.
  - destruct (ra_alloc s) as [id s'] eqn:E.
    destruct (ra_alloc_inv _ _ _ _ Hi ltac:(lia) E) as (Hn' & _).
    simpl in Hn'. apply NoDup_cons in Hn' as [Hn' _]. cbn. set_solver.
  - intros x Hl. apply elem_of_Permutation in Hl as (l' & Hp).
    destruct (ra_dealloc_ok _ _ _ _ Hi Hp) as (s' & -> & _). by eexists.
  - unfold ra_get_allocated. rewrite Hc.
    pose proof (vlen_nonneg live). pose proof (vlen_nonneg (ra_recycled s)). wrap_simpl. lia.
Qed.

Lemma ids_unique_witness :
  let s := mkRA 4 [2] in
  rtc ra_step ([], ra_new) ([3; 1], s) /\ (ra_alloc s).1 ∉ [3; 1] /\ ra_get_allocated s = 3.
Proof.
  intros s.
  assert (Hs : rtc ra_step ([], ra_new) ([3; 1], s)).
  { eapply (rtc_l _ _ ([1], mkRA 2 [])); [by apply ra_step_alloc |].
    eapply (rtc_l _ _ ([2; 1], mkRA 3 [])); [by apply ra_step_alloc |].
    eapply (rtc_l _ _ ([3; 2; 1], mkRA 4 [])); [by apply ra_step_alloc |].
    eapply rtc_l; [| apply rtc_refl].
    eapply (ra_step_dealloc _ [3; 1] _ 2); [apply (Permutation_swap 2 3 [1]) | done]. }
  destruct (ids_unique _ _ Hs) as (_ & _ & H1 & _ & H2); [by vm_compute | by split_and!].
Defined.

(** The kernel stacks of different identifiers are disjoint, page aligned
    and separated by at least one unmapped guard page; none overlaps the
    trampoline. *)
Theorem kernel_stacks_disjoint i j :
  kstack_ok i -> kstack_ok j -> i < j ->
  let '(bi, ti) := kernel_stack_position i in
  let '(bj, tj) := kernel_stack_position j in
  ti - bi = KERNEL_STACK_SIZE /\ tj + PAGE_SIZE <= bi /\ ti <= TRAMPOLINE /\
  va_aligned bi = true /\ va_aligned ti = true.
Proof.
  intros Hi Hj Hlt. rewrite !kernel_stack_position_eq by done.
  unfold kstack_ok, va_aligned in *. rewrite !page_offset_mod.
  unfold KERNEL_STACK_SIZE, TRAMPOLINE, usize_max, PAGE_SIZE.
  split_and!; [lia | lia | lia | |]; apply Z.eqb_eq, Z.mod_divide; try lia.
  - exists (2 ^ 52 - 33 - i * 33). lia.
  - exists (2 ^ 52 - 1 - i * 33). lia.
Qed.

Lemma kernel_stacks_disjoint_witness :
  let '(bi, ti) := kernel_stack_position 1 in
  let '(bj, tj) := kernel_stack_position 2 in
  bi = 0xfffffffffffbe000 /\ tj + PAGE_SIZE <= bi.
Proof.
  split; [by vm_compute |].
  apply (kernel_stacks_disjoint 1 2); by vm_compute.
Defined.
