(* ===== verification/UserBuf.v ===== *)
(** * Scattered user buffers

    [UserBuffer] and [UserBufferIterator] of [mm/page_table.rs]: a buffer of a
    user process seen by the kernel as a list of slices of physical memory. A
    slice [&mut [u8]] is its first address and its length. *)

From S2P Require Import Prelude Address Phys.

Record UserBuffer := mkUB { ub_buffers : list (Z * Z); ub_len : Z }.

Definition ub_new (buffers : list (Z * Z)) : UserBuffer :=
  mkUB buffers (foldl (fun acc b => acc +w b.2) 0 buffers).

(** [&buffer[lo..hi]] and [buffer[lo..hi].copy_from_slice(bs)]. *)
Definition buf_load (m : memory) (b : Z * Z) (lo hi : Z) : option (list Z) :=
  slice (read_bytes m b.1 b.2) lo hi.
Definition buf_store (m : memory) (b : Z * Z) (lo hi : Z) (bs : list Z) : option memory :=
  _ ← assert_ ((0 <=? lo) && (lo <=? hi) && (hi <=? b.2) && (vlen bs =? hi - lo));
  Some (write_bytes m (b.1 + lo) bs).

Fixpoint ub_read_loop (m : memory) (len : Z) (bufs : list (Z * Z)) (start : Z) (dst : list Z)
    : option (Z * list Z) :=
  match bufs with
  | [] => Some (len, dst)
  | buffer :: bufs' =>
      let dst_len := vlen dst in
      let end_ := start +w buffer.2 in
      if dst_len <? end_ then
        src ← buf_load m buffer 0 (dst_len -w start);
        dst' ← copy_slice dst start dst_len src;
        Some (dst_len, dst')
      else
        src ← buf_load m buffer 0 buffer.2;
        dst' ← copy_slice dst start end_ src;
        ub_read_loop m len bufs' end_ dst'
  end.
Definition ub_read (m : memory) (ub : UserBuffer) (dst : list Z) : option (Z * list Z) :=
  ub_read_loop m (ub_len ub) (ub_buffers ub) 0 dst.

Fixpoint ub_write_loop (len : Z) (bufs : list (Z * Z)) (start : Z) (src : list Z) (m : memory)
    : option (Z * memory) :=
  match bufs with
  | [] => Some (len, m)
  | buffer :: bufs' =>
      let src_len := vlen src in
      let end_ := start +w buffer.2 in
      if src_len <? end_ then
        s ← slice src start src_len;
        m' ← buf_store m buffer 0 (src_len -w start) s;
        Some (src_len, m')
      else
        s ← slice src start end_;
        m' ← buf_store m buffer 0 buffer.2 s;
        ub_write_loop len bufs' end_ src m'
  end.
Definition ub_write (m : memory) (ub : UserBuffer) (src : list Z) : option (Z * memory) :=
  ub_write_loop (ub_len ub) (ub_buffers ub) 0 src m.

Fixpoint ub_read_at_loop (m : memory) (offset : Z) (bufs : list (Z * Z)) (dst_start read : Z)
    (dst : list Z) : option (Z * list Z) :=
  match bufs with
  | [] => Some (read, dst)
  | buffer :: bufs' =>
      let dst_end := dst_start +w buffer.2 in
      let copy_dst_start := Z.max dst_start offset in
      let copy_dst_end := Z.min dst_end (vlen dst +w offset) in
      if copy_dst_end <=? copy_dst_start then
        ub_read_at_loop m offset bufs' dst_end read dst
      else
        src ← buf_load m buffer (copy_dst_start -w dst_start) (copy_dst_end -w dst_start);
        dst' ← copy_slice dst (copy_dst_start -w offset) (copy_dst_end -w offset) src;
        ub_read_at_loop m offset bufs' dst_end (read +w (copy_dst_end -w copy_dst_start)) dst'
  end.
Definition ub_read_at (m : memory) (ub : UserBuffer) (offset : Z) (dst : list Z)
    : option (Z * list Z) :=
  if ub_len ub <=? offset then Some (0, dst)
  else ub_read_at_loop m offset (ub_buffers ub) 0 0 dst.

Fixpoint ub_write_at_loop (offset : Z) (bufs : list (Z * Z)) (dst_start written : Z)
    (src : list Z) (m : memory) : option (Z * memory) :=
  match bufs with
  | [] => Some (written, m)
  | buffer :: bufs' =>
      let dst_end := dst_start +w buffer.2 in
      let copy_dst_start := Z.max dst_start offset in
      let copy_dst_end := Z.min dst_end (vlen src +w offset) in
      if copy_dst_end <=? copy_dst_start then
        ub_write_at_loop offset bufs' dst_end written src m
      else
        s ← slice src (copy_dst_start -w offset) (copy_dst_end -w offset);
        m' ← buf_store m buffer (copy_dst_start -w dst_start) (copy_dst_end -w dst_start) s;
        ub_write_at_loop offset bufs' dst_end (written +w (copy_dst_end -w copy_dst_start)) src m'
  end.
Definition ub_write_at (m : memory) (ub : UserBuffer) (offset : Z) (src : list Z)
    : option (Z * memory) :=
  if ub_len ub <=? offset then Some (0, m)
  else ub_write_at_loop offset (ub_buffers ub) 0 0 src m.

Definition ub_clear (m : memory) (ub : UserBuffer) : memory :=
  foldl (fun m b => write_bytes m b.1 (replicate (Z.to_nat b.2) 0)) m (ub_buffers ub).

(** [&ub[index]]: the address of the byte. *)
Fixpoint ub_index_loop (bufs : list (Z * Z)) (left : Z) : option Z :=
  match bufs with
  | [] => None
  | b :: bufs' => if left <? b.2 then Some (b.1 + left) else ub_index_loop bufs' (left -w b.2)
  end.
Definition ub_index (ub : UserBuffer) (index : Z) : option Z :=
  _ ← assert_ (index <? ub_len ub);
  ub_index_loop (ub_buffers ub) index.

Record UserBufferIterator := mkUBIter {
  ubi_buffers : list (Z * Z);
  ubi_current_buffer : Z;
  ubi_current_idx : Z
}.
Definition ub_into_iter (ub : UserBuffer) : UserBufferIterator := mkUBIter (ub_buffers ub) 0 0.
Definition ubi_next (it : UserBufferIterator) : option (option Z * UserBufferIterator) :=
  if vlen (ubi_buffers it) <=? ubi_current_buffer it then Some (None, it)
  else
    b ← vec_get (ubi_buffers it) (ubi_current_buffer it);
    _ ← assert_ (ubi_current_idx it <? b.2);
    let r := b.1 + ubi_current_idx it in
    Some (Some r,
      if ubi_current_idx it +w 1 =? b.2
      then mkUBIter (ubi_buffers it) (ubi_current_buffer it +w 1) 0
      else mkUBIter (ubi_buffers it) (ubi_current_buffer it) (ubi_current_idx it +w 1)).

(** A [for] loop over the iterator. *)
Fixpoint ubi_drain (fuel : nat) (it : UserBufferIterator) : option (list Z) :=
  match fuel with
  | O => None
  | S fuel' =>
      '(r, it') ← ubi_next it;
      match r with
      | None => Some []
      | Some a => rest ← ubi_drain fuel' it'; Some (a :: rest)
      end
  end.

(** ** The buffer as a list of addresses *)

Definition slice_addrs (b : Z * Z) : list Z := seqZ b.1 b.2.
Definition ub_addrs (bufs : list (Z * Z)) : list Z := bufs ≫= slice_addrs.

(** Slices of a memory: lengths are lengths, and their sum is a [usize]. *)
Definition bufs_ok (bufs : list (Z * Z)) : Prop :=
  Forall (fun b => 0 <= b.2) bufs /\ vlen (ub_addrs bufs) < 2 ^ 63.

(** [xs] written over the front of [ys]. *)
Definition overlay {A} (xs ys : list A) : list A := take (length ys) xs ++ drop (length xs) ys.

(** [bs] stored at the addresses [addrs]. *)
Definition scatter (m : memory) (addrs bs : list Z) : memory :=
  foldl (fun m p => <[p.1 := p.2]> m) m (zip addrs bs).

Lemma ub_addrs_cons b bufs : ub_addrs (b :: bufs) = slice_addrs b ++ ub_addrs bufs.
Proof. done. Qed.

Lemma length_slice_addrs b : length (slice_addrs b) = Z.to_nat b.2.
Proof. apply length_seqZ. Qed.

Lemma bufs_ok_cons b bufs :
  bufs_ok (b :: bufs) ->
  0 <= b.2 /\ bufs_ok bufs /\ vlen (ub_addrs (b :: bufs)) = b.2 + vlen (ub_addrs bufs) /\
  b.2 + vlen (ub_addrs bufs) < 2 ^ 63.
Proof.
  intros [[Hb Hf]%Forall_cons_1 Hl]. rewrite ub_addrs_cons, vlen_app in *.
  assert (Hs : vlen (slice_addrs b) = b.2) by (unfold vlen; rewrite length_slice_addrs; lia).
  split_and!; [done | split; [done | lia] | lia | lia].
Qed.

Lemma read_bytes_addrs m b : read_bytes m b.1 b.2 = mem_get m <$> slice_addrs b.
Proof.
  unfold read_bytes, slice_addrs. apply list_eq. intros i. rewrite !list_lookup_fmap.
  destruct (decide (Z.of_nat i < b.2)).
  - rewrite !lookup_seqZ_lt by lia. simpl. do 2 f_equal.
  - by rewrite !lookup_seqZ_ge by lia.
Qed.

Lemma length_overlay {A} (xs ys : list A) : length (overlay xs ys) = length ys.
Proof. unfold overlay. rewrite length_app, length_take, length_drop. lia. Qed.

Lemma overlay_nil_r {A} (xs : list A) : overlay xs [] = [].
Proof. unfold overlay. by rewrite drop_nil. Qed.

Lemma overlay_app {A} (xs xs' ys ys' : list A) :
  length xs = length ys -> overlay (xs ++ xs') (ys ++ ys') = xs ++ overlay xs' ys'.
Proof.
  intros H. unfold overlay. rewrite !length_app.
  rewrite take_app_ge, <- app_assoc by lia. replace (length ys + length ys' - length xs)%nat with (length ys') by lia.
  rewrite drop_app_ge by lia. by replace (length xs + length xs' - length ys)%nat with (length xs') by lia.
Qed.

(** The destination is exhausted within [xs]. *)
Lemma overlay_short {A} (xs xs' ys : list A) :
  (length ys <= length xs)%nat -> overlay (xs ++ xs') ys = take (length ys) xs.
Proof.
  intros H. unfold overlay. rewrite take_app_le by done.
  rewrite drop_ge by (rewrite length_app; lia). by rewrite app_nil_r.
Qed.

Lemma scatter_app m a1 a2 b1 b2 :
  length a1 = length b1 -> scatter m (a1 ++ a2) (b1 ++ b2) = scatter (scatter m a1 b1) a2 b2.
Proof.
  intros H. unfold scatter. rewrite <- foldl_app. f_equal. by apply zip_with_app.
Qed.

Lemma scatter_nil_l m bs : scatter m [] bs = m.
Proof. done. Qed.

Lemma scatter_nil_r m addrs : scatter m addrs [] = m.
Proof. unfold scatter. by destruct addrs. Qed.

(** Addresses beyond the bytes do not matter. *)
Lemma scatter_take m addrs bs : scatter m (take (length bs) addrs) bs = scatter m addrs bs.
Proof.
  revert m addrs. induction bs as [| b bs IH]; intros m addrs; cbn.
  - by rewrite scatter_nil_r.
  - destruct addrs as [| a addrs]; [done |]. cbn. apply IH.
Qed.

Lemma write_bytes_scatter m a bs : write_bytes m a bs = scatter m (seqZ a (vlen bs)) bs.
Proof.
  revert m a. induction bs as [| b bs IH]; intros m a; [done |]. cbn.
  rewrite IH. unfold vlen. cbn [length]. rewrite (seqZ_cons a) by lia. unfold scatter. cbn.
  by replace (Z.pred (Z.of_nat (S (length bs)))) with (Z.of_nat (length bs)) by lia.
Qed.

Lemma mem_get_scatter_out m addrs bs x : x ∉ addrs -> mem_get (scatter m addrs bs) x = mem_get m x.
Proof.
  revert m bs. induction addrs as [| a addrs IH]; intros m bs Hx; [done |].
  destruct bs as [| b bs]; [by rewrite scatter_nil_r |].
  apply not_elem_of_cons in Hx as [Hne Hx]. unfold scatter in *. cbn.
  rewrite IH by done. unfold mem_get. by rewrite lookup_insert_ne.
Qed.

Lemma mem_get_scatter_in m addrs bs i a b :
  NoDup addrs -> addrs !! i = Some a -> bs !! i = Some b -> mem_get (scatter m addrs bs) a = wrap8 b.
Proof.
  intros Hn. revert m bs i. induction Hn as [| x addrs Hx Hn IH]; intros m bs i Ha Hb; [done |].
  destruct bs as [| y bs]; [done |]. destruct i as [| i]; cbn in Ha, Hb; simplify_eq.
  - change (scatter m (a :: addrs) (b :: bs)) with (scatter (<[a := b]> m) addrs bs).
    rewrite mem_get_scatter_out by done. unfold mem_get. by rewrite lookup_insert_eq.
  - by apply (IH _ bs i).
Qed.

(** What was stored is read back. *)
Lemma read_scatter m addrs bs :
  NoDup addrs -> length addrs = length bs -> bytes bs ->
  mem_get (scatter m addrs bs) <$> addrs = bs.
Proof.
  intros Hn Hl Hb. apply list_eq. intros i. rewrite list_lookup_fmap.
  destruct (bs !! i) as [b |] eqn:E.
  - destruct (lookup_lt_is_Some_2 addrs i) as [a Ea]; [apply lookup_lt_Some in E; lia |].
    rewrite Ea. cbn. rewrite (mem_get_scatter_in _ _ _ i _ b) by done. f_equal.
    apply wrapn_small. by apply (Forall_lookup_1 _ _ _ _ Hb E).
  - apply lookup_ge_None in E. rewrite lookup_ge_None_2 by lia. done.
Qed.

Lemma scatter_read m addrs bs :
  NoDup addrs -> bytes bs ->
  mem_get (scatter m addrs bs) <$> addrs = overlay bs (mem_get m <$> addrs).
Proof.
  intros Hn. revert m bs. induction Hn as [| a addrs Ha Hn IH]; intros m bs Hb; [symmetry; apply overlay_nil_r |].
  destruct bs as [| b bs]; [by rewrite scatter_nil_r |]. apply Forall_cons in Hb as [Hb Hbs].
  change (scatter m (a :: addrs) (b :: bs)) with (scatter (<[a := b]> m) addrs bs).
  rewrite fmap_cons, mem_get_scatter_out, IH by done. unfold mem_get at 1.
  rewrite lookup_insert_eq. cbn [default]. rewrite wrapn_small by done.
  assert (E : mem_get (<[a := b]> m) <$> addrs = mem_get m <$> addrs).
  { apply list_fmap_ext. intros i x Hx. unfold mem_get.
    rewrite lookup_insert_ne; [done |]. intros <-. by apply Ha, (list_elem_of_lookup_2 _ i). }
  rewrite E. done.
Qed.

(** ** The operations *)

(** A slice of a loaded buffer. *)
Lemma buf_load_Some m b lo hi :
  0 <= lo <= hi -> hi <= b.2 ->
  buf_load m b lo hi =
  Some (mem_get m <$> take (Z.to_nat (hi - lo)) (drop (Z.to_nat lo) (slice_addrs b))).
Proof.
  intros Hl Hh. unfold buf_load. apply slice_Some. split_and!; [lia | lia | |].
  - unfold vlen. rewrite length_read_bytes by lia. lia.
  - by rewrite read_bytes_addrs, fmap_take, fmap_drop.
Qed.

Lemma seqZ_drop_take a n lo k :
  0 <= lo -> 0 <= k -> lo + k <= n ->
  take (Z.to_nat k) (drop (Z.to_nat lo) (seqZ a n)) = seqZ (a + lo) k.
Proof.
  intros Hlo Hk Hn. replace n with (lo + (k + (n - lo - k))) by lia.
  rewrite seqZ_app by lia. rewrite drop_app_length' by (rewrite length_seqZ; lia).
  rewrite seqZ_app by lia. by rewrite take_app_length' by (rewrite length_seqZ; lia).
Qed.

Lemma buf_store_Some m b lo hi bs :
  0 <= lo <= hi -> hi <= b.2 -> vlen bs = hi - lo ->
  buf_store m b lo hi bs = Some (scatter m (drop (Z.to_nat lo) (slice_addrs b)) bs).
Proof.
  intros Hl Hh Hb. unfold buf_store.
  destruct (Z.leb_spec 0 lo), (Z.leb_spec lo hi), (Z.leb_spec hi b.2), (Z.eqb_spec (vlen bs) (hi - lo));
    try lia. cbn. f_equal.
  rewrite write_bytes_scatter, <- (scatter_take m (drop _ _)). f_equal.
  replace (length bs) with (Z.to_nat (vlen bs)) by (unfold vlen; lia).
  symmetry. apply seqZ_drop_take; unfold vlen in *; lia.
Qed.

Lemma copy_slice_app {A} (d1 d2 d3 src : list A) a b :
  a = vlen d1 -> b = vlen d1 + vlen d2 -> vlen src = vlen d2 ->
  copy_slice (d1 ++ d2 ++ d3) a b src = Some (d1 ++ src ++ d3).
Proof.
  intros -> -> Hs. apply copy_slice_Some. rewrite !vlen_app.
  pose proof (vlen_nonneg d1). pose proof (vlen_nonneg d2). pose proof (vlen_nonneg d3).
  split_and!; [lia.. |]. unfold vlen. rewrite Nat2Z.id, take_app_length.
  rewrite (app_assoc d1 d2 d3), drop_app_length' by (rewrite length_app; lia). done.
Qed.

Lemma slice_app {A} (d1 d2 d3 : list A) a b :
  a = vlen d1 -> b = vlen d1 + vlen d2 -> slice (d1 ++ d2 ++ d3) a b = Some d2.
Proof.
  intros -> ->. apply slice_Some. rewrite !vlen_app.
  pose proof (vlen_nonneg d1). pose proof (vlen_nonneg d2). pose proof (vlen_nonneg d3).
  split_and!; [lia.. |]. unfold vlen. rewrite Nat2Z.id, drop_app_length, take_app_length'; [done | lia].
Qed.

Lemma ub_new_len bufs : bufs_ok bufs -> ub_len (ub_new bufs) = vlen (ub_addrs bufs).
Proof.
  unfold ub_new. cbn. intros Hok.
  assert (Hg : forall acc, 0 <= acc -> acc + vlen (ub_addrs bufs) < 2 ^ 64 ->
            foldl (fun acc b => acc +w b.2) acc bufs = acc + vlen (ub_addrs bufs)).
  { clear -Hok. induction bufs as [| b bufs IH]; intros acc Ha Hl; [cbn; unfold vlen; cbn; lia |].
    apply bufs_ok_cons in Hok as (Hb & Hok & E & _). rewrite E in *. cbn [foldl].
    pose proof (vlen_nonneg (ub_addrs bufs)).
    rewrite wrap64_small by lia. rewrite IH by (done || lia). lia. }
  rewrite Hg; [lia | lia |]. destruct Hok. lia.
Qed.

Lemma ub_read_loop_ok m bufs d1 d2 len :
  bufs_ok bufs -> vlen (d1 ++ d2) < 2 ^ 63 -> len = vlen d1 + vlen (ub_addrs bufs) ->
  ub_read_loop m len bufs (vlen d1) (d1 ++ d2) =
  Some (Z.min len (vlen (d1 ++ d2)), d1 ++ overlay (mem_get m <$> ub_addrs bufs) d2).
Proof.
  revert d1 d2. induction bufs as [| b bufs IH]; intros d1 d2 Hok Hd Hlen.
  { cbn. unfold vlen in *. cbn in Hlen. rewrite length_app. do 3 f_equal; [lia |].
    unfold overlay. cbn. by rewrite take_nil. }
  apply bufs_ok_cons in Hok as (Hb & Hok & E & Hbnd). pose proof (vlen_nonneg d1).
  pose proof (vlen_nonneg (ub_addrs bufs)). rewrite vlen_app in *.
  cbn [ub_read_loop]. rewrite vlen_app. pose proof (vlen_nonneg d2).
  rewrite (wrap64_small (vlen d1 + b.2)) by lia.
  rewrite ub_addrs_cons, fmap_app. pose proof (length_slice_addrs b) as Hls.
  destruct (Z.ltb_spec (vlen d1 + vlen d2) (vlen d1 + b.2)).
  - rewrite wrap64_small by lia. rewrite buf_load_Some by lia. cbn [mbind option_bind].
    replace (vlen d1 + vlen d2 - vlen d1 - 0) with (vlen d2) by lia. rewrite drop_0.
    rewrite <- (app_nil_r d2) at 1. rewrite copy_slice_app; [| done | done |].
    2:{ unfold vlen in *. rewrite length_fmap, length_take. lia. }
    cbn [mbind option_bind]. rewrite app_nil_r. do 2 f_equal; [rewrite Hlen, E; lia |].
    rewrite overlay_short by (rewrite length_fmap; unfold vlen in *; lia).
    unfold vlen. by rewrite Nat2Z.id, fmap_take.
  - rewrite buf_load_Some by lia. cbn [mbind option_bind].
    rewrite Z.sub_0_r, drop_0, take_ge by lia.
    assert (Hd2 : d2 = take (Z.to_nat b.2) d2 ++ drop (Z.to_nat b.2) d2) by by rewrite take_drop.
    assert (Hlt : length (take (Z.to_nat b.2) d2) = Z.to_nat b.2)
      by (rewrite length_take; unfold vlen in *; lia).
    rewrite Hd2 at 1. rewrite copy_slice_app; [| done | unfold vlen; lia |].
    2:{ unfold vlen. rewrite length_fmap. lia. }
    cbn [mbind option_bind]. rewrite app_assoc.
    assert (Hv : vlen (d1 ++ (mem_get m <$> slice_addrs b)) = vlen d1 + b.2)
      by (unfold vlen; rewrite length_app, length_fmap; lia).
    rewrite <- Hv, IH; [| done | | lia].
    2:{ rewrite vlen_app, Hv. unfold vlen in *. rewrite length_drop. lia. }
    assert (Hov : overlay ((mem_get m <$> slice_addrs b) ++ (mem_get m <$> ub_addrs bufs)) d2 =
              (mem_get m <$> slice_addrs b) ++ overlay (mem_get m <$> ub_addrs bufs) (drop (Z.to_nat b.2) d2))
      by (rewrite Hd2 at 1; rewrite overlay_app by (rewrite length_fmap; lia); done).
    rewrite Hov, (app_assoc d1), vlen_app, Hv. do 2 f_equal.
    unfold vlen in *. rewrite length_drop. lia.
Qed.

Lemma ub_write_loop_ok bufs s1 s2 len m :
  bufs_ok bufs -> vlen (s1 ++ s2) < 2 ^ 63 -> len = vlen s1 + vlen (ub_addrs bufs) ->
  ub_write_loop len bufs (vlen s1) (s1 ++ s2) m =
  Some (Z.min len (vlen (s1 ++ s2)), scatter m (ub_addrs bufs) s2).
Proof.
  revert s1 s2 m. induction bufs as [| b bufs IH]; intros s1 s2 m Hok Hd Hlen.
  { cbn. unfold vlen in *. cbn in Hlen. rewrite length_app. do 2 f_equal. lia. }
  apply bufs_ok_cons in Hok as (Hb & Hok & E & Hbnd). pose proof (vlen_nonneg s1).
  pose proof (vlen_nonneg (ub_addrs bufs)). rewrite vlen_app in *.
  cbn [ub_write_loop]. rewrite vlen_app. pose proof (vlen_nonneg s2).
  rewrite (wrap64_small (vlen s1 + b.2)) by lia.
  rewrite ub_addrs_cons. pose proof (length_slice_addrs b) as Hls.
  destruct (Z.ltb_spec (vlen s1 + vlen s2) (vlen s1 + b.2)).
  - rewrite wrap64_small by lia. rewrite <- (app_nil_r s2) at 1.
    rewrite slice_app by done. cbn [mbind option_bind].
    rewrite buf_store_Some by lia. cbn [mbind option_bind]. do 2 f_equal; [lia |].
    change (drop (Z.to_nat 0) (slice_addrs b)) with (slice_addrs b).
    rewrite <- (scatter_take m (slice_addrs b ++ _)), take_app_le by (unfold vlen in *; lia).
    by rewrite scatter_take.
  - assert (Hd2 : s2 = take (Z.to_nat b.2) s2 ++ drop (Z.to_nat b.2) s2) by by rewrite take_drop.
    assert (Hlt : length (take (Z.to_nat b.2) s2) = Z.to_nat b.2)
      by (rewrite length_take; unfold vlen in *; lia).
    rewrite Hd2 at 1. rewrite slice_app; [| done | unfold vlen; lia]. cbn [mbind option_bind].
    rewrite buf_store_Some by (unfold vlen; lia). cbn [mbind option_bind].
    change (drop (Z.to_nat 0) (slice_addrs b)) with (slice_addrs b).
    rewrite Hd2 at 1. rewrite app_assoc.
    assert (Hv : vlen (s1 ++ take (Z.to_nat b.2) s2) = vlen s1 + b.2)
      by (unfold vlen; rewrite length_app; lia).
    rewrite <- Hv, IH; [| done | | lia].
    2:{ rewrite vlen_app, Hv. unfold vlen in *. rewrite length_drop. lia. }
    assert (Hsc : scatter m (slice_addrs b ++ ub_addrs bufs) s2 =
              scatter (scatter m (slice_addrs b) (take (Z.to_nat b.2) s2)) (ub_addrs bufs)
                (drop (Z.to_nat b.2) s2))
      by (rewrite Hd2 at 1; rewrite scatter_app by lia; done).
    rewrite Hsc. do 2 f_equal. rewrite vlen_app, Hv. unfold vlen in *. rewrite length_drop. lia.
Qed.

Lemma ub_read_ok m bufs dst :
  bufs_ok bufs -> vlen dst < 2 ^ 63 ->
  ub_read m (ub_new bufs) dst =
  Some (Z.min (vlen (ub_addrs bufs)) (vlen dst), overlay (mem_get m <$> ub_addrs bufs) dst).
Proof.
  intros Hok Hd. unfold ub_read. rewrite ub_new_len by done.
  by apply (ub_read_loop_ok m bufs [] dst).
Qed.

Lemma ub_write_ok m bufs src :
  bufs_ok bufs -> vlen src < 2 ^ 63 ->
  ub_write m (ub_new bufs) src =
  Some (Z.min (vlen (ub_addrs bufs)) (vlen src), scatter m (ub_addrs bufs) src).
Proof.
  intros Hok Hd. unfold ub_write. rewrite ub_new_len by done.
  by apply (ub_write_loop_ok bufs [] src).
Qed.

(** Positions of [read_at] and [write_at]: before the loop reaches buffer
    position [s], the front [d1] of the other side has been transferred. *)
Definition at_pos (s offset : Z) (d1 d2 : list Z) : Prop :=
  (s <= offset /\ d1 = []) \/
  (offset < s /\ (vlen d1 = s - offset \/ (vlen d1 <= s - offset /\ d2 = []))).

(** The part of the buffers the loop still has to look at. *)
Definition at_rest (s offset : Z) (bufs : list (Z * Z)) : list Z :=
  drop (Z.to_nat (offset - s)) (ub_addrs bufs).

Lemma at_rest_cons s offset b bufs :
  0 <= b.2 ->
  at_rest s offset (b :: bufs) =
  drop (Z.to_nat (offset - s)) (slice_addrs b) ++ at_rest (s + b.2) offset bufs.
Proof.
  intros Hb. unfold at_rest. rewrite ub_addrs_cons, drop_app, length_slice_addrs.
  do 2 f_equal. lia.
Qed.

(** One buffer of the loop: either nothing of it is transferred, or exactly
    [c] bytes from its position [copy_start - s]. *)
Lemma at_step s offset n (d1 d2 : list Z) :
  0 <= s -> 0 <= offset -> 0 <= n -> at_pos s offset d1 d2 ->
  let D := vlen d1 + vlen d2 in
  let cs := Z.max s offset in
  let ce := Z.min (s + n) (D + offset) in
  (ce <= cs /\ (d2 = [] \/ s + n <= offset \/ n = 0) /\ at_pos (s + n) offset d1 d2) \/
  (cs < ce /\ cs - offset = vlen d1 /\ cs - s = Z.max 0 (offset - s) /\
   ce - cs = Z.min (n - (cs - s)) (vlen d2) /\
   forall x y, vlen x = ce - cs -> vlen y = vlen d2 - (ce - cs) -> at_pos (s + n) offset (d1 ++ x) y).
Proof.
  intros Hs Ho Hn Hp D cs ce. pose proof (vlen_nonneg d1) as H1. pose proof (vlen_nonneg d2) as H2.
  assert (Hnil : vlen d2 = 0 <-> d2 = []).
  { unfold vlen. split; [| by intros ->]. intros H. apply nil_length_inv. lia. }
  destruct (Z.le_gt_cases ce cs) as [Hc | Hc]; [left | right].
  - split; [done |]. unfold at_pos in *. destruct Hp as [[Hle ->] | [Hlt [Hd | [Hd ->]]]].
    + change (vlen (@nil Z)) with 0 in *. destruct (decide (s + n <= offset)); [split; [by eauto | by left] |].
      assert (n = 0 \/ vlen d2 = 0) as [-> | Hz] by lia; [split; [by eauto |]; left; split; [lia | done] |].
      apply Hnil in Hz. subst d2. split; [by left |]. right. split; [lia |]. right. split; [| done].
      unfold vlen. cbn. lia.
    + assert (n = 0 \/ vlen d2 = 0) as [-> | Hz] by lia; [split; [by eauto |]; right; split; [lia |]; left; lia |].
      apply Hnil in Hz. subst d2. split; [by left |]. right. split; [lia |]. right. split; [lia | done].
    + split; [by left |]. right. split; [lia |]. right. split; [lia | done].
  - unfold at_pos in *. destruct Hp as [[Hle ->] | [Hlt [Hd | [Hd ->]]]];
      change (vlen (@nil Z)) with 0 in *; [| | lia].
    + split_and!; [done | lia | lia | lia |]. intros x y Hx Hy. right. split; [lia |]. cbn.
      destruct (decide (ce - cs = vlen d2)); [| left; lia].
      right. split; [lia |]. apply nil_length_inv. unfold vlen in *. lia.
    + split_and!; [done | lia | lia | lia |]. intros x y Hx Hy. right. split; [lia |].
      rewrite vlen_app. destruct (decide (ce - cs = vlen d2)); [| left; lia].
      right. split; [lia |]. apply nil_length_inv. unfold vlen in *. lia.
Qed.

(** What one transfer of [c] bytes contributes to the whole. *)
Lemma overlay_chunk {A} (xs xs' ys : list A) c :
  c = Nat.min (length xs) (length ys) ->
  overlay (xs ++ xs') ys = take c xs ++ overlay xs' (drop c ys) .
Proof.
  intros ->. destruct (Nat.le_gt_cases (length xs) (length ys)).
  - rewrite Nat.min_l, firstn_all by done.
    rewrite <- (take_drop (length xs) ys) at 1. rewrite overlay_app; [done |].
    rewrite length_take. lia.
  - rewrite Nat.min_r, overlay_short, drop_all by lia. by rewrite overlay_nil_r, app_nil_r.
Qed.

Lemma scatter_chunk m a1 a2 bs c :
  c = Nat.min (length a1) (length bs) ->
  scatter m (a1 ++ a2) bs = scatter (scatter m a1 (take c bs)) a2 (drop c bs).
Proof.
  intros ->. destruct (Nat.le_gt_cases (length a1) (length bs)).
  - rewrite Nat.min_l by done. rewrite <- (take_drop (length a1) bs) at 1.
    rewrite scatter_app; [done |]. rewrite length_take. lia.
  - rewrite Nat.min_r, drop_all, scatter_nil_r, firstn_all by lia.
    rewrite <- (scatter_take m (a1 ++ a2)), take_app_le by lia. apply scatter_take.
Qed.

Lemma at_rest_skip s offset b bufs :
  0 <= b.2 -> s + b.2 <= offset \/ b.2 = 0 ->
  at_rest s offset (b :: bufs) = at_rest (s + b.2) offset bufs.
Proof.
  intros Hb Hc. rewrite at_rest_cons by done. rewrite drop_ge; [done |].
  rewrite length_slice_addrs. lia.
Qed.

Lemma ub_read_at_loop_ok m offset bufs s read d1 d2 :
  bufs_ok bufs -> 0 <= s -> 0 <= offset -> s + vlen (ub_addrs bufs) < 2 ^ 63 ->
  vlen d1 + vlen d2 + offset < 2 ^ 63 -> 0 <= read -> read + vlen d2 < 2 ^ 63 ->
  at_pos s offset d1 d2 ->
  ub_read_at_loop m offset bufs s read (d1 ++ d2) =
  Some (read + Z.min (vlen (at_rest s offset bufs)) (vlen d2),
        d1 ++ overlay (mem_get m <$> at_rest s offset bufs) d2).
Proof.
  revert s read d1 d2. induction bufs as [| b bufs IH]; intros s read d1 d2 Hok Hs Ho Hl Hd Hr Hrd Hp.
  { cbn. unfold at_rest. cbn. rewrite drop_nil. pose proof (vlen_nonneg d2).
    do 3 f_equal; [unfold vlen in *; cbn; lia |]. unfold overlay. cbn. by rewrite take_nil. }
  apply bufs_ok_cons in Hok as (Hb & Hok & E & Hbnd). rewrite E in Hl.
  pose proof (vlen_nonneg d1). pose proof (vlen_nonneg d2). pose proof (vlen_nonneg (ub_addrs bufs)).
  cbn [ub_read_at_loop]. rewrite vlen_app.
  rewrite (wrap64_small (s + b.2)), (wrap64_small (vlen d1 + vlen d2 + offset)) by lia.
  destruct (at_step s offset b.2 d1 d2 Hs Ho Hb Hp) as [(Hc & Hwhy & Hp') | (Hc & K1 & K2 & K3 & Hp')].
  - destruct (Z.leb_spec (Z.min (s + b.2) (vlen d1 + vlen d2 + offset)) (Z.max s offset)); [| lia].
    rewrite IH by (done || lia). destruct Hwhy as [-> | Hwhy].
    + rewrite !overlay_nil_r. change (vlen (@nil Z)) with 0.
      pose proof (vlen_nonneg (at_rest s offset (b :: bufs))).
      pose proof (vlen_nonneg (at_rest (s + b.2) offset bufs)). do 2 f_equal. lia.
    + by rewrite at_rest_skip.
  - revert Hc K1 K2 K3 Hp'. set (cs := Z.max s offset).
    set (ce := Z.min (s + b.2) (vlen d1 + vlen d2 + offset)). intros Hc K1 K2 K3 Hp'.
    assert (Ecs : cs = Z.max s offset) by done.
    assert (Ece : ce = Z.min (s + b.2) (vlen d1 + vlen d2 + offset)) by done. clearbody cs ce.
    destruct (Z.leb_spec ce cs); [lia |].
    rewrite (wrap64_small (cs - s)), (wrap64_small (ce - s)), (wrap64_small (cs - offset)),
      (wrap64_small (ce - offset)), (wrap64_small (ce - cs)), (wrap64_small (read + (ce - cs))) by lia.
    rewrite buf_load_Some by lia. cbn [mbind option_bind].
    replace (ce - s - (cs - s)) with (ce - cs) by lia.
    replace (Z.to_nat (cs - s)) with (Z.to_nat (offset - s)) by lia.
    rewrite at_rest_cons, fmap_app by done.
    set (A := drop (Z.to_nat (offset - s)) (slice_addrs b)).
    assert (HlA : length A = Z.to_nat (b.2 - (cs - s)))
      by (unfold A; rewrite length_drop, length_slice_addrs; lia).
    rewrite (overlay_chunk (mem_get m <$> A) _ d2 (Z.to_nat (ce - cs)))
      by (rewrite length_fmap; unfold vlen in *; lia).
    set (x := mem_get m <$> take (Z.to_nat (ce - cs)) A).
    assert (Hx : vlen x = ce - cs) by (unfold x, vlen in *; rewrite length_fmap, length_take; lia).
    assert (Hy : vlen (drop (Z.to_nat (ce - cs)) d2) = vlen d2 - (ce - cs))
      by (unfold vlen in *; rewrite length_drop; lia).
    rewrite <- (take_drop (Z.to_nat (ce - cs)) d2) at 1.
    rewrite copy_slice_app; [| lia | unfold vlen in *; rewrite length_take; lia
                            | unfold vlen in *; rewrite length_take; lia].
    cbn [mbind option_bind]. rewrite app_assoc, IH; [| done | lia | lia | lia | | lia | lia | by apply Hp'].
    2:{ rewrite vlen_app. lia. }
    rewrite <- app_assoc. unfold x. rewrite <- fmap_take. do 2 f_equal.
    rewrite vlen_app, Hy. unfold vlen in *. lia.
Qed.

Lemma ub_write_at_loop_ok offset bufs s written s1 s2 m :
  bufs_ok bufs -> 0 <= s -> 0 <= offset -> s + vlen (ub_addrs bufs) < 2 ^ 63 ->
  vlen s1 + vlen s2 + offset < 2 ^ 63 -> 0 <= written -> written + vlen s2 < 2 ^ 63 ->
  at_pos s offset s1 s2 ->
  ub_write_at_loop offset bufs s written (s1 ++ s2) m =
  Some (written + Z.min (vlen (at_rest s offset bufs)) (vlen s2),
        scatter m (at_rest s offset bufs) s2).
Proof.
  revert s written s1 s2 m.
  induction bufs as [| b bufs IH]; intros s written s1 s2 m Hok Hs Ho Hl Hd Hr Hrd Hp.
  { cbn. unfold at_rest. cbn. rewrite drop_nil. pose proof (vlen_nonneg s2).
    do 2 f_equal. unfold vlen in *. cbn. lia. }
  apply bufs_ok_cons in Hok as (Hb & Hok & E & Hbnd). rewrite E in Hl.
  pose proof (vlen_nonneg s1). pose proof (vlen_nonneg s2). pose proof (vlen_nonneg (ub_addrs bufs)).
  cbn [ub_write_at_loop]. rewrite vlen_app.
  rewrite (wrap64_small (s + b.2)), (wrap64_small (vlen s1 + vlen s2 + offset)) by lia.
  destruct (at_step s offset b.2 s1 s2 Hs Ho Hb Hp) as [(Hc & Hwhy & Hp') | (Hc & K1 & K2 & K3 & Hp')].
  - destruct (Z.leb_spec (Z.min (s + b.2) (vlen s1 + vlen s2 + offset)) (Z.max s offset)); [| lia].
    rewrite IH by (done || lia). destruct Hwhy as [-> | Hwhy].
    + rewrite !scatter_nil_r. change (vlen (@nil Z)) with 0.
      pose proof (vlen_nonneg (at_rest s offset (b :: bufs))).
      pose proof (vlen_nonneg (at_rest (s + b.2) offset bufs)). do 2 f_equal. lia.
    + by rewrite at_rest_skip.
  - revert Hc K1 K2 K3 Hp'. set (cs := Z.max s offset).
    set (ce := Z.min (s + b.2) (vlen s1 + vlen s2 + offset)). intros Hc K1 K2 K3 Hp'.
    assert (Ecs : cs = Z.max s offset) by done.
    assert (Ece : ce = Z.min (s + b.2) (vlen s1 + vlen s2 + offset)) by done. clearbody cs ce.
    destruct (Z.leb_spec ce cs); [lia |].
    rewrite (wrap64_small (cs - s)), (wrap64_small (ce - s)), (wrap64_small (cs - offset)),
      (wrap64_small (ce - offset)), (wrap64_small (ce - cs)), (wrap64_small (written + (ce - cs))) by lia.
    rewrite <- (take_drop (Z.to_nat (ce - cs)) s2) at 1.
    set (x := take (Z.to_nat (ce - cs)) s2). set (y := drop (Z.to_nat (ce - cs)) s2).
    assert (Hx : vlen x = ce - cs) by (unfold x, vlen in *; rewrite length_take; lia).
    assert (Hy : vlen y = vlen s2 - (ce - cs)) by (unfold y, vlen in *; rewrite length_drop; lia).
    rewrite slice_app by lia. cbn [mbind option_bind].
    rewrite buf_store_Some by lia. cbn [mbind option_bind].
    replace (Z.to_nat (cs - s)) with (Z.to_nat (offset - s)) by lia.
    rewrite at_rest_cons by done.
    set (A := drop (Z.to_nat (offset - s)) (slice_addrs b)).
    assert (HlA : length A = Z.to_nat (b.2 - (cs - s)))
      by (unfold A; rewrite length_drop, length_slice_addrs; lia).
    rewrite (scatter_chunk m A _ s2 (Z.to_nat (ce - cs))) by (unfold vlen in *; lia). fold x y.
    replace (s1 ++ s2) with ((s1 ++ x) ++ y) by (rewrite <- app_assoc; unfold x, y; by rewrite take_drop).
    rewrite IH; [| done | lia | lia | lia | | lia | lia | by apply Hp'].
    2:{ rewrite vlen_app. lia. }
    do 2 f_equal. rewrite vlen_app, Hy. unfold vlen in *. lia.
Qed.

Lemma ub_index_loop_ok bufs i :
  bufs_ok bufs -> 0 <= i < vlen (ub_addrs bufs) ->
  ub_index_loop bufs i = ub_addrs bufs !! Z.to_nat i.
Proof.
  revert i. induction bufs as [| b bufs IH]; intros i Hok Hi; [unfold vlen in Hi; cbn in Hi; lia |].
  apply bufs_ok_cons in Hok as (Hb & Hok & E & Hbnd). rewrite E in Hi. cbn [ub_index_loop].
  rewrite ub_addrs_cons. destruct (Z.ltb_spec i b.2).
  - rewrite lookup_app_l by (rewrite length_slice_addrs; lia).
    unfold slice_addrs. rewrite lookup_seqZ_lt by lia. f_equal. lia.
  - rewrite wrap64_small, IH by (done || lia).
    rewrite lookup_app_r by (rewrite length_slice_addrs; lia).
    rewrite length_slice_addrs. f_equal. lia.
Qed.

(** The iterator: the addresses it has left. *)
Definition ubi_left (it : UserBufferIterator) : list Z :=
  drop (Z.to_nat (ubi_current_idx it)) (ub_addrs (drop (Z.to_nat (ubi_current_buffer it)) (ubi_buffers it))).

Definition ubi_ok (it : UserBufferIterator) : Prop :=
  Forall (fun b => 0 < b.2 < 2 ^ 63) (ubi_buffers it) /\ vlen (ubi_buffers it) < 2 ^ 63 /\
  0 <= ubi_current_idx it /\
  ((vlen (ubi_buffers it) = ubi_current_buffer it /\ ubi_current_idx it = 0) \/
   exists b, 0 <= ubi_current_buffer it /\
     ubi_buffers it !! Z.to_nat (ubi_current_buffer it) = Some b /\ ubi_current_idx it < b.2).

Lemma ubi_next_ok it :
  ubi_ok it ->
  match ubi_left it with
  | [] => ubi_next it = Some (None, it)
  | a :: rest => exists it', ubi_next it = Some (Some a, it') /\ ubi_ok it' /\ ubi_left it' = rest
  end.
Proof.
  destruct it as [bufs cb ci]. unfold ubi_ok, ubi_left, ubi_next. cbn.
  intros (Hf & Hl & Hi & [[He Hz] | (b & Hcb & Eb & Hci)]).
  { subst cb ci. unfold vlen. rewrite Nat2Z.id, drop_all. cbn. by rewrite Z.leb_refl. }
  pose proof (Forall_lookup_1 _ _ _ _ Hf Eb) as Hb. pose proof (lookup_lt_Some _ _ _ Eb) as Hlt.
  unfold vlen in *. destruct (Z.leb_spec (Z.of_nat (length bufs)) cb); [lia |].
  assert (E : drop (Z.to_nat cb) bufs = b :: drop (Z.to_nat (cb + 1)) bufs)
    by (rewrite (drop_S _ _ _ Eb); do 2 f_equal; lia).
  rewrite E, ub_addrs_cons, drop_app_le by (rewrite length_slice_addrs; lia).
  rewrite (drop_S (slice_addrs b) (b.1 + ci) (Z.to_nat ci)).
  2:{ unfold slice_addrs. rewrite lookup_seqZ_lt by lia. f_equal. lia. }
  cbn [app].
  assert (vec_get bufs cb = Some b) as -> by (apply vec_get_Some; unfold vlen; split; [lia | done]).
  cbn [mbind option_bind]. destruct (Z.ltb_spec ci b.2); [| lia]. cbn [assert_ mbind option_bind].
  rewrite (wrap64_small (ci + 1)), (wrap64_small (cb + 1)) by lia.
  eexists. split; [reflexivity |]. destruct (Z.eqb_spec (ci + 1) b.2) as [He |]; cbn.
  - split.
    + split_and!; [done | done | lia |]. destruct (decide (cb + 1 = Z.of_nat (length bufs))); [left; lia |].
      right. destruct (lookup_lt_is_Some_2 bufs (Z.to_nat (cb + 1))) as [b' Eb']; [lia |].
      exists b'. split_and!; [lia | done |]. by apply (Forall_lookup_1 _ _ _ _ Hf Eb').
    + rewrite (drop_ge (slice_addrs b)) by (rewrite length_slice_addrs; lia). done.
  - split.
    + split_and!; [done | done | lia |]. right. exists b. split_and!; [lia | done | lia].
    + rewrite E, ub_addrs_cons, drop_app_le by (rewrite length_slice_addrs; lia).
      replace (Z.to_nat (ci + 1)) with (S (Z.to_nat ci)) by lia. done.
Qed.

Lemma ubi_drain_ok fuel it :
  ubi_ok it -> (length (ubi_left it) < fuel)%nat -> ubi_drain fuel it = Some (ubi_left it).
Proof.
  revert it. induction fuel as [| fuel IH]; intros it Hok Hf; [lia |].
  pose proof (ubi_next_ok it Hok) as Hn. cbn [ubi_drain]. destruct (ubi_left it) as [| a rest].
  - by rewrite Hn.
  - destruct Hn as (it' & -> & Hok' & Hl). cbn [mbind option_bind]. cbn in Hf.
    rewrite IH by (done || (rewrite Hl; lia)). cbn. by rewrite Hl.
Qed.

(** ** Theorems *)

(** A scattered buffer reads as the flat sequence of bytes its slices
    cover: [read] and [read_at] fill the destination with the bytes from the
    start or from the offset, stopping at the shorter of the two sides and
    returning that count; indexing finds the same bytes; nothing panics. *)
Theorem user_buffer_reads m bufs :
  bufs_ok bufs ->
  let ub := ub_new bufs in
  let flat := mem_get m <$> ub_addrs bufs in
  ub_len ub = vlen flat /\
  (forall dst, vlen dst < 2 ^ 62 ->
     ub_read m ub dst = Some (Z.min (vlen flat) (vlen dst), overlay flat dst)) /\
  (forall offset dst, 0 <= offset -> vlen dst + offset < 2 ^ 62 ->
     ub_read_at m ub offset dst =
     Some (Z.min (vlen (drop (Z.to_nat offset) flat)) (vlen dst),
           overlay (drop (Z.to_nat offset) flat) dst)) /\
  (forall i, 0 <= i < vlen flat ->
     exists a, ub_index ub i = Some a /\ flat !! Z.to_nat i = Some (mem_get m a)).
Proof.
  intros Hok ub flat. pose proof (ub_new_len bufs Hok) as Hlen.
  assert (Hf : vlen flat = vlen (ub_addrs bufs)) by (unfold flat, vlen; by rewrite length_fmap).
  pose proof (proj2 Hok) as Hb. pose proof (vlen_nonneg (ub_addrs bufs)) as Hn.
  split_and!; [by rewrite Hf | | |].
  - intros dst Hd. rewrite Hf. apply ub_read_ok; [done | lia].
  - intros offset dst Ho Hd. unfold ub_read_at, ub. rewrite Hlen. pose proof (vlen_nonneg dst).
    destruct (Z.leb_spec (vlen (ub_addrs bufs)) offset).
    + unfold flat. rewrite drop_ge by (rewrite length_fmap; unfold vlen in *; lia).
      unfold overlay. rewrite take_nil. cbn. do 2 f_equal. unfold vlen in *. cbn. lia.
    + pose proof (ub_read_at_loop_ok m offset bufs 0 0 [] dst Hok ltac:(lia) Ho ltac:(lia)
                    ltac:(unfold vlen in *; cbn; lia) ltac:(lia) ltac:(lia) ltac:(left; done)) as E.
      cbn [app] in E. change (ub_buffers (ub_new bufs)) with bufs. rewrite E. unfold at_rest, flat. rewrite Z.sub_0_r, <- fmap_drop, Z.add_0_l.
      unfold vlen. by rewrite length_fmap.
  - intros i Hi. unfold ub_index, ub. rewrite Hlen.
    destruct (Z.ltb_spec i (vlen (ub_addrs bufs))); [| lia]. cbn.
    rewrite ub_index_loop_ok by (done || lia).
    destruct (lookup_lt_is_Some_2 (ub_addrs bufs) (Z.to_nat i)) as [a E]; [unfold vlen in *; lia |].
    exists a. split; [done |]. unfold flat. by rewrite list_lookup_fmap, E.
Qed.

(** Two slices of three and two bytes. *)
Definition demo_bufs : list (Z * Z) := [(0x1000, 3); (0x5000, 2)].
Definition demo_mem : memory := write_bytes (write_bytes ∅ 0x1000 [1; 2; 3]) 0x5000 [4; 5].

Lemma demo_bufs_ok : bufs_ok demo_bufs.
Proof. split; [repeat constructor; cbn; lia | by vm_compute]. Qed.

Lemma user_buffer_reads_witness :
  ub_read demo_mem (ub_new demo_bufs) [0; 0; 0; 0] = Some (4, [1; 2; 3; 4]) /\
  ub_read_at demo_mem (ub_new demo_bufs) 2 [0; 0; 0; 0] = Some (3, [3; 4; 5; 0]).
Proof.
  destruct (user_buffer_reads demo_mem demo_bufs demo_bufs_ok) as (_ & Hr & Hra & _).
  rewrite Hr, Hra by by vm_compute. by vm_compute.
Defined.

(** C27: A write to a scattered buffer whose slices do not overlap lands byte
    for byte in the flat sequence: afterwards reading it back returns the bytes
    written followed by the old ones ([write]), or the old ones up to the
    offset, the bytes written, and the old ones after them ([write_at]); no
    other memory changes; the count is what was written. *)
Theorem user_buffer_writes m bufs offset src :
  bufs_ok bufs -> NoDup (ub_addrs bufs) -> bytes src -> 0 <= offset -> vlen src + offset < 2 ^ 62 ->
  let ub := ub_new bufs in
  let old := mem_get m <$> ub_addrs bufs in
  exists n1 m1 n2 m2,
    ub_write m ub src = Some (n1, m1) /\ n1 = Z.min (vlen old) (vlen src) /\
    mem_get m1 <$> ub_addrs bufs = overlay src old /\
    ub_write_at m ub offset src = Some (n2, m2) /\
    n2 = Z.min (vlen (drop (Z.to_nat offset) old)) (vlen src) /\
    mem_get m2 <$> ub_addrs bufs =
      take (Z.to_nat offset) old ++ overlay src (drop (Z.to_nat offset) old) /\
    forall x, x ∉ ub_addrs bufs -> mem_get m1 x = mem_get m x /\ mem_get m2 x = mem_get m x.
Proof.
  intros Hok Hn Hb Ho Hs ub old. pose proof (ub_new_len bufs Hok) as Hlen.
  assert (Hf : vlen old = vlen (ub_addrs bufs)) by (unfold old, vlen; by rewrite length_fmap).
  pose proof (proj2 Hok) as Hbd. pose proof (vlen_nonneg src). pose proof (vlen_nonneg (ub_addrs bufs)).
  set (A := drop (Z.to_nat offset) (ub_addrs bufs)).
  assert (HA : NoDup A) by (apply (sublist_NoDup _ (ub_addrs bufs)); [done | apply sublist_drop]).
  assert (HlA : vlen (drop (Z.to_nat offset) old) = vlen A)
    by (unfold old, A, vlen; by rewrite <- fmap_drop, length_fmap).
  exists (Z.min (vlen old) (vlen src)), (scatter m (ub_addrs bufs) src),
    (Z.min (vlen A) (vlen src)), (scatter m A src).
  split_and!; [| done | by apply scatter_read | | by rewrite HlA | |].
  - rewrite Hf. apply ub_write_ok; [done | lia].
  - unfold ub_write_at, ub. rewrite Hlen. destruct (Z.leb_spec (vlen (ub_addrs bufs)) offset).
    + assert (A = []) as -> by (apply drop_ge; unfold vlen in *; lia). rewrite scatter_nil_l.
      change (vlen (@nil Z)) with 0. do 2 f_equal. lia.
    + pose proof (ub_write_at_loop_ok offset bufs 0 0 [] src m Hok ltac:(lia) Ho ltac:(lia)
                    ltac:(unfold vlen in *; cbn; lia) ltac:(lia) ltac:(lia) ltac:(left; done)) as E.
      cbn [app] in E. change (ub_buffers (ub_new bufs)) with bufs. rewrite E. unfold at_rest. by rewrite Z.sub_0_r, Z.add_0_l.
  - rewrite <- (take_drop (Z.to_nat offset) (ub_addrs bufs)) at 1. fold A. rewrite fmap_app.
    rewrite scatter_read by done. f_equal; [| unfold A, old; by rewrite fmap_drop].
    unfold old. rewrite <- fmap_take. apply list_fmap_ext. intros i x Hx.
    apply mem_get_scatter_out. intros Hin. rewrite <- (take_drop (Z.to_nat offset) (ub_addrs bufs)) in Hn.
    apply NoDup_app in Hn as (_ & Hd & _). by apply (Hd x), Hin; apply (list_elem_of_lookup_2 _ i).
  - intros x Hx. split; apply mem_get_scatter_out; [done |].
    intros Hin. apply Hx. rewrite <- (take_drop (Z.to_nat offset) (ub_addrs bufs)).
    apply elem_of_app. by right.
Qed.

Lemma user_buffer_writes_witness :
  exists n1 m1 n2 m2,
    ub_write demo_mem (ub_new demo_bufs) [7; 8; 9; 6] = Some (n1, m1) /\ n1 = 4 /\
    mem_get m1 <$> ub_addrs demo_bufs = [7; 8; 9; 6; 5] /\
    ub_write_at demo_mem (ub_new demo_bufs) 2 [7; 8; 9; 6] = Some (n2, m2) /\ n2 = 3 /\
    mem_get m2 <$> ub_addrs demo_bufs = [1; 2; 7; 8; 9].
Proof.
  destruct (user_buffer_writes demo_mem demo_bufs 2 [7; 8; 9; 6] demo_bufs_ok)
    as (n1 & m1 & n2 & m2 & E1 & -> & R1 & E2 & -> & R2 & _).
  - apply (bool_decide_unpack _). by vm_compute.
  - by repeat constructor.
  - lia.
  - by vm_compute.
  - exists 4, m1, 3, m2. rewrite E1, E2, R1, R2. by vm_compute.
Defined.

(** The byte iterator over a scattered buffer visits every byte of every
    slice once, in order, and ends, provided no slice is empty (on an empty
    slice [next] indexes out of range and panics). *)
Theorem user_buffer_iter_complete bufs :
  Forall (fun b => 0 < b.2 < 2 ^ 63) bufs -> vlen bufs < 2 ^ 63 ->
  ubi_drain (S (length (ub_addrs bufs))) (ub_into_iter (ub_new bufs)) = Some (ub_addrs bufs).
Proof.
  intros Hf Hl. change (ub_addrs bufs) with (ubi_left (ub_into_iter (ub_new bufs))) at 2.
  apply ubi_drain_ok; [| change (ubi_left _) with (ub_addrs bufs); lia].
  unfold ubi_ok, ub_into_iter, ub_new. cbn. split_and!; [done | done | lia |].
  destruct bufs as [| b bufs]; [by left | right]. exists b. split_and!; [lia | done |].
  apply Forall_cons in Hf as [? _]. lia.
Qed.

Lemma user_buffer_iter_complete_witness :
  ubi_drain 6 (ub_into_iter (ub_new demo_bufs)) = Some [0x1000; 0x1001; 0x1002; 0x5000; 0x5001].
Proof.
  apply (user_buffer_iter_complete demo_bufs); [repeat constructor; cbn; lia | by vm_compute].
Defined.
