(* ===== verification/UserCopy.v ===== *)
(** * Copies between the kernel and a user address space

    The functions of [mm/page_table.rs] that follow a user pointer through the
    page table named by a token: [translated_byte_buffer], [translated_str],
    [translated_ref], [copy_from_user], [copy_to_user] and their array and
    string forms. A value of type [T] is the list of its [size_of::<T>()]
    bytes. A page that is not mapped goes to [check_page_fault]
    ([mm/memory_set.rs]), an argument here; the theorems cover every handler. *)

From S2P Require Import Prelude Address Phys FrameAlloc PageTable Sv39 Sv39Tree UserBuf.

Section UserCopy.
Context {T : Type} `{!PageTable T}.
Context (check_page_fault : VirtAddr -> KM Phys Z PhysAddr).

Definition gen_start_end (start end_ : VirtAddr) : VirtPageNum * VirtPageNum :=
  (va_floor start, va_ceil end_).

(** The frame of a page, faulting it in when it is not mapped. *)
Definition translate_or_fault (page_table : T) (vpn : VirtPageNum) : KM Phys Z PhysPageNum := fun w =>
  match pt_translate page_table w vpn with
  | Some ppn => Some (Ok ppn, w)
  | None => (pa ← check_page_fault (va_from_vpn vpn); mret (pa_floor pa)) w
  end.

(** [&mut ppn.get_bytes_array()[lo..hi]]: a panic when [lo > hi]. *)
Definition page_slice (ppn lo hi : Z) : option (Z * Z) :=
  _ ← assert_ ((lo <=? hi) && (hi <=? 4096));
  Some (pa_from_ppn ppn + lo, hi - lo).

(** The loop [while start < end]. *)
Fixpoint translated_loop (fuel : nat) (page_table : T) (start end_ : Z) : KM Phys Z (list (Z * Z)) :=
  match fuel with
  | O => km_panic
  | S fuel' =>
      if start <? end_ then
        ppn ← translate_or_fault page_table (va_floor start);
        let vpn := step (va_floor start) in
        let end_va := Z.min (va_from_vpn vpn) end_ in
        b ← km_lift (if va_page_offset end_va =? 0
                     then page_slice ppn (va_page_offset start) 4096
                     else page_slice ppn (va_page_offset start) (va_page_offset end_va));
        rest ← translated_loop fuel' page_table end_va end_;
        mret (b :: rest)
      else mret []
  end.

(** One iteration per page, and one more to leave the loop. *)
Definition loop_fuel (len : Z) : nat := S (S (S (Z.to_nat (len / PAGE_SIZE)))).

Definition translated_byte_buffer (token ptr len : Z) : KM Phys Z (list (Z * Z)) :=
  translated_loop (loop_fuel len) (pt_from_token token) ptr (ptr +w len).

(** The existing vector is extended by what the same loop produces. *)
Definition translated_byte_buffer_append_to_existing_vec (existing_vec : list (Z * Z))
    (token ptr len : Z) : KM Phys Z (list (Z * Z)) :=
  v ← translated_loop (loop_fuel len) (pt_from_token token) ptr (ptr +w len);
  mret (existing_vec ++ v).

Definition translated_va (page_table : T) (va : VirtAddr) : KM Phys Z PhysAddr := fun w =>
  match pt_translate_va page_table w va with
  | Some pa => Some (Ok pa, w)
  | None => check_page_fault va w
  end.

Fixpoint translated_str_loop (fuel : nat) (page_table : T) (cur : Z) : KM Phys Z (list Z) :=
  match fuel with
  | O => km_panic
  | S fuel' =>
      pa ← translated_va page_table cur;
      w ← km_get;
      let ch := mem_get (pmem w) pa in
      if ch =? 0 then mret []
      else rest ← translated_str_loop fuel' page_table (cur +w 1); mret (ch :: rest)
  end.
Definition translated_str (fuel : nat) (token ptr : Z) : KM Phys Z (list Z) :=
  translated_str_loop fuel (pt_from_token token) ptr.

(** [translated_ref] and [translated_refmut]: the physical address. *)
Definition translated_ref (token ptr : Z) : KM Phys Z PhysAddr :=
  translated_va (pt_from_token token) ptr.
Definition translated_refmut (token ptr : Z) : KM Phys Z PhysAddr :=
  translated_va (pt_from_token token) ptr.

(** [core::ptr::copy_nonoverlapping] from and to physical memory. *)
Definition copy_in (pa size : Z) : KM Phys Z (list Z) :=
  w ← km_get; mret (read_bytes (pmem w) pa size).
Definition copy_out (pa : Z) (src : list Z) : KM Phys Z unit :=
  w ← km_get; km_put (with_mem (fun m => write_bytes m pa src) w).

(** [UserBuffer::new(v).read(dst)] into a fresh destination, and
    [UserBuffer::new(v).write(src)]. *)
Definition buffer_in (v : list (Z * Z)) (size : Z) : KM Phys Z (list Z) :=
  w ← km_get;
  '(_, dst) ← km_lift (ub_read (pmem w) (ub_new v) (replicate (Z.to_nat size) 0));
  mret dst.
Definition buffer_out (v : list (Z * Z)) (src : list Z) : KM Phys Z unit :=
  w ← km_get;
  '(_, m) ← km_lift (ub_write (pmem w) (ub_new v) src);
  km_put (with_mem (fun _ => m) w).

Definition same_page (a b : Z) : bool := va_floor a =? va_floor b.

Definition copy_from_user (token src size : Z) : KM Phys Z (list Z) :=
  if same_page src (src +w size -w 1) then
    pa ← translated_ref token src; copy_in pa size
  else
    v ← translated_byte_buffer token src size; buffer_in v size.

Definition copy_from_user_array (token src elem len : Z) : KM Phys Z (list Z) :=
  let size := elem *w len in
  if same_page src (src +w size -w 1) then
    pa ← translated_va (pt_from_token token) src; copy_in pa size
  else
    v ← translated_byte_buffer token src size; buffer_in v size.

Definition copy_to_user (token : Z) (src : list Z) (dst : Z) : KM Phys Z unit :=
  let size := vlen src in
  if same_page dst (dst +w size -w 1) then
    pa ← translated_refmut token dst; copy_out pa src
  else
    v ← translated_byte_buffer token dst size; buffer_out v src.

Definition copy_to_user_array (token : Z) (src : list Z) (dst : Z) : KM Phys Z unit :=
  let size := vlen src in
  if same_page dst (dst +w size -w 1) then
    pa ← translated_va (pt_from_token token) dst; copy_out pa src
  else
    v ← translated_byte_buffer token dst size; buffer_out v src.

Definition get_from_user (token src size : Z) : KM Phys Z (list Z) := copy_from_user token src size.

Definition try_get_from_user (token src size : Z) : KM Phys Z (option (list Z)) :=
  if negb (src =? 0) then v ← get_from_user token src size; mret (Some v)
  else mret None.

Definition copy_to_user_string (token : Z) (src : list Z) (dst : Z) : KM Phys Z unit :=
  let size := vlen src in
  dst_pa ← translated_va (pt_from_token token) dst;
  if same_page dst (dst +w size) then
    _ ← copy_out dst_pa src;
    copy_out (dst_pa +w size) [0]
  else
    v ← translated_byte_buffer token dst size;
    _ ← buffer_out v src;
    copy_out (dst_pa +w size) [0].
End UserCopy.

(** ** The user's view of memory *)

Section View.
Context {T : Type} `{!PageTable T, !PageTableSpec T}.

(** The physical address of a user address. *)
Definition user_pa (t : T) (w : Phys) (va : Z) : Z := default 0 (pt_translate_va t w va).

(** Every page of the range is mapped. *)
Definition range_mapped (t : T) (w : Phys) (va n : Z) : Prop :=
  0 <= va /\ 0 <= n /\ va + n <= TRAMPOLINE /\
  forall a, va <= a < va + n -> is_Some (pt_view t w (pt_slot (va_floor a))).

(** The bytes of the range, as the process sees them. *)
Definition user_bytes (t : T) (w : Phys) (va n : Z) : list Z :=
  (fun a => mem_get (pmem w) (user_pa t w a)) <$> seqZ va n.

Definition user_addrs (t : T) (w : Phys) (va n : Z) : list Z := user_pa t w <$> seqZ va n.

Lemma user_bytes_addrs t w va n : user_bytes t w va n = mem_get (pmem w) <$> user_addrs t w va n.
Proof. unfold user_bytes, user_addrs. by rewrite <- list_fmap_compose. Qed.

Lemma user_pa_page base raw t w va e :
  pt_inv base raw t w -> 0 <= va < 2 ^ 64 -> pt_view t w (pt_slot (va_floor va)) = Some e ->
  pt_translate_va t w va = Some (e.1 * 4096 + va mod 4096) /\
  user_pa t w va = e.1 * 4096 + va mod 4096 /\ ppn_ok e.1.
Proof.
  intros Hi Hva He. destruct (pt_view_ok _ _ _ _ _ _ Hi He) as [Hp _].
  assert (Hpa : pt_translate_va t w va = Some (e.1 * 4096 + va mod 4096)).
  { rewrite (pt_translate_va_view base raw) by done. rewrite He. simpl. f_equal.
    unfold ppn_ok in Hp. pose proof (va_offset_bound va) as Ho. unfold PAGE_SIZE in Ho.
    rewrite ppn_offset_small by (unfold PAGE_SIZE; lia). rewrite page_offset_mod. done. }
  split_and!; [done | | done]. unfold user_pa. by rewrite Hpa.
Qed.

(** Within a page, consecutive user addresses are consecutive in memory. *)
Lemma user_addrs_page base raw t w va n e :
  pt_inv base raw t w -> 0 <= va -> 0 <= n -> va + n < 2 ^ 64 ->
  va mod 4096 + n <= 4096 ->
  pt_view t w (pt_slot (va_floor va)) = Some e ->
  user_addrs t w va n = seqZ (e.1 * 4096 + va mod 4096) n.
Proof.
  intros Hi Hv Hn Hb Hp He. unfold user_addrs. apply list_eq. intros i.
  rewrite list_lookup_fmap. destruct (decide (Z.of_nat i < n)).
  - rewrite !lookup_seqZ_lt by lia. simpl. f_equal.
    assert (Hf : va_floor (va + Z.of_nat i) = va_floor va) by (unfold va_floor, PAGE_SIZE; lia).
    destruct (user_pa_page base raw t w (va + Z.of_nat i) e) as (_ & -> & _);
      [done | lia | by rewrite Hf |].
    rewrite <- Z.add_mod_idemp_l, (Z.mod_small (va mod 4096 + Z.of_nat i)) by lia. lia.
  - by rewrite !lookup_seqZ_ge by lia.
Qed.

Lemma user_addrs_app t w va n1 n2 :
  0 <= n1 -> 0 <= n2 ->
  user_addrs t w va (n1 + n2) = user_addrs t w va n1 ++ user_addrs t w (va + n1) n2.
Proof. intros. unfold user_addrs. by rewrite seqZ_app, fmap_app by done. Qed.

Lemma length_user_addrs t w va n : length (user_addrs t w va n) = Z.to_nat n.
Proof. unfold user_addrs. by rewrite length_fmap, length_seqZ. Qed.

(** The range's pages have different frames. *)
Definition range_injective (t : T) (w : Phys) (va n : Z) : Prop :=
  forall a b ea eb, va <= a < va + n -> va <= b < va + n ->
    pt_view t w (pt_slot (va_floor a)) = Some ea -> pt_view t w (pt_slot (va_floor b)) = Some eb ->
    ea.1 = eb.1 -> va_floor a = va_floor b.

(** The range's pages are not frames of the page table itself. *)
Definition range_private (t : T) (w : Phys) (va n : Z) : Prop :=
  forall a e, va <= a < va + n -> pt_view t w (pt_slot (va_floor a)) = Some e -> e.1 ∉ pt_frames t.

Lemma user_addrs_elem base raw t w va n x :
  pt_inv base raw t w -> range_mapped t w va n -> x ∈ user_addrs t w va n ->
  exists a e, va <= a < va + n /\ pt_view t w (pt_slot (va_floor a)) = Some e /\
    ppn_ok e.1 /\ x = e.1 * 4096 + a mod 4096.
Proof.
  intros Hi (Hv & Hn & Hb & Hm) Hx. unfold TRAMPOLINE, usize_max in Hb.
  unfold user_addrs in Hx. apply list_elem_of_fmap in Hx as (a & -> & Ha%elem_of_seqZ).
  destruct (Hm a) as [e He]; [lia |]. exists a, e.
  destruct (user_pa_page base raw t w a e) as (_ & Hpa & Hp); [done | unfold PAGE_SIZE in Hb; lia | done |].
  by split_and!; [lia | lia | ..].
Qed.

Lemma NoDup_user_addrs base raw t w va n :
  pt_inv base raw t w -> range_mapped t w va n -> range_injective t w va n ->
  NoDup (user_addrs t w va n).
Proof.
  intros Hi (Hv & Hn & Hb & Hm) Hj. unfold TRAMPOLINE, usize_max, PAGE_SIZE in Hb.
  unfold user_addrs. apply NoDup_fmap_2_strong; [| apply NoDup_seqZ].
  intros a b Ha%elem_of_seqZ Hb'%elem_of_seqZ E.
  destruct (Hm a) as [ea Ea]; [lia |]. destruct (Hm b) as [eb Eb]; [lia |].
  destruct (user_pa_page base raw t w a ea) as (_ & Hpa & Hp); [done | lia | done |].
  destruct (user_pa_page base raw t w b eb) as (_ & Hpb & _); [done | lia | done |].
  rewrite Hpa, Hpb in E. assert (ea.1 = eb.1) by lia.
  pose proof (Hj a b ea eb ltac:(lia) ltac:(lia) Ea Eb ltac:(done)) as Hf.
  unfold va_floor, PAGE_SIZE in Hf. lia.
Qed.

Lemma bufs_ok_addrs t w start n v :
  ub_addrs v = user_addrs t w start n -> Forall (fun b => 0 < b.2) v -> 0 <= n < 2 ^ 62 -> bufs_ok v.
Proof.
  intros E Hf Hn. split; [eapply Forall_impl; [done |]; simpl; lia |].
  rewrite E. unfold vlen. rewrite length_user_addrs. lia.
Qed.

Lemma overlay_full {A} (xs ys : list A) : length xs = length ys -> overlay xs ys = xs.
Proof.
  intros H. unfold overlay. rewrite <- H, firstn_all, drop_ge by lia. apply app_nil_r.
Qed.

Lemma buffer_in_ok t w start n v :
  ub_addrs v = user_addrs t w start n -> Forall (fun b => 0 < b.2) v -> 0 <= n < 2 ^ 62 ->
  buffer_in v n w = Some (Ok (user_bytes t w start n), w).
Proof.
  intros E Hf Hn. pose proof (bufs_ok_addrs _ _ _ _ _ E Hf Hn) as Hok.
  unfold buffer_in, km_get, mbind, KM_bind, km_lift.
  rewrite ub_read_ok by (done || (unfold vlen; rewrite length_replicate; lia)).
  rewrite E, <- user_bytes_addrs, overlay_full; [done |].
  unfold user_bytes. rewrite length_fmap, length_seqZ, length_replicate. done.
Qed.

Lemma buffer_out_ok t w start n v src :
  ub_addrs v = user_addrs t w start n -> Forall (fun b => 0 < b.2) v -> 0 <= n < 2 ^ 62 ->
  vlen src < 2 ^ 62 ->
  buffer_out v src w = Some (Ok tt, with_mem (fun m => scatter m (user_addrs t w start n) src) w).
Proof.
  intros E Hf Hn Hs. pose proof (bufs_ok_addrs _ _ _ _ _ E Hf Hn) as Hok.
  unfold buffer_out, km_get, mbind, KM_bind, km_lift.
  rewrite ub_write_ok by (done || lia). by rewrite E.
Qed.

Lemma same_page_spec a n :
  0 <= a -> 0 < n -> a + n < 2 ^ 64 ->
  same_page a (a +w n -w 1) = (a mod 4096 + n <=? 4096).
Proof.
  intros Ha Hn Hb. unfold same_page, va_floor, PAGE_SIZE. wrap_simpl.
  destruct (Z.eqb_spec (a / 4096) ((a + n - 1) / 4096)), (Z.leb_spec (a mod 4096 + n) 4096); lia || done.
Qed.

(** Stores to private pages leave the table as it is. *)
Lemma scatter_stable base raw t w va n bs :
  pt_inv base raw t w -> range_mapped t w va n -> range_private t w va n ->
  let w' := with_mem (fun m => scatter m (user_addrs t w va n) bs) w in
  pt_inv base raw t w' /\ forall k, pt_view t w' k = pt_view t w k.
Proof.
  intros Hi Hm Hp w'. pose proof (pt_inv_phys _ _ _ _ Hi) as Hphys.
  apply (pt_stable base raw t w w' Hi); [by apply phys_inv_with_mem |].
  intros p Hf. pose proof (pt_inv_frames _ _ _ _ _ Hi Hf) as Hc. split; [| done].
  intros o Ho. apply mem_get_scatter_out. intros Hin.
  destruct (user_addrs_elem base raw t w va n _ Hi Hm Hin) as (a & e & Ha & He & Hpe & E).
  assert (p = e.1) as -> by lia. by apply (Hp a e Ha He).
Qed.

Lemma user_pa_stable base raw t w w' va :
  pt_inv base raw t w -> pt_inv base raw t w' -> (forall k, pt_view t w' k = pt_view t w k) ->
  0 <= va < 2 ^ 64 -> user_pa t w' va = user_pa t w va.
Proof.
  intros Hi Hi' Hv Hva. unfold user_pa.
  rewrite !(pt_translate_va_view base raw) by done. by rewrite Hv.
Qed.

(** What is stored in a private range is what the process reads there. *)
Lemma scatter_user_bytes base raw t w va bs :
  pt_inv base raw t w -> bytes bs -> range_mapped t w va (vlen bs) ->
  range_injective t w va (vlen bs) -> range_private t w va (vlen bs) ->
  let w' := with_mem (fun m => scatter m (user_addrs t w va (vlen bs)) bs) w in
  pt_inv base raw t w' /\ (forall k, pt_view t w' k = pt_view t w k) /\
  range_mapped t w' va (vlen bs) /\ user_bytes t w' va (vlen bs) = bs.
Proof.
  intros Hi Hb Hm Hj Hp w'. destruct (scatter_stable base raw t w va (vlen bs) bs Hi Hm Hp) as [Hi' Hv'].
  split; [exact Hi' |]. split; [exact Hv' |]. split.
  { destruct Hm as (? & ? & ? & Hmap). split_and!; [done.. |]. intros a Ha.
    unfold w'. rewrite Hv'. by apply Hmap. }
  rewrite user_bytes_addrs. pose proof Hm as (Hs & _ & Hbd & _).
  unfold TRAMPOLINE, usize_max, PAGE_SIZE in Hbd.
  assert (E : user_addrs t w' va (vlen bs) = user_addrs t w va (vlen bs)).
  { unfold user_addrs. apply list_fmap_ext. intros i a Ha. apply lookup_seqZ in Ha.
    apply (user_pa_stable base raw); [done | done | done | lia]. }
  rewrite E. apply read_scatter; [by apply (NoDup_user_addrs base raw) | | done].
  rewrite length_user_addrs. unfold vlen. lia.
Qed.
End View.

(** ** The operations on a mapped range *)

Section Mapped.
Context {T : Type} `{!PageTable T, !PageTableSpec T}.
Context (check_page_fault : VirtAddr -> KM Phys Z PhysAddr).

(** The loop over the pages covers the range: its slices, laid out, are the
    physical addresses of the range in order. *)
Lemma translated_loop_ok base raw t w fuel start n :
  pt_inv base raw t w -> range_mapped t w start n ->
  0 < Z.of_nat fuel -> n = 0 \/ n + start mod 4096 <= 4096 * (Z.of_nat fuel - 1) ->
  exists v, translated_loop check_page_fault fuel (pt_from_token (pt_token t)) start (start + n) w =
      Some (Ok v, w) /\
    ub_addrs v = user_addrs t w start n /\ Forall (fun b => 0 < b.2) v.
Proof.
  intros Hi. revert start n. induction fuel as [| fuel IH]; intros start n Hm H0 Hf;
    pose proof Hm as (Hs & Hn & Hb & Hmap); [lia |].
  unfold TRAMPOLINE, usize_max, PAGE_SIZE in Hb.
  cbn [translated_loop]. destruct (Z.ltb_spec start (start + n)).
  2:{ exists []. assert (n = 0) as -> by lia. by split_and!. }
  destruct (Hmap start ltac:(lia)) as [e He].
  destruct (user_pa_page base raw t w start e Hi ltac:(lia) He) as (_ & _ & Hpp).
  assert (Htr : translate_or_fault check_page_fault (pt_from_token (pt_token t)) (va_floor start) w =
                Some (Ok e.1, w)).
  { unfold translate_or_fault. rewrite (proj1 (pt_token_walk _ _ _ _ Hi)).
    rewrite (pt_translate_view base raw) by (done || (unfold va_floor, PAGE_SIZE; lia)).
    by rewrite He. }
  rewrite (km_bind_ok _ _ _ _ _ Htr).
  assert (Hnext : va_from_vpn (step (va_floor start)) = start - start mod 4096 + 4096).
  { unfold step, va_from_vpn, PAGE_SIZE_BITS, va_floor, PAGE_SIZE.
    rewrite shiftl_mul by lia. wrap_simpl. lia. }
  rewrite Hnext, !page_offset_mod. unfold PAGE_SIZE.
  set (k := Z.min (4096 - start mod 4096) n).
  assert (Hk : Z.min (start - start mod 4096 + 4096) (start + n) = start + k) by lia. rewrite Hk.
  assert (Hsl : (if (start + k) mod 4096 =? 0 then page_slice e.1 (start mod 4096) 4096
                 else page_slice e.1 (start mod 4096) ((start + k) mod 4096)) =
                Some (pa_from_ppn e.1 + start mod 4096, k)).
  { unfold page_slice. destruct (Z.eqb_spec ((start + k) mod 4096) 0) as [E0 |].
    - assert (k = 4096 - start mod 4096) by lia.
      destruct (Z.leb_spec (start mod 4096) 4096); [| lia]. simpl. do 2 f_equal. lia.
    - assert ((start + k) mod 4096 = start mod 4096 + k) as -> by lia.
      destruct (Z.leb_spec (start mod 4096) (start mod 4096 + k)),
        (Z.leb_spec (start mod 4096 + k) 4096); try lia. simpl. do 2 f_equal. lia. }
  rewrite Hsl. unfold km_lift at 1, mbind at 1, KM_bind at 1.
  destruct (IH (start + k) (n - k)) as (v & Ev & Ha & Hpos).
  { split_and!; [lia | lia | unfold TRAMPOLINE, usize_max, PAGE_SIZE; lia |].
    intros a Ha. apply Hmap. lia. }
  { lia. }
  { lia. }
  replace (start + k + (n - k)) with (start + n) in Ev by lia.
  rewrite (km_bind_ok _ _ _ _ _ Ev). eexists. split; [reflexivity |].
  split; [| constructor; [cbn; lia | done]].
  rewrite ub_addrs_cons, Ha. replace n with (k + (n - k)) at 2 by lia.
  rewrite user_addrs_app by lia. f_equal. unfold slice_addrs. cbn [fst snd].
  rewrite (user_addrs_page base raw t w start k e) by (done || lia).
  rewrite pa_from_ppn_ok by done. done.
Qed.

Lemma translated_byte_buffer_ok base raw t w start n :
  pt_inv base raw t w -> range_mapped t w start n ->
  exists v, translated_byte_buffer check_page_fault (pt_token t) start n w = Some (Ok v, w) /\
    ub_addrs v = user_addrs t w start n /\ Forall (fun b => 0 < b.2) v.
Proof.
  intros Hi Hm. unfold translated_byte_buffer.
  pose proof Hm as (Hs & Hn & Hb & _). unfold TRAMPOLINE, usize_max, PAGE_SIZE in Hb.
  rewrite wrap64_small by lia. apply (translated_loop_ok base raw); [done | done | |];
    unfold loop_fuel, PAGE_SIZE; lia.
Qed.

Lemma translated_va_ok base raw t w va e :
  pt_inv base raw t w -> 0 <= va < 2 ^ 64 -> pt_view t w (pt_slot (va_floor va)) = Some e ->
  translated_va check_page_fault (pt_from_token (pt_token t)) va w =
  Some (Ok (e.1 * 4096 + va mod 4096), w).
Proof.
  intros Hi Hva He. unfold translated_va. rewrite (proj2 (pt_token_walk _ _ _ _ Hi)).
  by destruct (user_pa_page base raw t w va e Hi Hva He) as (-> & _).
Qed.

(** A copy in reads the process's bytes; the copy out stores at its addresses. *)
Lemma copy_from_user_ok base raw t w src n :
  pt_inv base raw t w -> range_mapped t w src n -> 0 < n < 2 ^ 62 ->
  copy_from_user check_page_fault (pt_token t) src n w = Some (Ok (user_bytes t w src n), w).
Proof.
  intros Hi Hm Hn. pose proof Hm as (Hs & _ & Hb & Hmap). unfold TRAMPOLINE, usize_max, PAGE_SIZE in Hb.
  unfold copy_from_user. rewrite same_page_spec by lia.
  destruct (Z.leb_spec (src mod 4096 + n) 4096).
  - destruct (Hmap src ltac:(lia)) as [e He]. unfold translated_ref.
    rewrite (km_bind_ok _ _ _ _ _ (translated_va_ok base raw t w src e Hi ltac:(lia) He)).
    unfold copy_in, km_get, mbind, KM_bind, mret, KM_ret. do 3 f_equal.
    rewrite user_bytes_addrs, (user_addrs_page base raw t w src n e) by (done || lia).
    apply (read_bytes_addrs (pmem w) (e.1 * 4096 + src mod 4096, n)).
  - destruct (translated_byte_buffer_ok base raw t w src n Hi Hm) as (v & Ev & Ha & Hf).
    rewrite (km_bind_ok _ _ _ _ _ Ev). apply buffer_in_ok; [done | done | lia].
Qed.

Lemma copy_to_user_ok base raw t w src dst :
  pt_inv base raw t w -> range_mapped t w dst (vlen src) -> 0 < vlen src < 2 ^ 62 ->
  copy_to_user check_page_fault (pt_token t) src dst w =
  Some (Ok tt, with_mem (fun m => scatter m (user_addrs t w dst (vlen src)) src) w).
Proof.
  intros Hi Hm Hn. pose proof Hm as (Hs & _ & Hb & Hmap). unfold TRAMPOLINE, usize_max, PAGE_SIZE in Hb.
  unfold copy_to_user. rewrite same_page_spec by lia.
  destruct (Z.leb_spec (dst mod 4096 + vlen src) 4096).
  - destruct (Hmap dst ltac:(lia)) as [e He]. unfold translated_refmut.
    rewrite (km_bind_ok _ _ _ _ _ (translated_va_ok base raw t w dst e Hi ltac:(lia) He)).
    unfold copy_out, km_get, km_put, mbind, KM_bind. do 2 f_equal. unfold with_mem. f_equal.
    rewrite write_bytes_scatter. f_equal. symmetry. apply (user_addrs_page base raw); done || lia.
  - destruct (translated_byte_buffer_ok base raw t w dst (vlen src) Hi Hm) as (v & Ev & Ha & Hf).
    rewrite (km_bind_ok _ _ _ _ _ Ev). apply (buffer_out_ok t w dst); [done | done | lia | lia].
Qed.

Lemma translated_str_loop_ok base raw t w fuel cur cs :
  pt_inv base raw t w -> range_mapped t w cur (vlen cs + 1) ->
  user_bytes t w cur (vlen cs + 1) = cs ++ [0] -> Forall (fun c => c <> 0) cs ->
  (length cs < fuel)%nat ->
  translated_str_loop check_page_fault fuel (pt_from_token (pt_token t)) cur w = Some (Ok cs, w).
Proof.
  intros Hi. revert cur fuel. induction cs as [| c cs IH]; intros cur fuel Hm Hub Hnz Hf.
  - destruct fuel as [| fuel]; [lia |]. change (vlen (@nil Z)) with 0 in *.
    pose proof Hm as (Hs & _ & Hb & Hmap). unfold TRAMPOLINE, usize_max, PAGE_SIZE in Hb.
    destruct (Hmap cur ltac:(lia)) as [e He]. cbn [translated_str_loop].
    rewrite (km_bind_ok _ _ _ _ _ (translated_va_ok base raw t w cur e Hi ltac:(lia) He)).
    unfold km_get at 1, mbind at 1, KM_bind at 1.
    unfold user_bytes in Hub. rewrite (seqZ_cons cur), fmap_cons in Hub by lia. injection Hub as Hub.
    destruct (user_pa_page base raw t w cur e Hi ltac:(lia) He) as (_ & <- & _). by rewrite Hub.
  - destruct fuel as [| fuel]; [cbn in Hf; lia |]. pose proof Hm as (Hs & _ & Hb & Hmap).
    unfold TRAMPOLINE, usize_max, PAGE_SIZE in Hb.
    assert (Hl : vlen (c :: cs) = vlen cs + 1) by (unfold vlen; cbn; lia). rewrite Hl in *.
    pose proof (vlen_nonneg cs). destruct (Hmap cur ltac:(lia)) as [e He]. cbn [translated_str_loop].
    rewrite (km_bind_ok _ _ _ _ _ (translated_va_ok base raw t w cur e Hi ltac:(lia) He)).
    unfold km_get at 1, mbind at 1, KM_bind at 1.
    unfold user_bytes in Hub. rewrite (seqZ_cons cur), fmap_cons in Hub by lia.
    injection Hub as Hc Hub. apply Forall_cons in Hnz as [Hnz Hnzs].
    destruct (user_pa_page base raw t w cur e Hi ltac:(lia) He) as (_ & <- & _). rewrite Hc.
    destruct (Z.eqb_spec c 0); [done |]. rewrite (wrap64_small (cur + 1)) by lia.
    erewrite km_bind_ok; [reflexivity |]. apply IH; [| | done | cbn in Hf; lia].
    + split_and!; [lia | lia | unfold TRAMPOLINE, usize_max, PAGE_SIZE; lia |].
      intros a Ha. apply Hmap. lia.
    + unfold user_bytes. rewrite <- Hub. f_equal. f_equal. lia.
Qed.
End Mapped.

(** ** Theorems *)

Section Theorems.
Context {T : Type} `{!PageTable T, !PageTableSpec T}.
Context (check_page_fault : VirtAddr -> KM Phys Z PhysAddr).

(** Reading user memory returns exactly the bytes the process sees: when
    every page of the range is mapped, [copy_from_user] and its array form
    return the bytes at the translations of the consecutive user addresses,
    whether the value lies in one page or crosses any number of pages; they do
    not panic, do not fault and change nothing. *)
Theorem copy_from_user_reads base raw t w src elem len :
  pt_inv base raw t w -> 0 <= elem -> 0 <= len -> 0 < elem * len < 2 ^ 62 ->
  range_mapped t w src (elem * len) ->
  copy_from_user check_page_fault (pt_token t) src (elem * len) w =
    Some (Ok (user_bytes t w src (elem * len)), w) /\
  copy_from_user_array check_page_fault (pt_token t) src elem len w =
    Some (Ok (user_bytes t w src (elem * len)), w).
Proof.
  intros Hi He Hl Hn Hm. split; [by apply (copy_from_user_ok _ base raw) |].
  unfold copy_from_user_array. rewrite (wrap64_small (elem * len)) by lia.
  exact (copy_from_user_ok check_page_fault base raw t w src (elem * len) Hi Hm Hn).
Qed.

(** C15: What the kernel writes to user memory it, and the process, read back:
    on a mapped range whose pages are different frames and not the page
    table's own, [copy_to_user] of any bytes succeeds, the page table still
    holds the same mappings, [copy_from_user] of the range returns the bytes
    written, and no other byte of physical memory has changed. *)
Theorem user_copy_roundtrip base raw t w src dst :
  pt_inv base raw t w -> bytes src -> 0 < vlen src < 2 ^ 62 ->
  range_mapped t w dst (vlen src) -> range_injective t w dst (vlen src) ->
  range_private t w dst (vlen src) ->
  exists w', copy_to_user check_page_fault (pt_token t) src dst w = Some (Ok tt, w') /\
    pt_inv base raw t w' /\ (forall k, pt_view t w' k = pt_view t w k) /\
    copy_from_user check_page_fault (pt_token t) dst (vlen src) w' = Some (Ok src, w') /\
    forall x, x ∉ user_addrs t w dst (vlen src) -> mem_get (pmem w') x = mem_get (pmem w) x.
Proof.
  intros Hi Hb Hn Hm Hj Hp. eexists. split; [by apply (copy_to_user_ok _ base raw) |].
  destruct (scatter_user_bytes base raw t w dst src Hi Hb Hm Hj Hp) as (Hi' & Hv' & Hm' & Hu).
  split; [done |]. split; [done |]. split; [| intros x Hx; by apply mem_get_scatter_out].
  rewrite (copy_from_user_ok _ base raw) by done. by rewrite Hu.
Qed.

(** [translated_str] returns the C string at a user address without its
    terminator: when the process's bytes are the non-zero [cs] followed by a
    zero, however many pages they span, the result is [cs]. *)
Theorem translated_str_reads base raw t w ptr cs :
  pt_inv base raw t w -> range_mapped t w ptr (vlen cs + 1) ->
  user_bytes t w ptr (vlen cs + 1) = cs ++ [0] -> Forall (fun c => c <> 0) cs ->
  translated_str check_page_fault (S (length cs)) (pt_token t) ptr w = Some (Ok cs, w).
Proof. intros. apply (translated_str_loop_ok _ base raw); [done.. | lia]. Qed.

(** An unmapped page surfaces as the fault handler's error: when the first
    page of the range is not mapped and the handler refuses it, every copy
    returns that error and user memory is what the handler left. *)
Theorem copy_fault_is_error base raw t w va src e w' :
  pt_inv base raw t w -> 0 <= va -> va + vlen src <= TRAMPOLINE -> 0 < vlen src < 2 ^ 62 ->
  pt_view t w (pt_slot (va_floor va)) = None ->
  check_page_fault va w = Some (Err e, w') ->
  check_page_fault (va_from_vpn (va_floor va)) w = Some (Err e, w') ->
  copy_from_user check_page_fault (pt_token t) va (vlen src) w = Some (Err e, w') /\
  copy_to_user check_page_fault (pt_token t) src va w = Some (Err e, w').
Proof.
  intros Hi Hva Hb Hn Hnone Hf1 Hf2. unfold TRAMPOLINE, usize_max, PAGE_SIZE in Hb.
  assert (H1 : translated_va check_page_fault (pt_from_token (pt_token t)) va w = Some (Err e, w')).
  { unfold translated_va. rewrite (proj2 (pt_token_walk _ _ _ _ Hi)).
    rewrite (pt_translate_va_view base raw) by (done || (unfold fits; lia)). by rewrite Hnone. }
  assert (H2 : translated_byte_buffer check_page_fault (pt_token t) va (vlen src) w = Some (Err e, w')).
  { unfold translated_byte_buffer, loop_fuel. rewrite wrap64_small by lia. cbn [translated_loop].
    destruct (Z.ltb_spec va (va + vlen src)); [| lia]. apply km_bind_err.
    unfold translate_or_fault. rewrite (proj1 (pt_token_walk _ _ _ _ Hi)).
    rewrite (pt_translate_view base raw) by (done || (unfold va_floor, PAGE_SIZE; lia)).
    rewrite Hnone. cbn. by apply km_bind_err. }
  unfold copy_from_user, copy_to_user. rewrite same_page_spec by lia.
  destruct (va mod 4096 + vlen src <=? 4096); split; by apply km_bind_err.
Qed.

(** [copy_to_user_string] of a string that fits in one page writes the
    string and its terminator: the process then reads the string followed by a
    zero byte at the address. *)
Theorem copy_to_user_string_one_page base raw t w src dst :
  pt_inv base raw t w -> bytes src -> range_mapped t w dst (vlen src + 1) ->
  range_private t w dst (vlen src + 1) -> dst mod 4096 + vlen src < 4096 ->
  exists w', copy_to_user_string check_page_fault (pt_token t) src dst w = Some (Ok tt, w') /\
    pt_inv base raw t w' /\ user_bytes t w' dst (vlen src + 1) = src ++ [0].
Proof.
  intros Hi Hb Hm Hp Hfit. pose proof Hm as (Hs & Hn & Hbd & Hmap).
  unfold TRAMPOLINE, usize_max, PAGE_SIZE in Hbd. pose proof (vlen_nonneg src).
  destruct (Hmap dst ltac:(lia)) as [e He].
  destruct (user_pa_page base raw t w dst e Hi ltac:(lia) He) as (_ & _ & Hpe).
  assert (Ha : user_addrs t w dst (vlen src + 1) = seqZ (e.1 * 4096 + dst mod 4096) (vlen src + 1))
    by (apply (user_addrs_page base raw); done || lia).
  unfold copy_to_user_string.
  rewrite (km_bind_ok _ _ _ _ _ (translated_va_ok _ base raw t w dst e Hi ltac:(lia) He)).
  unfold same_page, va_floor, PAGE_SIZE. rewrite (wrap64_small (dst + vlen src)) by lia.
  destruct (Z.eqb_spec (dst / 4096) ((dst + vlen src) / 4096)); [| lia].
  unfold copy_out, km_get, km_put, mbind, KM_bind, with_mem. cbn [pmem pfa prc].
  unfold ppn_ok in Hpe. rewrite wrap64_small by lia.
  set (pa := e.1 * 4096 + dst mod 4096) in *.
  assert (Hsc : write_bytes (write_bytes (pmem w) pa src) (pa + vlen src) [0] =
                scatter (pmem w) (user_addrs t w dst (vlen src + 1)) (src ++ [0])).
  { rewrite Ha, seqZ_app, scatter_app, <- write_bytes_scatter by (rewrite ?length_seqZ; unfold vlen; lia).
    apply (write_bytes_scatter _ _ [0]). }
  rewrite Hsc. eexists. split; [reflexivity |].
  assert (Hl : vlen (src ++ [0]) = vlen src + 1) by by rewrite vlen_app. rewrite <- Hl in *.
  destruct (scatter_user_bytes base raw t w dst (src ++ [0])) as (Hi' & _ & _ & Hu); [done | | done | | done |].
  - apply Forall_app. split; [done |]. by repeat constructor.
  - intros a b ea eb Har Hbr _ _ _. unfold va_floor, PAGE_SIZE. lia.
  - by split.
Qed.

(** When the string crosses a page boundary the terminator goes to the
    wrong place. The code adds the length to the physical address of the first
    page; unless the last page's frame happens to lie at that distance, the
    byte after the string in the process's memory keeps its old value and a
    byte of an unrelated frame is cleared. *)
Theorem copy_to_user_string_misplaces_nul base raw t w src dst e0 e1 :
  pt_inv base raw t w -> 0 < vlen src < 2 ^ 62 -> range_mapped t w dst (vlen src + 1) ->
  range_injective t w dst (vlen src + 1) ->
  va_floor dst <> va_floor (dst + vlen src) ->
  pt_view t w (pt_slot (va_floor dst)) = Some e0 ->
  pt_view t w (pt_slot (va_floor (dst + vlen src))) = Some e1 ->
  e1.1 <> e0.1 + (va_floor (dst + vlen src) - va_floor dst) ->
  exists w', copy_to_user_string check_page_fault (pt_token t) src dst w = Some (Ok tt, w') /\
    mem_get (pmem w') (user_pa t w (dst + vlen src)) = mem_get (pmem w) (user_pa t w (dst + vlen src)) /\
    mem_get (pmem w') (e0.1 * 4096 + dst mod 4096 + vlen src) = 0 /\
    (e0.1 * 4096 + dst mod 4096 + vlen src) / 4096 <> e1.1.
Proof.
  intros Hi Hlen Hm Hj Hpg He0 He1 Hne. pose proof Hm as (Hs & Hn & Hbd & Hmap).
  unfold TRAMPOLINE, usize_max, PAGE_SIZE in Hbd.
  destruct (user_pa_page base raw t w dst e0 Hi ltac:(lia) He0) as (_ & _ & Hp0).
  destruct (user_pa_page base raw t w (dst + vlen src) e1 Hi ltac:(lia) He1) as (_ & Hpa1 & Hp1).
  unfold copy_to_user_string.
  rewrite (km_bind_ok _ _ _ _ _ (translated_va_ok _ base raw t w dst e0 Hi ltac:(lia) He0)).
  unfold same_page. rewrite (wrap64_small (dst + vlen src)) by lia.
  destruct (Z.eqb_spec (va_floor dst) (va_floor (dst + vlen src))); [done |].
  assert (Hm' : range_mapped t w dst (vlen src)).
  { split_and!; [done | lia | unfold TRAMPOLINE, usize_max, PAGE_SIZE; lia |].
    intros a Ha. apply Hmap. lia. }
  destruct (translated_byte_buffer_ok check_page_fault base raw t w dst (vlen src) Hi Hm')
    as (v & Ev & Ha & Hf).
  rewrite (km_bind_ok _ _ _ _ _ Ev).
  rewrite (km_bind_ok _ _ _ _ _ (buffer_out_ok t w dst (vlen src) v src Ha Hf ltac:(lia) ltac:(lia))).
  unfold copy_out, km_get, km_put, mbind, KM_bind, with_mem. cbn [pmem pfa prc].
  unfold ppn_ok in Hp0. rewrite wrap64_small by lia.
  eexists. split; [reflexivity |]. cbn [pmem]. unfold va_floor, PAGE_SIZE in *.
  rewrite !mem_get_write_bytes. change (vlen [0]) with 1. split_and!.
  - rewrite decide_False by (rewrite Hpa1; lia). apply mem_get_scatter_out. intros Hin.
    destruct (user_addrs_elem base raw t w dst (vlen src) _ Hi Hm' Hin) as (a & e & Har & Hea & _ & E).
    rewrite Hpa1 in E. assert (e1.1 = e.1) as Ee by lia.
    pose proof (Hj (dst + vlen src) a e1 e ltac:(lia) ltac:(lia) He1 Hea Ee) as Hfl.
    unfold va_floor, PAGE_SIZE in Hfl. lia.
  - rewrite decide_True by lia. by rewrite Z.sub_diag.
  - lia.
Qed.
End Theorems.

(** ** Witnesses: two pages of an Sv39 table *)

(** The range used below lies in pages [0x10] and [0x11] of [demo_space_ok]. *)
Definition demo_pt : PageTable Sv39PageTable := Sv39_PageTable (fun _ w => w).
Definition demo_spec : @PageTableSpec Sv39PageTable demo_pt := Sv39_Spec (fun _ w => w).

Lemma demo_floor a n : 0x10ffe <= a < 0x10ffe + n -> n <= 0x1000 ->
  va_floor a = if decide (a < 0x11000) then 0x10 else 0x11.
Proof. intros Ha Hn. unfold va_floor, PAGE_SIZE. case_decide; lia. Qed.

Lemma demo_range pt w n :
  (forall k, sv_view pt w k =
     if decide (k = indexes 3 0x11) then Some (0x3000, 0x16)
     else if decide (k = indexes 3 0x10) then Some (0x1000, 0x16) else None) ->
  (forall f, f ∈ sv_frame_set pt -> 0x80400 <= f) -> 0 <= n <= 0x1000 ->
  @range_mapped _ _ demo_spec pt w 0x10ffe n /\ @range_injective _ _ demo_spec pt w 0x10ffe n /\
  @range_private _ _ demo_spec pt w 0x10ffe n.
Proof.
  intros Hv Hf Hn.
  assert (H10 : sv_view pt w (indexes 3 0x10) = Some (0x1000, 0x16)) by (rewrite Hv; done).
  assert (H11 : sv_view pt w (indexes 3 0x11) = Some (0x3000, 0x16)) by (rewrite Hv; done).
  split_and!.
  - split_and!; [lia | lia | unfold TRAMPOLINE, usize_max, PAGE_SIZE; lia |].
    intros a Ha. cbn. rewrite (demo_floor a n) by lia. case_decide; rewrite ?H10, ?H11; by eexists.
  - intros a b ea eb Ha Hb. cbn. rewrite (demo_floor a n), (demo_floor b n) by lia.
    repeat case_decide; rewrite ?H10, ?H11; naive_solver.
  - intros a e Ha. cbn. rewrite (demo_floor a n) by lia.
    case_decide; rewrite ?H10, ?H11; intros [= <-] Hin; apply Hf in Hin; cbn in Hin; lia.
Qed.

Lemma demo_inv pt w :
  sv_inv (pa_ceil 0x80400000) ∅ pt w -> @pt_inv _ _ demo_spec (pa_ceil 0x80400000) ∅ pt w.
Proof. done. Qed.

Lemma copy_from_user_reads_witness :
  exists pt w, let h _ := km_err (-14) in
    @copy_from_user _ demo_pt h (sv_token pt) 0x10ffe 8 w =
      Some (Ok (@user_bytes _ demo_pt pt w 0x10ffe 8), w).
Proof.
  destruct demo_space_ok as (pt & w & Hi & Hv & Hf). exists pt, w. intros h.
  apply (@copy_from_user_reads _ demo_pt demo_spec h (pa_ceil 0x80400000) ∅ pt w 0x10ffe 4 2);
    [done | lia | lia | lia | by apply demo_range].
Defined.

Lemma user_copy_roundtrip_witness :
  exists pt w w', let h _ := km_err (-14) in
    @copy_to_user _ demo_pt h (sv_token pt) [1; 2; 3; 4] 0x10ffe w = Some (Ok tt, w') /\
    @copy_from_user _ demo_pt h (sv_token pt) 0x10ffe 4 w' = Some (Ok [1; 2; 3; 4], w').
Proof.
  destruct demo_space_ok as (pt & w & Hi & Hv & Hf).
  destruct (demo_range pt w 4 Hv Hf ltac:(lia)) as (Hm & Hj & Hp).
  destruct (@user_copy_roundtrip _ demo_pt demo_spec (fun _ => km_err (-14)) (pa_ceil 0x80400000) ∅ pt w
              [1; 2; 3; 4] 0x10ffe) as (w' & E1 & _ & _ & E2 & _);
    [done | by repeat constructor | by vm_compute | done | done | done |].
  exists pt, w, w'. by split.
Defined.

Lemma translated_str_reads_witness :
  exists pt w, let h _ := km_err (-14) in
    @translated_str _ demo_pt h 4 (sv_token pt) 0x10ffe w = Some (Ok [103; 99; 99], w).
Proof.
  destruct demo_space_ok as (pt & w & Hi & Hv & Hf).
  destruct (demo_range pt w 4 Hv Hf ltac:(lia)) as (Hm & Hj & Hp).
  destruct (@scatter_user_bytes _ demo_pt demo_spec (pa_ceil 0x80400000) ∅ pt w 0x10ffe [103; 99; 99; 0])
    as (Hi' & _ & Hm' & Hu); [done | by repeat constructor | done | done | done |].
  eexists pt, _. intros h.
  apply (@translated_str_reads _ demo_pt demo_spec h (pa_ceil 0x80400000) ∅ pt _ 0x10ffe [103; 99; 99]);
    [exact Hi' | exact Hm' | exact Hu | by repeat constructor].
Defined.

Lemma copy_fault_is_error_witness :
  exists pt w, let h _ := km_err (-14) in
    @copy_to_user _ demo_pt h (sv_token pt) [1; 2; 3; 4] 0x20ffe w = Some (Err (-14), w).
Proof.
  destruct demo_space_ok as (pt & w & Hi & Hv & Hf). exists pt, w. intros h.
  apply (@copy_fault_is_error _ demo_pt demo_spec h (pa_ceil 0x80400000) ∅ pt w 0x20ffe [1; 2; 3; 4]);
    first [done | by (cbn; rewrite Hv)].
Defined.

Lemma copy_to_user_string_one_page_witness :
  exists pt w w', let h _ := km_err (-14) in
    @copy_to_user_string _ demo_pt h (sv_token pt) [103] 0x10ffe w = Some (Ok tt, w') /\
    @user_bytes _ demo_pt pt w' 0x10ffe 2 = [103; 0].
Proof.
  destruct demo_space_ok as (pt & w & Hi & Hv & Hf).
  destruct (demo_range pt w 2 Hv Hf ltac:(lia)) as (Hm & Hj & Hp).
  destruct (@copy_to_user_string_one_page _ demo_pt demo_spec (fun _ => km_err (-14))
              (pa_ceil 0x80400000) ∅ pt w [103] 0x10ffe) as (w' & E1 & _ & E2);
    [done | by repeat constructor | done | done | by vm_compute |].
  exists pt, w, w'. by split.
Defined.

Lemma copy_to_user_string_misplaces_nul_witness :
  exists pt w w', let h _ := km_err (-14) in
    @copy_to_user_string _ demo_pt h (sv_token pt) [103; 99; 99] 0x10ffe w = Some (Ok tt, w') /\
    mem_get (pmem w') (@user_pa _ demo_pt pt w 0x11001) = mem_get (pmem w) (@user_pa _ demo_pt pt w 0x11001) /\
    mem_get (pmem w') 0x1001001 = 0.
Proof.
  destruct demo_space_ok as (pt & w & Hi & Hv & Hf).
  destruct (demo_range pt w 4 Hv Hf ltac:(lia)) as (Hm & Hj & Hp).
  destruct (@copy_to_user_string_misplaces_nul _ demo_pt demo_spec (fun _ => km_err (-14))
              (pa_ceil 0x80400000) ∅ pt w [103; 99; 99] 0x10ffe (0x1000, 0x16) (0x3000, 0x16))
    as (w' & E1 & E2 & E3 & _); try done; try by (cbn; rewrite Hv).
  exists pt, w, w'. by split_and!.
Defined.
