(* ===== verification/Block.v ===== *)
(** * Block devices

    The trait [BlockDevice] of [drivers/block/block_dev.rs] and its two
    implementations in the tree: [VirtIOBlock] ([virtio_blk.rs]), which splits a
    request into 512-byte sectors of the vendored driver, and
    [MemBlockWrapper] ([mem_blk.rs]), a disk image in memory. The swap area and
    the file systems are clients of the trait; [BlockDeviceSpec] is what they
    rely on. *)

From S2P Require Import Prelude Address Phys.

Definition BLOCK_SZ : Z := 4096.

(** [read_block(id, buf)] fills a buffer of the given length; a request the
    device rejects is a panic. *)
Class BlockDevice (D : Type) := {
  read_block : D -> Z -> Z -> option (list Z);
  write_block : D -> Z -> list Z -> option D
}.

(** The default methods of the trait. *)
Section Defaults.
Context {D : Type} `{!BlockDevice D}.

Definition clear_block (d : D) (block_id num : Z) : option D :=
  write_block d block_id (replicate (Z.to_nat BLOCK_SZ) num).

Fixpoint clear_loop (d : D) (i : Z) (cnt : nat) (num : Z) : option D :=
  match cnt with
  | O => Some d
  | S cnt' =>
      d ← write_block d i (replicate (Z.to_nat BLOCK_SZ) num);
      clear_loop d (i + 1) cnt' num
  end.
(** [for i in block_id..block_id + cnt]: empty when the sum wraps below. *)
Definition clear_mult_block (d : D) (block_id cnt num : Z) : option D :=
  clear_loop d block_id (Z.to_nat ((block_id +w cnt) - block_id)) num.
End Defaults.

(** ** What a device promises

    A device of [bd_size] bytes holds one byte at each address below it;
    requests of whole blocks within it succeed. *)
Class BlockDeviceSpec (D : Type) `{!BlockDevice D} := {
  bd_size : D -> Z;
  bd_byte : D -> Z -> Z;
  bd_inv : D -> Prop;
  bd_byte_fits d a : bd_inv d -> u8 (bd_byte d a);
  bd_read_spec d id n :
    bd_inv d -> 0 <= id -> 0 < n -> n mod BLOCK_SZ = 0 -> id * BLOCK_SZ + n <= bd_size d ->
    read_block d id n = Some ((fun k => bd_byte d (id * BLOCK_SZ + k)) <$> seqZ 0 n);
  bd_write_spec d id bs :
    bd_inv d -> 0 <= id -> 0 < vlen bs -> vlen bs mod BLOCK_SZ = 0 -> bytes bs ->
    id * BLOCK_SZ + vlen bs <= bd_size d ->
    exists d', write_block d id bs = Some d' /\ bd_inv d' /\ bd_size d' = bd_size d /\
      forall a, bd_byte d' a =
        if decide (id * BLOCK_SZ <= a < id * BLOCK_SZ + vlen bs)
        then default 0 (bs !! Z.to_nat (a - id * BLOCK_SZ)) else bd_byte d a
}.

(** ** [VirtIOBlock] *)

Section VirtIO.
(** The vendored driver: [read_blocks] and [write_blocks] of one 512-byte
    sector; a driver error is a panic ([expect]). *)
Context {V : Type} (vd_read_blocks : V -> Z -> Z -> option (list Z))
        (vd_write_blocks : V -> Z -> list Z -> option V).

Definition VIRT_IO_BLOCK_SZ : Z := 512.
Definition BLOCK_RATIO : Z := BLOCK_SZ / VIRT_IO_BLOCK_SZ.

(** [for (i, chunk) in buf.chunks_mut(512).enumerate()], [n] bytes left. *)
Fixpoint vio_read_loop (fuel : nat) (v : V) (block_id i n : Z) : option (list Z) :=
  match fuel with
  | O => Some []
  | S fuel' =>
      if n <=? 0 then Some []
      else
        chunk ← vd_read_blocks v (block_id *w BLOCK_RATIO +w i) (Z.min n VIRT_IO_BLOCK_SZ);
        rest ← vio_read_loop fuel' v block_id (i + 1) (n - VIRT_IO_BLOCK_SZ);
        Some (chunk ++ rest)
  end.
Definition vio_read_block (v : V) (block_id n : Z) : option (list Z) :=
  _ ← assert_ (n mod BLOCK_SZ =? 0);
  vio_read_loop (Z.to_nat n) v block_id 0 n.

Fixpoint vio_write_loop (fuel : nat) (v : V) (block_id i : Z) (bs : list Z) : option V :=
  match fuel with
  | O => Some v
  | S fuel' =>
      if vlen bs <=? 0 then Some v
      else
        v ← vd_write_blocks v (block_id *w BLOCK_RATIO +w i)
              (take (Z.to_nat VIRT_IO_BLOCK_SZ) bs);
        vio_write_loop fuel' v block_id (i + 1) (drop (Z.to_nat VIRT_IO_BLOCK_SZ) bs)
  end.
Definition vio_write_block (v : V) (block_id : Z) (bs : list Z) : option V :=
  _ ← assert_ (vlen bs mod BLOCK_SZ =? 0);
  vio_write_loop (length bs) v block_id 0 bs.

#[export] Instance VirtIO_BlockDevice : BlockDevice V := {
  read_block := vio_read_block;
  write_block := vio_write_block
}.

(** What the driver documents: a disk of [vd_capacity] sectors on which a read
    returns what the last write stored. *)
Context (vd_capacity : V -> Z) (vd_sector : V -> Z -> list Z) (vd_inv : V -> Prop).
Hypothesis vd_capacity_ok : forall v, vd_inv v -> vd_capacity v * 512 < 2 ^ 64.
Hypothesis vd_sector_ok : forall v s, vd_inv v -> length (vd_sector v s) = 512%nat /\ bytes (vd_sector v s).
Hypothesis vd_read_ok : forall v s,
  vd_inv v -> 0 <= s < vd_capacity v -> vd_read_blocks v s 512 = Some (vd_sector v s).
Hypothesis vd_write_ok : forall v s bs,
  vd_inv v -> 0 <= s < vd_capacity v -> length bs = 512%nat -> bytes bs ->
  exists v', vd_write_blocks v s bs = Some v' /\ vd_inv v' /\ vd_capacity v' = vd_capacity v /\
    forall s', vd_sector v' s' = if decide (s' = s) then bs else vd_sector v s'.

Definition vio_byte (v : V) (a : Z) : Z := default 0 (vd_sector v (a / 512) !! Z.to_nat (a mod 512)).

Lemma vio_sector_bytes v s :
  vd_inv v -> vd_sector v s = (fun k => vio_byte v (s * 512 + k)) <$> seqZ 0 512.
Proof.
  intros Hi. destruct (vd_sector_ok v s Hi) as [Hl _].
  apply list_eq. intros k. rewrite list_lookup_fmap.
  destruct (decide (k < 512)%nat) as [Hk |].
  - rewrite lookup_seqZ_lt by lia. simpl. unfold vio_byte.
    rewrite Z.add_0_l, Z.add_comm, Z.div_add, Z.div_small, Z.add_0_l by lia.
    rewrite Z.mod_add, Z.mod_small, Nat2Z.id by lia.
    destruct (lookup_lt_is_Some_2 (vd_sector v s) k) as [x E]; [lia |]. by rewrite E.
  - rewrite lookup_seqZ_ge by lia. apply lookup_ge_None_2. lia.
Qed.

Lemma vio_read_loop_ok fuel v id i n :
  vd_inv v -> 0 <= id -> 0 <= i -> 0 <= n -> (Z.to_nat n <= fuel * 512)%nat ->
  n mod 512 = 0 -> (id * 8 + i) * 512 + n <= vd_capacity v * 512 ->
  vio_read_loop fuel v id i n = Some ((fun k => vio_byte v ((id * 8 + i) * 512 + k)) <$> seqZ 0 n).
Proof.
  intros Hi Hid. revert i n. induction fuel as [| fuel IH]; intros i n H0 Hn Hf Hm Hc.
  { assert (n = 0) as -> by lia. done. }
  cbn [vio_read_loop]. destruct (Z.leb_spec n 0).
  { assert (n = 0) as -> by lia. done. }
  pose proof (vd_capacity_ok _ Hi). change BLOCK_RATIO with 8. change VIRT_IO_BLOCK_SZ with 512.
  assert (Hge : 512 <= n) by lia.
  rewrite (wrap64_small (id * 8)) by lia. rewrite wrap64_small by lia.
  rewrite Z.min_r, vd_read_ok by (done || lia). cbn [mbind option_bind].
  rewrite IH by (done || lia). cbn [mbind option_bind]. f_equal.
  rewrite (vio_sector_bytes _ _ Hi).
  replace n with (512 + (n - 512)) at 2 by lia. rewrite seqZ_app by lia.
  rewrite fmap_app. f_equal. rewrite Z.add_0_l.
  apply list_eq. intros k. rewrite !list_lookup_fmap.
  destruct (decide (k < Z.to_nat (n - 512))%nat).
  - rewrite !lookup_seqZ_lt by lia. simpl. do 2 f_equal. lia.
  - by rewrite !lookup_seqZ_ge by lia.
Qed.

Lemma vio_write_loop_ok fuel v id i bs :
  vd_inv v -> 0 <= id -> 0 <= i -> (length bs <= fuel * 512)%nat -> bytes bs ->
  vlen bs mod 512 = 0 -> (id * 8 + i) * 512 + vlen bs <= vd_capacity v * 512 ->
  exists v', vio_write_loop fuel v id i bs = Some v' /\ vd_inv v' /\
    vd_capacity v' = vd_capacity v /\
    forall a, vio_byte v' a =
      if decide ((id * 8 + i) * 512 <= a < (id * 8 + i) * 512 + vlen bs)
      then default 0 (bs !! Z.to_nat (a - (id * 8 + i) * 512)) else vio_byte v a.
Proof.
  intros Hi Hid. revert v Hi i bs. induction fuel as [| fuel IH]; intros v Hi i bs H0 Hf Hb Hm Hc.
  { exists v. split_and!; try done. intros a. rewrite decide_False; [done |]. unfold vlen. lia. }
  cbn [vio_write_loop]. destruct (Z.leb_spec (vlen bs) 0).
  { exists v. split_and!; try done. intros a. by rewrite decide_False by lia. }
  pose proof (vd_capacity_ok _ Hi). change BLOCK_RATIO with 8.
  change (Z.to_nat VIRT_IO_BLOCK_SZ) with 512%nat.
  assert (Hge : 512 <= vlen bs) by lia. unfold vlen in Hge, Hm, Hc.
  rewrite (wrap64_small (id * 8)) by lia. rewrite wrap64_small by lia.
  destruct (vd_write_ok v (id * 8 + i) (take 512 bs)) as (v1 & -> & Hi1 & Hc1 & Hs1);
    [done | lia | rewrite length_take; lia | by apply Forall_take |].
  cbn [mbind option_bind].
  destruct (IH v1 Hi1 (i + 1) (drop 512 bs)) as (v2 & -> & Hi2 & Hc2 & Hb2);
    [lia | rewrite length_drop; lia | by apply Forall_drop
    | unfold vlen; rewrite length_drop; lia | unfold vlen; rewrite length_drop; lia |].
  exists v2. split_and!; [done | done | congruence |].
  intros a. rewrite Hb2. unfold vlen. rewrite length_drop, lookup_drop.
  unfold vio_byte at 1. rewrite Hs1.
  destruct (decide (a / 512 = id * 8 + i)) as [Ha |]; repeat case_decide; try lia.
  - rewrite lookup_take_lt by lia. do 2 f_equal. lia.
  - do 2 f_equal. lia.
  - done.
Qed.

#[export] Program Instance VirtIO_Spec : BlockDeviceSpec V := {
  bd_size v := vd_capacity v * 512;
  bd_byte := vio_byte;
  bd_inv := vd_inv
}.
Next Obligation.
  intros v a Hi. unfold vio_byte. destruct (vd_sector_ok v (a / 512) Hi) as [_ Hb].
  destruct (vd_sector v (a / 512) !! Z.to_nat (a mod 512)) as [x |] eqn:E; simpl.
  - by apply (Forall_lookup_1 _ _ _ _ Hb E).
  - by vm_compute.
Qed.
Next Obligation.
  unfold BLOCK_SZ. intros v id n Hi Hid Hn Hm Hc. simpl. unfold vio_read_block, BLOCK_SZ.
  rewrite Hm. cbn [assert_ mbind option_bind Z.eqb].
  rewrite vio_read_loop_ok by (done || lia). f_equal.
  apply list_fmap_ext. intros ? k _. f_equal. lia.
Qed.
Next Obligation.
  unfold BLOCK_SZ. intros v id bs Hi Hid Hn Hm Hb Hc. simpl. unfold vio_write_block, BLOCK_SZ.
  rewrite Hm. cbn [assert_ mbind option_bind Z.eqb].
  destruct (vio_write_loop_ok (length bs) v id 0 bs) as (v' & -> & Hi' & Hc' & Hb');
    [done | done | lia | lia | done | lia | lia |].
  exists v'. split_and!; [done | done | congruence |].
  intros a. rewrite Hb'. replace ((id * 8 + 0) * 512) with (id * 4096) by lia. done.
Qed.
End VirtIO.

(** ** [MemBlockWrapper] *)

Definition MEMORY_PHYS : Z := 0x8000000.
Definition DISK_IMAGE_BASE : Z := 0x80000000 + MEMORY_PHYS.

Definition block_ref (m : memory) (base block_id len : Z) : list Z :=
  read_bytes m (base +w (block_id *w BLOCK_SZ)) len.
Definition block_refmut (m : memory) (base block_id : Z) (bs : list Z) : memory :=
  write_bytes m (base +w (block_id *w BLOCK_SZ)) bs.

Definition mem_read_block (m : memory) (block_id n : Z) : option (list Z) :=
  Some (block_ref m DISK_IMAGE_BASE block_id n).
Definition mem_write_block (m : memory) (block_id : Z) (bs : list Z) : option memory :=
  Some (block_refmut m DISK_IMAGE_BASE block_id bs).

#[export] Instance MemBlock_BlockDevice : BlockDevice memory := {
  read_block := mem_read_block;
  write_block := mem_write_block
}.

#[export] Program Instance MemBlock_Spec : BlockDeviceSpec memory := {
  bd_size _ := MEMORY_END - DISK_IMAGE_BASE;
  bd_byte m a := mem_get m (DISK_IMAGE_BASE + a);
  bd_inv _ := True
}.
Next Obligation. intros m a _. apply mem_get_byte. Qed.
Next Obligation.
  unfold BLOCK_SZ, MEMORY_END, MEMORY_SIZE, MEMORY_START, DISK_IMAGE_BASE, MEMORY_PHYS.
  intros m id n _ Hid Hn _ Hc. simpl. unfold mem_read_block, block_ref, BLOCK_SZ, read_bytes.
  unfold DISK_IMAGE_BASE, MEMORY_PHYS. wrap_simpl. f_equal.
  apply list_fmap_ext. intros ? k _. f_equal. lia.
Qed.
Next Obligation.
  unfold BLOCK_SZ, MEMORY_END, MEMORY_SIZE, MEMORY_START, DISK_IMAGE_BASE, MEMORY_PHYS.
  intros m id bs _ Hid Hn _ Hb Hc. simpl. eexists. split; [reflexivity |].
  split_and!; [done | done |]. intros a. unfold block_refmut, BLOCK_SZ.
  unfold DISK_IMAGE_BASE, MEMORY_PHYS. wrap_simpl.
  rewrite mem_get_write_bytes. repeat case_decide; try lia; try done.
  replace (0x80000000 + 0x8000000 + a - (0x80000000 + 0x8000000 + id * 4096)) with (a - id * 4096) by lia.
  destruct (bs !! Z.to_nat (a - id * 4096)) as [x |] eqn:E; simpl; [| done].
  apply wrapn_small. by apply (Forall_lookup_1 _ _ _ _ Hb E).
Qed.

(** ** Lemmas for clients *)

Section Client.
Context {D : Type} `{!BlockDevice D, !BlockDeviceSpec D}.

(** A block read back after it was written, and one that was not touched. *)
Lemma read_write_block d id bs :
  bd_inv d -> 0 <= id -> vlen bs = BLOCK_SZ -> bytes bs -> (id + 1) * BLOCK_SZ <= bd_size d ->
  exists d', write_block d id bs = Some d' /\ bd_inv d' /\ bd_size d' = bd_size d /\
    read_block d' id BLOCK_SZ = Some bs /\
    forall j, 0 <= j -> j <> id -> (j + 1) * BLOCK_SZ <= bd_size d ->
      read_block d' j BLOCK_SZ = read_block d j BLOCK_SZ.
Proof.
  intros Hi Hid Hl Hb Hc. unfold BLOCK_SZ in *.
  destruct (bd_write_spec d id bs) as (d' & E & Hi' & Hs & Hbyte);
    unfold BLOCK_SZ; [done | done | lia | by rewrite Hl | done | lia |].
  exists d'. split_and!; [done | done | done | |].
  - rewrite bd_read_spec by (done || unfold BLOCK_SZ; lia). f_equal.
    apply list_eq. intros k. rewrite list_lookup_fmap. unfold vlen in Hl.
    destruct (decide (k < 4096)%nat).
    + rewrite lookup_seqZ_lt by lia. simpl. rewrite Hbyte. unfold BLOCK_SZ, vlen.
      rewrite decide_True by lia. replace (Z.to_nat _) with k by lia.
      destruct (lookup_lt_is_Some_2 bs k) as [x Ex]; [lia |]. by rewrite Ex.
    + rewrite lookup_seqZ_ge by lia. symmetry. apply lookup_ge_None_2. lia.
  - intros j Hj Hne Hjc. rewrite !bd_read_spec by (done || unfold BLOCK_SZ; lia). f_equal.
    apply list_fmap_ext. intros k x Hx. apply lookup_seqZ in Hx. rewrite Hbyte.
    unfold BLOCK_SZ. rewrite decide_False; [done |]. lia.
Qed.

Lemma read_block_Some d id :
  bd_inv d -> 0 <= id -> (id + 1) * BLOCK_SZ <= bd_size d ->
  exists bs, read_block d id BLOCK_SZ = Some bs /\ vlen bs = BLOCK_SZ /\ bytes bs.
Proof.
  intros Hi Hid Hc. unfold BLOCK_SZ in *.
  rewrite bd_read_spec by (done || unfold BLOCK_SZ; lia).
  eexists. split; [reflexivity |]. split.
  - unfold vlen. rewrite length_fmap, length_seqZ. lia.
  - apply Forall_fmap, Forall_true. intros k. simpl. by apply bd_byte_fits.
Qed.
End Client.

(** ** Theorems *)

#[global] Opaque vio_read_block vio_write_block.

(** C28: For a driver that behaves as a disk of 512-byte sectors, the
    sector-splitting [write_block] and [read_block] of [VirtIOBlock] implement a
    disk of 4096-byte blocks: a block written is read back unchanged, every
    other block is as before, and no request inside the disk panics. *)
Theorem virtio_block_roundtrip V (rd : V -> Z -> Z -> option (list Z)) (wr : V -> Z -> list Z -> option V)
    cap sector inv
    (Hcap : forall v, inv v -> cap v * 512 < 2 ^ 64)
    (Hsec : forall v s, inv v -> length (sector v s) = 512%nat /\ bytes (sector v s))
    (Hrd : forall v s, inv v -> 0 <= s < cap v -> rd v s 512 = Some (sector v s))
    (Hwr : forall v s bs, inv v -> 0 <= s < cap v -> length bs = 512%nat -> bytes bs ->
       exists v', wr v s bs = Some v' /\ inv v' /\ cap v' = cap v /\
         forall s', sector v' s' = if decide (s' = s) then bs else sector v s')
    v id bs :
  inv v -> 0 <= id -> (id + 1) * BLOCK_SZ <= cap v * 512 -> vlen bs = BLOCK_SZ -> bytes bs ->
  exists v', vio_write_block wr v id bs = Some v' /\
    vio_read_block rd v' id BLOCK_SZ = Some bs /\
    forall j, 0 <= j -> j <> id -> (j + 1) * BLOCK_SZ <= cap v * 512 ->
      vio_read_block rd v' j BLOCK_SZ = vio_read_block rd v j BLOCK_SZ.
Proof.
  intros Hi Hid Hc Hl Hb.
  destruct (@read_write_block V _ (VirtIO_Spec rd wr cap sector inv Hcap Hsec Hrd Hwr) v id bs)
    as (v' & E & _ & _ & Hr & Ho); [assumption.. |].
  cbn [write_block read_block VirtIO_BlockDevice bd_size VirtIO_Spec] in E, Hr, Ho.
  exists v'. exact (conj E (conj Hr Ho)).
Qed.

Definition demo_sector (v : gmap Z (list Z)) (s : Z) : list Z :=
  default (replicate 512 0) (v !! s).

Lemma virtio_block_roundtrip_witness :
  let inv (v : gmap Z (list Z)) := map_Forall (fun _ bs => length bs = 512%nat /\ bytes bs) v in
  let rd v s (n : Z) := Some (demo_sector v s) in
  let wr v s bs := Some (<[s := bs]> v) in
  inv ∅ /\ exists v', vio_write_block wr ∅ 3 (replicate (Z.to_nat 4096) 7) = Some v' /\
    vio_read_block rd v' 3 BLOCK_SZ = Some (replicate (Z.to_nat 4096) 7).
Proof.
  intros inv rd wr. split; [apply map_Forall_empty |].
  destruct (virtio_block_roundtrip (gmap Z (list Z)) rd wr (fun _ => 64) demo_sector inv)
    with (v := (∅ : gmap Z (list Z))) (id := 3) (bs := replicate (Z.to_nat 4096) 7)
    as (v' & E & Hr & _).
  - intros v _. by vm_compute.
  - intros v s Hv. unfold demo_sector. destruct (v !! s) eqn:E; [by apply (Hv s) |]. cbn [default].
    split; [apply length_replicate |]. apply Forall_replicate. by vm_compute.
  - done.
  - intros v s bs Hv _ Hl Hb. eexists. split; [reflexivity |].
    split; [by apply map_Forall_insert_2 |]. split; [done |].
    intros s'. unfold demo_sector. destruct (decide (s' = s)) as [-> |].
    + by rewrite lookup_insert_eq.
    + by rewrite lookup_insert_ne by done.
  - apply map_Forall_empty.
  - lia.
  - by vm_compute.
  - unfold vlen. by rewrite length_replicate.
  - apply Forall_replicate. by vm_compute.
  - exists v'. exact (conj E Hr).
Defined.
