(* ===== verification/PageStore.v ===== *)
(** * Stores of evicted pages

    What [mm/map_area.rs] relies on when it moves a page out of memory: a device
    that keeps pages under identifiers. The two devices are the compressed
    store of [mm/zram.rs] and the swap area of [fs/swap.rs]. *)

From S2P Require Import Prelude Address Phys.

(** A page's contents. *)
Definition page_ok (d : list Z) : Prop := vlen d = PAGE_SIZE /\ bytes d.

(** [ps_write] returns [None] for no space; the outer [None] is a panic.
    [ps_discard] is the drop of the identifier's tracker. *)
Class PageStore (S : Type) := {
  ps_write : S -> list Z -> option (option Z * S);
  ps_read : S -> Z -> list Z -> option (list Z);
  ps_discard : S -> Z -> option S
}.

(** [ps_holds s m]: the store holds exactly the pages of [m]. *)
Class PageStoreSpec (S : Type) `{!PageStore S} := {
  ps_holds : S -> gmap Z (list Z) -> Prop;
  ps_slots : S -> Z;
  ps_write_spec s m d :
    ps_holds s m -> page_ok d ->
    exists r s', ps_write s d = Some (r, s') /\ ps_slots s' = ps_slots s /\
      match r with
      | Some id => 0 <= id < ps_slots s /\ m !! id = None /\ ps_holds s' (<[id := d]> m)
      | None => s' = s /\ forall i, 0 <= i < ps_slots s -> is_Some (m !! i)
      end;
  ps_read_spec s m id d buf :
    ps_holds s m -> m !! id = Some d -> vlen buf = PAGE_SIZE -> ps_read s id buf = Some d;
  ps_discard_spec s m id :
    ps_holds s m -> is_Some (m !! id) ->
    exists s', ps_discard s id = Some s' /\ ps_slots s' = ps_slots s /\ ps_holds s' (delete id m)
}.

(** ** Sequences of operations *)

Inductive ps_op := PsWrite (d : list Z) | PsDiscard (id : Z).

Section Runs.
Context {S : Type} `{!PageStore S, !PageStoreSpec S}.

(** Identifiers discarded are those the store holds: their trackers are
    dropped once. *)
Inductive ps_step : gmap Z (list Z) * S -> gmap Z (list Z) * S -> Prop :=
| ps_step_write m s d id s' :
    page_ok d -> ps_write s d = Some (Some id, s') -> ps_step (m, s) (<[id := d]> m, s')
| ps_step_full m s d s' :
    page_ok d -> ps_write s d = Some (None, s') -> ps_step (m, s) (m, s')
| ps_step_discard m s id s' :
    is_Some (m !! id) -> ps_discard s id = Some s' -> ps_step (m, s) (delete id m, s').

Lemma ps_step_holds st st' : ps_step st st' -> ps_holds st.2 st.1 -> ps_holds st'.2 st'.1.
Proof.
  intros Hs Hh. destruct Hs as [m s d id s' Hd E | m s d s' Hd E | m s id s' Hd E]; cbn in *.
  - destruct (ps_write_spec _ _ _ Hh Hd) as (r & s2 & E2 & _ & Hr). simplify_eq. tauto.
  - destruct (ps_write_spec _ _ _ Hh Hd) as (r & s2 & E2 & _ & Hr). simplify_eq.
    by destruct Hr as [-> _].
  - destruct (ps_discard_spec _ _ _ Hh Hd) as (s2 & E2 & _ & Hr). by simplify_eq.
Qed.

Lemma ps_steps_holds st st' : rtc ps_step st st' -> ps_holds st.2 st.1 -> ps_holds st'.2 st'.1.
Proof. induction 1; eauto using ps_step_holds. Qed.
End Runs.
