(* ===== verification/Zram.v ===== *)
(** * Compressed pages in memory

    [mm/zram.rs]. The LZ4 codec is the vendored [lz4_flex]: a parameter, of
    which the code relies on decompression undoing compression. *)

From S2P Require Import Prelude Address Phys PageStore.

Inductive ZramError := InvalidIndex | NoSpace | NotAllocated.

Record Zram := mkZram {
  z_compressed : list (option (list Z));
  z_recycled : list Z;
  z_tail : Z
}.

(** [capacity] is the value of [Vec::capacity] the constructor resizes to. *)
Definition zram_new (capacity : Z) : Zram :=
  mkZram (replicate (Z.to_nat capacity) None) [] 0.

Definition zram_insert (z : Zram) (data : list Z) : option (result Z ZramError * Zram) :=
  let store (zram_id : Z) (recycled : list Z) (tail : Z) :=
    c ← vec_set (z_compressed z) zram_id (Some data);
    Some (Ok zram_id, mkZram c recycled tail) in
  match vec_pop (z_recycled z) with
  | Some (zram_id, rest) => store zram_id rest (z_tail z)
  | None =>
      if z_tail z =? vlen (z_compressed z) then Some (Err NoSpace, z)
      else
        let tail := wrap16 (z_tail z + 1) in
        store (wrap16 (tail - 1)) (z_recycled z) tail
  end.

Definition zram_get (z : Zram) (zram_id : Z) : option (result (list Z) ZramError) :=
  if vlen (z_compressed z) <=? zram_id then Some (Err InvalidIndex)
  else
    slot ← vec_get (z_compressed z) zram_id;
    Some (match slot with Some data => Ok data | None => Err NotAllocated end).

Definition zram_remove (z : Zram) (zram_id : Z) : option (result (list Z) ZramError * Zram) :=
  if vlen (z_compressed z) <=? zram_id then Some (Err InvalidIndex, z)
  else
    let '(recycled, tail) :=
      if zram_id =? wrap16 (z_tail z - 1) then (z_recycled z, wrap16 zram_id)
      else (z_recycled z ++ [wrap16 zram_id], z_tail z) in
    slot ← vec_get (z_compressed z) zram_id;
    c ← vec_set (z_compressed z) zram_id None;
    Some (match slot with Some data => Ok data | None => Err NotAllocated end,
          mkZram c recycled tail).

Definition zram_discard (z : Zram) (zram_id : Z) : option (result unit ZramError * Zram) :=
  '(r, z') ← zram_remove z zram_id;
  Some (match r with Ok _ => Ok tt | Err e => Err e end, z').

Section Codec.
Context (compress_prepend_size : list Z -> list Z)
        (decompress_size_prepended : list Z -> option (list Z)).

(** [buf.copy_from_slice] panics unless the lengths agree. *)
Definition zram_read (z : Zram) (zram_id : Z) (buf : list Z) : option (result (list Z) ZramError) :=
  r ← zram_get z zram_id;
  match r with
  | Ok compressed_data =>
      decompressed_data ← decompress_size_prepended compressed_data;
      _ ← assert_ (vlen buf =? vlen decompressed_data);
      Some (Ok decompressed_data)
  | Err error => Some (Err error)
  end.

Definition zram_write (z : Zram) (buf : list Z) : option (result Z ZramError * Zram) :=
  zram_insert z (compress_prepend_size buf).

(** The drop of a [ZramTracker] unwraps the result of [discard]; the client
    turns [Err] of [write] into a retry elsewhere and unwraps [read]. *)
#[export] Instance Zram_PageStore : PageStore Zram := {
  ps_write z d :=
    '(r, z') ← zram_write z d;
    Some (match r with Ok id => Some id | Err _ => None end, z');
  ps_read z id buf := r ← zram_read z id buf; unwrap r;
  ps_discard z id := '(r, z') ← zram_discard z id; _ ← unwrap r; Some z'
}.
End Codec.

(** ** Invariant *)

Definition zram_slot (z : Zram) (i : Z) : option (list Z) :=
  mjoin (vec_get (z_compressed z) i).

Record zram_inv (z : Zram) : Prop := {
  zi_cap : vlen (z_compressed z) < 2 ^ 16;
  zi_tail : 0 <= z_tail z <= vlen (z_compressed z);
  zi_nodup : NoDup (z_recycled z);
  zi_range : forall x, x ∈ z_recycled z -> 0 <= x < z_tail z;
  zi_live : forall i, is_Some (zram_slot z i) <-> 0 <= i < z_tail z /\ i ∉ z_recycled z
}.

(** A slot after a store to one slot. *)
Lemma zram_slot_set c c' i v recycled tail j :
  vec_set c i v = Some c' ->
  zram_slot (mkZram c' recycled tail) j = if decide (j = i) then v else zram_slot (mkZram c recycled tail) j.
Proof.
  intros [Hi ->]%vec_set_Some. unfold zram_slot, vec_get. cbn. unfold vlen in Hi.
  destruct (decide (j = i)) as [-> |].
  - destruct (Z.ltb_spec i 0); [lia |]. rewrite list_lookup_insert_eq by lia. done.
  - destruct (Z.ltb_spec j 0); [done |]. rewrite list_lookup_insert_ne by lia. done.
Qed.

Lemma vec_set_total {A} (v : list A) i x :
  0 <= i < vlen v -> exists v', vec_set v i x = Some v' /\ vlen v' = vlen v.
Proof.
  intros H. eexists. split; [by apply vec_set_Some |]. unfold vlen. by rewrite length_insert.
Qed.

Lemma zram_new_inv capacity :
  0 <= capacity < 2 ^ 16 -> zram_inv (zram_new capacity) /\
  forall i, zram_slot (zram_new capacity) i = None.
Proof.
  intros Hc.
  assert (Hs : forall i, zram_slot (zram_new capacity) i = None).
  { intros i. unfold zram_slot, zram_new, vec_get. cbn. destruct (i <? 0); [done |].
    destruct (_ !! _) as [o |] eqn:E; [| done]. by apply lookup_replicate in E as [-> _]. }
  split; [| done]. constructor; unfold zram_new, vlen; cbn; rewrite ?length_replicate; try lia.
  - constructor.
  - intros x ?%not_elem_of_nil. done.
  - intros i. rewrite Hs. split; [by intros [? ?] | lia].
Qed.

Lemma zram_insert_ok z data :
  zram_inv z ->
  (exists id z', zram_insert z data = Some (Ok id, z') /\ zram_inv z' /\
     vlen (z_compressed z') = vlen (z_compressed z) /\ 0 <= id < vlen (z_compressed z) /\
     zram_slot z id = None /\
     forall j, zram_slot z' j = if decide (j = id) then Some data else zram_slot z j) \/
  (zram_insert z data = Some (Err NoSpace, z) /\
   forall i, 0 <= i < vlen (z_compressed z) -> is_Some (zram_slot z i)).
Proof.
  intros [Hc Ht Hn Hr Hl]. unfold zram_insert.
  destruct (vec_pop (z_recycled z)) as [[id rest] |] eqn:Ep.
  - left. apply vec_pop_Some in Ep. rewrite Ep in Hn, Hr, Hl.
    apply NoDup_app in Hn as (Hn & Hd & _).
    assert (Hid : 0 <= id < z_tail z) by (apply Hr; set_solver).
    destruct (vec_set_total (z_compressed z) id (Some data)) as (c & E & Hlen); [lia |].
    rewrite E. exists id, (mkZram c rest (z_tail z)). cbn [mbind option_bind].
    assert (Hnone : zram_slot z id = None).
    { apply eq_None_not_Some. rewrite Hl. set_solver. }
    assert (Hs : forall j, zram_slot (mkZram c rest (z_tail z)) j =
                 if decide (j = id) then Some data else zram_slot z j)
      by (intros j; by rewrite (zram_slot_set _ _ _ _ _ _ _ E)).
    split_and!; [done | | cbn; lia | lia | lia | done | done].
    constructor; cbn; [lia | lia | done | set_solver |].
    intros j. rewrite Hs. destruct (decide (j = id)) as [-> |].
    + split; [| done]. intros _. split; [done |]. intros Hin. apply (Hd id); set_solver.
    + rewrite Hl. set_solver.
  - apply vec_pop_None in Ep. rewrite Ep in *.
    destruct (Z.eqb_spec (z_tail z) (vlen (z_compressed z))).
    + right. split; [by destruct z; cbn in *; subst |]. intros i Hi. apply Hl.
      split; [lia | apply not_elem_of_nil].
    + left. rewrite (wrapn_small 16 (z_tail z + 1)) by (unfold fits; lia).
      rewrite (wrapn_small 16) by (unfold fits; lia).
      replace (z_tail z + 1 - 1) with (z_tail z) by lia.
      destruct (vec_set_total (z_compressed z) (z_tail z) (Some data)) as (c & E & Hlen); [lia |].
      rewrite E. exists (z_tail z), (mkZram c [] (z_tail z + 1)). cbn [mbind option_bind].
      assert (Hs : forall j, zram_slot (mkZram c [] (z_tail z + 1)) j =
                   if decide (j = z_tail z) then Some data else zram_slot z j)
        by (intros j; by rewrite (zram_slot_set _ _ _ _ _ _ _ E)).
      split_and!; [done | | cbn; lia | lia | lia | | done].
      * constructor; cbn; [lia | lia | constructor | by intros x ?%not_elem_of_nil |].
        intros j. rewrite Hs. case_decide as Hj; [subst j | rewrite Hl].
        -- split; [| done]. intros _. split; [lia | apply not_elem_of_nil].
        -- split; (intros [? ?]; split; [lia | done]).
      * apply eq_None_not_Some. rewrite Hl. lia.
Qed.

Lemma zram_remove_ok z id data :
  zram_inv z -> zram_slot z id = Some data ->
  exists z', zram_remove z id = Some (Ok data, z') /\ zram_inv z' /\
    vlen (z_compressed z') = vlen (z_compressed z) /\
    forall j, zram_slot z' j = if decide (j = id) then None else zram_slot z j.
Proof.
  intros [Hc Ht Hn Hr Hl] Hd.
  destruct (proj1 (Hl id)) as [Hid Hnr]; [by eexists |].
  unfold zram_remove. destruct (Z.leb_spec (vlen (z_compressed z)) id); [lia |].
  rewrite (wrapn_small 16 (z_tail z - 1)), (wrapn_small 16 id) by (unfold fits; lia).
  assert (Hg : vec_get (z_compressed z) id = Some (Some data)).
  { unfold zram_slot in Hd. by destruct (vec_get (z_compressed z) id) as [[] |]; simplify_eq/=. }
  destruct (vec_set_total (z_compressed z) id None) as (c & E & Hlen); [lia |].
  destruct (Z.eqb_spec id (z_tail z - 1)) as [He |].
  - rewrite Hg. cbn [mbind option_bind]. rewrite E. cbn [mbind option_bind].
    eexists. split; [reflexivity |].
    assert (Hs : forall j, zram_slot (mkZram c (z_recycled z) id) j =
                 if decide (j = id) then None else zram_slot z j)
      by (intros j; by rewrite (zram_slot_set _ _ _ _ _ _ _ E)).
    split_and!; [| cbn; lia | done].
    constructor; cbn; [lia | lia | done | |].
    + intros x Hx. pose proof (Hr x Hx). assert (x <> id) by congruence. lia.
    + intros j. rewrite Hs. case_decide as Hj; [subst j | rewrite Hl].
      * split; [by intros [? ?] | lia].
      * split; (intros [? ?]; split; [lia | done]).
  - rewrite Hg. cbn [mbind option_bind]. rewrite E. cbn [mbind option_bind].
    eexists. split; [reflexivity |].
    assert (Hs : forall j, zram_slot (mkZram c (z_recycled z ++ [id]) (z_tail z)) j =
                 if decide (j = id) then None else zram_slot z j)
      by (intros j; by rewrite (zram_slot_set _ _ _ _ _ _ _ E)).
    split_and!; [| cbn; lia | done].
    constructor; cbn; [lia | lia | | |].
    + apply NoDup_app. split_and!; [done | | apply NoDup_singleton]. set_solver.
    + intros x. rewrite elem_of_app, list_elem_of_singleton. intros [? | ->]; [by apply Hr | lia].
    + intros j. rewrite Hs, elem_of_app, list_elem_of_singleton. case_decide as Hj; [subst j | rewrite Hl].
      * split; [by intros [? ?] | tauto].
      * naive_solver.
Qed.

Lemma zram_get_ok z id :
  zram_inv z -> 0 <= id ->
  zram_get z id = Some (match zram_slot z id with
                        | Some data => Ok data
                        | None => Err (if id <? vlen (z_compressed z) then NotAllocated else InvalidIndex)
                        end).
Proof.
  intros _ H0. unfold zram_get, zram_slot.
  destruct (Z.leb_spec (vlen (z_compressed z)) id), (Z.ltb_spec id (vlen (z_compressed z))); try lia.
  - destruct (vec_get (z_compressed z) id) as [o |] eqn:E; [| done].
    apply vec_get_Some in E as [? _]. lia.
  - destruct (vec_get_is_Some (z_compressed z) id) as [o E]; [lia |]. rewrite E. by destruct o.
Qed.

(** ** The store interface *)

Section Laws.
Context (compress : list Z -> list Z) (decompress : list Z -> option (list Z)).
(** [lz4_flex]: a block compressed with its size prepended decompresses to the
    original. *)
Hypothesis lz4_roundtrip : forall d, bytes d -> decompress (compress d) = Some d.

Definition zram_holds (z : Zram) (m : gmap Z (list Z)) : Prop :=
  zram_inv z /\ map_Forall (fun _ => page_ok) m /\
  forall i, zram_slot z i = compress <$> m !! i.

Existing Instance Zram_PageStore.

Lemma zram_write_law z m d :
  zram_holds z m -> page_ok d ->
  exists r z', @ps_write _ (Zram_PageStore compress decompress) z d = Some (r, z') /\
    vlen (z_compressed z') = vlen (z_compressed z) /\
    match r with
    | Some id => 0 <= id < vlen (z_compressed z) /\ m !! id = None /\ zram_holds z' (<[id := d]> m)
    | None => z' = z /\ forall i, 0 <= i < vlen (z_compressed z) -> is_Some (m !! i)
    end.
Proof.
  intros (Hi & Hm & Hs) Hd. cbn. unfold zram_write.
  destruct (zram_insert_ok z (compress d) Hi)
    as [(id & z' & -> & Hi' & Hl & Hid & Hn & Hs') | [-> Hf]]; cbn.
  - exists (Some id), z'. split; [done |]. split; [done |].
    rewrite Hs in Hn. destruct (m !! id) eqn:E; [done |].
    split_and!; [lia | lia | done |]. split_and!; [done | by apply map_Forall_insert_2 |].
    intros i. rewrite Hs', lookup_insert. repeat case_decide; simplify_eq; done.
  - exists None, z. split_and!; [done.. |]. intros i Hr. destruct (Hf i Hr) as [x Hx].
    rewrite Hs in Hx. by destruct (m !! i).
Qed.

Lemma zram_read_law z m id d buf :
  zram_holds z m -> m !! id = Some d -> vlen buf = PAGE_SIZE ->
  @ps_read _ (Zram_PageStore compress decompress) z id buf = Some d.
Proof.
  intros (Hi & Hm & Hs) Hd Hb. cbn. unfold zram_read.
  assert (Hsl : zram_slot z id = Some (compress d)) by (rewrite Hs, Hd; done).
  destruct (proj1 (zi_live z Hi id)) as [Hid _]; [by eexists |].
  rewrite (zram_get_ok z id Hi), Hsl by lia. cbn. destruct (Hm id d Hd) as [Hl Hbs].
  rewrite lz4_roundtrip by done. cbn. rewrite Hb, Hl. done.
Qed.

Lemma zram_discard_law z m id :
  zram_holds z m -> is_Some (m !! id) ->
  exists z', @ps_discard _ (Zram_PageStore compress decompress) z id = Some z' /\
    vlen (z_compressed z') = vlen (z_compressed z) /\ zram_holds z' (delete id m).
Proof.
  intros (Hi & Hm & Hs) [d Hd]. cbn. unfold zram_discard.
  assert (Hsl : zram_slot z id = Some (compress d)) by (rewrite Hs, Hd; done).
  destruct (zram_remove_ok z id _ Hi Hsl) as (z' & -> & Hi' & Hl & Hs'). cbn.
  exists z'. split; [done |]. split; [done |]. split_and!; [done | by apply map_Forall_delete |].
  intros i. rewrite Hs', lookup_delete. repeat case_decide; simplify_eq; done.
Qed.

#[export] Instance Zram_Spec : @PageStoreSpec Zram (Zram_PageStore compress decompress) := {|
  ps_holds := zram_holds;
  ps_slots z := vlen (z_compressed z);
  ps_write_spec := zram_write_law;
  ps_read_spec := zram_read_law;
  ps_discard_spec := zram_discard_law
|}.

End Laws.

(** ** Theorems *)

(** C16: The compressed store is a faithful store of pages: after any sequence
    of writes and tracker drops, [read] of a page that is held returns exactly
    the bytes written, [read] of any other identifier is an error and not a
    panic, and [write] returns an identifier that is not in use, failing only
    when every slot is. The codec is any pair for which decompression undoes
    compression. *)
Theorem zram_keeps_pages compress decompress
    (Hlz4 : forall d, bytes d -> decompress (compress d) = Some d) capacity m z :
  0 <= capacity < 2 ^ 16 ->
  rtc (@ps_step _ (Zram_PageStore compress decompress)) (∅, zram_new capacity) (m, z) ->
  (forall id d buf, m !! id = Some d -> vlen buf = PAGE_SIZE ->
     zram_read decompress z id buf = Some (Ok d)) /\
  (forall id buf, 0 <= id -> m !! id = None ->
     exists e, zram_read decompress z id buf = Some (Err e)) /\
  (forall d, page_ok d -> exists r z', zram_write compress z d = Some (r, z') /\
     match r with
     | Ok id => m !! id = None /\ zram_read decompress z' id d = Some (Ok d)
     | Err e => e = NoSpace /\ z' = z /\
         forall i, 0 <= i < vlen (z_compressed z) -> is_Some (m !! i)
     end).
Proof.
  intros Hc Hs. destruct (zram_new_inv capacity Hc) as [Hi0 Hn0].
  assert (Hh : zram_holds compress z m).
  { apply (@ps_steps_holds _ _ (Zram_Spec compress decompress Hlz4) _ _ Hs). cbn.
    split_and!; [done | apply map_Forall_empty |]. intros i. by rewrite Hn0, lookup_empty. }
  assert (Hrd : forall z m id d buf, zram_holds compress z m -> m !! id = Some d ->
            vlen buf = PAGE_SIZE -> zram_read decompress z id buf = Some (Ok d)).
  { intros z1 m1 id d buf H1 H2 H3.
    pose proof (zram_read_law compress decompress Hlz4 _ _ _ _ _ H1 H2 H3) as E. cbn in E.
    destruct (zram_read decompress z1 id buf) as [[x | e] |]; cbn in E; by simplify_eq. }
  destruct Hh as (Hi & Hm & Hsl). split_and!.
  - intros id d buf. by apply Hrd.
  - intros id buf H0 Hn. unfold zram_read. rewrite (zram_get_ok z id Hi), Hsl, Hn by done.
    cbn. by eexists.
  - intros d Hd. unfold zram_write.
    destruct (zram_insert_ok z (compress d) Hi)
      as [(id & z' & -> & Hi' & Hl & Hid & Hn & Hs') | [-> Hf]]; eexists _, _; (split; [done |]); cbn.
    + rewrite Hsl in Hn. destruct (m !! id) eqn:E; [done |]. split; [done |].
      apply (Hrd z' (<[id := d]> m)); [| apply lookup_insert_eq | apply Hd].
      split_and!; [done | by apply map_Forall_insert_2 |].
      intros i. rewrite Hs', lookup_insert. repeat case_decide; simplify_eq; done.
    + split_and!; [done | done |]. intros i Hr. destruct (Hf i Hr) as [x Hx].
      rewrite Hsl in Hx. by destruct (m !! i).
Qed.

Lemma zram_keeps_pages_witness :
  let d := replicate (Z.to_nat 4096) 9 in
  let z := mkZram [Some (0 :: d); None] [] 1 in
  zram_read (fun c => Some (tail c)) z 0 d = Some (Ok d).
Proof.
  intros d z.
  assert (Hd : page_ok d)
    by (split; [unfold vlen, d; by rewrite length_replicate | apply Forall_replicate; by vm_compute]).
  destruct (zram_keeps_pages (cons 0) (fun c => Some (tail c)) (fun _ _ => eq_refl) 2 (<[0 := d]> ∅) z)
    as (Hr & _).
  - lia.
  - eapply rtc_l; [| apply rtc_refl]. by apply (@ps_step_write _ _ _ _ d 0).
  - apply Hr; [apply lookup_insert_eq | apply Hd].
Defined.

(** [remove] of an identifier that was never allocated is not harmless: it
    reports [NotAllocated] but puts the identifier on the recycled list, and
    the store then hands the same identifier to two live pages, so the first
    one's contents are lost. *)
Theorem zram_remove_unallocated_aliases (a b c d : list Z) :
  exists z1 z2 z3 z4 z5, zram_remove (zram_new 4) 2 = Some (Err NotAllocated, z1) /\
    zram_insert z1 a = Some (Ok 2, z2) /\ zram_insert z2 b = Some (Ok 0, z3) /\
    zram_insert z3 c = Some (Ok 1, z4) /\ zram_insert z4 d = Some (Ok 2, z5) /\
    zram_get z5 2 = Some (Ok d).
Proof. by repeat eexists. Qed.
