(* ===== verification/Swap.v ===== *)
(** * The swap area

    [fs/swap.rs]: pages kept in blocks of the disk, one bit of a bitmap per
    page. The blocks are obtained from the file system once, by
    [alloc_blocks]. *)

From S2P Require Import Prelude Address Phys Block PageStore.

Record Swap := mkSwap {
  sw_bitmap : list Z;
  sw_block_ids : list Z;
  sw_usable : bool
}.

Definition BLK_PER_PG : Z := PAGE_SIZE / BLOCK_SZ.
Definition SWAP_SIZE : Z := 1024 * 1024.

(** [allocated] is the result of [FILE_SYSTEM.alloc_blocks(blocks)]. *)
Definition swap_new (alloc_blocks : Z -> list Z) (size : Z) : Swap :=
  let blocks := size *w (SWAP_SIZE / BLOCK_SZ) in
  let allocated := alloc_blocks blocks in
  let usable := negb (vlen allocated =? 0) && (vlen allocated =? blocks) in
  let bit := if usable then size *w (SWAP_SIZE / PAGE_SIZE) else 0 in
  let vec_len := if usable then bit / 64 else 0 in
  mkSwap (replicate (Z.to_nat vec_len) 0) allocated usable.

(** [u64::trailing_zeros]. *)
Fixpoint trailing_zeros_from (fuel : nat) (i x : Z) : Z :=
  match fuel with
  | O => 64
  | S fuel' => if Z.testbit x i then i else trailing_zeros_from fuel' (i + 1) x
  end.
Definition trailing_zeros (x : Z) : Z := trailing_zeros_from 64 0 x.

#[global] Arguments trailing_zeros : simpl never.

Definition set_bit (s : Swap) (pos : Z) : option Swap :=
  x ← vec_get (sw_bitmap s) (pos / 64);
  b ← vec_set (sw_bitmap s) (pos / 64) (Z.lor x (1 <<w (pos mod 64)));
  Some (mkSwap b (sw_block_ids s) (sw_usable s)).
Definition clear_bit (s : Swap) (pos : Z) : option Swap :=
  x ← vec_get (sw_bitmap s) (pos / 64);
  b ← vec_set (sw_bitmap s) (pos / 64) (Z.land x (not64 (1 <<w (pos mod 64))));
  Some (mkSwap b (sw_block_ids s) (sw_usable s)).

Fixpoint alloc_page_loop (i : Z) (bitmap : list Z) : option Z :=
  match bitmap with
  | [] => None
  | bit :: bitmap' =>
      if bit =? 2 ^ 64 - 1 then alloc_page_loop (i + 1) bitmap'
      else Some (i * 64 + trailing_zeros (not64 bit))
  end.
Definition alloc_page (s : Swap) : option Z := alloc_page_loop 0 (sw_bitmap s).

Definition get_block_ids (s : Swap) (swap_id : Z) : option (list Z) :=
  slice (sw_block_ids s) (swap_id *w BLK_PER_PG) (swap_id *w BLK_PER_PG +w BLK_PER_PG).

Definition swap_discard (s : Swap) (swap_id : Z) : option Swap := clear_bit s swap_id.

Section Device.
Context {D : Type} `{!BlockDevice D}.

Definition read_page (d : D) (block_ids : list Z) (buf : list Z) : option (list Z) :=
  first ← vec_get block_ids 0;
  last ← vec_get block_ids (BLK_PER_PG - 1);
  _ ← assert_ (first +w BLK_PER_PG -w 1 =? last);
  read_block d first (vlen buf).
Definition write_page (d : D) (block_ids : list Z) (buf : list Z) : option D :=
  first ← vec_get block_ids 0;
  last ← vec_get block_ids (BLK_PER_PG - 1);
  _ ← assert_ (first +w (BLK_PER_PG - 1) =? last);
  write_block d first buf.

(** The buffer is left as it is when the area is not usable. *)
Definition swap_read (s : Swap) (d : D) (swap_id : Z) (buf : list Z) : option (list Z) :=
  if negb (sw_usable s) then Some buf
  else ids ← get_block_ids s swap_id; read_page d ids buf.

Definition swap_write (s : Swap) (d : D) (buf : list Z) : option (option Z * (Swap * D)) :=
  if negb (sw_usable s) then Some (None, (s, d))
  else match alloc_page s with
       | Some swap_id =>
           ids ← get_block_ids s swap_id;
           d' ← write_page d ids buf;
           s' ← set_bit s swap_id;
           Some (Some swap_id, (s', d'))
       | None => Some (None, (s, d))
       end.

#[export] Instance Swap_PageStore : PageStore (Swap * D) := {
  ps_write sd buf := swap_write sd.1 sd.2 buf;
  ps_read sd id buf := swap_read sd.1 sd.2 id buf;
  ps_discard sd id := s' ← swap_discard sd.1 id; Some (s', sd.2)
}.
End Device.

(** ** The bitmap *)

(** Bit [pos] of the bitmap. *)
Definition used (s : Swap) (pos : Z) : bool :=
  match vec_get (sw_bitmap s) (pos / 64) with
  | Some x => Z.testbit x (pos mod 64)
  | None => false
  end.

Lemma trailing_zeros_from_spec fuel i x :
  0 <= i -> i + Z.of_nat fuel = 64 -> (exists j, i <= j < 64 /\ Z.testbit x j = true) ->
  let t := trailing_zeros_from fuel i x in i <= t < 64 /\ Z.testbit x t = true.
Proof.
  revert i. induction fuel as [| fuel IH]; intros i H0 Hf (j & Hj & Hb); simpl; [lia |].
  destruct (Z.testbit x i) eqn:E; [split; [lia | done] |].
  destruct (IH (i + 1)) as [H1 H2]; [lia | lia | | split; [lia | done]].
  exists j. split; [| done]. destruct (decide (j = i)); [congruence | lia].
Qed.

(** A word that is not full has a clear bit, and the allocator finds one. *)
Lemma trailing_zeros_not64 x :
  u64 x -> x <> 2 ^ 64 - 1 ->
  let t := trailing_zeros (not64 x) in 0 <= t < 64 /\ Z.testbit x t = false.
Proof.
  intros Hx Hne t.
  assert (Hb : exists j, 0 <= j < 64 /\ Z.testbit (not64 x) j = true).
  { assert (Hnz : not64 x <> 0).
    { intros E. apply Hne. change (2 ^ 64 - 1) with (Z.ones 64).
      rewrite <- (Z.lxor_0_l (Z.ones 64)), <- E. unfold not64.
      by rewrite Z.lxor_assoc, Z.lxor_nilpotent, Z.lxor_0_r. }
    pose proof (fits_not64 x Hx) as Hf. exists (Z.log2 (not64 x)). unfold fits in Hf. split.
    - split; [apply Z.log2_nonneg |]. apply Z.log2_lt_pow2; lia.
    - apply Z.bit_log2. lia. }
  destruct (trailing_zeros_from_spec 64 0 (not64 x)) as [H1 H2]; [lia | lia | done |].
  change (trailing_zeros_from 64 0 (not64 x)) with t in H1, H2. split; [done |]. rewrite not64_spec in H2 by lia.
  destruct (Z.ltb_spec t 64); [| lia]. by destruct (Z.testbit x t).
Qed.

Lemma testbit_one_shl n i : 0 <= n < 64 -> 0 <= i -> Z.testbit (1 <<w n) i = (i =? n).
Proof.
  intros Hn Hi. rewrite testbit_wrapn, Z.shiftl_1_l, testbit_pow2 by lia.
  destruct (Z.eqb_spec i n), (Z.ltb_spec i 64); lia || done.
Qed.

Record bitmap_ok (s : Swap) : Prop := { bo_words : Forall u64 (sw_bitmap s) }.

(** Both updates rewrite one word and change one bit. *)
Lemma word_update_ok s pos f v :
  bitmap_ok s -> 0 <= pos < 64 * vlen (sw_bitmap s) ->
  (forall x, u64 x -> u64 (f x)) ->
  (forall x i, 0 <= i < 64 -> Z.testbit (f x) i = if decide (i = pos mod 64) then v else Z.testbit x i) ->
  exists s', (x ← vec_get (sw_bitmap s) (pos / 64);
              b ← vec_set (sw_bitmap s) (pos / 64) (f x);
              Some (mkSwap b (sw_block_ids s) (sw_usable s))) = Some s' /\
    bitmap_ok s' /\ vlen (sw_bitmap s') = vlen (sw_bitmap s) /\
    sw_block_ids s' = sw_block_ids s /\ sw_usable s' = sw_usable s /\
    forall j, used s' j = if decide (j = pos) then v else used s j.
Proof.
  intros [Hw] Hp Hu Hf. destruct (vec_get_is_Some (sw_bitmap s) (pos / 64)) as [x E]; [lia |].
  pose proof (proj1 (vec_get_Some _ _ _) E) as [Hr Ex].
  rewrite E. cbn [mbind option_bind]. unfold vlen in Hr.
  rewrite (proj2 (vec_set_Some _ _ _ _) (conj Hr eq_refl)). cbn [mbind option_bind].
  eexists. split; [reflexivity |]. cbn.
  split_and!; [| unfold vlen; by rewrite length_insert | done | done |].
  - constructor. cbn. apply Forall_insert; [done |]. apply Hu, (Forall_lookup_1 _ _ _ _ Hw Ex).
  - intros j. unfold used. cbn. unfold vec_get. destruct (Z.ltb_spec (j / 64) 0).
    { rewrite decide_False; [done |]. lia. }
    destruct (decide (j / 64 = pos / 64)) as [Hj |].
    + rewrite Hj, list_lookup_insert_eq by lia. rewrite Hf, Ex by lia.
      repeat case_decide; try lia; done.
    + rewrite list_lookup_insert_ne by lia. rewrite decide_False; [done |]. congruence.
Qed.

Lemma set_bit_ok s pos :
  bitmap_ok s -> 0 <= pos < 64 * vlen (sw_bitmap s) ->
  exists s', set_bit s pos = Some s' /\ bitmap_ok s' /\
    vlen (sw_bitmap s') = vlen (sw_bitmap s) /\ sw_block_ids s' = sw_block_ids s /\
    sw_usable s' = sw_usable s /\
    forall j, used s' j = if decide (j = pos) then true else used s j.
Proof.
  intros Hb Hp. unfold set_bit. apply (word_update_ok s pos); [done | done | |].
  - intros x Hx. apply fits_lor; [lia | done | apply wrap64_bound].
  - intros y i Hi. rewrite Z.lor_spec, testbit_one_shl by lia.
    destruct (Z.eqb_spec i (pos mod 64)); case_decide; try done; by rewrite ?orb_true_r, ?orb_false_r.
Qed.

Lemma clear_bit_ok s pos :
  bitmap_ok s -> 0 <= pos < 64 * vlen (sw_bitmap s) ->
  exists s', clear_bit s pos = Some s' /\ bitmap_ok s' /\
    vlen (sw_bitmap s') = vlen (sw_bitmap s) /\ sw_block_ids s' = sw_block_ids s /\
    sw_usable s' = sw_usable s /\
    forall j, used s' j = if decide (j = pos) then false else used s j.
Proof.
  intros Hb Hp. unfold clear_bit. apply (word_update_ok s pos); [done | done | |].
  - intros x Hx. apply fits_land_l; [lia | done].
  - intros y i Hi. rewrite Z.land_spec, not64_spec, testbit_one_shl by lia.
    destruct (Z.eqb_spec i (pos mod 64)), (Z.ltb_spec i 64); case_decide; try lia; try done;
      by rewrite ?andb_true_r, ?andb_false_r.
Qed.

(** The page found is a free one of the area; none is found only when all are
    taken. *)
Lemma alloc_page_loop_spec s pre post :
  bitmap_ok s -> sw_bitmap s = pre ++ post ->
  match alloc_page_loop (vlen pre) post with
  | Some id => 0 <= id < 64 * vlen (sw_bitmap s) /\ used s id = false
  | None => forall id, 64 * vlen pre <= id < 64 * vlen (sw_bitmap s) -> used s id = true
  end.
Proof.
  intros [Hw]. revert pre. induction post as [| x post IH]; intros pre E; cbn.
  - rewrite app_nil_r in E. rewrite E. lia.
  - assert (Ex : forall t, 0 <= t < 64 -> used s (vlen pre * 64 + t) = Z.testbit x t).
    { intros t Ht. unfold used, vec_get. rewrite Z.div_add_l, (Z.div_small t) by lia.
      rewrite Z.add_0_r, Z.add_comm, Z.mod_add, Z.mod_small by lia.
      pose proof (vlen_nonneg pre). destruct (Z.ltb_spec (vlen pre) 0); [lia |].
      rewrite E. unfold vlen. rewrite Nat2Z.id, list_lookup_middle by done. done. }
    assert (Hx : u64 x) by (rewrite E in Hw; by apply Forall_app in Hw as [_ [? _]%Forall_cons_1]).
    pose proof (vlen_nonneg pre). assert (Hl : vlen (sw_bitmap s) = vlen pre + 1 + vlen post)
      by (rewrite E, vlen_app; unfold vlen; cbn; lia).
    pose proof (vlen_nonneg post).
    destruct (Z.eqb_spec x (2 ^ 64 - 1)) as [-> |].
    + specialize (IH (pre ++ [2 ^ 64 - 1])). rewrite <- app_assoc in IH. specialize (IH E).
      rewrite vlen_app in IH. change (vlen [2 ^ 64 - 1]) with 1 in IH.
      destruct (alloc_page_loop (vlen pre + 1) post); [done |].
      intros id Hid. destruct (decide (64 * (vlen pre + 1) <= id)); [apply IH; lia |].
      replace id with (vlen pre * 64 + (id - vlen pre * 64)) by lia. rewrite Ex by lia.
      change (2 ^ 64 - 1) with (Z.ones 64). apply Z.ones_spec_low. lia.
    + destruct (trailing_zeros_not64 x Hx n) as [Ht Hb]. split; [lia |]. by rewrite Ex.
Qed.

(** ** The store interface *)

Section Laws.
Context {D : Type} `{!BlockDevice D, !BlockDeviceSpec D}.

(** The blocks of the area are different blocks of the disk, one for each bit. *)
Record swap_inv (sd : Swap * D) : Prop := {
  si_bitmap : bitmap_ok sd.1;
  si_nodup : NoDup (sw_block_ids sd.1);
  si_len : sw_usable sd.1 = true -> vlen (sw_block_ids sd.1) = 64 * vlen (sw_bitmap sd.1);
  si_small : vlen (sw_block_ids sd.1) < 2 ^ 63;
  si_unusable : sw_usable sd.1 = false -> sw_bitmap sd.1 = [];
  si_blocks : Forall (fun b => 0 <= b < 2 ^ 63 /\ (b + 1) * BLOCK_SZ <= bd_size sd.2) (sw_block_ids sd.1);
  si_dev : bd_inv sd.2
}.

Definition swap_slots (sd : Swap * D) : Z := 64 * vlen (sw_bitmap sd.1).

Definition swap_holds (sd : Swap * D) (m : gmap Z (list Z)) : Prop :=
  swap_inv sd /\ (forall i, is_Some (m !! i) <-> 0 <= i < swap_slots sd /\ used sd.1 i = true) /\
  forall i d, m !! i = Some d ->
    exists b, sw_block_ids sd.1 !! Z.to_nat i = Some b /\ read_block sd.2 b BLOCK_SZ = Some d.

Lemma get_block_ids_ok sd id :
  swap_inv sd -> sw_usable sd.1 = true -> 0 <= id < swap_slots sd ->
  exists b, get_block_ids sd.1 id = Some [b] /\ sw_block_ids sd.1 !! Z.to_nat id = Some b /\
    0 <= b < 2 ^ 63 /\ (b + 1) * BLOCK_SZ <= bd_size sd.2.
Proof.
  intros [_ _ Hl Hs _ Hb _] Hu Hid. specialize (Hl Hu). unfold swap_slots in Hid.
  destruct (lookup_lt_is_Some_2 (sw_block_ids sd.1) (Z.to_nat id)) as [b E]; [unfold vlen in *; lia |].
  exists b. unfold get_block_ids. change BLK_PER_PG with 1. rewrite Z.mul_1_r. wrap_simpl.
  split_and!; [| done | apply (Forall_lookup_1 _ _ _ _ Hb E)..].
  apply slice_Some. split_and!; [lia | lia | lia |].
  replace (Z.to_nat (id + 1 - id)) with 1%nat by lia.
  rewrite (drop_S _ _ _ E). done.
Qed.

Lemma read_page_one (d : D) b buf :
  0 <= b < 2 ^ 63 -> vlen buf = PAGE_SIZE -> read_page d [b] buf = read_block d b BLOCK_SZ.
Proof.
  intros Hb Hl. unfold read_page. change BLK_PER_PG with 1. change (1 - 1) with 0.
  change (vec_get [b] 0) with (Some b). cbn [mbind option_bind].
  rewrite (wrap64_small (b + 1)), wrap64_small by lia.
  replace (b + 1 - 1) with b by lia. rewrite Z.eqb_refl, Hl. done.
Qed.

Lemma write_page_one (d : D) b buf :
  0 <= b < 2 ^ 63 -> write_page d [b] buf = write_block d b buf.
Proof.
  intros Hb. unfold write_page. change BLK_PER_PG with 1. change (1 - 1) with 0.
  change (vec_get [b] 0) with (Some b). cbn [mbind option_bind].
  rewrite Z.add_0_r, wrap64_small, Z.eqb_refl by lia. done.
Qed.

Lemma swap_write_law sd m d :
  swap_holds sd m -> page_ok d ->
  exists r sd', ps_write sd d = Some (r, sd') /\ swap_slots sd' = swap_slots sd /\
    match r with
    | Some id => 0 <= id < swap_slots sd /\ m !! id = None /\ swap_holds sd' (<[id := d]> m)
    | None => sd' = sd /\ forall i, 0 <= i < swap_slots sd -> is_Some (m !! i)
    end.
Proof.
  intros (Hi & Hm & Hd) [Hl Hb]. destruct sd as [s dev]. cbn [ps_write Swap_PageStore fst snd] in *.
  unfold swap_write. destruct (sw_usable s) eqn:Hu; cbn [negb].
  2:{ exists None, (s, dev). split_and!; [done.. |]. intros i Hr. unfold swap_slots in Hr. cbn in Hr.
      pose proof (si_unusable _ Hi Hu) as Hn. cbn in Hn. rewrite Hn in Hr.
      unfold vlen in Hr. cbn in Hr. lia. }
  pose proof (alloc_page_loop_spec s [] (sw_bitmap s) (si_bitmap _ Hi) eq_refl) as Ha.
  unfold alloc_page. change (vlen []) with 0 in Ha.
  destruct (alloc_page_loop 0 (sw_bitmap s)) as [id |].
  2:{ exists None, (s, dev). split_and!; [done.. |]. intros i Hr. apply Hm. split; [done |].
      apply Ha. unfold swap_slots in Hr. cbn in Hr. lia. }
  destruct Ha as [Hid Hfree].
  destruct (get_block_ids_ok (s, dev) id Hi Hu Hid) as (b & E & Eb & Hb1 & Hb2). cbn in E, Eb.
  rewrite E. cbn [mbind option_bind]. rewrite write_page_one by done.
  destruct (read_write_block dev b d (si_dev _ Hi)) as (dev' & -> & Hdi & Hds & Hr & Ho);
    [lia | done | done | done |]. cbn [mbind option_bind].
  destruct (set_bit_ok s id (si_bitmap _ Hi) Hid) as (s' & -> & Hbm & Hlen & Hids & Hus & Hused).
  cbn [mbind option_bind]. exists (Some id), (s', dev').
  assert (Hslots : swap_slots (s', dev') = swap_slots (s, dev)) by (unfold swap_slots; cbn; lia).
  assert (Hn : m !! id = None).
  { apply eq_None_not_Some. rewrite Hm. cbn. rewrite Hfree. by intros [_ ?]. }
  split_and!; [done | done | apply Hid | apply Hid | done |]. split_and!.
  - destruct Hi as [_ ? ? ? ? ? _]. constructor; cbn in *; rewrite ?Hids, ?Hlen, ?Hus, ?Hds; try done.
    intros Hf. congruence.
  - intros i. rewrite Hslots. cbn. rewrite lookup_insert, Hused. case_decide; subst.
    + rewrite decide_True by done. split; [| by eexists]. intros _. by split.
    + rewrite decide_False by done. apply Hm.
  - intros i x. cbn. rewrite Hids. destruct (decide (i = id)) as [-> | Hne].
    + rewrite lookup_insert_eq. intros [= <-]. by exists b.
    + rewrite lookup_insert_ne by done. intros Hx. destruct (Hd i x Hx) as (b' & Eb' & Hr').
      exists b'. split; [done |]. cbn in *. rewrite Ho; [done | | |].
      * by apply (Forall_lookup_1 _ _ _ _ (si_blocks _ Hi) Eb').
      * intros ->. pose proof (NoDup_lookup _ _ _ _ (si_nodup _ Hi) Eb' Eb).
        destruct (proj1 (Hm i)) as [? _]; [by eexists |]. lia.
      * by apply (Forall_lookup_1 _ _ _ _ (si_blocks _ Hi) Eb').
Qed.

Lemma swap_read_law sd m id d buf :
  swap_holds sd m -> m !! id = Some d -> vlen buf = PAGE_SIZE -> ps_read sd id buf = Some d.
Proof.
  intros (Hi & Hm & Hd) Hid Hl. destruct sd as [s dev]. cbn [ps_read Swap_PageStore fst snd] in *.
  destruct (proj1 (Hm id)) as [Hr Hus]; [by eexists |].
  assert (Hu : sw_usable s = true).
  { apply not_false_iff_true. intros Hf. unfold swap_slots in Hr. cbn in Hr.
    pose proof (si_unusable _ Hi Hf) as Hn. cbn in Hn. rewrite Hn in Hr.
    unfold vlen in Hr. cbn in Hr. lia. }
  destruct (get_block_ids_ok (s, dev) id Hi Hu Hr) as (b & E & Eb & Hb1 & _). cbn in E, Eb.
  unfold swap_read. rewrite Hu. cbn [negb]. rewrite E. cbn [mbind option_bind].
  rewrite read_page_one by done. destruct (Hd id d Hid) as (b' & Eb' & Hrd). cbn in Eb', Hrd.
  congruence.
Qed.

Lemma swap_discard_law sd m id :
  swap_holds sd m -> is_Some (m !! id) ->
  exists sd', ps_discard sd id = Some sd' /\ swap_slots sd' = swap_slots sd /\
    swap_holds sd' (delete id m).
Proof.
  intros (Hi & Hm & Hd) Hid. destruct sd as [s dev]. cbn [ps_discard Swap_PageStore fst snd] in *.
  apply Hm in Hid as [Hr Hus]. unfold swap_discard.
  destruct (clear_bit_ok s id (si_bitmap _ Hi) Hr) as (s' & -> & Hbm & Hlen & Hids & Hus' & Hused).
  cbn [mbind option_bind]. exists (s', dev).
  assert (Hslots : swap_slots (s', dev) = swap_slots (s, dev)) by (unfold swap_slots; cbn; lia).
  split_and!; [done | done |]. split_and!.
  - destruct Hi as [_ ? ? Hsm Hun ? ?]. constructor; cbn in *; rewrite ?Hids, ?Hlen, ?Hus'; try done.
    intros Hf. apply Hun in Hf. rewrite Hf in Hlen. unfold vlen in Hlen. cbn in Hlen.
    by destruct (sw_bitmap s').
  - intros i. rewrite Hslots. cbn. rewrite lookup_delete, Hused. case_decide; subst.
    + rewrite decide_True by done. split; [by intros [? ?] | by intros [? ?]].
    + rewrite decide_False by done. apply Hm.
  - intros i x. cbn. rewrite Hids, lookup_delete_Some. intros [_ Hx]. by apply Hd.
Qed.

#[export] Instance Swap_Spec : PageStoreSpec (Swap * D) := {|
  ps_holds := swap_holds;
  ps_slots := swap_slots;
  ps_write_spec := swap_write_law;
  ps_read_spec := swap_read_law;
  ps_discard_spec := swap_discard_law
|}.

(** A new area on blocks the file system handed out once each. *)
Lemma swap_new_holds alloc_blocks size (dev : D) :
  0 <= size < 2 ^ 40 -> NoDup (alloc_blocks (size * 256)) -> vlen (alloc_blocks (size * 256)) < 2 ^ 63 ->
  Forall (fun b => 0 <= b < 2 ^ 63 /\ (b + 1) * BLOCK_SZ <= bd_size dev) (alloc_blocks (size * 256)) ->
  bd_inv dev -> swap_holds (swap_new alloc_blocks size, dev) ∅.
Proof.
  intros Hs Hn Hl Hb Hi.
  assert (Hw : size *w (SWAP_SIZE / BLOCK_SZ) = size * 256).
  { change (SWAP_SIZE / BLOCK_SZ) with 256. by wrap_simpl. }
  assert (Hu : forall i, used (swap_new alloc_blocks size) i = false).
  { intros i. unfold used, swap_new, vec_get. cbn. destruct (i / 64 <? 0); [done |].
    destruct (_ !! _) as [x |] eqn:E; [| done]. apply lookup_replicate in E as [-> _].
    apply Z.testbit_0_l. }
  split_and!.
  - constructor; unfold swap_new; cbn [fst snd sw_bitmap sw_block_ids sw_usable];
      change (SWAP_SIZE / PAGE_SIZE) with (SWAP_SIZE / BLOCK_SZ); rewrite ?Hw; try done.
    + constructor. cbn. apply Forall_replicate. by vm_compute.
    + intros Hus. rewrite Hus. apply andb_true_iff in Hus as [_ He%Z.eqb_eq]. rewrite He.
      unfold vlen. rewrite length_replicate. lia.
    + intros ->. done.
  - intros i. rewrite lookup_empty. cbn. rewrite Hu. split; [by intros [? ?] | by intros [_ ?]].
  - intros i d. by rewrite lookup_empty.
Qed.
End Laws.

(** ** Theorems *)

(** C6: A page written to the swap area is read back unchanged until its
    tracker is dropped: after any sequence of writes and drops on an area whose
    blocks are different blocks of the disk, [read] returns exactly the page
    stored, a write never reuses a slot in use, never touches another page and
    never panics, and it fails only when every slot is taken. *)
Theorem swap_keeps_pages {D} `{!BlockDevice D, !BlockDeviceSpec D} alloc_blocks size (dev dev' : D) m s :
  0 <= size < 2 ^ 40 -> NoDup (alloc_blocks (size * 256)) -> vlen (alloc_blocks (size * 256)) < 2 ^ 63 ->
  Forall (fun b => 0 <= b < 2 ^ 63 /\ (b + 1) * BLOCK_SZ <= bd_size dev) (alloc_blocks (size * 256)) ->
  bd_inv dev ->
  rtc ps_step (∅, (swap_new alloc_blocks size, dev)) (m, (s, dev')) ->
  (forall id d buf, m !! id = Some d -> vlen buf = PAGE_SIZE -> swap_read s dev' id buf = Some d) /\
  (forall d, page_ok d -> exists r s' dev'', swap_write s dev' d = Some (r, (s', dev'')) /\
     match r with
     | Some id => m !! id = None /\
         forall id' d', <[id := d]> m !! id' = Some d' -> swap_read s' dev'' id' d = Some d'
     | None => forall i, 0 <= i < 64 * vlen (sw_bitmap s) -> is_Some (m !! i)
     end).
Proof.
  intros Hs Hn Hl Hb Hi Hr.
  pose proof (ps_steps_holds _ _ Hr (swap_new_holds _ _ _ Hs Hn Hl Hb Hi)) as Hh. cbn in Hh. split.
  - intros id d buf Hd Hbuf. exact (swap_read_law _ _ _ _ _ Hh Hd Hbuf).
  - intros d Hd. destruct (swap_write_law _ _ _ Hh Hd) as (r & [s' dev''] & E & _ & Hc).
    exists r, s', dev''. split; [exact E |]. destruct r as [id |]; [| by destruct Hc].
    destruct Hc as (_ & Hnone & Hh'). split; [done |].
    intros id' d' Hd'. exact (swap_read_law _ _ _ _ _ Hh' Hd' (proj1 Hd)).
Qed.

Lemma swap_keeps_pages_witness :
  let alloc n := seqZ 5 n in
  let d := replicate (Z.to_nat 4096) 3 in
  let s0 := swap_new alloc 1 in
  exists s' dev', swap_write s0 (∅ : memory) d = Some (Some 0, (s', dev')) /\
    swap_read s' dev' 0 d = Some d.
Proof.
  intros alloc d s0.
  destruct (swap_keeps_pages alloc 1 (∅ : memory) ∅ ∅ s0) as [_ Hw].
  - lia.
  - apply NoDup_seqZ.
  - by vm_compute.
  - apply Forall_forall. intros b. unfold alloc. rewrite elem_of_seqZ. cbn.
    unfold BLOCK_SZ, MEMORY_END, MEMORY_SIZE, MEMORY_START, DISK_IMAGE_BASE, MEMORY_PHYS. lia.
  - done.
  - apply rtc_refl.
  - destruct (Hw d) as (r & s' & dev' & E & Hr).
    { split; [unfold vlen, d; by rewrite length_replicate | apply Forall_replicate; by vm_compute]. }
    assert (Er : r = Some 0).
    { unfold swap_write in E. change (alloc_page s0) with (Some 0) in E.
      destruct (sw_usable s0) eqn:Eu; [| by vm_compute in Eu].
      cbn [negb] in E. destruct (get_block_ids s0 0); [| done]. cbn [mbind option_bind] in E.
      destruct (write_page _ _ _); [| done]. cbn [mbind option_bind] in E.
      destruct (set_bit s0 0); [| done]. cbn [mbind option_bind] in E. congruence. }
    subst r. exists s', dev'. split; [exact E |]. apply Hr, lookup_insert_eq.
Defined.
