(* ===== verification/Frames.v ===== *)
(** * Page frames of an area: in memory, compressed or swapped out

    The enumeration [Frame] of [mm/map_area.rs] with its evictions
    ([zip], [swap_out], [force_swap_out]) and their inverses ([unzip],
    [swap_in]). A [Frame] holds a counted handle: an [Arc<FrameTracker>], an
    [Arc<ZramTracker>] or an [Arc<SwapTracker>]. The state all of them live in
    is [World]: the frames of memory with their counts ([Phys]) and the two
    stores of evicted pages with theirs ([Store]). *)

From S2P Require Import Prelude Address Phys FrameAlloc PageStore.

(** ** The error type of [mm/memory_set.rs] *)

Inductive MemoryError :=
| BadAddress | AreaNotFound | AlreadyMapped | NotMapped | NoPermission
| NotInMemory | NotCompressed | NotSwappedOut | AlreadyAllocated
| SharedPage | ZramIsFull | SwapIsFull | BeyondEOF.

#[export] Instance MemoryError_eq_dec : EqDecision MemoryError.
Proof. solve_decision. Defined.

(** ** A device with the counts of its trackers *)

Record Store (S : Type) := mkStore { st_dev : S; st_rc : gmap Z nat }.
Arguments mkStore {S} _ _.
Arguments st_dev {S} _.
Arguments st_rc {S} _.

Section StoreOps.
Context {S : Type} `{!PageStore S}.

(** [DEVICE.lock().write(page)]: the identifier comes in a new tracker. *)
Definition store_write (s : Store S) (page : list Z) : option (option Z * Store S) :=
  '(r, dev) ← ps_write (st_dev s) page;
  Some (r, mkStore dev match r with Some id => <[id := 1%nat]> (st_rc s) | None => st_rc s end).

(** Cloning and dropping a tracker's [Arc]: the last drop discards the page. *)
Definition store_clone (s : Store S) (id : Z) : Store S :=
  mkStore (st_dev s) (alter Datatypes.S id (st_rc s)).
Definition store_drop (s : Store S) (id : Z) : option (Store S) :=
  match st_rc s !! id with
  | Some (Datatypes.S O) => dev ← ps_discard (st_dev s) id; Some (mkStore dev (delete id (st_rc s)))
  | Some (Datatypes.S n) => Some (mkStore (st_dev s) (<[id := n]> (st_rc s)))
  | _ => None
  end.
End StoreOps.

(** ** Frames *)

Inductive Frame :=
| InMemory (ppn : Z)
| Compressed (zram_id : Z)
| SwappedOut (swap_id : Z)
| Unallocated.

#[export] Instance Frame_eq_dec : EqDecision Frame.
Proof. solve_decision. Defined.

Section Ops.
Context {ZS SS : Type} `{!PageStore ZS, !PageStore SS}.

Record World := mkWorld { wphys : Phys; wzram : Store ZS; wswap : Store SS }.

Definition set_phys (w : World) (p : Phys) : World := mkWorld p (wzram w) (wswap w).
Definition set_zram (w : World) (s : Store ZS) : World := mkWorld (wphys w) s (wswap w).
Definition set_swap (w : World) (s : Store SS) : World := mkWorld (wphys w) (wzram w) s.
Definition w_mem (w : World) : memory := pmem (wphys w).
Definition w_with_mem (f : memory -> memory) (w : World) : World := set_phys w (with_mem f (wphys w)).

(** The out-of-memory handler's effect, and whether the build checks
    deallocations. *)
Context (oom : Z -> World -> World) (debug : bool).

(** [frame_alloc] and [frame_alloc_uninit] of [mm/frame_allocator.rs], with
    the handler acting on the whole state. *)
Definition w_frame_alloc (w : World) : option Z * World :=
  match alloc_tracker (wphys w) with
  | (Some ppn, ph) => (Some ppn, set_phys w ph)
  | (None, ph) =>
      let w := oom 1 (set_phys w ph) in
      let '(r, ph) := alloc_tracker (wphys w) in (r, set_phys w ph)
  end.
Definition w_frame_alloc_uninit (w : World) : option Z * World :=
  match alloc_tracker_uninit (wphys w) with
  | (Some ppn, ph) => (Some ppn, set_phys w ph)
  | (None, ph) =>
      let w := oom 1 (set_phys w ph) in
      let '(r, ph) := alloc_tracker_uninit (wphys w) in (r, set_phys w ph)
  end.

(** Cloning and dropping a [Frame] clones or drops the handle it holds. *)
Definition Frame_clone (w : World) (f : Frame) : World :=
  match f with
  | InMemory ppn => set_phys w (arc_clone (wphys w) ppn)
  | Compressed id => set_zram w (store_clone (wzram w) id)
  | SwappedOut id => set_swap w (store_clone (wswap w) id)
  | Unallocated => w
  end.
Definition Frame_drop (w : World) (f : Frame) : option World :=
  match f with
  | InMemory ppn => ph ← arc_drop debug (wphys w) ppn; Some (set_phys w ph)
  | Compressed id => s ← store_drop (wzram w) id; Some (set_zram w s)
  | SwappedOut id => s ← store_drop (wswap w) id; Some (set_swap w s)
  | Unallocated => Some w
  end.
Fixpoint drop_all (w : World) (fs : list Frame) : option World :=
  match fs with
  | [] => Some w
  | f :: fs => w ← Frame_drop w f; drop_all w fs
  end.

(** The methods take [self] and return it with the result. In the error case
    of [insert_in_memory] the handle passed in is dropped. *)
Definition insert_in_memory (self : Frame) (frame_tracker : Z) (w : World)
    : option (result unit MemoryError * Frame * World) :=
  match self with
  | Unallocated => Some (Ok tt, InMemory frame_tracker, w)
  | _ => w ← Frame_drop w (InMemory frame_tracker); Some (Err AlreadyAllocated, self, w)
  end.

Definition take_in_memory (self : Frame) : option Z * Frame :=
  match self with
  | InMemory ppn => (Some ppn, Unallocated)
  | _ => (None, self)
  end.

Definition force_swap_out (self : Frame) (w : World)
    : option (result Z MemoryError * Frame * World) :=
  match self with
  | InMemory ppn =>
      '(r, s) ← store_write (wswap w) (get_bytes_array (w_mem w) ppn);
      match r with
      | Some swap_id =>
          w ← Frame_drop (set_swap w s) self; Some (Ok swap_id, SwappedOut swap_id, w)
      | None => Some (Err SwapIsFull, self, set_swap w s)
      end
  | _ => Some (Err NotInMemory, self, w)
  end.

Definition swap_out (self : Frame) (w : World)
    : option (result Z MemoryError * Frame * World) :=
  match self with
  | InMemory ppn =>
      if decide (strong_count (wphys w) ppn = 1%nat) then
        '(r, s) ← store_write (wswap w) (get_bytes_array (w_mem w) ppn);
        match r with
        | Some swap_id =>
            w ← Frame_drop (set_swap w s) self; Some (Ok swap_id, SwappedOut swap_id, w)
        | None => Some (Err SwapIsFull, self, set_swap w s)
        end
      else Some (Err SharedPage, self, w)
  | _ => Some (Err NotInMemory, self, w)
  end.

Definition zip (self : Frame) (w : World) : option (result Z MemoryError * Frame * World) :=
  match self with
  | InMemory ppn =>
      if decide (strong_count (wphys w) ppn = 1%nat) then
        '(r, s) ← store_write (wzram w) (get_bytes_array (w_mem w) ppn);
        match r with
        | Some zram_id =>
            w ← Frame_drop (set_zram w s) self; Some (Ok zram_id, Compressed zram_id, w)
        | None => Some (Err ZramIsFull, self, set_zram w s)
        end
      else Some (Err SharedPage, self, w)
  | _ => Some (Err NotInMemory, self, w)
  end.

Definition swap_in (self : Frame) (w : World) : option (result Z MemoryError * Frame * World) :=
  match self with
  | SwappedOut swap_id =>
      let '(r, w) := w_frame_alloc w in
      ppn ← r;
      page ← ps_read (st_dev (wswap w)) swap_id (get_bytes_array (w_mem w) ppn);
      w ← Frame_drop (w_with_mem (fun m => put_bytes_array m ppn 0 page) w) self;
      Some (Ok ppn, InMemory ppn, w)
  | _ => Some (Err NotSwappedOut, self, w)
  end.

Definition unzip (self : Frame) (w : World) : option (result Z MemoryError * Frame * World) :=
  match self with
  | Compressed zram_id =>
      let '(r, w) := w_frame_alloc w in
      ppn ← r;
      page ← ps_read (st_dev (wzram w)) zram_id (get_bytes_array (w_mem w) ppn);
      w ← Frame_drop (w_with_mem (fun m => put_bytes_array m ppn 0 page) w) self;
      Some (Ok ppn, InMemory ppn, w)
  | _ => Some (Err NotCompressed, self, w)
  end.
End Ops.
Arguments World : clear implicits.

(** ** What a state holds *)

Section StoreLaws.
Context {S : Type} `{!PageStore S, !PageStoreSpec S}.

(** The store holds the pages of [m], each with at least one tracker. *)
Record store_ok (s : Store S) (m : gmap Z (list Z)) : Prop := {
  so_holds : ps_holds (st_dev s) m;
  so_dom : dom (st_rc s) = dom m;
  so_pos : map_Forall (fun _ n => n <> O) (st_rc s);
  so_pages : map_Forall (fun _ d => page_ok d) m
}.

Lemma store_ok_live s m id n : store_ok s m -> st_rc s !! id = Some n -> is_Some (m !! id).
Proof. intros H E. apply elem_of_dom. rewrite <- (so_dom _ _ H). apply elem_of_dom. eauto. Qed.

Lemma store_write_ok s m d :
  store_ok s m -> page_ok d ->
  exists r s', store_write s d = Some (r, s') /\
    match r with
    | Some id => m !! id = None /\ st_rc s !! id = None /\
                 st_rc s' = <[id := 1%nat]> (st_rc s) /\ store_ok s' (<[id := d]> m)
    | None => s' = s
    end.
Proof.
  intros [Hh Hd Hp Hq] Hdk. destruct (ps_write_spec _ _ _ Hh Hdk) as (r & dev & E & _ & Hr).
  unfold store_write. rewrite E. cbn. eexists _, _. split; [done |]. destruct r as [id |].
  - destruct Hr as (_ & Hn & Hh'). split_and!; [done | | done |].
    + apply not_elem_of_dom. rewrite Hd. by apply not_elem_of_dom.
    + constructor; cbn; [done | by rewrite !dom_insert_L, Hd | |]; by apply map_Forall_insert_2.
  - destruct Hr as [-> _]. by destruct s.
Qed.

Lemma store_drop_ok s m id n :
  store_ok s m -> st_rc s !! id = Some n ->
  exists s' m', store_drop s id = Some s' /\ store_ok s' m' /\
    (forall j, st_rc s' !! j = if decide (j = id) then (if decide (n = 1%nat) then None else Some (n - 1)%nat)
                               else st_rc s !! j) /\
    (forall j, j <> id \/ n <> 1%nat -> m' !! j = m !! j).
Proof.
  intros Hs Hn. pose proof (store_ok_live _ _ _ _ Hs Hn) as Hlive.
  destruct Hs as [Hh Hd Hp Hq]. pose proof (Hp _ _ Hn) as Hpos. cbn in Hpos.
  unfold store_drop. rewrite Hn. destruct n as [| [| n]]; [done | |].
  - destruct (ps_discard_spec _ _ _ Hh Hlive) as (dev & E & _ & Hh'). rewrite E. cbn.
    eexists _, (delete id m). split; [done |]. split_and!.
    + constructor; cbn; [done | by rewrite !dom_delete_L, Hd | |]; by apply map_Forall_delete.
    + intros j. cbn. rewrite lookup_delete. by repeat case_decide.
    + intros j [Hj | Hj]; [| done]. by rewrite lookup_delete_ne.
  - eexists _, m. split; [done |]. split_and!.
    + constructor; cbn; [done | | by apply map_Forall_insert_2 | done].
      rewrite dom_insert_L, Hd. apply elem_of_dom in Hlive. set_solver.
    + intros j. cbn. rewrite lookup_insert. by repeat case_decide; simplify_eq.
    + done.
Qed.

Lemma store_clone_ok s m id n :
  store_ok s m -> st_rc s !! id = Some n ->
  store_ok (store_clone s id) m /\
  forall j, st_rc (store_clone s id) !! j = if decide (j = id) then Some (Datatypes.S n) else st_rc s !! j.
Proof.
  intros [Hh Hd Hp Hq] Hn. unfold store_clone.
  assert (Hr : forall j, alter Datatypes.S id (st_rc s) !! j =
                         if decide (j = id) then Some (Datatypes.S n) else st_rc s !! j).
  { intros j. rewrite lookup_alter. repeat case_decide; simplify_eq; by rewrite ?Hn. }
  split; [| done]. constructor; cbn; [done | by rewrite dom_alter_L | | done].
  intros j k Hj. rewrite Hr in Hj. case_decide; simplify_eq; [lia |]. by apply (Hp j).
Qed.
End StoreLaws.

(** Occurrences of a handle in a list of frames. *)
Fixpoint fcount (f : Frame) (l : list Frame) : nat :=
  match l with
  | [] => O
  | g :: l => ((if decide (f = g) then 1 else 0) + fcount f l)%nat
  end.

Lemma fcount_app f l k : fcount f (l ++ k) = (fcount f l + fcount f k)%nat.
Proof. induction l as [| g l IH]; cbn; [done |]. rewrite IH. lia. Qed.

Lemma fcount_pos f l : f ∈ l <-> (1 <= fcount f l)%nat.
Proof.
  induction l as [| g l IH]; cbn; [split; [by intros ?%not_elem_of_nil | lia] |].
  rewrite elem_of_cons, IH. case_decide; naive_solver lia.
Qed.

Lemma fcount_insert f l i g h :
  l !! i = Some g ->
  (fcount f (<[i := h]> l) + (if decide (f = g) then 1 else 0) =
   fcount f l + (if decide (f = h) then 1 else 0))%nat.
Proof.
  revert i. induction l as [| k l IH]; intros [| i]; intros Hi; simplify_eq/=; [lia |].
  specialize (IH i Hi). lia.
Qed.

#[export] Instance fcount_perm f : Proper ((≡ₚ) ==> (=)) (fcount f).
Proof. induction 1; cbn; lia. Qed.

Section World.
Context {ZS SS : Type} `{!PageStore ZS, !PageStoreSpec ZS, !PageStore SS, !PageStoreSpec SS}.
Notation World := (World ZS SS).

(** The pages the two stores hold. *)
Record Held := mkHeld { h_zram : gmap Z (list Z); h_swap : gmap Z (list Z) }.

(** The handles to what a frame refers to. *)
Definition refs_of (w : World) (f : Frame) : nat :=
  match f with
  | InMemory p => default O (prc (wphys w) !! p)
  | Compressed i => default O (st_rc (wzram w) !! i)
  | SwappedOut i => default O (st_rc (wswap w) !! i)
  | Unallocated => O
  end.

(** The contents of a page, wherever it is; one not yet allocated is clear. *)
Definition page_of (h : Held) (w : World) (f : Frame) : list Z :=
  match f with
  | InMemory p => get_bytes_array (w_mem w) p
  | Compressed i => default [] (h_zram h !! i)
  | SwappedOut i => default [] (h_swap h !! i)
  | Unallocated => zero_page
  end.

(** [fs] lists the frames that exist: the counts cover them. *)
Record world_ok (base : Z) (raw : gset Z) (h : Held) (w : World) (fs : list Frame) : Prop := {
  wo_phys : phys_inv base raw (wphys w);
  wo_zram : store_ok (wzram w) (h_zram h);
  wo_swap : store_ok (wswap w) (h_swap h);
  wo_refs : forall f, f <> Unallocated -> (fcount f fs <= refs_of w f)%nat
}.

(** The pages of [fs] have the same contents in two states. *)
Definition keeps (h : Held) (w : World) (h' : Held) (w' : World) (fs : list Frame) : Prop :=
  forall f, f ∈ fs -> page_of h' w' f = page_of h w f.

(** Frames of memory outside [X] are as they were. *)
Definition phys_same (X : gset Z) (ph ph' : Phys) : Prop :=
  forall p n, prc ph !! p = Some n -> p ∉ X ->
    prc ph' !! p = Some n /\ page_eq (pmem ph') (pmem ph) p.

Lemma keeps_refl h w fs : keeps h w h w fs.
Proof. done. Qed.

Lemma keeps_trans h w h1 w1 h2 w2 fs :
  keeps h w h1 w1 fs -> keeps h1 w1 h2 w2 fs -> keeps h w h2 w2 fs.
Proof. intros H1 H2 f Hf. rewrite H2 by done. by apply H1. Qed.

Lemma keeps_sub h w h' w' fs gs : keeps h w h' w' fs -> gs ⊆ fs -> keeps h w h' w' gs.
Proof. intros H Hs f Hf. by apply H, Hs. Qed.

Lemma phys_same_refl X ph : phys_same X ph ph.
Proof. intros p n Hp _. split; [done | apply page_eq_refl]. Qed.

Lemma phys_same_trans X ph ph1 ph2 :
  phys_same X ph ph1 -> phys_same X ph1 ph2 -> phys_same X ph ph2.
Proof.
  intros H1 H2 p n Hp Hx. destruct (H1 p n Hp Hx) as [Hp1 He1].
  destruct (H2 p n Hp1 Hx) as [Hp2 He2]. split; [done |]. by eapply page_eq_trans.
Qed.

Lemma phys_same_mono X Y ph ph' : X ⊆ Y -> phys_same X ph ph' -> phys_same Y ph ph'.
Proof. intros Hs H p n Hp Hy. apply H; [done |]. set_solver. Qed.

Lemma world_ok_perm base raw h w fs gs : fs ≡ₚ gs -> world_ok base raw h w fs -> world_ok base raw h w gs.
Proof.
  intros Hp [? ? ? Hr]. constructor; [done.. |]. intros f Hf. rewrite <- Hp. by apply Hr.
Qed.

Lemma world_ok_sub base raw h w fs gs :
  (forall f, f <> Unallocated -> fcount f gs <= fcount f fs)%nat ->
  world_ok base raw h w fs -> world_ok base raw h w gs.
Proof.
  intros Hs [? ? ? Hr]. constructor; [done.. |]. intros f Hf. specialize (Hs f Hf).
  specialize (Hr f Hf). lia.
Qed.

(** A listed frame is live. *)
Lemma world_ok_refs base raw h w fs f :
  world_ok base raw h w fs -> f ∈ fs -> f <> Unallocated -> (1 <= fcount f fs <= refs_of w f)%nat.
Proof. intros H Hf Hu. split; [by apply fcount_pos |]. by apply (wo_refs _ _ _ _ _ H). Qed.

Lemma world_ok_mem base raw h w fs p :
  world_ok base raw h w fs -> InMemory p ∈ fs ->
  exists n, prc (wphys w) !! p = Some n /\ (fcount (InMemory p) fs <= n)%nat /\ ppn_ok p.
Proof.
  intros H Hf. pose proof (world_ok_refs _ _ _ _ _ _ H Hf ltac:(done)) as Hr. cbn in Hr.
  destruct (prc (wphys w) !! p) as [n |] eqn:E; cbn in Hr; [| lia].
  exists n. split_and!; [done | lia |]. eapply phys_live_ok; [apply H | done].
Qed.

Lemma page_of_ok base raw h w fs f : world_ok base raw h w fs -> f ∈ fs -> page_ok (page_of h w f).
Proof.
  intros H Hf. destruct f as [p | i | i |]; cbn.
  - split; [unfold vlen; by rewrite length_get_bytes_array |]. unfold bytes.
    Transparent get_bytes_array. apply read_bytes_bytes. Opaque get_bytes_array.
  - pose proof (world_ok_refs _ _ _ _ _ _ H Hf ltac:(done)) as Hr. cbn in Hr.
    destruct (st_rc (wzram w) !! i) as [n |] eqn:E; cbn in Hr; [| lia].
    destruct (store_ok_live _ _ _ _ (wo_zram _ _ _ _ _ H) E) as [d Hd]. rewrite Hd.
    by apply (so_pages _ _ (wo_zram _ _ _ _ _ H) i).
  - pose proof (world_ok_refs _ _ _ _ _ _ H Hf ltac:(done)) as Hr. cbn in Hr.
    destruct (st_rc (wswap w) !! i) as [n |] eqn:E; cbn in Hr; [| lia].
    destruct (store_ok_live _ _ _ _ (wo_swap _ _ _ _ _ H) E) as [d Hd]. rewrite Hd.
    by apply (so_pages _ _ (wo_swap _ _ _ _ _ H) i).
  - split; [done |]. Transparent zero_page. apply Forall_replicate. done. Opaque zero_page.
Qed.

(** ** The steps the operations are made of *)

(** Overwriting the page of a frame nobody else lists. *)
Lemma w_put_ok base raw h w fs p d :
  world_ok base raw h w (InMemory p :: fs) -> InMemory p ∉ fs -> page_ok d ->
  let w' := w_with_mem (fun m => put_bytes_array m p 0 d) w in
  world_ok base raw h w' (InMemory p :: fs) /\ page_of h w' (InMemory p) = d /\
  keeps h w h w' fs /\ phys_same {[p]} (wphys w) (wphys w') /\
  prc (wphys w') = prc (wphys w) /\ pfa (wphys w') = pfa (wphys w).
Proof.
  intros H Hn [Hl Hb]. cbn zeta. unfold PAGE_SIZE in Hl.
  destruct (world_ok_mem _ _ _ _ _ p H ltac:(apply elem_of_cons; by left)) as (n & _ & _ & Hp).
  split_and!; try done.
  - destruct H. constructor; cbn; [by apply phys_inv_with_mem | done..].
  - cbn. by apply get_put_bytes_array.
  - intros f Hf. destruct f as [q | | |]; try done. cbn.
    destruct (world_ok_mem _ _ _ _ _ q H ltac:(apply elem_of_cons; by right)) as (k & _ & _ & Hq).
    apply get_bytes_page_eq; [done |]. apply put_bytes_page_eq; [done | lia | lia | congruence].
  - intros q k Hq Hx. split; [done |]. cbn. apply put_bytes_page_eq; [done | lia | lia | set_solver].
Qed.

Lemma phys_same_drop X (w w' : World) :
  w_mem w' = w_mem w -> (forall p, p ∉ X -> prc (wphys w') !! p = prc (wphys w) !! p) ->
  phys_same X (wphys w) (wphys w').
Proof.
  unfold w_mem. intros Hm Hr p n Hp Hx. rewrite Hr, Hm by done. split; [done | apply page_eq_refl].
Qed.

(** A change of memory and counts within the frames [X], none of which is
    listed (those of a page table). *)
Lemma w_table_ok base raw h w fs X ph :
  world_ok base raw h w fs -> phys_inv base raw ph ->
  (forall p, p ∉ X -> page_eq (pmem ph) (w_mem w) p /\ prc ph !! p = prc (wphys w) !! p) ->
  (forall p, InMemory p ∈ fs -> p ∉ X) ->
  world_ok base raw h (set_phys w ph) fs /\ keeps h w h (set_phys w ph) fs /\
  phys_same X (wphys w) ph.
Proof.
  intros H Hi Hs Hx. split_and!.
  - destruct H as [? ? ? Hr]. constructor; [done.. |]. intros f Hf. specialize (Hr f Hf).
    destruct f as [p | | |]; try done. destruct (decide (InMemory p ∈ fs)) as [Hin | Hn].
    + cbn. destruct (Hs p (Hx p Hin)) as [_ E]. rewrite E. exact Hr.
    + rewrite fcount_pos in Hn. lia.
  - intros f Hf. destruct f as [p | | |]; try done. cbn.
    destruct (world_ok_mem _ _ _ _ _ _ H Hf) as (n & _ & _ & Hp).
    apply get_bytes_page_eq; [done |]. apply (Hs p (Hx p Hf)).
  - intros p n Hp Hn. destruct (Hs p Hn) as [He E]. rewrite E. by split.
Qed.

(** A new page in a store, with its tracker. *)
Lemma w_zram_write_ok base raw h w fs d :
  world_ok base raw h w fs -> page_ok d ->
  exists r s, store_write (wzram w) d = Some (r, s) /\
    match r with
    | Some id => Compressed id ∉ fs /\ h_zram h !! id = None /\
        world_ok base raw (mkHeld (<[id := d]> (h_zram h)) (h_swap h)) (set_zram w s) (Compressed id :: fs)
    | None => set_zram w s = w
    end.
Proof.
  intros H Hd. destruct (store_write_ok _ _ _ (wo_zram _ _ _ _ _ H) Hd) as (r & s & E & Hr).
  exists r, s. split; [done |]. destruct r as [id |]; [| subst s; by destruct w].
  destruct Hr as (Hn & Hrn & Hrc & Hok).
  assert (Hnin : Compressed id ∉ fs).
  { intros Hin. pose proof (world_ok_refs _ _ _ _ _ _ H Hin ltac:(done)) as Hx. cbn in Hx.
    rewrite Hrn in Hx. cbn in Hx. lia. }
  split_and!; [done | done |]. destruct H as [? ? ? Hrefs]. constructor; cbn; [done.. |].
  intros f Hf. specialize (Hrefs f Hf). destruct (decide (f = Compressed id)) as [-> |].
  - rewrite fcount_pos in Hnin. cbn. rewrite Hrc, lookup_insert_eq. cbn. lia.
  - destruct f; cbn in *; try lia. rewrite Hrc, lookup_insert_ne by congruence. lia.
Qed.

Lemma w_swap_write_ok base raw h w fs d :
  world_ok base raw h w fs -> page_ok d ->
  exists r s, store_write (wswap w) d = Some (r, s) /\
    match r with
    | Some id => SwappedOut id ∉ fs /\ h_swap h !! id = None /\
        world_ok base raw (mkHeld (h_zram h) (<[id := d]> (h_swap h))) (set_swap w s) (SwappedOut id :: fs)
    | None => set_swap w s = w
    end.
Proof.
  intros H Hd. destruct (store_write_ok _ _ _ (wo_swap _ _ _ _ _ H) Hd) as (r & s & E & Hr).
  exists r, s. split; [done |]. destruct r as [id |]; [| subst s; by destruct w].
  destruct Hr as (Hn & Hrn & Hrc & Hok).
  assert (Hnin : SwappedOut id ∉ fs).
  { intros Hin. pose proof (world_ok_refs _ _ _ _ _ _ H Hin ltac:(done)) as Hx. cbn in Hx.
    rewrite Hrn in Hx. cbn in Hx. lia. }
  split_and!; [done | done |]. destruct H as [? ? ? Hrefs]. constructor; cbn; [done.. |].
  intros f Hf. specialize (Hrefs f Hf). destruct (decide (f = SwappedOut id)) as [-> |].
  - rewrite fcount_pos in Hnin. cbn. rewrite Hrc, lookup_insert_eq. cbn. lia.
  - destruct f; cbn in *; try lia. rewrite Hrc, lookup_insert_ne by congruence. lia.
Qed.

Context (debug : bool).

(** Dropping a listed frame. *)
Lemma Frame_drop_ok base raw h w f fs :
  world_ok base raw h w (f :: fs) ->
  exists w' h', Frame_drop debug w f = Some w' /\ world_ok base raw h' w' fs /\
    keeps h w h' w' fs /\ w_mem w' = w_mem w /\
    (forall p, f <> InMemory p -> prc (wphys w') !! p = prc (wphys w) !! p) /\
    fa_unallocated_frames (pfa (wphys w')) = fa_unallocated_frames (pfa (wphys w)) +
      (match f with InMemory _ => if decide (refs_of w f = 1%nat) then 1 else 0 | _ => 0 end) /\
    (forall i, f <> Compressed i -> h_zram h' !! i = h_zram h !! i) /\
    (forall i, f <> SwappedOut i -> h_swap h' !! i = h_swap h !! i).
Proof.
  intros H. pose proof (world_ok_refs _ _ _ _ _ f H ltac:(apply elem_of_cons; by left)) as Hr.
  assert (Hc : forall g, g <> Unallocated ->
    (fcount g fs + (if decide (g = f) then 1 else 0) <= refs_of w g)%nat).
  { intros g Hg. pose proof (wo_refs _ _ _ _ _ H g Hg) as Hx. cbn in Hx. lia. }
  destruct H as [Hp Hz Hs _]. destruct f as [p | i | i |].
  - specialize (Hr ltac:(done)). cbn in Hr. destruct (prc (wphys w) !! p) as [n |] eqn:E; cbn in Hr; [| lia].
    destruct (arc_drop_ok debug _ _ _ _ _ Hp E) as (ph & Ed & Hm & Hrc & Hp').
    pose proof (arc_drop_frees debug _ _ _ _ _ _ Hp E Ed) as Hun.
    assert (Hl : forall q, q <> p -> prc ph !! q = prc (wphys w) !! q).
    { intros q Hq. rewrite Hrc. case_decide; [by rewrite lookup_delete_ne | by rewrite lookup_insert_ne]. }
    exists (set_phys w ph), h. cbn. rewrite Ed, E. cbn. split_and!; try done.
    + constructor; cbn; [done.. |]. intros g Hg. specialize (Hc g Hg).
      destruct (decide (g = InMemory p)) as [-> |]; [| destruct g as [q | | |]; cbn in *; try lia;
        rewrite Hl by congruence; lia].
      cbn in *. rewrite E in Hc. cbn in Hc. rewrite Hrc.
      case_decide; [rewrite lookup_delete_eq | rewrite lookup_insert_eq]; cbn; lia.
    + intros g _. destruct g; cbn; [unfold w_mem; cbn; by rewrite Hm | done..].
    + intros q Hq. apply Hl. congruence.
  - specialize (Hr ltac:(done)). cbn in Hr. destruct (st_rc (wzram w) !! i) as [n |] eqn:E; cbn in Hr; [| lia].
    destruct (store_drop_ok _ _ _ _ Hz E) as (s & m & Ed & Hz' & Hrc & Hm).
    exists (set_zram w s), (mkHeld m (h_swap h)). cbn. rewrite Ed. cbn. split_and!; try done.
    + constructor; cbn; [done.. |]. intros g Hg. specialize (Hc g Hg).
      destruct g as [| j | |]; cbn in *; try lia. rewrite Hrc.
      destruct (decide (j = i)) as [-> |].
      * rewrite decide_True, E in Hc by done. cbn in Hc. case_decide; cbn; lia.
      * rewrite decide_False in Hc by congruence. lia.
    + intros g Hg. destruct g as [| j | |]; try done. cbn. rewrite Hm; [done |].
      destruct (decide (j = i)) as [-> |]; [right | by left].
      apply fcount_pos in Hg. specialize (Hc (Compressed i) ltac:(done)).
      rewrite decide_True in Hc by done. cbn in Hc. rewrite E in Hc. cbn in Hc. lia.
    + lia.
    + intros j Hj. apply Hm. left. congruence.
  - specialize (Hr ltac:(done)). cbn in Hr. destruct (st_rc (wswap w) !! i) as [n |] eqn:E; cbn in Hr; [| lia].
    destruct (store_drop_ok _ _ _ _ Hs E) as (s & m & Ed & Hs' & Hrc & Hm).
    exists (set_swap w s), (mkHeld (h_zram h) m). cbn. rewrite Ed. cbn. split_and!; try done.
    + constructor; cbn; [done.. |]. intros g Hg. specialize (Hc g Hg).
      destruct g as [| | j |]; cbn in *; try lia. rewrite Hrc.
      destruct (decide (j = i)) as [-> |].
      * rewrite decide_True, E in Hc by done. cbn in Hc. case_decide; cbn; lia.
      * rewrite decide_False in Hc by congruence. lia.
    + intros g Hg. destruct g as [| | j |]; try done. cbn. rewrite Hm; [done |].
      destruct (decide (j = i)) as [-> |]; [right | by left].
      apply fcount_pos in Hg. specialize (Hc (SwappedOut i) ltac:(done)).
      rewrite decide_True in Hc by done. cbn in Hc. rewrite E in Hc. cbn in Hc. lia.
    + lia.
    + intros j Hj. apply Hm. left. congruence.
  - exists w, h. cbn. split_and!; try done; [| lia]. constructor; [done.. |].
    intros g Hg. specialize (Hc g Hg). lia.
Qed.

(** ** Eviction *)

(** The state after [f'] has taken the place of [f]: the contents are the same,
    the other pages [fs] keep theirs, no byte of memory has changed, and a
    frame is free that was not when [f] held the only handle. *)
Record evicted (base : Z) (raw : gset Z) (h : Held) (w : World) (p : Z) (fs : list Frame)
    (h' : Held) (w' : World) (f' : Frame) : Prop := {
  ev_ok : world_ok base raw h' w' (f' :: fs);
  ev_page : page_of h' w' f' = page_of h w (InMemory p);
  ev_keeps : keeps h w h' w' fs;
  ev_mem : w_mem w' = w_mem w;
  ev_same : phys_same {[p]} (wphys w) (wphys w');
  ev_free : fa_unallocated_frames (pfa (wphys w')) =
    fa_unallocated_frames (pfa (wphys w)) + (if decide (refs_of w (InMemory p) = 1%nat) then 1 else 0)
}.

Lemma zram_evict_ok base raw h w p fs :
  world_ok base raw h w (InMemory p :: fs) ->
  exists r s, store_write (wzram w) (get_bytes_array (w_mem w) p) = Some (r, s) /\
    match r with
    | Some id => exists w' h', Frame_drop debug (set_zram w s) (InMemory p) = Some w' /\
        evicted base raw h w p fs h' w' (Compressed id)
    | None => set_zram w s = w
    end.
Proof.
  intros H. pose proof (page_of_ok _ _ _ _ _ (InMemory p) H ltac:(apply elem_of_cons; by left)) as Hd.
  destruct (w_zram_write_ok _ _ _ _ _ _ H Hd) as (r & s & E & Hr). exists r, s. split; [done |].
  destruct r as [id |]; [| done]. destruct Hr as (Hn & Hh & Hok).
  destruct (Frame_drop_ok _ _ _ _ (InMemory p) (Compressed id :: fs)
              (world_ok_perm _ _ _ _ _ _ (Permutation_swap _ _ _) Hok))
    as (w' & h' & Ed & Hok' & Hk & Hm & Hrc & Hu & Hz & _).
  exists w', h'. split; [done |]. constructor; [done | | | done | | done].
  - rewrite (Hk (Compressed id)) by (apply elem_of_cons; by left). cbn. by rewrite lookup_insert_eq.
  - intros f Hf. rewrite (Hk f) by (apply elem_of_cons; by right).
    destruct f as [| j | |]; try done. cbn. rewrite lookup_insert_ne; [done |].
    intros ->. apply Hn. apply elem_of_cons. by right.
  - apply phys_same_drop; [done |]. intros q Hq. rewrite Hrc; [done |]. set_solver.
Qed.

Lemma swap_evict_ok base raw h w p fs :
  world_ok base raw h w (InMemory p :: fs) ->
  exists r s, store_write (wswap w) (get_bytes_array (w_mem w) p) = Some (r, s) /\
    match r with
    | Some id => exists w' h', Frame_drop debug (set_swap w s) (InMemory p) = Some w' /\
        evicted base raw h w p fs h' w' (SwappedOut id)
    | None => set_swap w s = w
    end.
Proof.
  intros H. pose proof (page_of_ok _ _ _ _ _ (InMemory p) H ltac:(apply elem_of_cons; by left)) as Hd.
  destruct (w_swap_write_ok _ _ _ _ _ _ H Hd) as (r & s & E & Hr). exists r, s. split; [done |].
  destruct r as [id |]; [| done]. destruct Hr as (Hn & Hh & Hok).
  destruct (Frame_drop_ok _ _ _ _ (InMemory p) (SwappedOut id :: fs)
              (world_ok_perm _ _ _ _ _ _ (Permutation_swap _ _ _) Hok))
    as (w' & h' & Ed & Hok' & Hk & Hm & Hrc & Hu & _ & Hz).
  exists w', h'. split; [done |]. constructor; [done | | | done | | done].
  - rewrite (Hk (SwappedOut id)) by (apply elem_of_cons; by left). cbn. by rewrite lookup_insert_eq.
  - intros f Hf. rewrite (Hk f) by (apply elem_of_cons; by right).
    destruct f as [| | j |]; try done. cbn. rewrite lookup_insert_ne; [done |].
    intros ->. apply Hn. apply elem_of_cons. by right.
  - apply phys_same_drop; [done |]. intros q Hq. rewrite Hrc; [done |]. set_solver.
Qed.

(** The three evictions: they never panic; a failed one changes nothing. *)
Lemma zip_ok base raw h w p fs :
  world_ok base raw h w (InMemory p :: fs) ->
  (exists id w' h', zip debug (InMemory p) w = Some (Ok id, Compressed id, w') /\
     refs_of w (InMemory p) = 1%nat /\ evicted base raw h w p fs h' w' (Compressed id)) \/
  (zip debug (InMemory p) w = Some (Err ZramIsFull, InMemory p, w) /\ refs_of w (InMemory p) = 1%nat) \/
  (zip debug (InMemory p) w = Some (Err SharedPage, InMemory p, w) /\ refs_of w (InMemory p) <> 1%nat).
Proof.
  intros H. unfold zip, strong_count. cbn [refs_of].
  destruct (decide (default O (prc (wphys w) !! p) = 1%nat)) as [Hc |]; [| by right; right].
  destruct (zram_evict_ok _ _ _ _ _ _ H) as (r & s & -> & Hr). cbn [mbind option_bind].
  destruct r as [id |]; [| rewrite Hr; by right; left].
  destruct Hr as (w' & h' & -> & Hev). left. exists id, w', h'. done.
Qed.

Lemma swap_out_ok base raw h w p fs :
  world_ok base raw h w (InMemory p :: fs) ->
  (exists id w' h', swap_out debug (InMemory p) w = Some (Ok id, SwappedOut id, w') /\
     refs_of w (InMemory p) = 1%nat /\ evicted base raw h w p fs h' w' (SwappedOut id)) \/
  (swap_out debug (InMemory p) w = Some (Err SwapIsFull, InMemory p, w) /\ refs_of w (InMemory p) = 1%nat) \/
  (swap_out debug (InMemory p) w = Some (Err SharedPage, InMemory p, w) /\ refs_of w (InMemory p) <> 1%nat).
Proof.
  intros H. unfold swap_out, strong_count. cbn [refs_of].
  destruct (decide (default O (prc (wphys w) !! p) = 1%nat)) as [Hc |]; [| by right; right].
  destruct (swap_evict_ok _ _ _ _ _ _ H) as (r & s & -> & Hr). cbn [mbind option_bind].
  destruct r as [id |]; [| rewrite Hr; by right; left].
  destruct Hr as (w' & h' & -> & Hev). left. exists id, w', h'. done.
Qed.

Lemma force_swap_out_ok base raw h w p fs :
  world_ok base raw h w (InMemory p :: fs) ->
  (exists id w' h', force_swap_out debug (InMemory p) w = Some (Ok id, SwappedOut id, w') /\
     evicted base raw h w p fs h' w' (SwappedOut id)) \/
  force_swap_out debug (InMemory p) w = Some (Err SwapIsFull, InMemory p, w).
Proof.
  intros H. unfold force_swap_out.
  destruct (swap_evict_ok _ _ _ _ _ _ H) as (r & s & -> & Hr). cbn [mbind option_bind].
  destruct r as [id |]; [| rewrite Hr; by right].
  destruct Hr as (w' & h' & -> & Hev). left. exists id, w', h'. done.
Qed.

(** ** Allocation and reloading *)

Context (oom : Z -> World -> World).


(** A new tracker and its page. *)
Lemma w_alloc_uninit_ok base raw h w fs :
  world_ok base raw h w fs -> 0 < fa_unallocated_frames (pfa (wphys w)) ->
  exists p w', w_frame_alloc_uninit oom w = (Some p, w') /\
    world_ok base raw h w' (InMemory p :: fs) /\ InMemory p ∉ fs /\ ppn_ok p /\
    keeps h w h w' fs /\ phys_same ∅ (wphys w) (wphys w') /\ is_free raw (wphys w) p /\
    prc (wphys w') = <[p := 1%nat]> (prc (wphys w)) /\
    fa_unallocated_frames (pfa (wphys w')) = fa_unallocated_frames (pfa (wphys w)) - 1.
Proof.
  intros H Hu. destruct (alloc_tracker_uninit_total _ _ _ (wo_phys _ _ _ _ _ H) Hu) as (p & ph & E).
  pose proof (alloc_tracker_uninit_Some _ _ _ _ _ (wo_phys _ _ _ _ _ H) E) as (Hf & Hk & Hm & Hr & Hi).
  pose proof (alloc_tracker_uninit_uses _ _ _ _ _ (wo_phys _ _ _ _ _ H) E) as Hun.
  assert (Hnp : prc (wphys w) !! p = None).
  { apply not_elem_of_dom. unfold is_free in Hf. set_solver. }
  assert (Hnin : InMemory p ∉ fs).
  { intros Hin. destruct (world_ok_mem _ _ _ _ _ _ H Hin) as (n & Hn & _). congruence. }
  exists p, (set_phys w ph). unfold w_frame_alloc_uninit. rewrite E.
  split_and!; try done.
  - destruct H as [? ? ? Hrefs]. constructor; [done.. |]. intros f Hfu. cbn [fcount].
    specialize (Hrefs f Hfu). destruct (decide (f = InMemory p)) as [-> |].
    + rewrite fcount_pos in Hnin. cbn. rewrite Hr, lookup_insert_eq. cbn. lia.
    + destruct f as [q | | |]; cbn in *; try lia. rewrite Hr, lookup_insert_ne by congruence. lia.
  - intros f _. destruct f; cbn; [unfold w_mem; cbn; by rewrite Hm | done..].
  - intros q n Hq _. cbn. rewrite Hr, Hm, lookup_insert_ne by congruence.
    split; [done | apply page_eq_refl].
Qed.

Lemma w_alloc_ok base raw h w fs :
  world_ok base raw h w fs -> 0 < fa_unallocated_frames (pfa (wphys w)) ->
  exists p w', w_frame_alloc oom w = (Some p, w') /\
    world_ok base raw h w' (InMemory p :: fs) /\ InMemory p ∉ fs /\ ppn_ok p /\
    page_of h w' (InMemory p) = zero_page /\
    keeps h w h w' fs /\ phys_same ∅ (wphys w) (wphys w') /\ is_free raw (wphys w) p /\
    prc (wphys w') = <[p := 1%nat]> (prc (wphys w)) /\
    fa_unallocated_frames (pfa (wphys w')) = fa_unallocated_frames (pfa (wphys w)) - 1.
Proof.
  intros H Hu. destruct (w_alloc_uninit_ok _ _ _ _ _ H Hu)
    as (p & w1 & E & Hok & Hn & Hk & Hkeep & Hsame & Hfree & Hr & Hun).
  exists p, (w_with_mem (fun m => FrameTracker_new m p) w1).
  revert E. unfold w_frame_alloc, w_frame_alloc_uninit. rewrite !alloc_tracker_as_uninit.
  destruct (alloc_tracker_uninit_total _ _ _ (wo_phys _ _ _ _ _ H) Hu) as (p' & ph & E).
  rewrite E. intros [= -> <-]. split; [done |].
  split_and!; try done.
  - destruct Hok. constructor; cbn; [by apply phys_inv_with_mem | done..].
  - cbn. by apply FrameTracker_new_zero.
  - intros f Hf. rewrite <- (Hkeep f Hf). destruct f as [q | | |]; try done. cbn.
    destruct (world_ok_mem _ _ _ _ _ q H Hf) as (n & _ & _ & Hq).
    apply get_bytes_page_eq; [done |]. apply FrameTracker_new_page_eq; [done | congruence].
  - intros q n Hq Hx. destruct (Hsame q n Hq Hx) as [Hq' He]. split; [done |].
    eapply page_eq_trans; [| exact He]. cbn. apply FrameTracker_new_page_eq; [done |].
    intros ->. unfold is_free in Hfree. apply Hfree, elem_of_union_l, elem_of_dom. eauto.
Qed.

(** The state after a page has come back in a new frame. *)
Record reloaded (base : Z) (raw : gset Z) (h : Held) (w : World) (f : Frame) (fs : list Frame)
    (h' : Held) (w' : World) (p : Z) : Prop := {
  re_ok : world_ok base raw h' w' (InMemory p :: fs);
  re_new : InMemory p ∉ fs;
  re_page : page_of h' w' (InMemory p) = page_of h w f;
  re_keeps : keeps h w h' w' fs;
  re_same : phys_same ∅ (wphys w) (wphys w');
  re_isfree : is_free raw (wphys w) p;
  re_count : prc (wphys w') !! p = Some 1%nat;
  re_free : fa_unallocated_frames (pfa (wphys w')) = fa_unallocated_frames (pfa (wphys w)) - 1
}.

(** What [swap_in] and [unzip] do once the page has been read: fill the new
    frame and drop the tracker. *)
Lemma reload_ok base raw h w f fs d p w1 :
  world_ok base raw h w (f :: fs) -> f = Compressed d \/ f = SwappedOut d ->
  0 < fa_unallocated_frames (pfa (wphys w)) -> w_frame_alloc oom w = (Some p, w1) ->
  exists w' h',
    Frame_drop debug (w_with_mem (fun m => put_bytes_array m p 0 (page_of h w f)) w1) f = Some w' /\
    reloaded base raw h w f fs h' w' p.
Proof.
  intros H Hf Hu E. destruct (w_alloc_ok _ _ _ _ _ H Hu)
    as (p' & w1' & E' & Hok & Hnin & Hp & _ & Hk & Hs & Hfree & Hr & Hun).
  rewrite E in E'. injection E' as <- <-.
  pose proof (page_of_ok _ _ _ _ _ f H ltac:(apply elem_of_cons; by left)) as Hd.
  destruct (w_put_ok _ _ _ _ _ _ _ Hok Hnin Hd) as (Hok2 & Hpg & Hk2 & Hs2 & Hr2 & Hf2).
  destruct (Frame_drop_ok _ _ _ _ f (InMemory p :: fs)
              (world_ok_perm _ _ _ _ _ _ (Permutation_swap _ _ _) Hok2))
    as (w' & h' & Ed & Hok3 & Hk3 & Hm3 & Hr3 & Hu3 & _ & _).
  exists w', h'. split; [done |].
  assert (Hnm : forall q, f <> InMemory q) by (intros q ->; destruct Hf as [Hf | Hf]; discriminate Hf).
  constructor; [exact Hok3 | | | | | exact Hfree | |].
  - intros Hin. apply Hnin, elem_of_cons. by right.
  - rewrite (Hk3 (InMemory p)) by (apply elem_of_cons; by left). exact Hpg.
  - intros g Hg. rewrite (Hk3 g) by (apply elem_of_cons; by right).
    rewrite (Hk2 g) by (apply elem_of_cons; by right). apply Hk, elem_of_cons. by right.
  - intros q n Hq _. destruct (Hs q n Hq ltac:(set_solver)) as [Hq1 He1].
    assert (Hqp : q ∉ ({[p]} : gset Z)).
    { intros ->%elem_of_singleton. apply Hfree, elem_of_union_l, elem_of_dom. eauto. }
    destruct (Hs2 q n Hq1 Hqp) as [Hq2 He2]. rewrite Hr3 by apply Hnm. split; [exact Hq2 |].
    unfold w_mem in Hm3. rewrite Hm3. exact (page_eq_trans _ _ _ _ He2 He1).
  - rewrite Hr3, Hr2, Hr by apply Hnm. apply lookup_insert_eq.
  - rewrite Hu3, Hf2, Hun. destruct Hf as [-> | ->]; lia.
Qed.

Lemma unzip_ok base raw h w i fs :
  world_ok base raw h w (Compressed i :: fs) -> 0 < fa_unallocated_frames (pfa (wphys w)) ->
  exists p w' h', unzip oom debug (Compressed i) w = Some (Ok p, InMemory p, w') /\
    reloaded base raw h w (Compressed i) fs h' w' p.
Proof.
  intros H Hu. destruct (w_alloc_ok _ _ _ _ _ H Hu) as (p & w1 & E & Hok & _).
  destruct (reload_ok _ _ _ _ _ _ i _ _ H ltac:(by left) Hu E) as (w' & h' & Ed & Hre).
  exists p, w', h'. split; [| done]. unfold unzip. rewrite E. cbn [mbind option_bind].
  assert (Hl : is_Some (h_zram h !! i)).
  { pose proof (wo_refs _ _ _ _ _ Hok (Compressed i) ltac:(done)) as Hx. cbn in Hx.
    rewrite decide_False, decide_True in Hx by done.
    destruct (st_rc (wzram w1) !! i) as [n |] eqn:En; cbn in Hx; [| lia].
    exact (store_ok_live _ _ _ _ (wo_zram _ _ _ _ _ Hok) En). }
  destruct Hl as [d Hd].
  rewrite (ps_read_spec _ _ _ _ _ (so_holds _ _ (wo_zram _ _ _ _ _ Hok)) Hd)
    by (unfold vlen; by rewrite length_get_bytes_array).
  cbn [mbind option_bind]. cbn [page_of] in Ed. rewrite Hd in Ed.
  change (default [] (Some d)) with d in Ed. by rewrite Ed.
Qed.

Lemma swap_in_ok base raw h w i fs :
  world_ok base raw h w (SwappedOut i :: fs) -> 0 < fa_unallocated_frames (pfa (wphys w)) ->
  exists p w' h', swap_in oom debug (SwappedOut i) w = Some (Ok p, InMemory p, w') /\
    reloaded base raw h w (SwappedOut i) fs h' w' p.
Proof.
  intros H Hu. destruct (w_alloc_ok _ _ _ _ _ H Hu) as (p & w1 & E & Hok & _).
  destruct (reload_ok _ _ _ _ _ _ i _ _ H ltac:(by right) Hu E) as (w' & h' & Ed & Hre).
  exists p, w', h'. split; [| done]. unfold swap_in. rewrite E. cbn [mbind option_bind].
  assert (Hl : is_Some (h_swap h !! i)).
  { pose proof (wo_refs _ _ _ _ _ Hok (SwappedOut i) ltac:(done)) as Hx. cbn in Hx.
    rewrite decide_False, decide_True in Hx by done.
    destruct (st_rc (wswap w1) !! i) as [n |] eqn:En; cbn in Hx; [| lia].
    exact (store_ok_live _ _ _ _ (wo_swap _ _ _ _ _ Hok) En). }
  destruct Hl as [d Hd].
  rewrite (ps_read_spec _ _ _ _ _ (so_holds _ _ (wo_swap _ _ _ _ _ Hok)) Hd)
    by (unfold vlen; by rewrite length_get_bytes_array).
  cbn [mbind option_bind]. cbn [page_of] in Ed. rewrite Hd in Ed.
  change (default [] (Some d)) with d in Ed. by rewrite Ed.
Qed.
End World.

#[global] Opaque page_of.
