(* ===== verification/FileTrait.v ===== *)
(** * Open files

    The methods of the trait [File] of [fs/file_trait.rs] that the memory
    areas and the descriptor table use, and the [lseek] that the file systems'
    implementations share ([fs/fat32/fat_osinode.rs], [fs/ext4/layout.rs]). *)

From S2P Require Import Prelude.

(** [SeekWhence] of [fs/layout.rs]. *)
Definition SEEK_SET : Z := 0.
Definition SEEK_CUR : Z := 1.
Definition SEEK_END : Z := 2.

Definition EINVAL : Z := -22.

(** [x as usize] of an [isize], and the additions of [isize]. *)
Definition usize_of (x : Z) : Z := wrap64 x.
Definition isize_add (a b : Z) : Z := to_signed64 (wrap64 (a + b)).

(** [OSInode::lseek] on the offset and size of the open file: the new offset,
    or an error that leaves the offset alone. *)
Definition lseek_offset (cur size offset whence : Z) : result Z Z :=
  let new_offset :=
    if whence =? SEEK_SET then Some offset
    else if whence =? SEEK_CUR then Some (isize_add (to_signed64 cur) offset)
    else if whence =? SEEK_END then Some (isize_add (to_signed64 size) offset)
    else None in
  match new_offset with
  | None => Err EINVAL
  | Some new_offset => if new_offset <? 0 then Err EINVAL else Ok (usize_of new_offset)
  end.

(** An open file in a system with state [W]. [file_read f n] are the bytes
    read into a buffer of [n] bytes; [file_single_cache] is
    [get_single_cache(..).unwrap().try_lock().unwrap().get_tracker()], a new
    handle to the frame of the cached page. *)
Class File (F W : Type) := {
  file_offset : F -> Z;
  file_set_offset : F -> Z -> F;
  file_size : F -> W -> Z;
  file_deep_clone : F -> F;
  file_readable : F -> bool;
  file_read : F -> Z -> W -> option (list Z * F * W);
  file_single_cache : F -> Z -> W -> option (Z * W)
}.

Section Lseek.
Context {F W : Type} `{!File F W}.

Definition file_lseek (f : F) (w : W) (offset whence : Z) : result Z Z * F :=
  match lseek_offset (file_offset f) (file_size f w) offset whence with
  | Ok n => (Ok n, file_set_offset f n)
  | Err e => (Err e, f)
  end.

(** [get_offset]: [lseek(0, SEEK_CUR).unwrap()]. *)
Definition file_get_offset (f : F) (w : W) : option Z := unwrap (file_lseek f w 0 SEEK_CUR).1.
End Lseek.

Lemma to_signed64_small x : 0 <= x < 2 ^ 63 -> to_signed64 x = x.
Proof. intros. unfold to_signed64. destruct (Z.ltb_spec x (2 ^ 63)); lia. Qed.

(** Seeking to a position that is not negative as an [isize]. *)
Lemma lseek_set cur size offset :
  0 <= offset < 2 ^ 63 -> lseek_offset cur size offset SEEK_SET = Ok offset.
Proof.
  intros H. unfold lseek_offset. cbn. destruct (Z.ltb_spec offset 0); [lia |].
  unfold usize_of. by rewrite wrap64_small by lia.
Qed.

Lemma lseek_cur cur size offset :
  0 <= cur < 2 ^ 63 -> 0 <= cur + offset < 2 ^ 63 ->
  lseek_offset cur size offset SEEK_CUR = Ok (cur + offset).
Proof.
  intros H Ho. unfold lseek_offset. cbn. unfold isize_add.
  rewrite (to_signed64_small cur), (wrap64_small (cur + offset)), to_signed64_small by lia.
  destruct (Z.ltb_spec (cur + offset) 0); [lia |]. unfold usize_of. by rewrite wrap64_small by lia.
Qed.

(** A negative target is refused. *)
Lemma lseek_negative cur size offset whence :
  0 <= cur < 2 ^ 63 -> whence = SEEK_CUR -> - 2 ^ 63 <= cur + offset < 0 ->
  lseek_offset cur size offset whence = Err EINVAL.
Proof.
  intros H -> Ho. unfold lseek_offset. cbn. unfold isize_add, to_signed64 at 2.
  destruct (Z.ltb_spec cur (2 ^ 63)); [| lia].
  replace (wrap64 (cur + offset)) with (cur + offset + 2 ^ 64).
  - unfold to_signed64. destruct (Z.ltb_spec (cur + offset + 2 ^ 64) (2 ^ 63)); [lia |].
    destruct (Z.ltb_spec (cur + offset + 2 ^ 64 - 2 ^ 64) 0); [done | lia].
  - unfold wrapn. apply (Z.mod_unique_pos _ _ (-1)); lia.
Qed.
