(* ===== verification/MapArea.v ===== *)
(** * Memory areas

    [LinearMap] and [MapArea] of [mm/map_area.rs]: a range of pages with one
    [Frame] for each, mapped into a page table. The operations are generic in
    the page table, the two page stores and the files mapped. [None] is a
    panic; the page table, the area and the state are passed and returned. *)

From S2P Require Import Prelude Address Phys FrameAlloc PageTable PageStore Frames FileTrait.

(** ** [LinearMap] *)

Record LinearMap := mkLM {
  vpn_range : SimpleRange;
  frames : list Frame;
  active : list Z;
  compressed : Z;
  swapped : Z
}.

Definition lm_set_frames (l : LinearMap) (fs : list Frame) : LinearMap :=
  mkLM (vpn_range l) fs (active l) (compressed l) (swapped l).
Definition lm_set_active (l : LinearMap) (a : list Z) : LinearMap :=
  mkLM (vpn_range l) (frames l) a (compressed l) (swapped l).
Definition lm_set_compressed (l : LinearMap) (n : Z) : LinearMap :=
  mkLM (vpn_range l) (frames l) (active l) n (swapped l).
Definition lm_set_swapped (l : LinearMap) (n : Z) : LinearMap :=
  mkLM (vpn_range l) (frames l) (active l) (compressed l) n.

Definition lm_get_start (l : LinearMap) : Z := get_start (vpn_range l).
Definition lm_get_end (l : LinearMap) : Z := get_end (vpn_range l).

Definition lm_gen_dict (r : SimpleRange) : LinearMap := mkLM r [] [] 0 0.
Definition lm_new (r : SimpleRange) : LinearMap :=
  mkLM r (vec_resize [] (get_end r -w get_start r) Unallocated) [] 0 0.

(** The index of a page; indexing out of range is a panic. *)
Definition lm_idx (l : LinearMap) (key : Z) : Z := key -w lm_get_start l.
Definition lm_get (l : LinearMap) (key : Z) : option Frame := vec_get (frames l) (lm_idx l key).
Definition lm_put (l : LinearMap) (key : Z) (f : Frame) : option LinearMap :=
  fs ← vec_set (frames l) (lm_idx l key) f; Some (lm_set_frames l fs).

Definition lm_get_in_memory (l : LinearMap) (key : Z) : option (option Z) :=
  f ← lm_get l key; Some match f with InMemory ppn => Some ppn | _ => None end.

Definition lm_remove_in_memory (l : LinearMap) (key : Z) : option (option Z * LinearMap) :=
  let l := lm_set_active l (base.filter (fun e => e <> lm_idx l key) (active l)) in
  f ← lm_get l key;
  let '(r, f) := take_in_memory f in
  l ← lm_put l key f; Some (r, l).

(** The counts of evicted pages among the frames of a slice. *)
Definition count_compressed_and_swapped (l : LinearMap) (start end_ : Z) : option (Z * Z) :=
  if (compressed l =? 0) && (swapped l =? 0) then Some (0, 0)
  else
    fs ← slice (frames l) start end_;
    Some (foldl (fun '(c, s) f =>
      match f with
      | Compressed _ => (c +w 1, s)
      | SwappedOut _ => (c, s +w 1)
      | _ => (c, s)
      end) (0, 0) fs).

Definition split_active_into_two (active : list Z) (cut_idx : Z) : list Z * list Z :=
  foldl (fun '(first_active, second_active) idx =>
    if idx <? cut_idx then (first_active ++ [idx], second_active)
    else (first_active, second_active ++ [wrap16 (idx - wrap16 cut_idx)])) ([], []) active.

Definition split_active_into_three (active : list Z) (first_cut_idx second_cut_idx : Z)
    : option (list Z * list Z * list Z) :=
  _ ← assert_ (first_cut_idx <? second_cut_idx);
  Some (foldl (fun '(a, b, c) idx =>
    if idx <? first_cut_idx then (a ++ [idx], b, c)
    else if idx <? second_cut_idx then (a, b ++ [wrap16 (idx - wrap16 first_cut_idx)], c)
    else (a, b, c ++ [wrap16 (idx - wrap16 second_cut_idx)])) ([], [], []) active).

(** [Vec::split_off]: a panic beyond the length. *)
Definition split_off {A} (v : list A) (at_ : Z) : option (list A * list A) :=
  if (0 <=? at_) && (at_ <=? vlen v)
  then Some (take (Z.to_nat at_) v, drop (Z.to_nat at_) v) else None.

(** [into_two] returns the second part and leaves the first in [self]. *)
Definition lm_into_two (l : LinearMap) (cut : Z) : option (result LinearMap unit * LinearMap) :=
  let vpn_start := lm_get_start l in
  let vpn_end := lm_get_end l in
  if (cut <=? vpn_start) || (vpn_end <=? cut) then Some (Err tt, l)
  else
    '(first_frames, second_frames) ← split_off (frames l) (cut -w vpn_start);
    let l := lm_set_frames l first_frames in
    let '(first_active, second_active) := split_active_into_two (active l) (cut -w vpn_start) in
    '(first_compressed, first_swapped) ← count_compressed_and_swapped l 0 (cut -w vpn_start);
    r2 ← range_new cut vpn_end;
    r1 ← range_new vpn_start cut;
    Some (Ok (mkLM r2 second_frames second_active
                   (compressed l -w first_compressed) (swapped l -w first_swapped)),
          mkLM r1 first_frames first_active first_compressed first_swapped).

(** [into_three]: when the second cut fails the pages cut off by the first are
    dropped with [second]. *)
Definition lm_into_three (l : LinearMap) (first_cut second_cut : Z)
    : option (result (LinearMap * LinearMap) LinearMap * LinearMap) :=
  '(r, l') ← lm_into_two l first_cut;
  match r with
  | Ok second =>
      '(r, second) ← lm_into_two second second_cut;
      Some match r with
           | Ok third => (Ok (second, third), l')
           | Err _ => (Err second, l')
           end
  | Err _ => Some (Err (lm_gen_dict (vpn_range l)), l')
  end.

(** ** [MapArea] *)

Inductive MapType := Identical | Framed.

#[export] Instance MapType_eq_dec : EqDecision MapType.
Proof. solve_decision. Defined.

(** [MapPermission::from_ph_flags], from the three predicates of the program
    header's flags. *)
Definition from_ph_flags (is_read is_write is_execute : bool) : Z :=
  let map_perm := MP_U in
  let map_perm := if is_read then Z.lor map_perm MP_R else map_perm in
  let map_perm := if is_write then Z.lor map_perm MP_W else map_perm in
  if is_execute then Z.lor map_perm MP_X else map_perm.

(** [MapFlags]. *)
Definition MAP_SHARED : Z := 0x01.
Definition MAP_PRIVATE : Z := 0x02.
Definition MAP_FIXED : Z := 0x10.
Definition MAP_ANONYMOUS : Z := 0x20.
Definition MapFlags_all : Z :=
  foldr Z.lor 0 [0x01; 0x02; 0x03; 0x0f; 0x10; 0x20; 0x4000; 0x0100; 0x0800; 0x1000; 0x2000;
                 0x8000; 0x10000; 0x20000; 0x40000; 0x80000; 0x100000; 0].

Section Area.
Context {T ZS SS F : Type} `{!PageTable T, !PageStore ZS, !PageStore SS, !File F (World ZS SS)}.
Notation World := (World ZS SS).
Context (oom : Z -> World -> World) (debug : bool).

(** The [LinearMap] operations that create or drop handles. *)
Definition lm_alloc_in_memory (l : LinearMap) (key value : Z) (w : World)
    : option (LinearMap * World) :=
  let l := lm_set_active l (active l ++ [wrap16 (lm_idx l key)]) in
  f ← lm_get l key;
  '(r, f, w) ← insert_in_memory debug f value w;
  l ← lm_put l key f;
  _ ← unwrap r;
  Some (l, w).

(** [frames.resize(n, Unallocated)] drops the frames cut off. *)
Definition resize_frames (fs : list Frame) (n : Z) (w : World) : option (list Frame * World) :=
  w ← drop_all debug w (drop (Z.to_nat n) fs); Some (vec_resize fs n Unallocated, w).

Definition lm_set_start (l : LinearMap) (new_vpn_start : Z) (w : World)
    : option (result unit unit * LinearMap * World) :=
  let vpn_start := lm_get_start l in
  let vpn_end := lm_get_end l in
  if vpn_end <? new_vpn_start then Some (Err tt, l, w)
  else
    r ← range_new new_vpn_start vpn_end;
    fs ← (if new_vpn_start <? vpn_start
          then rotate_left (frames l) (vpn_start -w new_vpn_start)
          else rotate_left (frames l) (new_vpn_start -w vpn_start));
    '(fs, w) ← resize_frames fs (vpn_end -w new_vpn_start) w;
    Some (Ok tt, mkLM r fs (active l) (compressed l) (swapped l), w).

Definition lm_set_end (l : LinearMap) (new_vpn_end : Z) (w : World)
    : option (result unit unit * LinearMap * World) :=
  let vpn_start := lm_get_start l in
  r ← range_new vpn_start new_vpn_end;
  if new_vpn_end <? vpn_start
  then Some (Err tt, mkLM r (frames l) (active l) (compressed l) (swapped l), w)
  else
    '(fs, w) ← resize_frames (frames l) (new_vpn_end -w vpn_start) w;
    Some (Ok tt, mkLM r fs (active l) (compressed l) (swapped l), w).

Record MapArea := mkArea {
  inner : LinearMap;
  map_type : MapType;
  map_perm : Z;
  writable_stripped : bool;
  map_file : option F
}.

Definition set_inner (a : MapArea) (l : LinearMap) : MapArea :=
  mkArea l (map_type a) (map_perm a) (writable_stripped a) (map_file a).
Definition area_start (a : MapArea) : Z := lm_get_start (inner a).
Definition area_end (a : MapArea) : Z := lm_get_end (inner a).

Definition area_new (start_va end_va : Z) (map_type : MapType) (map_perm : Z)
    (map_file : option F) : option MapArea :=
  let start_vpn := va_floor start_va in
  let end_vpn := va_ceil end_va in
  r ← range_new start_vpn end_vpn;
  Some (mkArea (lm_new r) map_type map_perm false map_file).

Definition area_from_another (another : MapArea) : option MapArea :=
  r ← range_new (area_start another) (area_end another);
  Some (mkArea (lm_new r) (map_type another) (map_perm another)
               (writable_stripped another) (map_file another)).

Definition area_from_existing_frame (start_va : Z) (map_type : MapType) (map_perm : Z)
    (fs : list Frame) : option MapArea :=
  let start_vpn := va_floor start_va in
  let end_vpn := start_vpn +w vlen fs in
  r ← range_new start_vpn end_vpn;
  Some (mkArea (mkLM r fs [] 0 0) map_type map_perm false None).

(** Cloning an area clones every handle in it. *)
Definition area_clone (a : MapArea) (w : World) : MapArea * World :=
  (a, foldl Frame_clone w (frames (inner a))).

(** [page_table.map] on the frames of the state. *)
Definition w_map (t : T) (w : World) (vpn ppn perm : Z) : option (T * World) :=
  '(t, ph) ← pt_map t (wphys w) vpn ppn perm; Some (t, set_phys w ph).
Definition w_unmap (t : T) (w : World) (vpn : Z) : World :=
  set_phys w (pt_unmap t (wphys w) vpn).
Definition w_set_pte_flags (t : T) (w : World) (vpn perm : Z) : result unit unit * World :=
  let '(r, ph) := pt_set_pte_flags t (wphys w) vpn perm in (r, set_phys w ph).

Definition map_one_unchecked (a : MapArea) (t : T) (w : World) (vpn : Z)
    : option (Z * MapArea * T * World) :=
  match map_type a with
  | Identical =>
      let ppn := vpn in
      '(t, w) ← w_map t w vpn ppn (map_perm a); Some (ppn, a, t, w)
  | Framed =>
      let '(r, w) := w_frame_alloc_uninit oom w in
      ppn ← r;
      '(l, w) ← lm_alloc_in_memory (inner a) vpn ppn w;
      '(t, w) ← w_map t w vpn ppn (map_perm a);
      Some (ppn, set_inner a l, t, w)
  end.

Definition map_one (a : MapArea) (t : T) (w : World) (vpn : Z)
    : option (result Z (MemoryError * Z) * MapArea * T * World) :=
  if bool_decide (map_type a = Identical) || negb (pt_is_mapped t (wphys w) vpn) then
    '(ppn, a, t, w) ← map_one_unchecked a t w vpn; Some (Ok ppn, a, t, w)
  else Some (Err (AlreadyMapped, vpn), a, t, w).

Definition map_one_zeroed_unchecked (a : MapArea) (t : T) (w : World) (vpn : Z)
    : option (option Z * MapArea * T * World) :=
  let '(r, w) := w_frame_alloc oom w in
  match r with
  | None => Some (None, a, t, w)
  | Some ppn =>
      '(l, w) ← lm_alloc_in_memory (inner a) vpn ppn w;
      '(t, w) ← w_map t w vpn ppn (map_perm a);
      Some (Some ppn, set_inner a l, t, w)
  end.

(** [unmap_one]: the handle that [remove_in_memory] returns is dropped at the
    end of its statement, before the entry is cleared. *)
Definition unmap_one (a : MapArea) (t : T) (w : World) (vpn : Z)
    : option (result unit MemoryError * MapArea * World) :=
  if negb (pt_is_mapped t (wphys w) vpn) then Some (Err NotMapped, a, w)
  else
    match map_type a with
    | Framed =>
        '(r, l) ← lm_remove_in_memory (inner a) vpn;
        w ← match r with Some ppn => Frame_drop debug w (InMemory ppn) | None => Some w end;
        Some (Ok tt, set_inner a l, w_unmap t w vpn)
    | Identical => Some (Ok tt, a, w)
    end.

(** [fork]'s helper: every page mapped in the parent is mapped, without write
    permission, in both. *)
Fixpoint map_from_existing_loop (vpns : list Z) (map_perm : Z) (dst src : T) (w : World)
    : option (result unit unit * T * World) :=
  match vpns with
  | [] => Some (Ok tt, dst, w)
  | vpn :: vpns =>
      let '(r, ph) := pt_block_and_ret_mut src (wphys w) vpn in
      let w := set_phys w ph in
      match r with
      | Some ppn =>
          if negb (pt_is_mapped dst (wphys w) vpn) then
            '(dst, w) ← w_map dst w vpn ppn map_perm;
            map_from_existing_loop vpns map_perm dst src w
          else Some (Err tt, dst, w)
      | None => map_from_existing_loop vpns map_perm dst src w
      end
  end.
Definition map_from_existing_page_table (a : MapArea) (dst src : T) (w : World)
    : option (result unit unit * T * World) :=
  map_from_existing_loop (range_items (vpn_range (inner a)))
    (flags_difference (map_perm a) MP_W) dst src w.

(** The fork helper that copies the pages instead of sharing them (no caller
    uses it): the frames cloned from the parent are replaced by copies, or
    dropped where the parent has no page in memory. *)
Fixpoint prealloc_loop (vpns : list Z) (a : MapArea) (dst src : T) (w : World)
    : option (result unit unit * MapArea * T * World) :=
  match vpns with
  | [] => Some (Ok tt, a, dst, w)
  | vpn :: vpns =>
      let '(r, ph) := pt_block_and_ret_mut src (wphys w) vpn in
      let w := set_phys w ph in
      match r with
      | None =>
          f ← lm_get (inner a) vpn;
          l ← lm_put (inner a) vpn Unallocated;
          w ← Frame_drop debug w f;
          prealloc_loop vpns (set_inner a l) dst src w
      | Some old_ppn =>
          if pt_is_mapped dst (wphys w) vpn then Some (Err tt, a, dst, w)
          else
            let '(r, w) := w_frame_alloc_uninit oom w in
            match r with
            | None =>
                '(dst, w) ← w_map dst w vpn old_ppn (flags_difference (map_perm a) MP_W);
                prealloc_loop vpns a dst src w
            | Some new_ppn =>
                let w := w_with_mem (fun m => put_bytes_array m new_ppn 0 (get_bytes_array m old_ppn)) w in
                f ← lm_get (inner a) vpn;
                l ← lm_put (inner a) vpn (InMemory new_ppn);
                w ← Frame_drop debug w f;
                '(dst, w) ← w_map dst w vpn new_ppn (map_perm a);
                prealloc_loop vpns (set_inner a l) dst src w
            end
      end
  end.
Definition map_from_existing_page_table_prealloc (a : MapArea) (dst src : T) (w : World)
    : option (result unit unit * MapArea * T * World) :=
  prealloc_loop (range_items (vpn_range (inner a))) a dst src w.

(** [get_area_by_vpn_range] of [mm/memory_set.rs]: the last area that contains
    the page. *)
Definition get_area_by_vpn_range (areas : list MapArea) (vpn : Z) : option MapArea :=
  snd <$> list_find (fun a => area_start a <= vpn < area_end a) (reverse areas).

Fixpoint map_from_kernel_loop (vpns : list Z) (kernel_area : MapArea) (src_vpn : Z)
    (a : MapArea) (t : T) (w : World) : option (result unit unit * MapArea * T * World) :=
  match vpns with
  | [] => Some (Ok tt, a, t, w)
  | vpn :: vpns =>
      o ← lm_get_in_memory (inner kernel_area) src_vpn;
      match o with
      | Some ppn =>
          if negb (pt_is_mapped t (wphys w) vpn) then
            '(l, w) ← lm_alloc_in_memory (inner a) vpn ppn (Frame_clone w (InMemory ppn));
            '(t, w) ← w_map t w vpn ppn (map_perm a);
            map_from_kernel_loop vpns kernel_area (src_vpn +w 1) (set_inner a l) t w
          else Some (Err tt, a, t, w)
      | None => Some (Err tt, a, t, w)
      end
  end.
Definition map_from_kernel_area (kernel_areas : list MapArea) (a : MapArea) (t : T) (w : World)
    (start_vpn_in_kernel_area : Z) : option (result unit unit * MapArea * T * World) :=
  kernel_area ← get_area_by_vpn_range kernel_areas start_vpn_in_kernel_area;
  map_from_kernel_loop (range_items (vpn_range (inner a))) kernel_area start_vpn_in_kernel_area a t w.

(** [unmap_one] over a list of pages; whether some was not mapped. *)
Fixpoint unmap_loop (vpns : list Z) (a : MapArea) (t : T) (w : World) (has_unmapped : bool)
    : option (bool * MapArea * World) :=
  match vpns with
  | [] => Some (has_unmapped, a, w)
  | vpn :: vpns =>
      '(r, a, w) ← unmap_one a t w vpn;
      unmap_loop vpns a t w (has_unmapped || is_err r)
  end.

Definition area_unmap (a : MapArea) (t : T) (w : World)
    : option (result unit MemoryError * MapArea * World) :=
  '(has_unmapped_page, a, w) ← unmap_loop (range_items (vpn_range (inner a))) a t w false;
  Some (if has_unmapped_page : bool then Err NotMapped else Ok tt, a, w).

Definition copy_on_write (a : MapArea) (t : T) (w : World) (vpn : Z)
    : option (result Z MemoryError * MapArea * T * World) :=
  '(r, l) ← lm_remove_in_memory (inner a) vpn;
  match r with
  | None => Some (Err NotMapped, set_inner a l, t, w)
  | Some old_ppn =>
      if decide (strong_count (wphys w) old_ppn = 1%nat) then
        '(l, w) ← lm_alloc_in_memory l vpn old_ppn w;
        let '(r, w) := w_set_pte_flags t w vpn (map_perm a) in
        _ ← unwrap r;
        Some (Ok old_ppn, set_inner a l, t, w)
      else
        let w := w_unmap t w vpn in
        let '(r, w) := w_frame_alloc_uninit oom w in
        new_ppn ← r;
        '(l, w) ← lm_alloc_in_memory l vpn new_ppn w;
        '(t, w) ← w_map t w vpn new_ppn (map_perm a);
        let w := w_with_mem (fun m => put_bytes_array m new_ppn 0 (get_bytes_array m old_ppn)) w in
        w ← Frame_drop debug w (InMemory old_ppn);
        Some (Ok new_ppn, set_inner a l, t, w)
  end.

Definition expand_to (a : MapArea) (w : World) (new_end : Z)
    : option (result unit unit * MapArea * World) :=
  let new_end_vpn := va_ceil new_end in
  if new_end_vpn <? area_end a then Some (Err tt, a, w)
  else '(r, l, w) ← lm_set_end (inner a) new_end_vpn w; Some (r, set_inner a l, w).

Definition shrink_to (a : MapArea) (t : T) (w : World) (new_end : Z)
    : option (result unit unit * MapArea * World) :=
  let new_end_vpn := va_ceil new_end in
  let old_end_vpn := area_end a in
  if old_end_vpn <? new_end_vpn then Some (Err tt, a, w)
  else
    rg ← range_new new_end_vpn old_end_vpn;
    '(has_unmapped_page, a, w) ← unmap_loop (range_items rg) a t w false;
    '(r, l, w) ← lm_set_end (inner a) new_end_vpn w;
    let a := set_inner a l in
    Some (match r with
          | Err _ => Err tt
          | Ok _ => if has_unmapped_page : bool then Err tt else Ok tt
          end, a, w).

Definition rshrink_to (a : MapArea) (t : T) (w : World) (new_start : Z)
    : option (result unit unit * MapArea * World) :=
  let new_start_vpn := va_floor new_start in
  let old_start_vpn := area_start a in
  if new_start_vpn <? old_start_vpn then Some (Err tt, a, w)
  else
    rg ← range_new old_start_vpn new_start_vpn;
    '(has_unmapped_page, a, w) ← unmap_loop (range_items rg) a t w false;
    '(r, l, w) ← lm_set_start (inner a) new_start_vpn w;
    let a := set_inner a l in
    Some (match r with
          | Err _ => Err tt
          | Ok _ => if has_unmapped_page : bool then Err tt else Ok tt
          end, a, w).

Definition check_overlapping (a : MapArea) (start_vpn end_vpn : Z) : option (Z * Z) :=
  if (end_vpn <? area_start a) || (area_end a <=? start_vpn) then None
  else Some (if area_start a <? start_vpn then start_vpn else area_start a,
             if end_vpn <? area_end a then end_vpn else area_end a).

(** [MapArea::into_two]: the second part's file starts where its pages do. *)
Definition area_into_two (a : MapArea) (w : World) (cut : Z)
    : option (result MapArea unit * MapArea) :=
  second_file ← match map_file a with
    | Some file =>
        off ← file_get_offset file w;
        let '(r, new_file) :=
          file_lseek (file_deep_clone file) w
            (to_signed64 (off +w va_from_vpn cut -w va_from_vpn (area_start a))) SEEK_SET in
        _ ← unwrap r; Some (Some new_file)
    | None => Some None
    end;
  '(r, l) ← lm_into_two (inner a) cut;
  Some match r with
       | Ok second => (Ok (mkArea second (map_type a) (map_perm a) (writable_stripped a) second_file),
                       set_inner a l)
       | Err _ => (Err tt, set_inner a l)
       end.

(** [MapArea::into_three]: the pages of a failed second cut are dropped. *)
Definition area_into_three (a : MapArea) (w : World) (first_cut second_cut : Z)
    : option (result (MapArea * MapArea) unit * MapArea * World) :=
  match map_file a with
  | Some _ => Some (Err tt, a, w)
  | None =>
      '(r, l) ← lm_into_three (inner a) first_cut second_cut;
      let mk l := mkArea l (map_type a) (map_perm a) (writable_stripped a) None in
      match r with
      | Ok (second, third) => Some (Ok (mk second, mk third), set_inner a l, w)
      | Err lost => w ← drop_all debug w (frames lost); Some (Err tt, set_inner a l, w)
      end
  end.

(** One turn of the loop of [do_oom] on the entry [idx] of [active]. *)
Definition do_oom_step (a : MapArea) (t : T) (w : World) (idx : Z) : option (MapArea * World) :=
  let l := inner a in
  if vlen (frames l) <=? idx then Some (a, w)
  else
    f ← vec_get (frames l) idx;
    '(r, f, w) ← zip debug f w;
    fs ← vec_set (frames l) idx f;
    let l := lm_set_frames l fs in
    let vpn := lm_get_start l +w idx in
    match r with
    | Ok _ => Some (set_inner a (lm_set_compressed l (compressed l +w 1)), w_unmap t w vpn)
    | Err SharedPage => Some (set_inner a l, w)
    | Err ZramIsFull =>
        '(r, f, w) ← swap_out debug f w;
        fs ← vec_set (frames l) idx f;
        let l := lm_set_frames l fs in
        match r with
        | Ok _ => Some (set_inner a (lm_set_swapped l (swapped l +w 1)), w_unmap t w vpn)
        | Err _ => Some (set_inner a l, w)
        end
    | Err _ => Some (set_inner a l, w)
    end.

(** [while let Some(idx) = self.inner.active.pop_front()]: no turn pushes to
    [active], so the loop runs over the entries it started with. *)
Fixpoint do_oom_loop (act : list Z) (a : MapArea) (t : T) (w : World) : option (MapArea * World) :=
  match act with
  | [] => Some (set_inner a (lm_set_active (inner a) []), w)
  | idx :: act =>
      '(a, w) ← do_oom_step (set_inner a (lm_set_active (inner a) act)) t w idx;
      do_oom_loop act a t w
  end.
Definition do_oom (a : MapArea) (t : T) (w : World) : option (Z * MapArea * World) :=
  let compressed_before := compressed (inner a) in
  let swapped_before := swapped (inner a) in
  '(a, w) ← do_oom_loop (active (inner a)) a t w;
  Some (compressed (inner a) +w swapped (inner a) -w compressed_before -w swapped_before, a, w).

Definition force_swap_step (a : MapArea) (t : T) (w : World) (idx : Z) : option (MapArea * World) :=
  let l := inner a in
  if vlen (frames l) <=? idx then Some (a, w)
  else
    f ← vec_get (frames l) idx;
    '(r, f, w) ← force_swap_out debug f w;
    fs ← vec_set (frames l) idx f;
    let l := lm_set_frames l fs in
    match r with
    | Ok _ => Some (set_inner a (lm_set_swapped l (swapped l +w 1)),
                    w_unmap t w (lm_get_start l +w idx))
    | Err _ => Some (set_inner a l, w)
    end.
Fixpoint force_swap_loop (act : list Z) (a : MapArea) (t : T) (w : World)
    : option (MapArea * World) :=
  match act with
  | [] => Some (set_inner a (lm_set_active (inner a) []), w)
  | idx :: act =>
      '(a, w) ← force_swap_step (set_inner a (lm_set_active (inner a) act)) t w idx;
      force_swap_loop act a t w
  end.
Definition force_swap (a : MapArea) (t : T) (w : World) : option (Z * MapArea * World) :=
  let swapped_before := swapped (inner a) in
  '(a, w) ← force_swap_loop (active (inner a)) a t w;
  Some (swapped (inner a) -w swapped_before, a, w).
End Area.
Arguments MapArea : clear implicits.
