(* ===== verification/MapAreaOom.v ===== *)
(** * Memory areas: the invariant, eviction

    The invariant that ties an area's frames to the entries of its page table
    ([mapped_ok]), and the proof that the out-of-memory clean-up of
    [mm/map_area.rs] ([do_oom], [force_swap]) moves pages out of memory
    without losing or mixing up their contents. *)

From S2P Require Import Prelude Address Phys FrameAlloc PageTable PageStore Frames FileTrait.
From S2P Require Import MapArea.

Definition in_memory (f : Frame) : option Z :=
  match f with InMemory ppn => Some ppn | _ => None end.

Section Laws.
Context {T ZS SS F : Type}.
Context `{!PageTable T, !PageTableSpec T, !PageStore ZS, !PageStoreSpec ZS}.
Context `{!PageStore SS, !PageStoreSpec SS, !File F (World ZS SS)}.
Notation World := (World ZS SS).
Notation MapArea := (MapArea F).

(** A page of the area. *)
Definition area_has (a : MapArea) (vpn : Z) : Prop := area_start a <= vpn < area_end a.

(** One frame per page, and an entry in the table for exactly the pages in
    memory. *)
Record area_ok (t : T) (w : World) (a : MapArea) : Prop := {
  ao_range : 0 <= area_start a <= area_end a /\ area_end a < 2 ^ 52;
  ao_len : vlen (frames (inner a)) = area_end a - area_start a;
  ao_slots : forall i j, area_has a i -> area_has a j -> pt_slot i = pt_slot j -> i = j;
  ao_counts : u64 (compressed (inner a)) /\ u64 (swapped (inner a));
  ao_active : Forall (fun i => 0 <= i) (active (inner a));
  ao_ptes : forall i f, frames (inner a) !! i = Some f ->
    fst <$> pt_view t (wphys w) (pt_slot (area_start a + Z.of_nat i)) = in_memory f
}.

(** The area in its table, with the frames [rest] that exist besides its own. *)
Record mapped_ok (base : Z) (raw : gset Z) (h : Held) (w : World) (t : T) (a : MapArea)
    (rest : list Frame) : Prop := {
  mo_world : world_ok base raw h w (frames (inner a) ++ rest);
  mo_pt : pt_inv base raw t (wphys w);
  mo_area : area_ok t w a;
  mo_disj : forall p, InMemory p ∈ frames (inner a) ++ rest -> p ∉ pt_frames t
}.

Definition same_attrs (a a' : MapArea) : Prop :=
  vpn_range (inner a') = vpn_range (inner a) /\ map_type a' = map_type a /\
  map_perm a' = map_perm a /\ writable_stripped a' = writable_stripped a /\
  map_file a' = map_file a.

(** The frames of memory an area holds. *)
Definition own (a : MapArea) : gset Z := list_to_set (omap in_memory (frames (inner a))).

(** The contents of an area's pages. *)
Definition area_pages (h : Held) (w : World) (a : MapArea) : list (list Z) :=
  page_of h w <$> frames (inner a).

Lemma elem_of_own a p : p ∈ own a <-> InMemory p ∈ frames (inner a).
Proof.
  unfold own. rewrite elem_of_list_to_set, list_elem_of_omap. split.
  - intros (f & Hf & E). destruct f; simplify_eq/=. done.
  - intros H. by exists (InMemory p).
Qed.

(** ** Table operations in the state *)

Lemma w_unmap_ok base raw h (w : World) t fs vpn :
  pt_inv base raw t (wphys w) -> 0 <= vpn -> world_ok base raw h w fs ->
  (forall p, InMemory p ∈ fs -> p ∉ pt_frames t) ->
  let w' := w_unmap t w vpn in
  world_ok base raw h w' fs /\ keeps h w h w' fs /\ phys_same (pt_frames t) (wphys w) (wphys w') /\
  pt_inv base raw t (wphys w') /\
  (forall k, pt_view t (wphys w') k = if decide (k = pt_slot vpn) then None else pt_view t (wphys w) k) /\
  prc (wphys w') = prc (wphys w) /\ pfa (wphys w') = pfa (wphys w).
Proof.
  intros Hi Hv Hw Hd. destruct (pt_unmap_spec _ _ _ _ vpn Hi Hv) as (Hi' & Hk & Hr & Hf & Hp).
  cbn zeta. unfold w_unmap.
  destruct (w_table_ok base raw h w fs (pt_frames t) (pt_unmap t (wphys w) vpn)) as (A & B & C);
    [done | by eapply pt_inv_phys | | done |].
  - intros p Hx. split; [by apply Hp | by rewrite Hr].
  - split_and!; done.
Qed.

Lemma w_set_pte_flags_ok base raw h (w : World) t fs vpn perm :
  pt_inv base raw t (wphys w) -> 0 <= vpn -> perm_ok perm -> world_ok base raw h w fs ->
  (forall p, InMemory p ∈ fs -> p ∉ pt_frames t) ->
  exists w', w_set_pte_flags t w vpn perm =
      (if pt_view t (wphys w) (pt_slot vpn) then Ok tt else Err tt, w') /\
    world_ok base raw h w' fs /\ keeps h w h w' fs /\ phys_same (pt_frames t) (wphys w) (wphys w') /\
    pt_inv base raw t (wphys w') /\
    (forall k, pt_view t (wphys w') k = if decide (k = pt_slot vpn)
       then (fun e => (e.1, perm)) <$> pt_view t (wphys w) k else pt_view t (wphys w) k) /\
    prc (wphys w') = prc (wphys w) /\ pfa (wphys w') = pfa (wphys w).
Proof.
  intros Hi Hv Hq Hw Hd. pose proof (pt_set_flags_spec _ _ _ _ vpn perm Hi Hv Hq) as Hs.
  unfold w_set_pte_flags. destruct (pt_set_pte_flags t (wphys w) vpn perm) as [r ph].
  destruct Hs as (-> & Hi' & Hk & Hr & Hf & Hp). exists (set_phys w ph). split; [done |].
  destruct (w_table_ok base raw h w fs (pt_frames t) ph) as (A & B & C);
    [done | by eapply pt_inv_phys | | done |].
  - intros p Hx. split; [by apply Hp | by rewrite Hr].
  - split_and!; done.
Qed.

Lemma w_map_ok base raw h (w : World) t fs vpn ppn perm :
  pt_inv base raw t (wphys w) -> 0 <= vpn -> ppn_ok ppn -> perm_ok perm ->
  pt_view t (wphys w) (pt_slot vpn) = None -> 2 <= fa_unallocated_frames (pfa (wphys w)) ->
  world_ok base raw h w fs -> (forall p, InMemory p ∈ fs -> p ∉ pt_frames t) ->
  exists t' w', w_map t w vpn ppn perm = Some (t', w') /\
    world_ok base raw h w' fs /\ keeps h w h w' fs /\ phys_same (pt_frames t) (wphys w) (wphys w') /\
    pt_inv base raw t' (wphys w') /\
    (forall k, pt_view t' (wphys w') k = if decide (k = pt_slot vpn) then Some (ppn, perm)
                                         else pt_view t (wphys w) k) /\
    (forall p, InMemory p ∈ fs -> p ∉ pt_frames t') /\
    pt_frames t ⊆ pt_frames t' /\
    (forall p, p ∈ pt_frames t' -> p ∈ pt_frames t \/ is_free raw (wphys w) p) /\
    fa_unallocated_frames (pfa (wphys w)) - 2 <= fa_unallocated_frames (pfa (wphys w')).
Proof.
  intros Hi Hv Hp Hq Hn Hu Hw Hd.
  destruct (pt_map_spec _ _ _ _ _ _ _ Hi Hv Hp Hq Hn Hu)
    as (t' & ph & E & Hi' & Hk & Hsub & Hfr & Hs & Hu1 & _).
  unfold w_map. rewrite E. cbn. exists t', (set_phys w ph). split; [done |].
  assert (Hd' : forall p, InMemory p ∈ fs -> p ∉ pt_frames t').
  { intros p Hf Ht. destruct (Hfr p Ht) as [? | Hfree]; [by eapply Hd |].
    destruct (world_ok_mem _ _ _ _ _ _ Hw Hf) as (n & Hl & _).
    apply Hfree, elem_of_union_l, elem_of_dom. eauto. }
  destruct (w_table_ok base raw h w fs (pt_frames t') ph) as (A & B & C);
    [done | by eapply pt_inv_phys | done | done |].
  split_and!; try done.
  intros p n Hl Hx. apply C; [done |]. intros Ht. destruct (Hfr p Ht) as [? | Hfree]; [done |].
  apply Hfree, elem_of_union_l, elem_of_dom. eauto.
Qed.

(** ** One page *)

(** The lists of frames around the page [i]. *)
Lemma frames_split (fs rest : list Frame) i f :
  fs !! i = Some f ->
  fs ++ rest ≡ₚ f :: (take i fs ++ drop (S i) fs ++ rest) /\
  forall g, <[i := g]> fs ++ rest ≡ₚ g :: (take i fs ++ drop (S i) fs ++ rest).
Proof.
  intros Hi. pose proof (lookup_lt_Some _ _ _ Hi). split; [| intros g].
  - rewrite <- (take_drop_middle fs i f Hi) at 1. rewrite <- (assoc_L (++)). cbn.
    by rewrite <- Permutation_middle.
  - rewrite insert_take_drop by done. rewrite <- (assoc_L (++)). cbn. by rewrite <- Permutation_middle.
Qed.

(** What the clean-up guarantees: nobody's page changes, [c] pages of the area
    are now compressed and [s] swapped out, and [n] more frames are free. *)
Record oom_post (base : Z) (raw : gset Z) (h : Held) (w : World) (t : T) (a : MapArea)
    (rest : list Frame) (h' : Held) (w' : World) (a' : MapArea) (c s n : Z) : Prop := {
  op_ok : mapped_ok base raw h' w' t a' rest;
  op_attrs : same_attrs a a';
  op_pages : area_pages h' w' a' = area_pages h w a;
  op_keeps : keeps h w h' w' rest;
  op_view : forall k, (forall vpn, area_has a vpn -> k <> pt_slot vpn) ->
    pt_view t (wphys w') k = pt_view t (wphys w) k;
  op_same : phys_same (pt_frames t ∪ own a) (wphys w) (wphys w');
  op_own : own a' ⊆ own a;
  op_counts : compressed (inner a') = compressed (inner a) +w c /\
              swapped (inner a') = swapped (inner a) +w s;
  op_pos : 0 <= c /\ 0 <= s /\ 0 <= n <= c + s;
  op_free : fa_unallocated_frames (pfa (wphys w')) = fa_unallocated_frames (pfa (wphys w)) + n
}.

Lemma wrap64_add_add a b c : a +w b +w c = a +w (b + c).
Proof. unfold wrapn. rewrite Z.add_mod_idemp_l by done. f_equal. lia. Qed.

Lemma same_attrs_has a a' vpn : same_attrs a a' -> area_has a' vpn <-> area_has a vpn.
Proof. intros (E & _). unfold area_has, area_start, area_end, lm_get_start, lm_get_end. by rewrite E. Qed.

Lemma same_attrs_set a l : vpn_range l = vpn_range (inner a) -> same_attrs a (set_inner a l).
Proof. by intros E. Qed.

Lemma same_attrs_trans a b c : same_attrs a b -> same_attrs b c -> same_attrs a c.
Proof. unfold same_attrs. intros (?&?&?&?&?) (?&?&?&?&?). split_and!; congruence. Qed.

(** Nothing but the list of candidates changed. *)
Lemma oom_post_refl base raw h w t a rest l :
  mapped_ok base raw h w t a rest ->
  vpn_range l = vpn_range (inner a) -> frames l = frames (inner a) ->
  compressed l = compressed (inner a) -> swapped l = swapped (inner a) ->
  Forall (fun i => 0 <= i) (active l) ->
  oom_post base raw h w t a rest h w (set_inner a l) 0 0 0.
Proof.
  intros [Hw Hp Ha Hd] E1 E2 E3 E4 Hact. destruct (ao_counts _ _ _ Ha) as [Hc Hs].
  assert (Es : area_start (set_inner a l) = area_start a) by (unfold area_start, lm_get_start; cbn; by rewrite E1).
  assert (Ee : area_end (set_inner a l) = area_end a) by (unfold area_end, lm_get_end; cbn; by rewrite E1).
  constructor; try done; [constructor | | | | lia..]; cbn [inner set_inner].
  - by rewrite E2.
  - done.
  - destruct Ha. constructor; unfold area_has; rewrite ?Es, ?Ee; cbn [inner set_inner];
      rewrite ?E2, ?E3, ?E4; try done.
  - by rewrite E2.
  - unfold area_pages. cbn [inner set_inner]. by rewrite E2.
  - intros q. rewrite !elem_of_own. cbn [inner set_inner]. by rewrite E2.
  - rewrite E3, E4, !Z.add_0_r. split; symmetry; by apply wrap64_small.
Qed.

Lemma oom_post_trans base raw h w t a rest h1 w1 a1 c1 s1 n1 h2 w2 a2 c2 s2 n2 :
  oom_post base raw h w t a rest h1 w1 a1 c1 s1 n1 ->
  oom_post base raw h1 w1 t a1 rest h2 w2 a2 c2 s2 n2 ->
  oom_post base raw h w t a rest h2 w2 a2 (c1 + c2) (s1 + s2) (n1 + n2).
Proof.
  intros [? Ha1 Hp1 Hk1 Hv1 Hs1 Ho1 [Hc1 Hw1] ? Hf1] [? Ha2 Hp2 Hk2 Hv2 Hs2 Ho2 [Hc2 Hw2] ? Hf2].
  constructor; try done.
  - by eapply same_attrs_trans.
  - congruence.
  - by eapply keeps_trans.
  - intros k Hk. rewrite Hv2, Hv1; [done | done |]. intros vpn Hvpn. apply Hk.
    by apply (same_attrs_has _ _ _ Ha1).
  - eapply phys_same_trans; [done |]. eapply phys_same_mono; [| done]. set_solver.
  - set_solver.
  - rewrite Hc2, Hw2, Hc1, Hw1, !wrap64_add_add. done.
  - lia.
  - lia.
Qed.

Lemma others_elem (fs rest : list Frame) i j g :
  fs !! j = Some g -> j <> i -> g ∈ take i fs ++ drop (S i) fs ++ rest.
Proof.
  intros Hj Hne. rewrite (assoc_L (++)). apply elem_of_app. left. apply elem_of_app.
  destruct (decide (j < i)%nat).
  - left. apply list_elem_of_lookup_2 with j. by rewrite lookup_take_lt.
  - right. apply list_elem_of_lookup_2 with (j - S i)%nat. rewrite lookup_drop.
    by replace (S i + (j - S i))%nat with j by lia.
Qed.

(** Replacing the frame [i] by one with the same contents. *)
Lemma insert_pages h w h' w' (fs rest : list Frame) i f g :
  fs !! i = Some f -> page_of h' w' g = page_of h w f ->
  keeps h w h' w' (take i fs ++ drop (S i) fs ++ rest) ->
  page_of (SS := SS) h' w' <$> <[i := g]> fs = page_of (ZS := ZS) h w <$> fs.
Proof.
  intros Hi Hg Hk. apply list_eq. intros j. rewrite !list_lookup_fmap.
  destruct (decide (j = i)) as [-> |].
  - rewrite list_lookup_insert_eq by by eapply lookup_lt_Some. rewrite Hi. cbn. by rewrite Hg.
  - rewrite list_lookup_insert_ne by done. destruct (fs !! j) as [x |] eqn:E; [| done]. cbn.
    by rewrite (Hk x) by by eapply others_elem.
Qed.

Lemma area_vpn t w a i f :
  area_ok t w a -> frames (inner a) !! i = Some f ->
  area_has a (area_start a + Z.of_nat i) /\
  area_start a +w Z.of_nat i = area_start a + Z.of_nat i.
Proof.
  intros Ha Hi. apply lookup_lt_Some in Hi. pose proof (ao_len _ _ _ Ha) as Hl.
  pose proof (ao_range _ _ _ Ha). unfold vlen in Hl. unfold area_has.
  split; [lia |]. apply wrap64_small. lia.
Qed.

(** A frame of the state drops out of memory: the table does not notice. *)
Lemma pt_stable_same base raw t ph ph' X :
  pt_inv base raw t ph -> phys_inv base raw ph' -> phys_same X ph ph' ->
  (forall p, p ∈ pt_frames t -> p ∉ X) ->
  pt_inv base raw t ph' /\ forall k, pt_view t ph' k = pt_view t ph k.
Proof.
  intros Hi Hp Hs Hx. apply (pt_stable base raw); [done | done |].
  intros p Ht. destruct (Hs p 1%nat) as [Hl He]; [by eapply pt_inv_frames | by apply Hx |]. done.
Qed.

(** The area after the entry of page [i] has been taken out of the table. *)
Lemma area_ok_unmapped t w w' a i f l :
  area_ok t w a -> (i < length (frames (inner a)))%nat -> in_memory f = None ->
  (forall k, pt_view t (wphys w') k =
    if decide (k = pt_slot (area_start a + Z.of_nat i)) then None else pt_view t (wphys w) k) ->
  vpn_range l = vpn_range (inner a) -> frames l = <[i := f]> (frames (inner a)) ->
  Forall (fun i => 0 <= i) (active l) -> u64 (compressed l) -> u64 (swapped l) ->
  area_ok t w' (set_inner a l).
Proof.
  intros Ha Hi Hf Hk Er Ef Hact Hc Hs.
  assert (E1 : area_start (set_inner a l) = area_start a) by (unfold area_start, lm_get_start; cbn; by rewrite Er).
  assert (E2 : area_end (set_inner a l) = area_end a) by (unfold area_end, lm_get_end; cbn; by rewrite Er).
  pose proof (ao_range _ _ _ Ha) as Hr. pose proof (ao_len _ _ _ Ha) as Hl. unfold vlen in Hl.
  constructor; unfold area_has; rewrite ?E1, ?E2; cbn [inner set_inner]; rewrite ?Ef; [done | | | done | done |].
  - unfold vlen. by rewrite length_insert.
  - apply Ha.
  - intros j g Hj. rewrite Hk. destruct (decide (j = i)) as [-> |].
    + rewrite list_lookup_insert_eq in Hj by done. injection Hj as <-. by rewrite decide_True.
    + rewrite list_lookup_insert_ne in Hj by done. pose proof (lookup_lt_Some _ _ _ Hj).
      rewrite decide_False; [by apply Ha |]. intros Hs'.
      apply (ao_slots _ _ _ Ha) in Hs'; unfold area_has; lia.
Qed.

(** The frame [i] replaced by one that is not in memory, and its entry taken
    out of the table. *)
Lemma drop_entry_ok base raw h w t a rest i p h1 w1 f l :
  mapped_ok base raw h w t a rest -> frames (inner a) !! i = Some (InMemory p) ->
  let fs := take i (frames (inner a)) ++ drop (S i) (frames (inner a)) ++ rest in
  world_ok base raw h1 w1 (f :: fs) -> keeps h w h1 w1 fs -> phys_same {[p]} (wphys w) (wphys w1) ->
  in_memory f = None ->
  vpn_range l = vpn_range (inner a) -> frames l = <[i := f]> (frames (inner a)) ->
  Forall (fun i => 0 <= i) (active l) -> u64 (compressed l) -> u64 (swapped l) ->
  let w2 := w_unmap t w1 (area_start a + Z.of_nat i) in
  mapped_ok base raw h1 w2 t (set_inner a l) rest /\
  page_of h1 w2 f = page_of h1 w1 f /\ keeps h w h1 w2 fs /\
  (forall k, pt_view t (wphys w2) k =
     if decide (k = pt_slot (area_start a + Z.of_nat i)) then None else pt_view t (wphys w) k) /\
  phys_same (pt_frames t ∪ own a) (wphys w) (wphys w2) /\
  own (set_inner a l) ⊆ own a /\ pfa (wphys w2) = pfa (wphys w1).
Proof.
  intros [Hw Hpt Ha Hd] Hi fs Eok Ek Es Hf Er Efs Hact Hc Hs.
  destruct (frames_split (frames (inner a)) rest i _ Hi) as [Hp0 Hperm]. fold fs in Hp0, Hperm.
  destruct (area_vpn _ _ _ _ _ Ha Hi) as [Hhas _]. unfold area_has in Hhas.
  assert (Hp : p ∉ pt_frames t).
  { apply Hd, elem_of_app. left. by eapply list_elem_of_lookup_2. }
  destruct (pt_stable_same base raw t (wphys w) (wphys w1) {[p]}) as [Hpt1 Hv1];
    [done | apply Eok | done | set_solver |].
  assert (Hsub : forall q, InMemory q ∈ f :: fs -> q ∉ pt_frames t).
  { intros q [E | Hq]%elem_of_cons; [by rewrite <- E in Hf |]. apply Hd. rewrite Hp0.
    apply elem_of_cons. by right. }
  pose proof (ao_range _ _ _ Ha) as Hrange.
  destruct (w_unmap_ok base raw h1 w1 t (f :: fs) (area_start a + Z.of_nat i))
    as (Hok2 & Hk2 & Hs2 & Hpt2 & Hv2 & Hr2 & Hf2); [done | lia | done | done |].
  cbn zeta. split_and!; [constructor | | | | | |].
  - cbn [inner set_inner]. rewrite Efs. eapply world_ok_perm; [| exact Hok2]. by rewrite Hperm.
  - done.
  - eapply (area_ok_unmapped t w); try done; [by eapply lookup_lt_Some |].
    intros k. rewrite Hv2, Hv1. done.
  - cbn [inner set_inner]. rewrite Efs. intros q Hq. apply Hsub. by rewrite <- Hperm.
  - apply Hk2, elem_of_cons. by left.
  - apply (keeps_trans _ _ h1 w1); [done |]. eapply keeps_sub; [done |]. set_solver.
  - intros k. by rewrite Hv2, Hv1.
  - apply (phys_same_trans _ _ (wphys w1)); (eapply phys_same_mono; [| done]); [| set_solver].
    assert (p ∈ own a) by (apply elem_of_own; by eapply list_elem_of_lookup_2). set_solver.
  - intros q. rewrite !elem_of_own. cbn [inner set_inner]. rewrite Efs.
    intros (j & Hj)%list_elem_of_lookup_1. destruct (decide (j = i)) as [-> |].
    + rewrite list_lookup_insert_eq in Hj by by eapply lookup_lt_Some. by injection Hj as ->.
    + rewrite list_lookup_insert_ne in Hj by done. by eapply list_elem_of_lookup_2.
  - done.
Qed.

(** ** The loops *)

Context (debug : bool).

(** A turn that leaves the frame [i] as it was. *)
Lemma oom_step_keep base raw h w t a rest i f fs :
  mapped_ok base raw h w t a rest -> frames (inner a) !! i = Some f ->
  fs = <[i := f]> (frames (inner a)) ->
  oom_post base raw h w t a rest h w (set_inner a (lm_set_frames (inner a) fs)) 0 0 0.
Proof.
  intros H Hi ->. rewrite list_insert_id by done. apply oom_post_refl; try done.
  apply (ao_active _ _ _ (mo_area _ _ _ _ _ _ _ H)).
Qed.

(** A turn that evicts the frame [i]: [l] is the map with the frame replaced and
    a counter adjusted. *)
Lemma oom_step_evict base raw h w t a rest i p h1 w1 f l c s :
  mapped_ok base raw h w t a rest -> frames (inner a) !! i = Some (InMemory p) ->
  evicted base raw h w p (take i (frames (inner a)) ++ drop (S i) (frames (inner a)) ++ rest) h1 w1 f ->
  in_memory f = None ->
  vpn_range l = vpn_range (inner a) -> frames l = <[i := f]> (frames (inner a)) ->
  active l = active (inner a) ->
  compressed l = compressed (inner a) +w c -> swapped l = swapped (inner a) +w s ->
  0 <= c -> 0 <= s -> c + s = 1 ->
  oom_post base raw h w t a rest h1 (w_unmap t w1 (area_start a +w Z.of_nat i)) (set_inner a l) c s
    (if decide (refs_of w (InMemory p) = 1%nat) then 1 else 0).
Proof.
  intros H Hi He Hf E1 E2 E3 E4 E5 Hc Hs Hcs.
  destruct (area_vpn _ _ _ _ _ (mo_area _ _ _ _ _ _ _ H) Hi) as [Hhas ->].
  destruct (drop_entry_ok base raw h w t a rest i p h1 w1 f l H Hi)
    as (Hok & Hpg & Hk & Hv & Hsm & Ho & Hfa); try done; [apply He.. | | | |].
  - rewrite E3. apply (ao_active _ _ _ (mo_area _ _ _ _ _ _ _ H)).
  - rewrite E4. apply wrap64_bound.
  - rewrite E5. apply wrap64_bound.
  - constructor; [exact Hok | | | | | exact Hsm | exact Ho | | |].
    + by apply same_attrs_set.
    + unfold area_pages. cbn [inner set_inner]. rewrite E2. eapply insert_pages; [done | | exact Hk].
      rewrite Hpg. apply He.
    + eapply keeps_sub; [exact Hk |]. set_solver.
    + intros k Hk'. rewrite Hv, decide_False; [done |]. by apply Hk'.
    + by split.
    + case_decide; lia.
    + rewrite Hfa. apply He.
Qed.

Lemma set_inner_id (a : MapArea) : set_inner a (inner a) = a.
Proof. by destruct a. Qed.

(** The page [idx] leaves memory or stays; the frame it had is free then. *)
Lemma do_oom_step_ok base raw h w t a rest idx :
  mapped_ok base raw h w t a rest -> 0 <= idx ->
  exists a' w' h' c s, do_oom_step debug a t w idx = Some (a', w') /\
    oom_post base raw h w t a rest h' w' a' c s (c + s) /\ active (inner a') = active (inner a).
Proof.
  intros H H0. unfold do_oom_step. pose proof (ao_active _ _ _ (mo_area _ _ _ _ _ _ _ H)) as Hact.
  destruct (Z.leb_spec (vlen (frames (inner a))) idx).
  { exists a, w, h, 0, 0. split_and!; [done | | done]. rewrite <- (set_inner_id a) at 2.
    by apply oom_post_refl. }
  destruct (vec_get_is_Some (frames (inner a)) idx) as [f Hf]; [lia |]. rewrite Hf.
  apply vec_get_Some in Hf as [_ Hi]. cbn [mbind option_bind].
  destruct (in_memory f) as [p |] eqn:Em; cycle 1.
  { destruct f; try done; cbn; rewrite (vec_set_lookup _ _ _ _ H0 Hi); cbn;
      eexists _, _, h, 0, 0; split_and!; try done; by eapply oom_step_keep. }
  destruct f as [p' | | |]; try done. injection Em as ->.
  pose proof (world_ok_perm _ _ _ _ _ _ (proj1 (frames_split _ rest _ _ Hi)) (mo_world _ _ _ _ _ _ _ H)) as Hw.
  destruct (zip_ok debug _ _ _ _ _ _ Hw) as [(id & w' & h' & -> & Hc & He) | [[-> Hc] | [-> Hc]]];
    cbn [mbind option_bind]; rewrite (vec_set_lookup _ _ _ _ H0 Hi); cbn [mbind option_bind].
  - eexists _, _, h', 1, 0. split; [done |]. split; [| done].
    pose proof (oom_step_evict base raw h w t a rest _ p h' w' (Compressed id)
      (lm_set_compressed (lm_set_frames (inner a) (<[Z.to_nat idx := Compressed id]> (frames (inner a))))
        (compressed (inner a) +w 1)) 1 0 H Hi He) as Hp.
    rewrite decide_True, Z2Nat.id in Hp by done. apply Hp; try done; try lia.
    rewrite Z.add_0_r. symmetry. apply wrap64_small, (ao_counts _ _ _ (mo_area _ _ _ _ _ _ _ H)).
  - destruct (swap_out_ok debug _ _ _ _ _ _ Hw) as [(id & w' & h' & -> & _ & He) | [[-> _] | [_ Hc']]];
      [| | done]; cbn [mbind option_bind frames lm_set_frames];
      rewrite (list_insert_id _ _ _ Hi), (vec_set_lookup _ _ _ _ H0 Hi); cbn [mbind option_bind].
    + eexists _, _, h', 0, 1. split; [done |]. split; [| done].
      pose proof (oom_step_evict base raw h w t a rest _ p h' w' (SwappedOut id)
        (lm_set_swapped (lm_set_frames (inner a) (<[Z.to_nat idx := SwappedOut id]> (frames (inner a))))
          (swapped (inner a) +w 1)) 0 1 H Hi He) as Hp.
      rewrite decide_True, Z2Nat.id in Hp by done. apply Hp; try done; try lia.
      rewrite Z.add_0_r. symmetry. apply wrap64_small, (ao_counts _ _ _ (mo_area _ _ _ _ _ _ _ H)).
    + eexists _, _, h, 0, 0. split; [done |]. split; [| done]. by eapply oom_step_keep.
  - eexists _, _, h, 0, 0. split; [done |]. split; [| done]. by eapply oom_step_keep.
Qed.

Lemma force_swap_step_ok base raw h w t a rest idx :
  mapped_ok base raw h w t a rest -> 0 <= idx ->
  exists a' w' h' s n, force_swap_step debug a t w idx = Some (a', w') /\
    oom_post base raw h w t a rest h' w' a' 0 s n /\ active (inner a') = active (inner a).
Proof.
  intros H H0. unfold force_swap_step. pose proof (ao_active _ _ _ (mo_area _ _ _ _ _ _ _ H)) as Hact.
  destruct (Z.leb_spec (vlen (frames (inner a))) idx).
  { exists a, w, h, 0, 0. split_and!; [done | | done]. rewrite <- (set_inner_id a) at 2.
    by apply oom_post_refl. }
  destruct (vec_get_is_Some (frames (inner a)) idx) as [f Hf]; [lia |]. rewrite Hf.
  apply vec_get_Some in Hf as [_ Hi]. cbn [mbind option_bind].
  destruct (in_memory f) as [p |] eqn:Em; cycle 1.
  { destruct f; try done; cbn; rewrite (vec_set_lookup _ _ _ _ H0 Hi); cbn;
      eexists _, _, h, 0, 0; split_and!; try done; by eapply oom_step_keep. }
  destruct f as [p' | | |]; try done. injection Em as ->.
  pose proof (world_ok_perm _ _ _ _ _ _ (proj1 (frames_split _ rest _ _ Hi)) (mo_world _ _ _ _ _ _ _ H)) as Hw.
  destruct (force_swap_out_ok debug _ _ _ _ _ _ Hw) as [(id & w' & h' & -> & He) | ->];
    cbn [mbind option_bind]; rewrite (vec_set_lookup _ _ _ _ H0 Hi); cbn [mbind option_bind].
  - eexists _, _, h', 1, _. split; [done |]. split; [| done].
    pose proof (oom_step_evict base raw h w t a rest _ p h' w' (SwappedOut id)
      (lm_set_swapped (lm_set_frames (inner a) (<[Z.to_nat idx := SwappedOut id]> (frames (inner a))))
        (swapped (inner a) +w 1)) 0 1 H Hi He) as Hp.
    rewrite Z2Nat.id in Hp by done. apply Hp; try done; try lia.
    rewrite Z.add_0_r. symmetry. apply wrap64_small, (ao_counts _ _ _ (mo_area _ _ _ _ _ _ _ H)).
  - eexists _, _, h, 0, 0. split; [done |]. split; [| done]. by eapply oom_step_keep.
Qed.

Lemma set_active_ok base raw h w t a rest act :
  mapped_ok base raw h w t a rest -> Forall (fun i => 0 <= i) act ->
  oom_post base raw h w t a rest h w (set_inner a (lm_set_active (inner a) act)) 0 0 0.
Proof. intros. by apply oom_post_refl. Qed.

Lemma do_oom_loop_ok base raw rest t act : forall h w a,
  mapped_ok base raw h w t a rest -> Forall (fun i => 0 <= i) act ->
  exists a' w' h' c s, do_oom_loop debug act a t w = Some (a', w') /\
    oom_post base raw h w t a rest h' w' a' c s (c + s) /\ active (inner a') = [].
Proof.
  induction act as [| idx act IH]; intros h w a H Hact; cbn [do_oom_loop].
  - eexists _, _, h, 0, 0. split; [done |]. split; [by apply set_active_ok | done].
  - apply Forall_cons in Hact as [H0 Hact].
    pose proof (set_active_ok _ _ _ _ _ _ _ act H Hact) as P0.
    destruct (do_oom_step_ok _ _ _ _ _ _ _ idx (op_ok _ _ _ _ _ _ _ _ _ _ _ _ _ P0) H0)
      as (a1 & w1 & h1 & c1 & s1 & -> & P1 & Ea). cbn [mbind option_bind].
    destruct (IH h1 w1 a1 (op_ok _ _ _ _ _ _ _ _ _ _ _ _ _ P1) Hact)
      as (a2 & w2 & h2 & c2 & s2 & E & P2 & Eb).
    exists a2, w2, h2, (c1 + c2), (s1 + s2). split; [done |]. split; [| done].
    pose proof (oom_post_trans _ _ _ _ _ _ _ _ _ _ _ _ _ _ _ _ _ _ _ P0
      (oom_post_trans _ _ _ _ _ _ _ _ _ _ _ _ _ _ _ _ _ _ _ P1 P2)) as P.
    rewrite !Z.add_0_l in P. by replace (c1 + c2 + (s1 + s2)) with (c1 + s1 + (c2 + s2)) by lia.
Qed.

Lemma force_swap_loop_ok base raw rest t act : forall h w a,
  mapped_ok base raw h w t a rest -> Forall (fun i => 0 <= i) act ->
  exists a' w' h' s n, force_swap_loop debug act a t w = Some (a', w') /\
    oom_post base raw h w t a rest h' w' a' 0 s n /\ active (inner a') = [].
Proof.
  induction act as [| idx act IH]; intros h w a H Hact; cbn [force_swap_loop].
  - eexists _, _, h, 0, 0. split; [done |]. split; [by apply set_active_ok | done].
  - apply Forall_cons in Hact as [H0 Hact].
    pose proof (set_active_ok _ _ _ _ _ _ _ act H Hact) as P0.
    destruct (force_swap_step_ok _ _ _ _ _ _ _ idx (op_ok _ _ _ _ _ _ _ _ _ _ _ _ _ P0) H0)
      as (a1 & w1 & h1 & s1 & n1 & -> & P1 & Ea). cbn [mbind option_bind].
    destruct (IH h1 w1 a1 (op_ok _ _ _ _ _ _ _ _ _ _ _ _ _ P1) Hact)
      as (a2 & w2 & h2 & s2 & n2 & E & P2 & Eb).
    exists a2, w2, h2, (s1 + s2), (n1 + n2). split; [done |]. split; [| done].
    pose proof (oom_post_trans _ _ _ _ _ _ _ _ _ _ _ _ _ _ _ _ _ _ _ P0
      (oom_post_trans _ _ _ _ _ _ _ _ _ _ _ _ _ _ _ _ _ _ _ P1 P2)) as P.
    by rewrite !Z.add_0_l in P.
Qed.

(** The number both return is the number of pages evicted. *)
Lemma oom_count a b c s :
  u64 a -> u64 b -> 0 <= c + s < 2 ^ 64 -> (a +w c) +w (b +w s) -w a -w b = c + s.
Proof.
  intros Ha Hb Hcs. rewrite <- (wrap64_small (c + s)) by done. unfold wrapn.
  rewrite <- (Zplus_mod (a + c)), !Zminus_mod_idemp_l.
  replace ((a + c + (b + s)) mod 2 ^ 64 - a - b) with ((a + c + (b + s)) mod 2 ^ 64 - (a + b)) by lia.
  rewrite Zminus_mod_idemp_l. f_equal. lia.
Qed.

Lemma do_oom_ok base raw h w t a rest :
  mapped_ok base raw h w t a rest ->
  exists n a' w' h' c s, do_oom debug a t w = Some (n, a', w') /\
    oom_post base raw h w t a rest h' w' a' c s n /\ n = c + s /\ active (inner a') = [].
Proof.
  intros H. pose proof (mo_area _ _ _ _ _ _ _ H) as Ha.
  destruct (do_oom_loop_ok _ _ _ _ _ _ _ _ H (ao_active _ _ _ Ha)) as (a' & w' & h' & c & s & E & P & Ea).
  unfold do_oom. rewrite E. cbn [mbind option_bind].
  pose proof (op_free _ _ _ _ _ _ _ _ _ _ _ _ _ P) as Hf.
  destruct (op_counts _ _ _ _ _ _ _ _ _ _ _ _ _ P) as [-> ->].
  destruct (ao_counts _ _ _ Ha). destruct (op_pos _ _ _ _ _ _ _ _ _ _ _ _ _ P) as (? & ? & _).
  assert (c + s < 2 ^ 64).
  { assert (u64 (fa_unallocated_frames (pfa (wphys w')))) as Hb by apply wrap64_bound.
    pose proof (fa_unallocated_nonneg (pfa (wphys w))). unfold fits in Hb. lia. }
  rewrite oom_count by (done || lia). exists (c + s), a', w', h', c, s. done.
Qed.

Lemma force_swap_ok base raw h w t a rest :
  mapped_ok base raw h w t a rest ->
  exists n a' w' h' s m, force_swap debug a t w = Some (n, a', w') /\
    oom_post base raw h w t a rest h' w' a' 0 s m /\ n = wrap64 s /\ active (inner a') = [].
Proof.
  intros H. pose proof (mo_area _ _ _ _ _ _ _ H) as Ha.
  destruct (force_swap_loop_ok _ _ _ _ _ _ _ _ H (ao_active _ _ _ Ha)) as (a' & w' & h' & s & m & E & P & Ea).
  unfold force_swap. rewrite E. cbn [mbind option_bind].
  eexists _, a', w', h', s, m. split; [done |]. split; [done |]. split; [| done].
  destruct (op_counts _ _ _ _ _ _ _ _ _ _ _ _ _ P) as [_ ->].
  unfold wrapn. rewrite Zminus_mod_idemp_l. f_equal. lia.
Qed.
End Laws.
