(* ===== verification/MapAreaFault.v ===== *)
(** * Memory areas: bringing pages in

    Lazy allocation, copy on write, and the unmapping of single pages of
    [mm/map_area.rs], against the invariant of [MapAreaOom]. *)

From S2P Require Import Prelude Address Phys FrameAlloc PageTable PageStore Frames FileTrait.
From S2P Require Import MapArea MapAreaOom.

Section Laws.
Context {T ZS SS F : Type}.
Context `{!PageTable T, !PageTableSpec T, !PageStore ZS, !PageStoreSpec ZS}.
Context `{!PageStore SS, !PageStoreSpec SS, !File F (World ZS SS)}.
Notation World := (World ZS SS).
Notation MapArea := (MapArea F).

(** ** Indexing *)

Lemma lm_at l i f :
  0 <= lm_get_start l -> lm_get_start l + vlen (frames l) < 2 ^ 64 -> frames l !! i = Some f ->
  lm_idx l (lm_get_start l + Z.of_nat i) = Z.of_nat i /\
  lm_get l (lm_get_start l + Z.of_nat i) = Some f /\
  forall g, lm_put l (lm_get_start l + Z.of_nat i) g = Some (lm_set_frames l (<[i := g]> (frames l))).
Proof.
  intros H0 Hl Hi. pose proof (lookup_lt_Some _ _ _ Hi). unfold vlen in Hl.
  assert (E : lm_idx l (lm_get_start l + Z.of_nat i) = Z.of_nat i).
  { unfold lm_idx. replace (lm_get_start l + Z.of_nat i - lm_get_start l) with (Z.of_nat i) by lia.
    apply wrap64_small. lia. }
  unfold lm_get, lm_put. rewrite E. split; [done |]. split.
  - apply vec_get_Some. unfold vlen. rewrite Nat2Z.id. split; [lia | done].
  - intros g. rewrite (vec_set_lookup _ _ f) by (rewrite ?Nat2Z.id; done || lia). cbn. by rewrite Nat2Z.id.
Qed.

Lemma area_at t (w : World) (a : MapArea) i f :
  area_ok t w a -> frames (inner a) !! i = Some f ->
  lm_idx (inner a) (area_start a + Z.of_nat i) = Z.of_nat i /\
  lm_get (inner a) (area_start a + Z.of_nat i) = Some f /\
  forall g, lm_put (inner a) (area_start a + Z.of_nat i) g =
            Some (lm_set_frames (inner a) (<[i := g]> (frames (inner a)))).
Proof.
  intros Ha Hi. pose proof (ao_range _ _ _ Ha). pose proof (ao_len _ _ _ Ha) as Hl.
  apply lm_at; unfold area_start, area_end in *; [lia | lia | done].
Qed.

(** Every page of the area has a frame. *)
Lemma area_has_frame t (w : World) (a : MapArea) vpn :
  area_ok t w a -> area_has a vpn ->
  exists i f, frames (inner a) !! i = Some f /\ vpn = area_start a + Z.of_nat i.
Proof.
  intros Ha [H1 H2]. pose proof (ao_len _ _ _ Ha) as Hl. unfold vlen in Hl.
  destruct (lookup_lt_is_Some_2 (frames (inner a)) (Z.to_nat (vpn - area_start a))) as [f Hf]; [lia |].
  exists (Z.to_nat (vpn - area_start a)), f. split; [done | lia].
Qed.

Lemma lm_remove_at t (w : World) (a : MapArea) i f :
  area_ok t w a -> frames (inner a) !! i = Some f ->
  exists act, lm_remove_in_memory (inner a) (area_start a + Z.of_nat i) =
    Some (in_memory f,
      lm_set_frames (lm_set_active (inner a) act)
        (<[i := match f with InMemory _ => Unallocated | _ => f end]> (frames (inner a)))) /\
    Forall (fun i => 0 <= i) act.
Proof.
  intros Ha Hi. pose proof (ao_range _ _ _ Ha). pose proof (ao_len _ _ _ Ha) as Hl.
  set (act := base.filter (fun e => e <> lm_idx (inner a) (area_start a + Z.of_nat i)) (active (inner a))).
  exists act. split.
  - unfold lm_remove_in_memory. fold act.
    destruct (lm_at (lm_set_active (inner a) act) i f) as (_ & Hg & Hp);
      [unfold area_start, area_end, lm_get_start, lm_get_end in *; cbn in *; lia.. | done |].
    change (lm_get_start (lm_set_active (inner a) act)) with (area_start a) in Hg, Hp.
    rewrite Hg. cbn [mbind option_bind]. destruct f; cbn [take_in_memory in_memory]; by rewrite Hp.
  - apply Forall_forall. intros x Hx. unfold act in Hx. apply list_elem_of_filter in Hx as [_ Hx].
    pose proof (ao_active _ _ _ Ha) as Hact. rewrite Forall_forall in Hact. by apply Hact.
Qed.

(** ** The table's side *)

Lemma area_ok_mapped t (w : World) t' (w' : World) (a : MapArea) i p perm l :
  area_ok t w a -> (i < length (frames (inner a)))%nat ->
  (forall k, pt_view t' (wphys w') k =
    if decide (k = pt_slot (area_start a + Z.of_nat i)) then Some (p, perm) else pt_view t (wphys w) k) ->
  vpn_range l = vpn_range (inner a) -> frames l = <[i := InMemory p]> (frames (inner a)) ->
  Forall (fun i => 0 <= i) (active l) -> u64 (compressed l) -> u64 (swapped l) ->
  area_ok t' w' (set_inner a l).
Proof.
  intros Ha Hi Hk Er Ef Hact Hc Hs.
  assert (E1 : area_start (set_inner a l) = area_start a) by (unfold area_start, lm_get_start; cbn; by rewrite Er).
  assert (E2 : area_end (set_inner a l) = area_end a) by (unfold area_end, lm_get_end; cbn; by rewrite Er).
  pose proof (ao_range _ _ _ Ha) as Hr. pose proof (ao_len _ _ _ Ha) as Hl. unfold vlen in Hl.
  constructor; unfold area_has; rewrite ?E1, ?E2; cbn [inner set_inner]; rewrite ?Ef; [done | | | done | done |].
  - unfold vlen. by rewrite length_insert.
  - apply Ha.
  - intros j g Hj. rewrite Hk. destruct (decide (j = i)) as [-> |].
    + rewrite list_lookup_insert_eq in Hj by done. injection Hj as <-. by rewrite decide_True.
    + rewrite list_lookup_insert_ne in Hj by done. pose proof (lookup_lt_Some _ _ _ Hj).
      rewrite decide_False; [by apply Ha |]. intros Hs'.
      apply (ao_slots _ _ _ Ha) in Hs'; unfold area_has; lia.
Qed.

(** What bringing in the page [vpn] guarantees. *)
Record fault_post (base : Z) (raw : gset Z) (h : Held) (w : World) (t : T) (a : MapArea)
    (rest : list Frame) (vpn : Z) (h' : Held) (w' : World) (t' : T) (a' : MapArea) (p : Z) : Prop := {
  fp_ok : mapped_ok base raw h' w' t' a' rest;
  fp_attrs : same_attrs a a';
  fp_pages : area_pages h' w' a' = area_pages h w a;
  fp_keeps : keeps h w h' w' rest;
  fp_view : forall k, pt_view t' (wphys w') k =
    if decide (k = pt_slot vpn) then Some (p, map_perm a) else pt_view t (wphys w) k;
  fp_same : phys_same (pt_frames t ∪ own a) (wphys w) (wphys w');
  fp_private : refs_of w' (InMemory p) = 1%nat;
  fp_frames : forall i, vpn = area_start a + Z.of_nat i ->
    frames (inner a') = <[i := InMemory p]> (frames (inner a));
  fp_free : fa_unallocated_frames (pfa (wphys w)) - 3 <= fa_unallocated_frames (pfa (wphys w'))
}.

(** A new frame [p] with the contents of the page replaces the frame [i], and
    is entered in the table. *)
Lemma install_ok base raw h (w : World) (t : T) (a : MapArea) rest i f h1 w1 p l :
  mapped_ok base raw h w t a rest -> frames (inner a) !! i = Some f -> in_memory f = None ->
  perm_ok (map_perm a) ->
  reloaded base raw h w f (take i (frames (inner a)) ++ drop (S i) (frames (inner a)) ++ rest) h1 w1 p ->
  2 <= fa_unallocated_frames (pfa (wphys w1)) ->
  vpn_range l = vpn_range (inner a) -> frames l = <[i := InMemory p]> (frames (inner a)) ->
  Forall (fun i => 0 <= i) (active l) -> u64 (compressed l) -> u64 (swapped l) ->
  exists t' w', w_map t w1 (area_start a + Z.of_nat i) p (map_perm a) = Some (t', w') /\
    fault_post base raw h w t a rest (area_start a + Z.of_nat i) h1 w' t' (set_inner a l) p.
Proof.
  intros [Hw Hpt Ha Hd] Hi Hf Hperm [Rok Rn Rp Rk Rs Rf Rc Ru] Hu Er Efs Hact Hc Hs.
  destruct (frames_split (frames (inner a)) rest i _ Hi) as [Hp0 Hpm].
  destruct (area_vpn _ _ _ _ _ Ha Hi) as [Hhas _]. pose proof (ao_range _ _ _ Ha) as Hr.
  set (fs := take i (frames (inner a)) ++ drop (S i) (frames (inner a)) ++ rest) in *.
  destruct (pt_stable_same base raw t (wphys w) (wphys w1) ∅) as [Hpt1 Hv1];
    [done | apply Rok | done | set_solver |].
  assert (Hnone : pt_view t (wphys w) (pt_slot (area_start a + Z.of_nat i)) = None).
  { pose proof (ao_ptes _ _ _ Ha i f Hi) as Hx. rewrite Hf in Hx.
    by destruct (pt_view t (wphys w) (pt_slot (area_start a + Z.of_nat i))). }
  assert (Hdis : forall q, InMemory q ∈ InMemory p :: fs -> q ∉ pt_frames t).
  { intros q [[= ->] | Hq]%elem_of_cons.
    - intros Ht. apply (pt_inv_frames _ _ _ _ _ Hpt) in Ht. apply Rf, elem_of_union_l, elem_of_dom. eauto.
    - apply Hd. rewrite Hp0. apply elem_of_cons. by right. }
  unfold area_has in Hhas.
  destruct (world_ok_mem _ _ _ _ _ p Rok ltac:(apply elem_of_cons; by left)) as (n & _ & _ & Hppn).
  destruct (w_map_ok base raw h1 w1 t (InMemory p :: fs) (area_start a + Z.of_nat i) p (map_perm a))
    as (t' & w' & E & Mok & Mk & Ms & Mi & Mv & Md & _ & _ & Mu); [done | lia | done | done | by rewrite Hv1 | done..|].
  exists t', w'. split; [done |].
  assert (Hkeep : keeps h w h1 w' fs).
  { apply (keeps_trans _ _ h1 w1); [done |]. eapply keeps_sub; [done |]. set_solver. }
  assert (Hview : forall k, pt_view t' (wphys w') k =
    if decide (k = pt_slot (area_start a + Z.of_nat i)) then Some (p, map_perm a)
    else pt_view t (wphys w) k) by (intros k; by rewrite Mv, Hv1).
  constructor; [constructor | | | | | | | |].
  - cbn [inner set_inner]. rewrite Efs. eapply world_ok_perm; [| exact Mok]. by rewrite Hpm.
  - done.
  - eapply (area_ok_mapped t w); try done. by eapply lookup_lt_Some.
  - cbn [inner set_inner]. rewrite Efs. intros q Hq. apply Md. by rewrite <- Hpm.
  - exact (same_attrs_set _ _ Er).
  - unfold area_pages. cbn [inner set_inner]. rewrite Efs. eapply insert_pages; [done | | exact Hkeep].
    rewrite (Mk (InMemory p)) by (apply elem_of_cons; by left). done.
  - eapply keeps_sub; [exact Hkeep |]. unfold fs. set_solver.
  - done.
  - apply (phys_same_trans _ _ (wphys w1)); (eapply phys_same_mono; [| done]); set_solver.
  - cbn. destruct (Ms p 1%nat Rc) as [Hc1 _]; [| by rewrite Hc1].
    apply Hdis. apply elem_of_cons. by left.
  - intros j Hj. by replace j with i by lia.
  - rewrite Ru in Mu. lia.
Qed.

(** ** Unmapping one page *)

Context (debug : bool).

(** What taking the page [i] out guarantees. *)
Record unmap_post (base : Z) (raw : gset Z) (h : Held) (w : World) (t : T) (a : MapArea)
    (rest : list Frame) (i : nat) (f : Frame) (h' : Held) (w' : World) (a' : MapArea) : Prop := {
  up_ok : mapped_ok base raw h' w' t a' rest;
  up_attrs : same_attrs a a';
  up_frames : frames (inner a') = <[i := f]> (frames (inner a));
  up_keeps : keeps h w h' w' (take i (frames (inner a)) ++ drop (S i) (frames (inner a)) ++ rest);
  up_view : forall k, pt_view t (wphys w') k =
    if decide (k = pt_slot (area_start a + Z.of_nat i)) then None else pt_view t (wphys w) k;
  up_same : phys_same (pt_frames t ∪ own a) (wphys w) (wphys w');
  up_own : own a' ⊆ own a
}.

Lemma world_ok_unalloc base raw h (w : World) fs :
  world_ok base raw h w fs -> world_ok base raw h w (Unallocated :: fs).
Proof. apply world_ok_sub. intros f Hf. cbn. by rewrite decide_False. Qed.

Lemma pt_is_mapped_frame base raw h (w : World) (t : T) (a : MapArea) rest i f :
  mapped_ok base raw h w t a rest -> frames (inner a) !! i = Some f ->
  pt_is_mapped t (wphys w) (area_start a + Z.of_nat i) = bool_decide (is_Some (in_memory f)).
Proof.
  intros [_ Hpt Ha _] Hi. pose proof (ao_range _ _ _ Ha).
  rewrite (pt_is_mapped_view base raw) by (done || lia).
  apply bool_decide_ext. rewrite <- (ao_ptes _ _ _ Ha i f Hi). by rewrite fmap_is_Some.
Qed.

Lemma unmap_one_ok base raw h (w : World) (t : T) (a : MapArea) rest i f :
  mapped_ok base raw h w t a rest -> map_type a = Framed -> frames (inner a) !! i = Some f ->
  match f with
  | InMemory _ => exists a' w' h', unmap_one debug a t w (area_start a + Z.of_nat i) = Some (Ok tt, a', w') /\
      unmap_post base raw h w t a rest i Unallocated h' w' a'
  | _ => unmap_one debug a t w (area_start a + Z.of_nat i) = Some (Err NotMapped, a, w)
  end.
Proof.
  intros H Ht Hi. unfold unmap_one. rewrite (pt_is_mapped_frame _ _ _ _ _ _ _ _ _ H Hi).
  destruct f as [p | | |]; [| done..]. rewrite bool_decide_eq_true_2 by done. cbn [negb]. rewrite Ht.
  pose proof (mo_area _ _ _ _ _ _ _ H) as Ha.
  destruct (lm_remove_at _ _ _ _ _ Ha Hi) as (act & -> & Hact). cbn [mbind option_bind in_memory].
  pose proof (world_ok_perm _ _ _ _ _ _ (proj1 (frames_split _ rest _ _ Hi)) (mo_world _ _ _ _ _ _ _ H)) as Hw.
  destruct (Frame_drop_ok debug _ _ _ _ _ _ Hw) as (w1 & h1 & -> & Hok & Hk & Hm & Hr & _).
  cbn [mbind option_bind].
  set (l := lm_set_frames (lm_set_active (inner a) act) (<[i := Unallocated]> (frames (inner a)))).
  destruct (drop_entry_ok base raw h w t a rest i p h1 w1 Unallocated l H Hi)
    as (Hok2 & _ & Hk2 & Hv & Hsm & Ho & _); try done.
  - by apply world_ok_unalloc.
  - apply phys_same_drop; [done |]. intros q Hq. apply Hr. set_solver.
  - apply (ao_counts _ _ _ Ha).
  - apply (ao_counts _ _ _ Ha).
  - eexists _, _, h1. split; [done |]. constructor; done.
Qed.

(** ** Lazy allocation *)

Context (oom : Z -> World -> World).

(** A cleared frame for a page that has none. *)
Lemma alloc_unallocated_ok base raw h (w : World) (fs rest : list Frame) i :
  world_ok base raw h w (fs ++ rest) -> fs !! i = Some Unallocated ->
  0 < fa_unallocated_frames (pfa (wphys w)) ->
  exists p w1, w_frame_alloc oom w = (Some p, w1) /\
    reloaded base raw h w Unallocated (take i fs ++ drop (S i) fs ++ rest) h w1 p.
Proof.
  intros Hw Hi Hu. destruct (w_alloc_ok oom _ _ _ _ _ Hw Hu)
    as (p & w1 & E & Hok & Hn & _ & Hz & Hk & Hs & Hf & Hr & Hun).
  exists p, w1. split; [done |].
  destruct (frames_split fs rest i _ Hi) as [Hp _].
  constructor; [| | exact Hz | | exact Hs | exact Hf | | exact Hun].
  - eapply world_ok_sub; [| exact Hok]. intros f Hf'. cbn. rewrite Hp. cbn.
    rewrite (decide_False (P := f = Unallocated)) by done. lia.
  - intros Hin. apply Hn. rewrite Hp. apply elem_of_cons. by right.
  - eapply keeps_sub; [exact Hk |]. intros g Hg. rewrite Hp. apply elem_of_cons. by right.
  - rewrite Hr. apply lookup_insert_eq.
Qed.

(** The frame [i] of a map is filled. *)
Definition lm_filled (l : LinearMap) (i : nat) (p : Z) : LinearMap :=
  lm_set_frames (lm_set_active l (active l ++ [wrap16 (Z.of_nat i)])) (<[i := InMemory p]> (frames l)).

Lemma lm_alloc_at (w : World) l i p :
  0 <= lm_get_start l -> lm_get_start l + vlen (frames l) < 2 ^ 64 -> frames l !! i = Some Unallocated ->
  lm_alloc_in_memory debug l (lm_get_start l + Z.of_nat i) p w = Some (lm_filled l i p, w).
Proof.
  intros H0 Hl Hi. unfold lm_alloc_in_memory.
  destruct (lm_at _ _ _ H0 Hl Hi) as (-> & _ & _).
  destruct (lm_at (lm_set_active l (active l ++ [wrap16 (Z.of_nat i)])) i Unallocated)
    as (_ & Hg & Hp); [done | done | done |].
  change (lm_get_start (lm_set_active _ _)) with (lm_get_start l) in Hg, Hp.
  rewrite Hg. cbn. by rewrite Hp.
Qed.

Lemma area_bounds t (w : World) (a : MapArea) :
  area_ok t w a ->
  0 <= lm_get_start (inner a) /\ lm_get_start (inner a) + vlen (frames (inner a)) < 2 ^ 64.
Proof.
  intros Ha. pose proof (ao_range _ _ _ Ha). pose proof (ao_len _ _ _ Ha).
  unfold area_start, area_end in *. lia.
Qed.

Lemma active_snoc_ok t (w : World) (a : MapArea) x :
  area_ok t w a -> Forall (fun i => 0 <= i) (active (inner a) ++ [wrap16 x]).
Proof.
  intros Ha. apply Forall_app. split; [apply (ao_active _ _ _ Ha) |].
  constructor; [| constructor]. by apply (wrapn_bound 16).
Qed.

Lemma map_one_zeroed_ok base raw h (w : World) (t : T) (a : MapArea) rest i :
  mapped_ok base raw h w t a rest -> frames (inner a) !! i = Some Unallocated ->
  perm_ok (map_perm a) -> 3 <= fa_unallocated_frames (pfa (wphys w)) ->
  exists p a' t' w', map_one_zeroed_unchecked oom debug a t w (area_start a + Z.of_nat i) =
      Some (Some p, a', t', w') /\
    fault_post base raw h w t a rest (area_start a + Z.of_nat i) h w' t' a' p.
Proof.
  intros H Hi Hperm Hu. pose proof (mo_area _ _ _ _ _ _ _ H) as Ha.
  destruct (alloc_unallocated_ok _ _ _ _ _ _ _ (mo_world _ _ _ _ _ _ _ H) Hi ltac:(lia)) as (p & w1 & E & Hre).
  unfold map_one_zeroed_unchecked. rewrite E. cbn [mbind option_bind].
  destruct (area_bounds _ _ _ Ha) as [Hb0 Hb1].
  unfold area_start. rewrite (lm_alloc_at _ _ _ _ Hb0 Hb1 Hi). cbn [mbind option_bind].
  destruct (install_ok base raw h w t a rest i Unallocated h w1 p (lm_filled (inner a) i p))
    as (t' & w' & E' & Hp); try done.
  - rewrite (re_free _ _ _ _ _ _ _ _ _ Hre). lia.
  - by eapply active_snoc_ok.
  - apply (ao_counts _ _ _ Ha).
  - apply (ao_counts _ _ _ Ha).
  - unfold area_start in E'. rewrite E'. by exists p, (set_inner a (lm_filled (inner a) i p)), t', w'.
Qed.

(** ** Copy on write *)

(** The shared case up to the new mapping: the old entry is gone, [p] is a new
    frame, entered in its place. *)
Lemma cow_prepare base raw h (w : World) (t : T) (a : MapArea) rest i old :
  mapped_ok base raw h w t a rest -> frames (inner a) !! i = Some (InMemory old) ->
  perm_ok (map_perm a) -> 3 <= fa_unallocated_frames (pfa (wphys w)) ->
  let vpn := area_start a + Z.of_nat i in
  let fs := take i (frames (inner a)) ++ drop (S i) (frames (inner a)) ++ rest in
  exists p w2 t' w3, w_frame_alloc_uninit oom (w_unmap t w vpn) = (Some p, w2) /\
    w_map t w2 vpn p (map_perm a) = Some (t', w3) /\
    world_ok base raw h w3 (InMemory p :: InMemory old :: fs) /\
    InMemory p ∉ InMemory old :: fs /\
    keeps h w h w3 (InMemory old :: fs) /\
    phys_same (pt_frames t) (wphys w) (wphys w3) /\
    pt_inv base raw t' (wphys w3) /\
    (forall k, pt_view t' (wphys w3) k =
       if decide (k = pt_slot vpn) then Some (p, map_perm a) else pt_view t (wphys w) k) /\
    (forall q, InMemory q ∈ InMemory p :: InMemory old :: fs -> q ∉ pt_frames t') /\
    prc (wphys w3) !! p = Some 1%nat /\ prc (wphys w) !! p = None /\
    fa_unallocated_frames (pfa (wphys w)) - 3 <= fa_unallocated_frames (pfa (wphys w3)).
Proof.
  intros [Hw Hpt Ha Hd] Hi Hperm Hu vpn fs.
  destruct (frames_split (frames (inner a)) rest i _ Hi) as [Hp0 _]. fold fs in Hp0.
  destruct (area_vpn _ _ _ _ _ Ha Hi) as [Hhas _]. pose proof (ao_range _ _ _ Ha) as Hr.
  unfold area_has in Hhas. fold vpn in Hhas.
  pose proof (world_ok_perm _ _ _ _ _ _ Hp0 Hw) as Hw0.
  assert (Hd0 : forall q, InMemory q ∈ InMemory old :: fs -> q ∉ pt_frames t).
  { intros q Hq. apply Hd. by rewrite Hp0. }
  destruct (w_unmap_ok base raw h w t (InMemory old :: fs) vpn)
    as (Uok & Uk & Us & Ui & Uv & Ur & Uf); [done | lia | done | done |].
  destruct (w_alloc_uninit_ok oom _ _ _ _ _ Uok) as
    (p & w2 & E2 & Aok & An & Ap & Ak & As & Af & Ar & Au); [rewrite Uf; lia |].
  destruct (pt_stable_same base raw t (wphys (w_unmap t w vpn)) (wphys w2) ∅) as [Ai Av];
    [done | apply Aok | done | set_solver |].
  assert (Hd2 : forall q, InMemory q ∈ InMemory p :: InMemory old :: fs -> q ∉ pt_frames t).
  { intros q [[= ->] | Hq]%elem_of_cons; [| by apply Hd0].
    intros Ht. apply (pt_inv_frames _ _ _ _ _ Ui) in Ht. apply Af, elem_of_union_l, elem_of_dom. eauto. }
  destruct (w_map_ok base raw h w2 t (InMemory p :: InMemory old :: fs) vpn p (map_perm a))
    as (t' & w3 & E3 & Mok & Mk & Ms & Mi & Mv & Md & _ & _ & Mu); [done | lia | done | done | | | done | done |].
  { by rewrite Av, Uv, decide_True. }
  { rewrite Au, Uf. lia. }
  exists p, w2, t', w3. split_and!; try done.
  - apply (keeps_trans _ _ h w2); [by apply (keeps_trans _ _ h (w_unmap t w vpn)) |].
    eapply keeps_sub; [exact Mk |]. set_solver.
  - apply (phys_same_trans _ _ (wphys w2)); [| done].
    apply (phys_same_trans _ _ (wphys (w_unmap t w vpn))); [done |].
    eapply phys_same_mono; [| done]. set_solver.
  - intros k. rewrite Mv, Av, Uv. by repeat case_decide.
  - destruct (Ms p 1%nat) as [Hc _]; [| | done].
    + rewrite Ar. apply lookup_insert_eq.
    + apply Hd2, elem_of_cons. by left.
  - rewrite <- Ur. apply not_elem_of_dom. intros Hx. by apply Af, elem_of_union_l.
  - rewrite Au, Uf in Mu. lia.
Qed.

(** The copy and the release of the old handle. *)
Lemma cow_finish base raw h (w : World) (t : T) old p fs :
  world_ok base raw h w (InMemory p :: InMemory old :: fs) -> InMemory p ∉ InMemory old :: fs ->
  pt_inv base raw t (wphys w) -> prc (wphys w) !! p = Some 1%nat ->
  (forall q, InMemory q ∈ InMemory p :: InMemory old :: fs -> q ∉ pt_frames t) ->
  exists w' h', Frame_drop debug
      (w_with_mem (fun m => put_bytes_array m p 0 (get_bytes_array m old)) w) (InMemory old) = Some w' /\
    world_ok base raw h' w' (InMemory p :: fs) /\
    page_of h' w' (InMemory p) = page_of h w (InMemory old) /\
    keeps h w h' w' fs /\ phys_same {[p; old]} (wphys w) (wphys w') /\
    pt_inv base raw t (wphys w') /\ (forall k, pt_view t (wphys w') k = pt_view t (wphys w) k) /\
    prc (wphys w') !! p = Some 1%nat /\
    fa_unallocated_frames (pfa (wphys w)) <= fa_unallocated_frames (pfa (wphys w')).
Proof.
  intros Hw Hn Hpt Hc Hd.
  assert (Hpo : page_ok (page_of h w (InMemory old))).
  { eapply page_of_ok; [exact Hw |]. apply elem_of_cons. right. apply elem_of_cons. by left. }
  destruct (w_put_ok _ _ _ _ _ _ _ Hw Hn Hpo) as (Pok & Pp & Pk & Ps & Pr & Pf).
  change (w_with_mem (fun m => put_bytes_array m p 0 (get_bytes_array m old)) w)
    with (w_with_mem (fun m => put_bytes_array m p 0 (page_of h w (InMemory old))) w).
  set (w4 := w_with_mem (fun m => put_bytes_array m p 0 (page_of h w (InMemory old))) w) in *.
  destruct (Frame_drop_ok debug base raw h w4 (InMemory old) (InMemory p :: fs)) as
    (w5 & h5 & E5 & Dok & Dk & Dm & Dr & Du & _).
  { eapply world_ok_perm; [apply Permutation_swap | exact Pok]. }
  exists w5, h5. split; [done |].
  assert (Hne : p <> old) by (intros ->; apply Hn, elem_of_cons; by left).
  assert (Hsame : phys_same {[p; old]} (wphys w) (wphys w5)).
  { apply (phys_same_trans _ _ (wphys w4)); [eapply phys_same_mono; [| exact Ps]; apply union_subseteq_l |].
    apply phys_same_drop; [done |]. intros q Hq. apply Dr. intros [= ->]. apply Hq. clear. set_solver. }
  destruct (pt_stable_same base raw t (wphys w) (wphys w5) {[p; old]}) as [Hi5 Hv5];
    [done | apply Dok | done | |].
  { intros q Hq Hx. assert (q = p \/ q = old) as [-> | ->] by (revert Hx; clear; set_solver).
    - eapply Hd; [| exact Hq]. apply elem_of_cons. by left.
    - eapply Hd; [| exact Hq]. apply elem_of_cons. right. apply elem_of_cons. by left. }
  split_and!; [done | | | done | done | done | |].
  - rewrite (Dk (InMemory p)) by (apply elem_of_cons; by left). exact Pp.
  - apply (keeps_trans _ _ h w4); eapply keeps_sub; [exact Pk | | exact Dk |]; clear; set_solver.
  - rewrite Dr by congruence. by rewrite Pr.
  - rewrite Du, Pf. case_decide; lia.
Qed.

(** The maps [copy_on_write] passes through: the frame taken out, then one put
    back. *)
Lemma lm_refill l i act p :
  lm_filled (lm_set_frames (lm_set_active l act) (<[i := Unallocated]> (frames l))) i p =
  lm_set_frames (lm_set_active l (act ++ [wrap16 (Z.of_nat i)])) (<[i := InMemory p]> (frames l)).
Proof. unfold lm_filled. cbn. by rewrite list_insert_insert_eq. Qed.

(** A page nobody else holds gets its permission back in place. *)
Lemma cow_private base raw h (w : World) (t : T) (a : MapArea) rest i old l :
  mapped_ok base raw h w t a rest -> frames (inner a) !! i = Some (InMemory old) ->
  perm_ok (map_perm a) -> refs_of w (InMemory old) = 1%nat ->
  vpn_range l = vpn_range (inner a) -> frames l = <[i := InMemory old]> (frames (inner a)) ->
  Forall (fun i => 0 <= i) (active l) -> u64 (compressed l) -> u64 (swapped l) ->
  exists w', w_set_pte_flags t w (area_start a + Z.of_nat i) (map_perm a) = (Ok tt, w') /\
    fault_post base raw h w t a rest (area_start a + Z.of_nat i) h w' t (set_inner a l) old.
Proof.
  intros [Hw Hpt Ha Hd] Hi Hperm Hc Er Ef Hact Hz Hs.
  destruct (area_vpn _ _ _ _ _ Ha Hi) as [Hhas _]. pose proof (ao_range _ _ _ Ha) as Hr.
  unfold area_has in Hhas.
  destruct (w_set_pte_flags_ok base raw h w t (frames (inner a) ++ rest) (area_start a + Z.of_nat i) (map_perm a))
    as (w' & E & Fok & Fk & Fs & Fi & Fv & Fr & Ff); [done | lia | done | done | done |].
  exists w'. pose proof (ao_ptes _ _ _ Ha i _ Hi) as He. cbn in He.
  destruct (pt_view t (wphys w) (pt_slot (area_start a + Z.of_nat i))) as [[q perm] |] eqn:Ev; [| done].
  injection He as ->. split; [done |].
  assert (Hview : forall k, pt_view t (wphys w') k =
    if decide (k = pt_slot (area_start a + Z.of_nat i)) then Some (old, map_perm a)
    else pt_view t (wphys w) k).
  { intros k. rewrite Fv. case_decide as Hk; [| done]. subst k. by rewrite Ev. }
  rewrite list_insert_id in Ef by done.
  constructor; [constructor | | | | | | | |].
  - cbn [inner set_inner]. by rewrite Ef.
  - done.
  - eapply (area_ok_mapped t w); try done; [by eapply lookup_lt_Some |]. by rewrite list_insert_id.
  - cbn [inner set_inner]. by rewrite Ef.
  - exact (same_attrs_set _ _ Er).
  - unfold area_pages. cbn [inner set_inner]. rewrite Ef. apply list_fmap_ext. intros j f Hj.
    apply Fk, elem_of_app. left. by eapply list_elem_of_lookup_2.
  - eapply keeps_sub; [exact Fk |]. clear. set_solver.
  - done.
  - eapply phys_same_mono; [| exact Fs]. apply union_subseteq_l.
  - revert Hc. cbn. by rewrite Fr.
  - intros j Hj. replace j with i by lia. cbn. rewrite Ef. by rewrite list_insert_id.
  - rewrite Ff. lia.
Qed.

Lemma phys_same_fresh A p old ph ph1 ph2 :
  phys_same A ph ph1 -> phys_same {[p; old]} ph1 ph2 -> prc ph !! p = None ->
  phys_same (A ∪ {[old]}) ph ph2.
Proof.
  intros H1 H2 Hn q n Hq Hx. apply not_elem_of_union in Hx as [Ha Ho%not_elem_of_singleton].
  destruct (H1 q n Hq Ha) as [Hq1 He1]. destruct (H2 q n Hq1) as [Hq2 He2].
  - rewrite not_elem_of_union, !not_elem_of_singleton. split; congruence.
  - split; [done |]. exact (page_eq_trans _ _ _ _ He2 He1).
Qed.

(** The shared case assembled. *)
Lemma cow_shared base raw h (w : World) (t : T) (a : MapArea) rest i old l p (t' : T) (w4 : World) h4 :
  let vpn := area_start a + Z.of_nat i in
  let fs := take i (frames (inner a)) ++ drop (S i) (frames (inner a)) ++ rest in
  mapped_ok base raw h w t a rest -> frames (inner a) !! i = Some (InMemory old) ->
  world_ok base raw h4 w4 (InMemory p :: fs) ->
  page_of h4 w4 (InMemory p) = page_of h w (InMemory old) -> keeps h w h4 w4 fs ->
  phys_same (pt_frames t ∪ {[old]}) (wphys w) (wphys w4) -> pt_inv base raw t' (wphys w4) ->
  (forall k, pt_view t' (wphys w4) k =
     if decide (k = pt_slot vpn) then Some (p, map_perm a) else pt_view t (wphys w) k) ->
  (forall q, InMemory q ∈ InMemory p :: fs -> q ∉ pt_frames t') ->
  prc (wphys w4) !! p = Some 1%nat ->
  fa_unallocated_frames (pfa (wphys w)) - 3 <= fa_unallocated_frames (pfa (wphys w4)) ->
  vpn_range l = vpn_range (inner a) -> frames l = <[i := InMemory p]> (frames (inner a)) ->
  Forall (fun i => 0 <= i) (active l) -> u64 (compressed l) -> u64 (swapped l) ->
  fault_post base raw h w t a rest vpn h4 w4 t' (set_inner a l) p.
Proof.
  intros vpn fs [Hw Hpt Ha Hd] Hi Hok Hp Hk Hs Hpt' Hv Hdis Hc Hun Er Ef Hact Hz Hsw.
  destruct (frames_split (frames (inner a)) rest i _ Hi) as [_ Hpm]. fold fs in Hpm.
  assert (old ∈ own a) by (apply elem_of_own; by eapply list_elem_of_lookup_2).
  constructor; [constructor | | | | | | | |].
  - cbn [inner set_inner]. rewrite Ef. eapply world_ok_perm; [| exact Hok]. by rewrite Hpm.
  - exact Hpt'.
  - apply (area_ok_mapped t w t' w4 a i p (map_perm a)); try assumption. by eapply lookup_lt_Some.
  - cbn [inner set_inner]. rewrite Ef. intros q Hq. apply Hdis. by rewrite <- Hpm.
  - exact (same_attrs_set _ _ Er).
  - unfold area_pages. cbn [inner set_inner]. rewrite Ef. exact (insert_pages _ _ _ _ _ _ _ _ _ Hi Hp Hk).
  - eapply keeps_sub; [exact Hk |]. unfold fs. clear. set_solver.
  - exact Hv.
  - eapply phys_same_mono; [| exact Hs]. clear Hp Hk. set_solver.
  - cbn. rewrite Hc. reflexivity.
  - intros j Hj. replace j with i by lia. exact Ef.
  - exact Hun.
Qed.

(** A private page needs no frame; for a shared one three are enough, the copy
    and two for the table. *)
Lemma copy_on_write_ok base raw h (w : World) (t : T) (a : MapArea) rest i old :
  mapped_ok base raw h w t a rest -> frames (inner a) !! i = Some (InMemory old) ->
  perm_ok (map_perm a) ->
  (refs_of w (InMemory old) <> 1%nat -> 3 <= fa_unallocated_frames (pfa (wphys w))) ->
  exists p a' t' w' h', copy_on_write oom debug a t w (area_start a + Z.of_nat i) =
      Some (Ok p, a', t', w') /\
    fault_post base raw h w t a rest (area_start a + Z.of_nat i) h' w' t' a' p /\
    (if decide (refs_of w (InMemory old) = 1%nat) then p = old else p <> old).
Proof.
  intros H Hi Hperm Hu. pose proof (mo_area _ _ _ _ _ _ _ H) as Ha.
  destruct (ao_counts _ _ _ Ha) as [Hcz Hcs]. destruct (area_bounds _ _ _ Ha) as [Hb0 Hb1].
  unfold copy_on_write. destruct (lm_remove_at _ _ _ _ _ Ha Hi) as (act & -> & Hact).
  cbn [mbind option_bind in_memory]. set (l0 := lm_set_frames _ _).
  assert (Hal : forall q (w1 : World), lm_alloc_in_memory debug l0 (area_start a + Z.of_nat i) q w1 =
            Some (lm_filled l0 i q, w1)).
  { intros q w1. apply (lm_alloc_at w1 l0); [done | | ].
    - unfold l0, lm_get_start, vlen in *. cbn in *. by rewrite length_insert.
    - cbn. apply list_lookup_insert_eq. by eapply lookup_lt_Some. }
  assert (Hactq : Forall (fun i => 0 <= i) (act ++ [wrap16 (Z.of_nat i)])).
  { apply Forall_app. split; [done |]. constructor; [by apply (wrapn_bound 16) | constructor]. }
  unfold strong_count. cbn [refs_of]. destruct (decide (default O (prc (wphys w) !! old) = 1%nat)) as [Hc | Hc].
  - rewrite Hal. cbn [mbind option_bind]. unfold l0. rewrite lm_refill.
    destruct (cow_private base raw h w t a rest i old
      (lm_set_frames (lm_set_active (inner a) (act ++ [wrap16 (Z.of_nat i)])) (<[i := InMemory old]> (frames (inner a)))))
      as (w' & -> & Hf); try done.
    cbn [unwrap mbind option_bind]. eexists _, _, _, _, h. split; [done |]. by split.
  - destruct (cow_prepare base raw h w t a rest i old H Hi Hperm (Hu Hc))
      as (p & w2 & t' & w3 & -> & E3 & Wok & Wn & Wk & Ws & Wi & Wv & Wd & Wc & Wfree & Wu).
    cbn [mbind option_bind]. rewrite Hal. cbn [mbind option_bind]. rewrite E3. cbn [mbind option_bind].
    destruct (cow_finish base raw h w3 t' old p _ Wok Wn Wi Wc Wd) as
      (w4 & h4 & -> & Fok & Fp & Fk & Fs & Fi & Fv & Fc & Fu).
    cbn [mbind option_bind]. eexists p, _, t', w4, h4. split; [done |].
    assert (Hne : p <> old) by (intros ->; apply Wn, elem_of_cons; by left).
    split; [| done]. unfold l0. rewrite lm_refill.
    eapply (cow_shared base raw h w t a rest i old _ p t' w4 h4 H Hi Fok); try assumption; try reflexivity.
    + rewrite Fp. apply Wk, elem_of_cons. by left.
    + apply (keeps_trans _ _ h w3); [| done]. eapply keeps_sub; [exact Wk |]. clear. set_solver.
    + exact (phys_same_fresh _ _ _ _ _ _ Ws Fs Wfree).
    + intros k. rewrite Fv. apply Wv.
    + intros q Hq. apply Wd. revert Hq. clear. set_solver.
    + lia.
Qed.
End Laws.
