(* ===== verification/MemorySet.v ===== *)
(** * Address spaces

    [MemorySet] of [mm/memory_set.rs]: a page table and the areas mapped in it,
    with the page-fault handler, the operations behind [mmap], [munmap],
    [mprotect] and [brk], the out-of-memory clean-up, the address spaces of
    programs and their copies at [fork]. [None] is a panic or undefined
    behaviour ([unwrap_unchecked] of an error). *)

From S2P Require Import Prelude Address Phys FrameAlloc PageTable IdAlloc PageStore Frames.
From S2P Require Import FileTrait MapArea.

(** Error numbers of [syscall/errno.rs]. *)
Definition ENOEXEC : Z := -8.
Definition ENOMEM : Z := -12.
Definition EACCES : Z := -13.
Definition EFAULT : Z := -14.

Definition ELF_DYN_BASE : Z := TASK_SIZE / 3 * 2.
Definition TICKS_PER_SEC : Z := 25.
(** [MMIO] of [hal/platform/riscv/qemu.rs]. *)
Definition MMIO : list (Z * Z) :=
  [(0x10000000, 0x1000); (0x10001000, 0x1000); (0x00101000, 0x1000); (0xC000000, 0x400000)].
(** [size_of::<TrapContext>()]: 32 general registers, 32 floating-point ones and
    the padded [fcsr], and five words. *)
Definition TRAP_CX_SIZE : Z := 560.

(** [x & !0xfff] and [x & !0x7]. *)
Definition page_down (x : Z) : Z := Z.land x (not64 0xfff).

Definition MP_RW : Z := Z.lor MP_R MP_W.
Definition MP_RU : Z := Z.lor MP_R MP_U.
Definition MP_RX : Z := Z.lor MP_R MP_X.
Definition MP_RWU : Z := Z.lor MP_RW MP_U.

(** [Vec::remove] and [Vec::insert]. *)
Definition vec_remove {A} (v : list A) (i : nat) : option (A * list A) :=
  x ← v !! i; Some (x, take i v ++ drop (S i) v).
Definition vec_insert {A} (v : list A) (i : nat) (x : A) : option (list A) :=
  if decide (i <= length v)%nat then Some (take i v ++ x :: drop i v) else None.

Section Space.
Context {T ZS SS F : Type} `{!PageTable T, !PageStore ZS, !PageStore SS, !File F (World ZS SS)}.
Notation World := (World ZS SS).
Notation MapArea := (MapArea F).
Context (oom : Z -> World -> World) (debug : bool).

Record MemorySet := mkMS { page_table : T; areas : list MapArea }.

Definition new_bare (w : World) : option (MemorySet * World) :=
  '(t, ph) ← pt_new (wphys w); Some (mkMS t [], set_phys w ph).
Definition ms_token (ms : MemorySet) : Z := pt_token (page_table ms).
Definition ms_translate (ms : MemorySet) (w : World) (vpn : Z) : option Z :=
  pt_translate (page_table ms) (wphys w) vpn.

(** A value of type [MapArea] going out of scope. *)
Definition area_drop (a : MapArea) (w : World) : option World := drop_all debug w (frames (inner a)).

(** ** [push] *)

(** The area's pages are mapped one by one; the bytes of [data] fill them. *)
Fixpoint push_data_loop (vpns : list Z) (a : MapArea) (t : T) (w : World) (data : list Z) (start : Z)
    : option (result unit (MemoryError * Z) * MapArea * T * World) :=
  match vpns with
  | [] => Some (Ok tt, a, t, w)
  | vpn :: vpns =>
      '(r, a, t, w) ← map_one oom debug a t w vpn;
      match r with
      | Err e => Some (Err e, a, t, w)
      | Ok ppn =>
          let end_ := start +w PAGE_SIZE in
          src ← slice data start (Z.min (vlen data) end_);
          let w := w_with_mem (fun m => put_bytes_array m ppn 0 src) w in
          push_data_loop vpns a t w data end_
      end
  end.
Fixpoint push_loop (vpns : list Z) (a : MapArea) (t : T) (w : World)
    : option (result unit (MemoryError * Z) * MapArea * T * World) :=
  match vpns with
  | [] => Some (Ok tt, a, t, w)
  | vpn :: vpns =>
      '(r, a, t, w) ← map_one oom debug a t w vpn;
      match r with
      | Err e => Some (Err e, a, t, w)
      | Ok _ => push_loop vpns a t w
      end
  end.

(** The end of [push]: the area joins the set, or, after [?], is dropped. *)
Definition push_finish (ms : MemorySet)
    (r : result unit (MemoryError * Z) * MapArea * T * World)
    : option (result unit (MemoryError * Z) * MemorySet * World) :=
  let '(r, a, t, w) := r in
  match r with
  | Ok _ => Some (Ok tt, mkMS t (areas ms ++ [a]), w)
  | Err e => w ← area_drop a w; Some (Err e, mkMS t (areas ms), w)
  end.
Definition push (ms : MemorySet) (map_area : MapArea) (data : option (list Z)) (w : World)
    : option (result unit (MemoryError * Z) * MemorySet * World) :=
  let vpns := range_items (vpn_range (inner map_area)) in
  r ← match data with
      | Some data => push_data_loop vpns map_area (page_table ms) w data 0
      | None => push_loop vpns map_area (page_table ms) w
      end;
  push_finish ms r.

(** [push_with_offset]: the pages after the first. *)
Fixpoint push_offset_loop (vpns : list Z) (a : MapArea) (t : T) (w : World) (data : list Z) (start : Z)
    : option (result unit (MemoryError * Z) * MapArea * T * World) :=
  match vpns with
  | [] => Some (Ok tt, a, t, w)
  | vpn :: vpns =>
      '(r, a, t, w) ← map_one oom debug a t w vpn;
      match r with
      | Err e => Some (Err e, a, t, w)
      | Ok ppn =>
          let len := vlen data in
          let end_ := start +w PAGE_SIZE in
          bs ← (if start <? len then
                  if end_ <=? len then slice data start end_
                  else src ← slice data start len;
                       Some (src ++ replicate (Z.to_nat (PAGE_SIZE - vlen src)) 0)
                else Some zero_page);
          let w := w_with_mem (fun m => put_bytes_array m ppn 0 bs) w in
          push_offset_loop vpns a t w data end_
      end
  end.
(** The first page gets zeros up to [offset] and then the beginning of
    [data]; the rest of that page is left as the allocator returned it. *)
Definition push_with_offset (ms : MemorySet) (map_area : MapArea) (offset : Z) (data : list Z) (w : World)
    : option (result unit (MemoryError * Z) * MemorySet * World) :=
  match range_items (vpn_range (inner map_area)) with
  | [] => push_finish ms (Ok tt, map_area, page_table ms, w)
  | vpn :: vpns =>
      '(r, a, t, w) ← map_one oom debug map_area (page_table ms) w vpn;
      match r with
      | Err e => push_finish ms (Err e, a, t, w)
      | Ok first_ppn =>
          _ ← assert_ (offset <=? PAGE_SIZE);
          first_src ← slice data 0 (Z.min (vlen data) (PAGE_SIZE -w offset));
          let w := w_with_mem (fun m => put_bytes_array
                     (put_bytes_array m first_ppn 0 (replicate (Z.to_nat offset) 0))
                     first_ppn offset first_src) w in
          r ← push_offset_loop vpns a t w data (PAGE_SIZE -w offset);
          push_finish ms r
      end
  end.

(** [push_no_alloc]: on an error the area, moved in, is dropped. *)
Fixpoint push_no_alloc_loop (vpns : list Z) (a : MapArea) (t : T) (w : World)
    : option (result unit unit * T * World) :=
  match vpns with
  | [] => Some (Ok tt, t, w)
  | vpn :: vpns =>
      o ← lm_get_in_memory (inner a) vpn;
      ppn ← o;
      if negb (pt_is_mapped t (wphys w) vpn) then
        '(t, w) ← w_map t w vpn ppn (map_perm a); push_no_alloc_loop vpns a t w
      else Some (Err tt, t, w)
  end.
Definition push_no_alloc (ms : MemorySet) (map_area : MapArea) (w : World)
    : option (result unit unit * MemorySet * World) :=
  '(r, t, w) ← push_no_alloc_loop (range_items (vpn_range (inner map_area))) map_area (page_table ms) w;
  match r with
  | Ok _ => Some (Ok tt, mkMS t (areas ms ++ [map_area]), w)
  | Err _ => w ← area_drop map_area w; Some (Err tt, mkMS t (areas ms), w)
  end.

(** ** Areas of a space *)

Definition insert_framed_area (ms : MemorySet) (start_va end_va permission : Z) (w : World)
    : option (MemorySet * World) :=
  a ← area_new start_va end_va Framed permission None;
  '(r, ms, w) ← push ms a None w;
  _ ← unwrap r; Some (ms, w).

Definition insert_program_area (ms : MemorySet) (start_va permission : Z) (fs : list Frame) (w : World)
    : option (result unit unit * MemorySet * World) :=
  a ← area_from_existing_frame start_va Framed permission fs;
  push_no_alloc ms a w.

Definition remove_area_with_start_vpn (ms : MemorySet) (start_vpn : Z) (w : World)
    : option (result unit MemoryError * MemorySet * World) :=
  match list_find (fun a => area_start a = start_vpn) (areas ms) with
  | Some (idx, a) =>
      '(_, a, w) ← area_unmap debug a (page_table ms) w;
      '(_, as_) ← vec_remove (areas ms) idx;
      w ← area_drop a w;
      Some (Ok tt, mkMS (page_table ms) as_, w)
  | None => Some (Err AreaNotFound, ms, w)
  end.

(** [last_mmap_area_idx] for RISC-V: from the end, skipping [SKIP_NUM] areas;
    running out of areas is [unreachable!]. *)
Fixpoint last_mmap_loop (idx : nat) (rev_areas : list MapArea) : option (option nat) :=
  match rev_areas with
  | [] => None
  | a :: rest =>
      let start_vpn := area_start a in
      mmap_end ← vpn_from_va MMAP_END;
      mmap_base ← vpn_from_va MMAP_BASE;
      if mmap_end <=? start_vpn then last_mmap_loop (idx - 1) rest
      else if (mmap_base <=? start_vpn) && (start_vpn <? mmap_end) then Some (Some idx)
      else Some None
  end.
Definition last_mmap_area_idx (ms : MemorySet) : option (option nat) :=
  let n := Z.to_nat SKIP_NUM in
  last_mmap_loop (length (areas ms) - 1 - n) (drop n (reverse (areas ms))).

Definition highest_addr (ms : MemorySet) : option Z :=
  a ← last (areas ms); Some (va_from_vpn (area_end a)).

Definition contains_valid_buffer (ms : MemorySet) (buf size perm : Z) : bool :=
  let start_vpn := va_floor buf in
  let end_vpn := va_ceil (buf +w size) in
  existsb (fun a => flags_contains (map_perm a) (Z.lor perm MP_U) &&
                    (area_start a <=? start_vpn) && (end_vpn <=? area_end a)) (areas ms).

Definition recycle_data_pages (ms : MemorySet) (w : World) : option (MemorySet * World) :=
  w ← drop_all debug w (concat ((fun a => frames (inner a)) <$> areas ms));
  Some (mkMS (page_table ms) [], w).

(** ** The page-fault handler *)

(** The page is not mapped and the area maps a file. *)
Definition fault_file (a : MapArea) (file : F) (t : T) (w : World) (addr vpn : Z)
    : option (result Z MemoryError * MapArea * T * World) :=
  old_offset ← file_get_offset file w;
  let offset_in_area := va_from_vpn vpn -w va_from_vpn (area_start a) in
  if page_down (file_size file w +w PAGE_SIZE -w 1) <? old_offset +w offset_in_area
  then Some (Err BeyondEOF, a, t, w)
  else if flags_contains (map_perm a) MP_W then
    '(o, a, t, w) ← map_one_zeroed_unchecked oom debug a t w vpn;
    match o with
    | None => Some (Err BadAddress, a, t, w)
    | Some ppn =>
        let '(r, file) := file_lseek file w (to_signed64 offset_in_area) SEEK_CUR in
        _ ← unwrap r;
        '(bs, file, w) ← file_read file PAGE_SIZE w;
        let w := w_with_mem (fun m => put_bytes_array m ppn 0 bs) w in
        let '(r, file) := file_lseek file w (to_signed64 old_offset) SEEK_SET in
        _ ← unwrap r;
        Some (Ok (ppn_offset ppn (va_page_offset addr)),
              mkArea (inner a) (map_type a) (map_perm a) (writable_stripped a) (Some file), t, w)
    end
  else
    '(cache_ppn, w) ← file_single_cache file (old_offset +w offset_in_area) w;
    '(t, w) ← w_map t w vpn cache_ppn (map_perm a);
    '(l, w) ← lm_alloc_in_memory debug (inner a) vpn cache_ppn w;
    Some (Ok (ppn_offset cache_ppn (va_page_offset addr)), set_inner a l, t, w).

(** The page is not mapped and the area is anonymous. *)
Definition fault_anon (a : MapArea) (t : T) (w : World) (addr vpn : Z)
    : option (result Z MemoryError * MapArea * T * World) :=
  frame ← lm_get (inner a) vpn;
  match frame with
  | InMemory _ => None
  | Unallocated =>
      '(o, a, t, w) ← map_one_zeroed_unchecked oom debug a t w vpn;
      Some match o with
           | Some ppn => (Ok (ppn_offset ppn (va_page_offset addr)), a, t, w)
           | None => (Err BadAddress, a, t, w)
           end
  | Compressed _ =>
      '(r, frame, w) ← unzip oom debug frame w;
      l ← lm_put (inner a) vpn frame;
      ppn ← unwrap r;
      '(t, w) ← w_map t w vpn ppn (map_perm a);
      let l := lm_set_active l (active l ++ [wrap16 (vpn -w area_start a)]) in
      let l := lm_set_compressed l (compressed l -w 1) in
      Some (Ok (ppn_offset ppn (va_page_offset addr)), set_inner a l, t, w)
  | SwappedOut _ =>
      '(r, frame, w) ← swap_in oom debug frame w;
      l ← lm_put (inner a) vpn frame;
      ppn ← unwrap r;
      '(t, w) ← w_map t w vpn ppn (map_perm a);
      let l := lm_set_active l (active l ++ [wrap16 (vpn -w area_start a)]) in
      let l := lm_set_swapped l (swapped l -w 1) in
      Some (Ok (ppn_offset ppn (va_page_offset addr)), set_inner a l, t, w)
  end.

(** The fault within the area found. *)
Definition fault_area (a : MapArea) (t : T) (w : World) (addr vpn : Z)
    : option (result Z MemoryError * MapArea * T * World) :=
  if negb (pt_is_mapped t (wphys w) vpn) then
    match map_file a with
    | Some file => fault_file a file t w addr vpn
    | None => fault_anon a t w addr vpn
    end
  else if writable_stripped a then Some (Err NoPermission, a, t, w)
  else if flags_contains (map_perm a) MP_W || bool_decide (map_type a = Framed) then
    '(r, a, t, w) ← copy_on_write oom debug a t w vpn;
    Some (match r with
          | Ok ppn => Ok (ppn_offset ppn (va_page_offset addr))
          | Err e => Err e
          end, a, t, w)
  else Some (Err NoPermission, a, t, w).

(** The area a fault at [vpn] belongs to: user-readable and containing it. *)
Definition fault_match (vpn : Z) (a : MapArea) : Prop :=
  flags_contains (map_perm a) MP_RU = true /\ area_start a <= vpn < area_end a.
#[export] Instance fault_match_dec vpn a : Decision (fault_match vpn a).
Proof. unfold fault_match. apply _. Defined.

Definition do_page_fault (ms : MemorySet) (addr : Z) (w : World)
    : option (result Z MemoryError * MemorySet * World) :=
  let vpn := va_floor addr in
  match list_find (fault_match vpn) (areas ms) with
  | Some (i, a) =>
      '(r, a, t, w) ← fault_area a (page_table ms) w addr vpn;
      Some (r, mkMS t (<[i := a]> (areas ms)), w)
  | None => Some (Err BadAddress, ms, w)
  end.

(** [check_page_fault] for the current task's address space ([None]: no current
    task): three frames are reserved first. *)
Definition w_frame_reserve (num : Z) (w : World) : World :=
  let remain := fa_unallocated_frames (pfa (wphys w)) in
  if remain <? num then oom (num -w remain) w else w.
Definition check_page_fault (task : option MemorySet) (addr : Z) (w : World)
    : option (result Z Z * option MemorySet * World) :=
  let w := w_frame_reserve 3 w in
  match task with
  | None => Some (Err EFAULT, None, w)
  | Some ms =>
      '(r, ms, w) ← do_page_fault ms addr w;
      match r with
      | Ok pa => Some (Ok pa, Some ms, w)
      | Err BeyondEOF | Err NoPermission | Err BadAddress => Some (Err EFAULT, Some ms, w)
      | Err _ => None
      end
  end.

(** ** The out-of-memory clean-up *)

Fixpoint clean_loop (sel : MapArea -> bool) (op : MapArea -> T -> World -> option (Z * MapArea * World))
    (as_ : list MapArea) (t : T) (w : World) : option (Z * list MapArea * World) :=
  match as_ with
  | [] => Some (0, [], w)
  | a :: as_ =>
      '(n, a, w) ← (if sel a then op a t w else Some (0, a, w));
      '(m, as_, w) ← clean_loop sel op as_ t w;
      Some (n +w m, a :: as_, w)
  end.
Definition is_anon (a : MapArea) : bool := match map_file a with None => true | Some _ => false end.

Definition do_shallow_clean (ms : MemorySet) (w : World) : option (Z * MemorySet * World) :=
  '(n, as_, w) ← clean_loop
     (fun a => (Z.shiftr MMAP_BASE PAGE_SIZE_BITS <=? area_start a) &&
               (area_start a <? Z.shiftr TASK_SIZE PAGE_SIZE_BITS) && is_anon a)
     (do_oom debug) (areas ms) (page_table ms) w;
  Some (n, mkMS (page_table ms) as_, w).

Definition do_deep_clean (ms : MemorySet) (w : World) : option (Z * MemorySet * World) :=
  '(n, as_, w) ← clean_loop
     (fun a => (area_start a <? Z.shiftr TASK_SIZE PAGE_SIZE_BITS) && is_anon a)
     (fun a t w => if area_start a <? Z.shiftr MMAP_BASE PAGE_SIZE_BITS
                   then force_swap debug a t w else do_oom debug a t w)
     (areas ms) (page_table ms) w;
  Some (n, mkMS (page_table ms) as_, w).

(** ** [munmap] *)

(** The effect on one area: the area after it, whether it is to be removed,
    whether it must be broken apart. *)
Inductive munmap_kind := MkKeep | MkDelete | MkBreak.
Definition munmap_area (a : MapArea) (t : T) (w : World) (start_vpn end_vpn : Z)
    : option (bool * munmap_kind * MapArea * World) :=
  match check_overlapping a start_vpn end_vpn with
  | None => Some (false, MkKeep, a, w)
  | Some (overlap_start, overlap_end) =>
      if (overlap_start =? area_start a) && (overlap_end =? area_end a) then
        '(_, a, w) ← area_unmap debug a t w; Some (true, MkDelete, a, w)
      else if overlap_start =? area_start a then
        '(_, a, w) ← rshrink_to debug a t w (va_from_vpn overlap_end); Some (true, MkKeep, a, w)
      else if overlap_end =? area_end a then
        '(_, a, w) ← shrink_to debug a t w (va_from_vpn overlap_start); Some (true, MkKeep, a, w)
      else Some (true, MkBreak, a, w)
  end.
(** All areas in order: the areas with the mark to delete, whether one was
    found, and the index of the last one to break apart. *)
Fixpoint munmap_loop (idx : nat) (as_ : list MapArea) (t : T) (w : World) (start_vpn end_vpn : Z)
    : option (list (MapArea * bool) * bool * option nat * World) :=
  match as_ with
  | [] => Some ([], false, None, w)
  | a :: as_ =>
      '(found, k, a, w) ← munmap_area a t w start_vpn end_vpn;
      '(rest, found', brk, w) ← munmap_loop (S idx) as_ t w start_vpn end_vpn;
      let del := match k with MkDelete => true | _ => false end in
      let brk := match brk, k with None, MkBreak => Some idx | _, _ => brk end in
      Some ((a, del) :: rest, found || found', brk, w)
  end.
(** Deleting the marked areas, last one first, drops them. *)
Definition munmap_delete (marked : list (MapArea * bool)) (w : World) : option (list MapArea * World) :=
  w ← drop_all debug w
        (concat ((fun am => frames (inner am.1)) <$>
           reverse (base.filter (fun am => am.2 = true) marked)));
  Some (fst <$> base.filter (fun am => am.2 = false) marked, w).

Definition munmap (ms : MemorySet) (start len : Z) (w : World)
    : option (result unit Z * MemorySet * World) :=
  let start_va := start in
  let end_va := start +w len in
  if negb (va_aligned start_va) then Some (Err EINVAL, ms, w)
  else
    let start_vpn := va_floor start_va in
    let end_vpn := va_ceil end_va in
    let t := page_table ms in
    '(marked, found_area, break_apart_idx, w) ← munmap_loop 0 (areas ms) t w start_vpn end_vpn;
    '(as_, w) ← munmap_delete marked w;
    '(as_, w) ← match break_apart_idx with
      | None => Some (as_, w)
      | Some idx =>
          a ← as_ !! idx;
          '(r, a, w) ← area_into_three debug a w start_vpn end_vpn;
          let as_ := <[idx := a]> as_ in
          match r with
          | Ok (second, third) =>
              '(_, second, w) ← area_unmap debug second t w;
              as_ ← vec_insert as_ (idx + 1) third;
              w ← area_drop second w;
              Some (as_, w)
          | Err _ => Some (as_, foldl (fun w vpn => w_unmap t w vpn) w (seqZ start_vpn (end_vpn - start_vpn)))
          end
      end;
    Some (if found_area : bool then Ok tt else Err EINVAL, mkMS t as_, w).

(** ** [mmap], [sbrk] *)

(** Where [mmap] inserts: after the areas skipped at the front, before the first
    that starts no lower. *)
Fixpoint skip_while_idx (p : MapArea -> bool) (as_ : list MapArea) : nat :=
  match as_ with
  | [] => O
  | a :: as_ => if p a then S (skip_while_idx p as_) else O
  end.
Definition mmap_insert (as_ : list MapArea) (start_vpn mmap_end : Z) (a : MapArea) : list MapArea :=
  let k := skip_while_idx (fun a => mmap_end <=? area_start a) as_ in
  match list_find (fun a => start_vpn <= area_start a) (drop k as_) with
  | Some (i, _) => take (k + i) as_ ++ a :: drop (k + i) as_
  | None => as_ ++ [a]
  end.

(** [fd_get_ref fd]: the current task's descriptor table. *)
Definition mmap (fd_get_ref : Z -> result F Z) (ms : MemorySet) (start len prot flags fd offset : Z)
    (w : World) : option (Z * MemorySet * World) :=
  if negb (Z.land start 0xfff =? 0) then Some (EINVAL, ms, w)
  else
    let len := if len =? 0 then PAGE_SIZE else len in
    idx ← last_mmap_area_idx ms;
    (* the address and the set to insert into, or the result of a merge *)
    '(s, ms, w) ← (
      if flags_contains flags MAP_FIXED then
        '(r, ms, w) ← munmap ms start len w; _ ← unwrap r; Some (Ok start, ms, w)
      else match idx with
        | Some idx =>
            a ← areas ms !! idx;
            if flags_contains flags (Z.lor MAP_PRIVATE MAP_ANONYMOUS) &&
               (prot =? map_perm a) && is_anon a then
              let end_va := va_from_vpn (area_end a) in
              '(r, a, w) ← expand_to debug a w (end_va +w len);
              _ ← unwrap r;
              Some (Err (to_signed64 end_va), mkMS (page_table ms) (<[idx := a]> (areas ms)), w)
            else Some (Ok (va_from_vpn (area_end a)), ms, w)
        | None => Some (Ok MMAP_BASE, ms, w)
        end);
    match s with
    | Err addr => Some (addr, ms, w)
    | Ok start_va =>
        new_area ← area_new start_va (start_va +w len) Framed prot None;
        '(e, new_area) ← (
          if negb (flags_contains flags MAP_ANONYMOUS) then
            match fd_get_ref fd with
            | Ok f =>
                if negb (file_readable f) then Some (Some EACCES, new_area)
                else
                  let '(r, file) := file_lseek (file_deep_clone f) w (to_signed64 offset) SEEK_SET in
                  _ ← unwrap r;
                  Some (None, mkArea (inner new_area) Framed prot false (Some file))
            | Err errno => Some (Some errno, new_area)
            end
          else Some (None, new_area));
        match e with
        | Some errno => Some (errno, ms, w)
        | None =>
            start_vpn ← vpn_from_va start_va;
            mmap_end ← vpn_from_va MMAP_END;
            Some (to_signed64 start_va,
                  mkMS (page_table ms) (mmap_insert (areas ms) start_vpn mmap_end new_area), w)
        end
    end.

(** [increment] is an [isize]. *)
Definition sbrk (fd_get_ref : Z -> result F Z) (ms : MemorySet) (heap_pt heap_bottom increment : Z)
    (w : World) : option (Z * MemorySet * World) :=
  let old_pt := heap_pt in
  let new_pt := old_pt +w increment in
  if 0 <? increment then
    let limit := heap_bottom +w USER_HEAP_SIZE in
    if limit <? new_pt then Some (old_pt, ms, w)
    else
      '(_, ms, w) ← mmap fd_get_ref ms old_pt (wrap64 increment) MP_RWU
        (Z.lor (Z.lor MAP_ANONYMOUS MAP_FIXED) MAP_PRIVATE) usize_max 0 w;
      Some (new_pt, ms, w)
  else if increment <? 0 then
    if new_pt <=? heap_bottom then Some (old_pt, ms, w)
    else '(r, ms, w) ← munmap ms old_pt (wrap64 increment) w; _ ← unwrap r; Some (new_pt, ms, w)
  else Some (new_pt, ms, w).

(** [sys_sbrk] and [sys_brk] of [syscall/process.rs] on the task's [heap_pt]:
    the new [heap_pt], which is also what the call returns. *)
Definition sys_sbrk (fd_get_ref : Z -> result F Z) (ms : MemorySet) (heap_pt heap_bottom increment : Z)
    (w : World) : option (Z * MemorySet * World) :=
  sbrk fd_get_ref ms heap_pt heap_bottom increment w.
Definition sys_brk (fd_get_ref : Z -> result F Z) (ms : MemorySet) (heap_pt heap_bottom brk_addr : Z)
    (w : World) : option (Z * MemorySet * World) :=
  if brk_addr =? 0 then sbrk fd_get_ref ms heap_pt heap_bottom 0 w
  else
    '(former_addr, ms, w) ← sbrk fd_get_ref ms heap_pt heap_bottom 0 w;
    let grow_size := to_signed64 (brk_addr -w former_addr) in
    sbrk fd_get_ref ms heap_pt heap_bottom grow_size w.

Definition perm_from_prot (prot : Z) : option Z :=
  flags_from_bits MP_all (Z.lor (wrap8 (Z.shiftl (wrap8 prot) 1)) MP_U).
Definition sys_mmap (fd_get_ref : Z -> result F Z) (ms : MemorySet) (start len prot flags fd offset : Z)
    (w : World) : option (Z * MemorySet * World) :=
  prot ← perm_from_prot prot;
  flags ← flags_from_bits MapFlags_all flags;
  mmap fd_get_ref ms start len prot flags fd offset w.
Definition sys_munmap (ms : MemorySet) (start len : Z) (w : World) : option (Z * MemorySet * World) :=
  '(r, ms, w) ← munmap ms start len w;
  Some (match r with Ok _ => 0 | Err errno => errno end, ms, w).
(** ** [mprotect] *)

(** The new permission of the pages of an area, and of the area. *)
Fixpoint set_flags_loop (vpns : list Z) (t : T) (w : World) (pte_flags : Z) : World :=
  match vpns with
  | [] => w
  | vpn :: vpns => set_flags_loop vpns t (w_set_pte_flags t w vpn pte_flags).2 pte_flags
  end.
Definition protect_area (a : MapArea) (t : T) (w : World) (pte_flags area_perm : Z) (stripping_w : bool)
    : MapArea * World :=
  let w := set_flags_loop (range_items (vpn_range (inner a))) t w pte_flags in
  (mkArea (inner a) (map_type a) area_perm
     (if stripping_w then true else writable_stripped a) (map_file a), w).

(** One segment of [mprotect]: the part [seg_start, seg_end) of the area
    [area_idx] is split off and gets the permission; when the split fails only
    the entries of the table change. *)
Definition protect_segment (as_ : list MapArea) (t : T) (w : World) (area_idx : nat)
    (seg_start seg_end pte_flags area_perm : Z) (stripping_w : bool)
    : option (list MapArea * World) :=
  a ← as_ !! area_idx;
  let direct as_ w :=
    Some (as_, set_flags_loop (seqZ seg_start (seg_end - seg_start)) t w pte_flags) in
  if (seg_start =? area_start a) && (seg_end =? area_end a) then
    let '(a, w) := protect_area a t w pte_flags area_perm stripping_w in
    Some (<[area_idx := a]> as_, w)
  else if seg_start =? area_start a then
    '(r, a) ← area_into_two a w seg_end;
    match r with
    | Ok second =>
        let '(a, w) := protect_area a t w pte_flags area_perm stripping_w in
        as_ ← vec_insert (<[area_idx := a]> as_) (area_idx + 1) second; Some (as_, w)
    | Err _ => direct (<[area_idx := a]> as_) w
    end
  else if seg_end =? area_end a then
    '(r, a) ← area_into_two a w seg_start;
    match r with
    | Ok second =>
        let '(second, w) := protect_area second t w pte_flags area_perm stripping_w in
        as_ ← vec_insert (<[area_idx := a]> as_) (area_idx + 1) second; Some (as_, w)
    | Err _ => direct (<[area_idx := a]> as_) w
    end
  else
    '(r, a, w) ← area_into_three debug a w seg_start seg_end;
    match r with
    | Ok (second, third) =>
        let '(second, w) := protect_area second t w pte_flags area_perm stripping_w in
        as_ ← vec_insert (<[area_idx := a]> as_) (area_idx + 1) second;
        as_ ← vec_insert as_ (area_idx + 2) third; Some (as_, w)
    | Err _ => direct (<[area_idx := a]> as_) w
    end.

(** [while cur_vpn < end_vpn]: every turn moves [cur_vpn] up, so as much fuel
    as there are pages is enough. *)
Fixpoint mprotect_loop (fuel : nat) (ms : MemorySet) (w : World) (prot cur_vpn end_vpn : Z)
    : option (result unit Z * MemorySet * World) :=
  if negb (cur_vpn <? end_vpn) then Some (Ok tt, ms, w)
  else
    match fuel with
    | O => None
    | S fuel =>
        match list_find (fun a => area_start a <= cur_vpn < area_end a) (areas ms) with
        | None => Some (Err ENOMEM, ms, w)
        | Some (area_idx, a) =>
            let t := page_table ms in
            let seg_start := cur_vpn in
            let seg_end := Z.min end_vpn (area_end a) in
            let real_perm := default (map_perm a) (pt_get_pte_flags t (wphys w) seg_start) in
            let real_x := Z.land real_perm MP_X in
            let pte_flags := Z.lor (flags_difference prot MP_W) real_x in
            let area_perm := Z.lor prot real_x in
            let stripping_w := flags_contains (map_perm a) MP_W && negb (flags_contains area_perm MP_W) in
            '(as_, w) ← protect_segment (areas ms) t w area_idx seg_start seg_end
                          pte_flags area_perm stripping_w;
            mprotect_loop fuel (mkMS t as_) w prot seg_end end_vpn
        end
    end.
Definition mprotect (ms : MemorySet) (addr len prot : Z) (w : World)
    : option (result unit Z * MemorySet * World) :=
  let start_va := addr in
  let end_va := addr +w len in
  if negb (va_aligned start_va) then Some (Err EINVAL, ms, w)
  else if len =? 0 then Some (Ok tt, ms, w)
  else
    prot ← perm_from_prot prot;
    let start_vpn := va_floor start_va in
    let end_vpn := va_ceil end_va in
    mprotect_loop (Z.to_nat (end_vpn - start_vpn)) ms w prot start_vpn end_vpn.
Definition sys_mprotect (ms : MemorySet) (addr len prot : Z) (w : World)
    : option (Z * MemorySet * World) :=
  '(r, ms, w) ← mprotect ms addr len prot w;
  Some (match r with Ok _ => 0 | Err errno => errno end, ms, w).
End Space.
Arguments MemorySet : clear implicits.
