(* ===== verification/UserSpace.v ===== *)
(** * The address spaces of programs

    The rest of [mm/memory_set.rs]: the kernel's own space ([new_kernel]), the
    loading of an ELF file ([map_elf], [from_elf], [load_elf_interp] of
    [task/elf.rs]), the copy made by [fork] ([from_existing_user]), the stack
    and trap context of a thread ([alloc_user_res], [dealloc_user_res]) and the
    initial stack of a program ([create_elf_tables]). The [xmas_elf] parser and
    the linker's symbols are parameters. *)

From S2P Require Import Prelude Address Phys FrameAlloc PageTable IdAlloc PageStore Frames.
From S2P Require Import FileTrait MapArea MemorySet.

Definition ELIBBAD : Z := -80.

(** [ELFInfo] of [task/elf.rs]. *)
Record ELFInfo := mkELFInfo {
  ei_entry : Z; ei_interp_entry : option Z; ei_base : Z;
  ei_phnum : Z; ei_phent : Z; ei_phdr : Z
}.

(** What [xmas_elf] reports of a file: the parts of the header and of the
    program headers the kernel reads. [elf_ptr] is the address of the image. *)
Inductive elf_type := ElfExecutable | ElfSharedObject | ElfOther.
Inductive ph_type := PhLoad | PhInterp | PhOther.
#[export] Instance ph_type_eq_dec : EqDecision ph_type.
Proof. solve_decision. Defined.
Record ProgramHeader := mkPH {
  ph_ty : ph_type; ph_virtual_addr : Z; ph_mem_size : Z; ph_offset : Z; ph_file_size : Z;
  ph_read : bool; ph_write : bool; ph_execute : bool
}.
Record ElfFile := mkElf {
  elf_ty : elf_type; elf_entry_point : Z; elf_ph_count : Z; elf_ph_entry_size : Z;
  elf_ph_offset : Z; elf_phs : list ProgramHeader; elf_input : list Z; elf_ptr : Z
}.

(** [AuxvType], the entries [create_elf_tables] writes. *)
Definition AT_NULL : Z := 0.
Definition AT_PHDR : Z := 3.
Definition AT_PHENT : Z := 4.
Definition AT_PHNUM : Z := 5.
Definition AT_PAGESZ : Z := 6.
Definition AT_BASE : Z := 7.
Definition AT_FLAGS : Z := 8.
Definition AT_ENTRY : Z := 9.
Definition AT_UID : Z := 11.
Definition AT_EUID : Z := 12.
Definition AT_GID : Z := 13.
Definition AT_EGID : Z := 14.
Definition AT_HWCAP : Z := 16.
Definition AT_CLKTCK : Z := 17.
Definition AT_SECURE : Z := 23.
Definition AT_RANDOM : Z := 25.
Definition AT_EXECFN : Z := 31.

(** [auxv]: the auxiliary vector as (type, value) pairs. *)
Definition auxv (elf_info : ELFInfo) (random_bits_ptr execfn : Z) : list (Z * Z) :=
  [(AT_HWCAP, 0x112d); (AT_PAGESZ, PAGE_SIZE); (AT_CLKTCK, TICKS_PER_SEC);
   (AT_PHDR, ei_phdr elf_info); (AT_PHENT, ei_phent elf_info); (AT_PHNUM, ei_phnum elf_info);
   (AT_BASE, ei_base elf_info); (AT_FLAGS, 0); (AT_ENTRY, ei_entry elf_info);
   (AT_UID, 0); (AT_EUID, 0); (AT_GID, 0); (AT_EGID, 0); (AT_SECURE, 0);
   (AT_RANDOM, random_bits_ptr); (AT_EXECFN, execfn); (AT_NULL, 0)].

(** The words of a slice of [usize] as bytes. *)
Definition words (ws : list Z) : list Z := concat (le_split 8 <$> ws).

(** The strings are copied downwards from [sp]; the user addresses of their
    beginnings are collected. *)
Fixpoint push_strings (m : memory) (sp virt_phys_offset : Z) (strs : list (list Z)) (ptrs : list Z)
    : memory * Z * list Z :=
  match strs with
  | [] => (m, sp, ptrs)
  | s :: strs =>
      let sp := sp -w (vlen s + 1) in
      push_strings (write_bytes m sp (s ++ [0])) sp virt_phys_offset strs
        (ptrs ++ [sp +w virt_phys_offset])
  end.

Section User.
Context {T ZS SS F : Type} `{!PageTable T, !PageStore ZS, !PageStore SS, !File F (World ZS SS)}.
Notation World := (World ZS SS).
Notation MapArea := (MapArea F).
Notation MemorySet := (MemorySet T F).
Context (oom : Z -> World -> World) (debug : bool).
(** The linker's symbols. *)
Context (strampoline ssignaltrampoline : Z).

(** ** Trampolines and the kernel's space *)

Definition map_trampoline (ms : MemorySet) (w : World) : option (MemorySet * World) :=
  vpn ← vpn_from_va TRAMPOLINE;
  ppn ← ppn_from_pa strampoline;
  '(t, w) ← w_map (page_table ms) w vpn ppn MP_RX;
  Some (mkMS t (areas ms), w).
Definition map_signaltrampoline (ms : MemorySet) (w : World) : option (MemorySet * World) :=
  vpn ← vpn_from_va SIGNAL_TRAMPOLINE;
  ppn ← ppn_from_pa ssignaltrampoline;
  '(t, w) ← w_map (page_table ms) w vpn ppn (Z.lor MP_RX MP_U);
  Some (mkMS t (areas ms), w).

(** [anonymous_identical_map!]. *)
Fixpoint identical_maps (secs : list (Z * Z * Z)) (ms : MemorySet) (w : World)
    : option (MemorySet * World) :=
  match secs with
  | [] => Some (ms, w)
  | (begin_, end_, permission) :: secs =>
      a ← area_new begin_ end_ Identical permission None;
      '(r, ms, w) ← push oom debug ms a None w;
      _ ← unwrap r;
      identical_maps secs ms w
  end.
Definition new_kernel (stext etext srodata erodata sdata edata sbss_with_stack ebss ekernel : Z)
    (w : World) : option (MemorySet * World) :=
  '(ms, w) ← new_bare w;
  '(ms, w) ← map_trampoline ms w;
  '(ms, w) ← identical_maps
     [(stext, etext, MP_RX); (srodata, erodata, MP_R); (sdata, edata, MP_RW);
      (sbss_with_stack, ebss, MP_RW); (ekernel, MEMORY_END, MP_RW)] ms w;
  identical_maps ((fun p => (p.1, p.1 +w p.2, MP_RW)) <$> MMIO) ms w.

(** ** ELF files *)

(** [load_elf_interp path]: the file's cached pages are entered in the kernel's
    space above its highest area. [open path] gives the file's size, its first
    bytes and handles to its pages. *)
Definition load_elf_interp (open : list Z -> World -> option (result (Z * list Z * list Z) Z * World))
    (path : list Z) (kernel : MemorySet) (w : World)
    : option (result (Z * Z) Z * MemorySet * World) :=
  '(r, w) ← open path w;
  match r with
  | Err errno => Some (Err errno, kernel, w)
  | Ok (size, magic, pages) =>
      if size <? 4 then Some (Err ELIBBAD, kernel, w)
      else if bool_decide (take 4 magic = [0x7f; 0x45; 0x4c; 0x46]) then
        buffer_addr ← highest_addr kernel;
        '(r, kernel, w) ← insert_program_area debug kernel buffer_addr MP_RW (InMemory <$> pages) w;
        _ ← unwrap r;
        Some (Ok (buffer_addr, size), kernel, w)
      else Some (Err ELIBBAD, kernel, w)
  end.

(** The state of the loop of [map_elf] over the program headers. *)
Record map_elf_acc := mkAcc {
  acc_program_break : option Z; acc_interp_entry : option Z;
  acc_interp_base : option Z; acc_load_addr : option Z
}.

(** A [Load] segment: a read-only segment aligned on a page shares the pages
    of the kernel's image, any other is copied. *)
Definition map_load (bias : Z) (elf : ElfFile) (ph : ProgramHeader) (kernel ms : MemorySet) (w : World)
    : option (MemorySet * World) :=
  let start_va := ph_virtual_addr ph +w bias in
  let end_va := (ph_virtual_addr ph +w ph_mem_size ph) +w bias in
  let start_va_page_offset := va_page_offset start_va in
  let map_perm := from_ph_flags (ph_read ph) (ph_write ph) (ph_execute ph) in
  a ← area_new start_va end_va Framed map_perm None;
  if (Z.land start_va_page_offset (PAGE_SIZE - 1) =? 0) &&
     (Z.land (ph_offset ph) (PAGE_SIZE - 1) =? 0) &&
     negb (ph_file_size ph =? 0) && negb (flags_contains map_perm MP_W)
  then
    _ ← assert_ (va_ceil (ph_file_size ph) =? area_end a -w area_start a);
    let kernel_start_vpn := va_floor (elf_ptr elf +w ph_offset ph) in
    '(r, a, t, w) ← map_from_kernel_area debug (areas kernel) a (page_table ms) w kernel_start_vpn;
    _ ← unwrap r;
    Some (mkMS t (areas ms ++ [a]), w)
  else
    data ← slice (elf_input elf) (ph_offset ph) (ph_offset ph +w ph_file_size ph);
    '(r, ms, w) ← push_with_offset oom debug ms a start_va_page_offset data w;
    _ ← unwrap r;
    Some (ms, w).

Definition elf_bias (elf : ElfFile) : result Z Z :=
  match elf_ty elf with
  | ElfExecutable => Ok 0
  | ElfSharedObject =>
      match length (base.filter (fun ph => ph_ty ph = PhInterp) (elf_phs elf)) with
      | O => Ok ELF_DYN_BASE
      | 1%nat => Ok 0
      | _ => Err EINVAL
      end
  | ElfOther => Err ENOEXEC
  end.

(** [map_elf]. An interpreter is loaded into the kernel's space, mapped by the
    same function ([fuel] bounds how deep interpreters nest) and unloaded.
    [parse] is [ElfFile::new] on the bytes at an address. *)
Section MapElf.
Context (open : list Z -> World -> option (result (Z * list Z * list Z) Z * World)).
Context (parse : Z -> Z -> World -> option ElfFile).

Definition map_elf_result (elf : ElfFile) (bias : Z) (acc : map_elf_acc) : result (Z * ELFInfo) Z :=
  match acc_program_break acc, acc_load_addr acc with
  | Some program_break, Some load_addr =>
      Ok (program_break,
          mkELFInfo (elf_entry_point elf +w bias) (acc_interp_entry acc)
            (default bias (acc_interp_base acc))
            (elf_ph_count elf) (elf_ph_entry_size elf) (load_addr +w elf_ph_offset elf))
  | _, _ => Err ENOEXEC
  end.

Definition map_elf_step
    (rec : ElfFile -> MemorySet -> MemorySet -> World ->
           option (result (Z * ELFInfo) Z * MemorySet * MemorySet * World))
    (bias : Z) (elf : ElfFile) (ph : ProgramHeader) (acc : map_elf_acc) (kernel ms : MemorySet) (w : World)
    : option (result map_elf_acc Z * MemorySet * MemorySet * World) :=
  match ph_ty ph with
  | PhLoad =>
      let start_va := ph_virtual_addr ph +w bias in
      let end_va := (ph_virtual_addr ph +w ph_mem_size ph) +w bias in
      '(ms, w) ← map_load bias elf ph kernel ms w;
      Some (Ok (mkAcc (Some (va_from_vpn (va_ceil end_va))) (acc_interp_entry acc) (acc_interp_base acc)
                 (match acc_load_addr acc with None => Some start_va | o => o end)), kernel, ms, w)
  | PhInterp =>
      path ← slice (elf_input elf) (ph_offset ph) (ph_offset ph +w ph_file_size ph -w 1);
      '(r, kernel, w) ← load_elf_interp open path kernel w;
      match r with
      | Err e => Some (Err e, kernel, ms, w)
      | Ok (ptr, size) =>
          interp ← parse ptr size w;
          '(r, kernel, ms, w) ← rec interp kernel ms w;
          match r with
          | Err e => Some (Err e, kernel, ms, w)
          | Ok (_, interp_info) =>
              '(r, kernel, w) ← remove_area_with_start_vpn debug kernel (va_ceil ptr) w;
              _ ← unwrap r;
              Some (Ok (mkAcc (acc_program_break acc) (Some (ei_entry interp_info))
                         (Some (ei_base interp_info)) (acc_load_addr acc)), kernel, ms, w)
          end
      end
  | PhOther => Some (Ok acc, kernel, ms, w)
  end.

Fixpoint map_elf_loop
    (rec : ElfFile -> MemorySet -> MemorySet -> World ->
           option (result (Z * ELFInfo) Z * MemorySet * MemorySet * World))
    (bias : Z) (elf : ElfFile) (phs : list ProgramHeader) (acc : map_elf_acc) (kernel ms : MemorySet) (w : World)
    : option (result map_elf_acc Z * MemorySet * MemorySet * World) :=
  match phs with
  | [] => Some (Ok acc, kernel, ms, w)
  | ph :: phs =>
      '(r, kernel, ms, w) ← map_elf_step rec bias elf ph acc kernel ms w;
      match r with
      | Err e => Some (Err e, kernel, ms, w)
      | Ok acc => map_elf_loop rec bias elf phs acc kernel ms w
      end
  end.

Fixpoint map_elf (fuel : nat) (elf : ElfFile) (kernel ms : MemorySet) (w : World)
    : option (result (Z * ELFInfo) Z * MemorySet * MemorySet * World) :=
  match fuel with
  | O => None
  | S fuel =>
      match elf_bias elf with
      | Err e => Some (Err e, kernel, ms, w)
      | Ok bias =>
          '(r, kernel, ms, w) ← map_elf_loop (map_elf fuel) bias elf (elf_phs elf)
                                 (mkAcc None None None None) kernel ms w;
          Some (match r with
                | Err e => Err e
                | Ok acc => map_elf_result elf bias acc
                end, kernel, ms, w)
      end
  end.

(** [from_elf]: on an error the new space, moved nowhere, is dropped. *)
Definition from_elf (fuel : nat) (elf : ElfFile) (kernel : MemorySet) (w : World)
    : option (result (MemorySet * Z * ELFInfo) Z * MemorySet * World) :=
  '(ms, w) ← new_bare w;
  '(ms, w) ← map_trampoline ms w;
  '(ms, w) ← map_signaltrampoline ms w;
  '(r, kernel, ms, w) ← map_elf fuel elf kernel ms w;
  match r with
  | Ok (program_break, elf_info) => Some (Ok (ms, program_break, elf_info), kernel, w)
  | Err e => '(_, w) ← recycle_data_pages debug ms w; Some (Err e, kernel, w)
  end.
End MapElf.

(** ** [fork] *)

(** The areas but the last are shared, without write permission on either
    side. *)
Fixpoint fork_areas (as_ : list MapArea) (child : MemorySet) (parent : T) (w : World)
    : option (MemorySet * World) :=
  match as_ with
  | [] => Some (child, w)
  | a :: as_ =>
      let '(new_area, w) := area_clone a w in
      '(r, t, w) ← map_from_existing_page_table new_area (page_table child) parent w;
      _ ← unwrap r;
      fork_areas as_ (mkMS t (areas child ++ [new_area])) parent w
  end.
Definition from_existing_user (user_space : MemorySet) (w : World) : option (MemorySet * World) :=
  '(ms, w) ← new_bare w;
  '(ms, w) ← map_trampoline ms w;
  '(ms, w) ← map_signaltrampoline ms w;
  trap_cx_area ← last (areas user_space);
  '(ms, w) ← fork_areas (take (length (areas user_space) - 1) (areas user_space)) ms
               (page_table user_space) w;
  a ← area_from_another trap_cx_area;
  ppn ← ms_translate user_space w (area_start trap_cx_area);
  '(r, ms, w) ← push oom debug ms a
     (Some (read_bytes (w_mem w) (ppn_start_addr ppn) TRAP_CX_SIZE)) w;
  _ ← unwrap r;
  Some (ms, w).

(** ** Threads *)

Definition alloc_user_res (ms : MemorySet) (tid : Z) (alloc_stack : bool) (w : World)
    : option (MemorySet * World) :=
  '(ms, w) ← (if alloc_stack then
      let ustack_bottom := ustack_bottom_from_tid tid in
      let ustack_top := ustack_bottom -w USER_STACK_SIZE in
      insert_framed_area oom debug ms ustack_top ustack_bottom MP_RWU w
    else Some (ms, w));
  let trap_cx_bottom := trap_cx_bottom_from_tid tid in
  let trap_cx_top := trap_cx_bottom +w PAGE_SIZE in
  insert_framed_area oom debug ms trap_cx_bottom trap_cx_top MP_RW w.

Definition dealloc_user_res (ms : MemorySet) (tid : Z) (w : World) : option (MemorySet * World) :=
  ustack_vpn ← vpn_from_va (ustack_bottom_from_tid tid -w USER_STACK_SIZE);
  '(r, ms, w) ← remove_area_with_start_vpn debug ms ustack_vpn w;
  _ ← match r with Ok _ | Err AreaNotFound | Err NotMapped => Some tt | Err _ => None end;
  trap_cx_vpn ← vpn_from_va (trap_cx_bottom_from_tid tid);
  '(r, ms, w) ← remove_area_with_start_vpn debug ms trap_cx_vpn w;
  _ ← match r with Ok _ | Err AreaNotFound => Some tt | Err _ => None end;
  Some (ms, w).

(** ** The initial stack *)

(** [create_elf_tables]: strings, random bytes, auxiliary vector, environment,
    arguments and their count, downwards from [user_sp], written through the
    physical address of its page. *)
Definition create_elf_tables (ms : MemorySet) (user_sp : Z) (argv_vec envp_vec : list (list Z))
    (elf_info : ELFInfo) (w : World) : option (Z * World) :=
  let user_sp := user_sp -w 2 * 8 in
  phys_user_sp ← pt_translate_va (pt_from_token (ms_token ms) : T) (wphys w) user_sp;
  let virt_phys_offset := user_sp -w phys_user_sp in
  let phys_start := phys_user_sp in
  let '(m, sp, envp_user) := push_strings (w_mem w) phys_user_sp virt_phys_offset envp_vec [] in
  let envp_user := envp_user ++ [0] in
  let '(m, sp, argv_user) := push_strings m sp virt_phys_offset argv_vec [] in
  let argv_user := argv_user ++ [0] in
  let sp := Z.land sp (not64 0x7) in
  let sp := sp -w 2 * 8 in
  let random_bits_ptr := sp +w virt_phys_offset in
  let m := write_bytes m sp (words [0xdeadbeefcafebabe; 0xdeadbeefcafebabe]) in
  let sp := sp -w 8 in
  let m := write_bytes m sp (words [0]) in
  execfn ← head argv_user;
  let aux := auxv elf_info random_bits_ptr execfn in
  let sp := sp -w (vlen aux * 16) in
  let m := write_bytes m sp (words (concat ((fun e => [e.1; e.2]) <$> aux))) in
  let sp := sp -w (vlen envp_user * 8) in
  let m := write_bytes m sp (words envp_user) in
  let sp := sp -w (vlen argv_user * 8) in
  let m := write_bytes m sp (words argv_user) in
  let sp := sp -w 8 in
  let m := write_bytes m sp (words [vlen argv_vec]) in
  _ ← assert_ (page_down phys_start =? page_down sp);
  Some (sp +w virt_phys_offset, w_with_mem (fun _ => m) w).
End User.
