(* ===== verification/SpaceOk.v ===== *)
(** * Address spaces: the invariant, page faults, eviction

    [space_ok] is the invariant of a [MemorySet]: every area satisfies
    [area_ok], different areas use different entries of the table, and the
    counts cover all their frames. The page-fault handler and the
    out-of-memory clean-up of [mm/memory_set.rs] preserve it and the contents
    of every page. *)

From S2P Require Import Prelude Address Phys FrameAlloc PageTable PageStore Frames FileTrait.
From S2P Require Import MapArea MapAreaOom MapAreaFault MemorySet.

Section Laws.
Context {T ZS SS F : Type}.
Context `{!PageTable T, !PageTableSpec T, !PageStore ZS, !PageStoreSpec ZS}.
Context `{!PageStore SS, !PageStoreSpec SS, !File F (World ZS SS)}.
Notation World := (World ZS SS).
Notation MapArea := (MapArea F).
Notation MemorySet := (MemorySet T F).

Definition area_frames (as_ : list MapArea) : list Frame := concat ((fun a => frames (inner a)) <$> as_).

Record space_ok (base : Z) (raw : gset Z) (h : Held) (w : World) (ms : MemorySet) (rest : list Frame)
    : Prop := {
  sp_world : world_ok base raw h w (area_frames (areas ms) ++ rest);
  sp_pt : pt_inv base raw (page_table ms) (wphys w);
  sp_areas : forall i a, areas ms !! i = Some a -> area_ok (page_table ms) w a;
  sp_slots : forall i j a b u v, areas ms !! i = Some a -> areas ms !! j = Some b -> i <> j ->
    area_has a u -> area_has b v -> pt_slot u <> pt_slot v;
  sp_disj : forall p, InMemory p ∈ area_frames (areas ms) ++ rest -> p ∉ pt_frames (page_table ms)
}.

(** The contents of all pages of a space, area by area. *)
Definition ms_pages (h : Held) (w : World) (ms : MemorySet) : list (list (list Z)) :=
  area_pages h w <$> areas ms.

(** The frames of all areas but the [i]-th, and those outside the space. *)
Definition others (as_ : list MapArea) (i : nat) (rest : list Frame) : list Frame :=
  area_frames (take i as_) ++ area_frames (drop (S i) as_) ++ rest.

Lemma area_frames_app as_ bs : area_frames (as_ ++ bs) = area_frames as_ ++ area_frames bs.
Proof. unfold area_frames. by rewrite fmap_app, concat_app. Qed.

Lemma area_frames_split as_ i a rest :
  as_ !! i = Some a ->
  area_frames as_ ++ rest ≡ₚ frames (inner a) ++ others as_ i rest /\
  forall b, area_frames (<[i := b]> as_) ++ rest ≡ₚ frames (inner b) ++ others as_ i rest.
Proof.
  intros Hi. pose proof (lookup_lt_Some _ _ _ Hi). unfold others.
  assert (Hb : forall b, area_frames (take i as_ ++ b :: drop (S i) as_) ++ rest ≡ₚ
    frames (inner b) ++ area_frames (take i as_) ++ area_frames (drop (S i) as_) ++ rest).
  { intros b. rewrite area_frames_app. change (b :: drop (S i) as_) with ([b] ++ drop (S i) as_).
    rewrite area_frames_app. unfold area_frames at 2. cbn. rewrite app_nil_r.
    rewrite !(assoc_L (++)). do 2 apply Permutation_app_tail. apply Permutation_app_comm. }
  split.
  - rewrite <- (take_drop_middle as_ i a Hi) at 1. apply Hb.
  - intros b. rewrite insert_take_drop by done. apply Hb.
Qed.

Lemma elem_area_frames as_ i a f : as_ !! i = Some a -> f ∈ frames (inner a) -> f ∈ area_frames as_.
Proof.
  intros Hi Hf. rewrite <- (take_drop_middle as_ i a Hi), area_frames_app. apply elem_of_app. right.
  unfold area_frames. cbn. apply elem_of_app. by left.
Qed.

Lemma others_elem_of as_ i j b f rest :
  as_ !! j = Some b -> j <> i -> f ∈ frames (inner b) -> f ∈ others as_ i rest.
Proof.
  intros Hj Hne Hf. unfold others. rewrite (assoc_L (++)). apply elem_of_app. left. apply elem_of_app.
  destruct (decide (j < i)%nat).
  - left. apply (elem_area_frames _ j b); [by rewrite lookup_take_lt | done].
  - right. apply (elem_area_frames _ (j - S i)%nat b); [| done]. rewrite lookup_drop.
    by replace (S i + (j - S i))%nat with j by lia.
Qed.

(** One area of a space, the frames of the others being outside it. *)
Lemma space_focus base raw h w ms rest i a :
  space_ok base raw h w ms rest -> areas ms !! i = Some a ->
  mapped_ok base raw h w (page_table ms) a (others (areas ms) i rest).
Proof.
  intros [Hw Hp Ha _ Hd] Hi. destruct (area_frames_split _ _ _ rest Hi) as [Hs _].
  constructor; [by eapply world_ok_perm | done | by eapply Ha |].
  intros p Hx. apply Hd. by rewrite Hs.
Qed.

(** The entries of another area are not those of [a]. *)
Lemma area_ok_other t t' (w w' : World) (b : MapArea) :
  area_ok t w b ->
  (forall v, area_has b v -> pt_view t' (wphys w') (pt_slot v) = pt_view t (wphys w) (pt_slot v)) ->
  area_ok t' w' b.
Proof.
  intros Hb Hv. constructor; try apply Hb. intros i f Hi. rewrite Hv; [by apply Hb |].
  apply (area_vpn _ _ _ _ _ Hb Hi).
Qed.

Lemma space_unfocus base raw h w ms rest i a h' w' t' a' :
  space_ok base raw h w ms rest -> areas ms !! i = Some a ->
  mapped_ok base raw h' w' t' a' (others (areas ms) i rest) -> same_attrs a a' ->
  (forall k, (forall vpn, area_has a vpn -> k <> pt_slot vpn) ->
     pt_view t' (wphys w') k = pt_view (page_table ms) (wphys w) k) ->
  space_ok base raw h' w' (mkMS t' (<[i := a']> (areas ms))) rest.
Proof.
  intros [Hw Hp Ha Hs Hd] Hi [Hw' Hp' Ha' Hd'] Hat Hv.
  destruct (area_frames_split _ _ _ rest Hi) as [_ Hsp]. pose proof (lookup_lt_Some _ _ _ Hi) as Hl.
  assert (Hlk : forall j b, <[i := a']> (areas ms) !! j = Some b ->
    exists b0, areas ms !! j = Some b0 /\ (forall v, area_has b v <-> area_has b0 v) /\
      (j = i -> b = a') /\ (j <> i -> b = b0)).
  { intros j b Hj. destruct (decide (j = i)) as [-> |].
    - rewrite list_lookup_insert_eq in Hj by done. injection Hj as <-. exists a.
      split_and!; [done | intros v; by apply same_attrs_has | done | done].
    - rewrite list_lookup_insert_ne in Hj by done. by exists b. }
  constructor; cbn [page_table areas].
  - eapply world_ok_perm; [| exact Hw']. by rewrite Hsp.
  - done.
  - intros j b Hj. destruct (Hlk j b Hj) as (b0 & Hj0 & _ & E1 & E2).
    destruct (decide (j = i)) as [Hji | Hji]; [by rewrite (E1 Hji) |]. rewrite (E2 Hji).
    apply (area_ok_other (page_table ms) t' w w'); [by eapply Ha |].
    intros v Hb. apply Hv. intros u Hu. intros E. by eapply (Hs j i b0 a v u).
  - intros j k b c u v Hj Hk Hne Hu Hv'. destruct (Hlk j b Hj) as (b0 & Hj0 & Hhb & _).
    destruct (Hlk k c Hk) as (c0 & Hk0 & Hhc & _). rewrite Hhb in Hu. rewrite Hhc in Hv'.
    by eapply (Hs j k b0 c0).
  - intros p Hx. apply Hd'. by rewrite <- Hsp.
Qed.

(** The contents of the other areas are among the pages kept. *)
Lemma ms_pages_insert h w ms h' w' t' i a a' rest :
  areas ms !! i = Some a -> area_pages h' w' a' = area_pages h w a ->
  keeps h w h' w' (others (areas ms) i rest) ->
  ms_pages h' w' (mkMS t' (<[i := a']> (areas ms))) = ms_pages h w ms.
Proof.
  intros Hi Hp Hk. unfold ms_pages. cbn [areas]. apply list_eq. intros j. rewrite !list_lookup_fmap.
  destruct (decide (j = i)) as [-> |].
  - rewrite list_lookup_insert_eq by by eapply lookup_lt_Some. rewrite Hi. cbn. by rewrite Hp.
  - rewrite list_lookup_insert_ne by done. destruct (areas ms !! j) as [b |] eqn:E; [| done].
    cbn. f_equal. unfold area_pages. apply list_fmap_ext. intros x f Hx. apply Hk.
    eapply others_elem_of; [done | done |]. by eapply list_elem_of_lookup_2.
Qed.

(** ** The page-fault handler *)

Context (oom : Z -> World -> World) (debug : bool).

(** A page brought back from a store: the two cases differ in the counter. *)
Lemma reload_entry_ok base raw h (w : World) (t : T) (a : MapArea) rest i f h1 w1 p l :
  mapped_ok base raw h w t a rest -> frames (inner a) !! i = Some f -> in_memory f = None ->
  perm_ok (map_perm a) -> 3 <= fa_unallocated_frames (pfa (wphys w)) ->
  reloaded base raw h w f (take i (frames (inner a)) ++ drop (S i) (frames (inner a)) ++ rest) h1 w1 p ->
  frames l = <[i := InMemory p]> (frames (inner a)) -> vpn_range l = vpn_range (inner a) ->
  active l = active (inner a) ++ [wrap16 (area_start a + Z.of_nat i -w area_start a)] ->
  u64 (compressed l) -> u64 (swapped l) ->
  exists t' w', w_map t w1 (area_start a + Z.of_nat i) p (map_perm a) = Some (t', w') /\
    fault_post base raw h w t a rest (area_start a + Z.of_nat i) h1 w' t' (set_inner a l) p.
Proof.
  intros H Hi Hf Hperm Hu Hre Ef Er Ea Hc Hs. apply (install_ok base raw h w t a rest i f h1 w1 p l);
    try assumption.
  - rewrite (re_free _ _ _ _ _ _ _ _ _ Hre). lia.
  - rewrite Ea. eapply active_snoc_ok. exact (mo_area _ _ _ _ _ _ _ H).
Qed.

Lemma fault_anon_ok base raw h (w : World) (t : T) (a : MapArea) rest addr i f :
  mapped_ok base raw h w t a rest -> frames (inner a) !! i = Some f -> in_memory f = None ->
  perm_ok (map_perm a) -> 3 <= fa_unallocated_frames (pfa (wphys w)) ->
  exists p a' t' w' h', fault_anon oom debug a t w addr (area_start a + Z.of_nat i) =
      Some (Ok (ppn_offset p (va_page_offset addr)), a', t', w') /\
    fault_post base raw h w t a rest (area_start a + Z.of_nat i) h' w' t' a' p.
Proof.
  intros H Hi Hf Hperm Hu. pose proof (mo_area _ _ _ _ _ _ _ H) as Ha.
  destruct (area_at _ _ _ _ _ Ha Hi) as (_ & Hg & Hput). destruct (ao_counts _ _ _ Ha) as [Hc Hs].
  pose proof (world_ok_perm _ _ _ _ _ _ (proj1 (frames_split _ rest _ _ Hi)) (mo_world _ _ _ _ _ _ _ H)) as Hw.
  unfold fault_anon. rewrite Hg. cbn [mbind option_bind]. destruct f as [| id | id |]; [done | | |].
  - destruct (unzip_ok debug oom _ _ _ _ _ _ Hw) as (p & w1 & h1 & -> & Hre); [lia |].
    cbn [mbind option_bind]. rewrite Hput. cbn [mbind option_bind unwrap].
    set (l := lm_set_compressed _ _).
    destruct (reload_entry_ok base raw h w t a rest i (Compressed id) h1 w1 p l)
      as (t' & w' & -> & Hp); try assumption; try reflexivity; [apply wrap64_bound |].
    exists p, (set_inner a l), t', w', h1. by split.
  - destruct (swap_in_ok debug oom _ _ _ _ _ _ Hw) as (p & w1 & h1 & -> & Hre); [lia |].
    cbn [mbind option_bind]. rewrite Hput. cbn [mbind option_bind unwrap].
    set (l := lm_set_swapped _ _).
    destruct (reload_entry_ok base raw h w t a rest i (SwappedOut id) h1 w1 p l)
      as (t' & w' & -> & Hp); try assumption; try reflexivity; [apply wrap64_bound |].
    exists p, (set_inner a l), t', w', h1. by split.
  - destruct (map_one_zeroed_ok debug oom base raw h w t a rest i H Hi Hperm Hu) as (p & a' & t' & w' & -> & Hp).
    exists p, a', t', w', h. by split.
Qed.

(** A fault in an anonymous area that [mprotect] has not stripped of its write
    permission is always resolved. *)
Lemma fault_area_ok base raw h (w : World) (t : T) (a : MapArea) rest addr i f :
  mapped_ok base raw h w t a rest -> frames (inner a) !! i = Some f ->
  map_file a = None -> map_type a = Framed -> writable_stripped a = false ->
  perm_ok (map_perm a) -> 3 <= fa_unallocated_frames (pfa (wphys w)) ->
  exists p a' t' w' h', fault_area oom debug a t w addr (area_start a + Z.of_nat i) =
      Some (Ok (ppn_offset p (va_page_offset addr)), a', t', w') /\
    fault_post base raw h w t a rest (area_start a + Z.of_nat i) h' w' t' a' p.
Proof.
  intros H Hi Hnf Hft Hns Hperm Hu. unfold fault_area.
  rewrite (pt_is_mapped_frame _ _ _ _ _ _ _ _ _ H Hi), Hnf, Hft, Hns.
  destruct (in_memory f) as [old |] eqn:Em.
  - rewrite bool_decide_eq_true_2 by done. cbn [negb]. rewrite (bool_decide_eq_true_2 (Framed = Framed)), orb_true_r by done.
    destruct f as [old' | | |]; try done. injection Em as ->.
    destruct (copy_on_write_ok debug oom base raw h w t a rest i old H Hi Hperm (fun _ => Hu))
      as (p & a' & t' & w' & h' & -> & Hp & _). cbn [mbind option_bind].
    exists p, a', t', w', h'. by split.
  - rewrite bool_decide_eq_false_2 by (intros [? ?]; done). cbn [negb].
    by apply (fault_anon_ok base raw h w t a rest addr i f).
Qed.
End Laws.

(** ** The clean-up of a space *)

Section Clean.
Context {T ZS SS F : Type}.
Context `{!PageTable T, !PageTableSpec T, !PageStore ZS, !PageStoreSpec ZS}.
Context `{!PageStore SS, !PageStoreSpec SS, !File F (World ZS SS)}.
Notation World := (World ZS SS).
Notation MapArea := (MapArea F).

(** An operation that evicts pages of one area and returns how many; [exact]
    when each of them also frees a frame. *)
Definition evicts (base : Z) (raw : gset Z) (t : T) (exact : Prop)
    (op : MapArea -> T -> World -> option (Z * MapArea * World)) : Prop :=
  forall h w a rest, mapped_ok base raw h w t a rest ->
    exists n a' w' h' c s m, op a t w = Some (n, a', w') /\
      oom_post base raw h w t a rest h' w' a' c s m /\ n = wrap64 (c + s) /\ (exact -> m = c + s).

Lemma do_oom_evicts base raw t debug : evicts base raw t True (do_oom debug).
Proof.
  intros h w a rest H.
  destruct (do_oom_ok debug _ _ _ _ _ _ _ H) as (n & a' & w' & h' & c & s & E & P & -> & _).
  exists (c + s), a', w', h', c, s, (c + s). split_and!; [done | done | | done].
  pose proof (op_free _ _ _ _ _ _ _ _ _ _ _ _ _ P) as Hf. pose proof (op_pos _ _ _ _ _ _ _ _ _ _ _ _ _ P).
  assert (u64 (fa_unallocated_frames (pfa (wphys w')))) as Hb by apply wrap64_bound.
  pose proof (fa_unallocated_nonneg (pfa (wphys w))). unfold fits in Hb.
  symmetry. apply wrap64_small. lia.
Qed.

Lemma force_swap_evicts base raw t debug : evicts base raw t False (force_swap debug).
Proof.
  intros h w a rest H.
  destruct (force_swap_ok debug _ _ _ _ _ _ _ H) as (n & a' & w' & h' & s & m & E & P & -> & _).
  exists (wrap64 s), a', w', h', 0, s, m. split_and!; done.
Qed.

Lemma lookup_middle_eq {A} (l k : list A) x : (l ++ x :: k) !! length l = Some x.
Proof. by rewrite list_lookup_middle. Qed.

Lemma insert_middle_eq {A} (l k : list A) x y : <[length l := y]> (l ++ x :: k) = l ++ y :: k.
Proof. rewrite insert_app_r_alt by lia. by rewrite Nat.sub_diag. Qed.

(** All areas in turn, after the areas [pre]. *)
Lemma clean_loop_ok base raw t exact sel op rest : evicts base raw t exact op ->
  forall as_ pre h w, space_ok base raw h w (mkMS t (pre ++ as_)) rest ->
  exists n as' w' h' N M, clean_loop sel op as_ t w = Some (n, as', w') /\
    space_ok base raw h' w' (mkMS t (pre ++ as')) rest /\
    ms_pages h' w' (mkMS t (pre ++ as')) = ms_pages h w (mkMS t (pre ++ as_)) /\
    keeps h w h' w' rest /\ n = wrap64 N /\ 0 <= M <= N /\ (exact -> M = N) /\
    fa_unallocated_frames (pfa (wphys w')) = fa_unallocated_frames (pfa (wphys w)) + M.
Proof.
  intros Hop. induction as_ as [| a as_ IH]; intros pre h w Hsp; cbn [clean_loop].
  - exists 0, [], w, h, 0, 0. split_and!; done || lia.
  - assert (Hstep : exists n a' w' h' N M,
      (if sel a then op a t w else Some (0, a, w)) = Some (n, a', w') /\
      space_ok base raw h' w' (mkMS t (pre ++ a' :: as_)) rest /\
      ms_pages h' w' (mkMS t (pre ++ a' :: as_)) = ms_pages h w (mkMS t (pre ++ a :: as_)) /\
      keeps h w h' w' rest /\ n = wrap64 N /\ 0 <= M <= N /\ (exact -> M = N) /\
      fa_unallocated_frames (pfa (wphys w')) = fa_unallocated_frames (pfa (wphys w)) + M).
    { destruct (sel a); cycle 1.
      { exists 0, a, w, h, 0, 0. split_and!; done || lia. }
      pose proof (lookup_middle_eq pre as_ a) as Hi.
      pose proof (space_focus _ _ _ _ _ _ _ _ Hsp Hi) as Hm.
      destruct (Hop _ _ _ _ Hm) as (n & a' & w' & h' & c & s & m & E & P & -> & Hex).
      pose proof (op_pos _ _ _ _ _ _ _ _ _ _ _ _ _ P).
      exists (wrap64 (c + s)), a', w', h', (c + s), m. rewrite <- (insert_middle_eq pre as_ a a').
      split_and!; [done | | | | done | lia | lia | exact Hex | exact (op_free _ _ _ _ _ _ _ _ _ _ _ _ _ P)].
      - eapply (space_unfocus base raw h w (mkMS t (pre ++ a :: as_)) rest (length pre) a);
          [exact Hsp | exact Hi | exact (op_ok _ _ _ _ _ _ _ _ _ _ _ _ _ P) | exact (op_attrs _ _ _ _ _ _ _ _ _ _ _ _ _ P) | exact (op_view _ _ _ _ _ _ _ _ _ _ _ _ _ P)].
      - apply (ms_pages_insert _ _ (mkMS t (pre ++ a :: as_)) _ _ _ _ a _ rest); [exact Hi | exact (op_pages _ _ _ _ _ _ _ _ _ _ _ _ _ P) |].
        exact (op_keeps _ _ _ _ _ _ _ _ _ _ _ _ _ P).
      - eapply keeps_sub; [exact (op_keeps _ _ _ _ _ _ _ _ _ _ _ _ _ P) |]. unfold others. clear. set_solver. }
    destruct Hstep as (n & a' & w1 & h1 & N & M & E & Hsp1 & Hp1 & Hk1 & -> & HM & Hex & Hf1).
    rewrite E. cbn [mbind option_bind].
    assert (Ea : forall l, (pre ++ [a']) ++ l = pre ++ a' :: l) by (intros l; by rewrite <- (assoc_L (++))).
    destruct (IH (pre ++ [a']) h1 w1) as (n2 & as' & w2 & h2 & N2 & M2 & E2 & Hsp2 & Hp2 & Hk2 & -> & HM2 & Hex2 & Hf2);
      [by rewrite Ea |].
    rewrite E2. cbn [mbind option_bind]. rewrite (Ea as') in Hsp2, Hp2. rewrite (Ea as_) in Hp2.
    exists (wrap64 N +w wrap64 N2), (a' :: as'), w2, h2, (N + N2), (M + M2).
    split_and!; [done | done | by rewrite Hp2, Hp1 | by eapply keeps_trans | | lia | lia | | lia].
    + unfold wrapn. by rewrite <- Zplus_mod.
    + intros Hx. rewrite Hex, Hex2 by done. lia.
Qed.

(** C7: The clean-up under memory pressure loses nothing: [do_shallow_clean]
    and [do_deep_clean] of a space never panic, leave every page of the space
    and of every other with its contents, and keep the table and the areas
    consistent. The number [do_shallow_clean] returns is the number of frames
    it freed; [do_deep_clean], which also evicts shared frames, frees at most as
    many as the pages it evicts. *)
Theorem clean_preserves_pages debug base raw h (w : World) (ms : MemorySet T F) rest :
  space_ok base raw h w ms rest ->
  (exists n ms' w' h', do_shallow_clean debug ms w = Some (n, ms', w') /\
     space_ok base raw h' w' ms' rest /\ ms_pages h' w' ms' = ms_pages h w ms /\
     keeps h w h' w' rest /\
     fa_unallocated_frames (pfa (wphys w')) = fa_unallocated_frames (pfa (wphys w)) + n) /\
  (exists N ms' w' h', do_deep_clean debug ms w = Some (wrap64 N, ms', w') /\
     space_ok base raw h' w' ms' rest /\ ms_pages h' w' ms' = ms_pages h w ms /\
     keeps h w h' w' rest /\
     0 <= fa_unallocated_frames (pfa (wphys w')) - fa_unallocated_frames (pfa (wphys w)) <= N).
Proof.
  intros Hsp. destruct ms as [t as_].
  split.
  - unfold do_shallow_clean. cbn [areas page_table].
    edestruct (clean_loop_ok base raw t True) with (pre := @nil MapArea)
      as (n & as' & w' & h' & N & M & E & H1 & H2 & H3 & -> & HM & Hex & Hf);
      [apply do_oom_evicts | exact Hsp |].
    rewrite E. cbn [mbind option_bind]. eexists _, _, w', h'. split; [done |].
    split_and!; [done | done | done |]. rewrite Hf, Hex by done.
    assert (u64 (fa_unallocated_frames (pfa (wphys w')))) as Hb by apply wrap64_bound.
    pose proof (fa_unallocated_nonneg (pfa (wphys w))). unfold fits in Hb.
    rewrite wrap64_small; [done |]. rewrite Hex in Hf by done. lia.
  - unfold do_deep_clean. cbn [areas page_table].
    set (op := fun a t w => if area_start a <? Z.shiftr MMAP_BASE PAGE_SIZE_BITS
                            then force_swap debug a t w else do_oom debug a t w).
    edestruct (clean_loop_ok base raw t False) with (pre := @nil MapArea) (op := op)
      as (n & as' & w' & h' & N & M & E & H1 & H2 & H3 & -> & HM & Hex & Hf); [| exact Hsp |].
    + intros h0 w0 a0 rest0 H0. unfold op. destruct (area_start a0 <? Z.shiftr MMAP_BASE PAGE_SIZE_BITS).
      * by apply (force_swap_evicts base raw t debug).
      * destruct (do_oom_evicts base raw t debug h0 w0 a0 rest0 H0)
          as (n & a' & w' & h' & c & s & m & E' & P' & En & _).
        exists n, a', w', h', c, s, m. split_and!; done.
    + rewrite E. cbn [mbind option_bind]. exists N, (mkMS t as'), w', h'. split; [done |].
      split_and!; [done | done | done | lia | lia].
Qed.
End Clean.

(** ** The handler on a space *)

Section Fault.
Context {T ZS SS F : Type}.
Context `{!PageTable T, !PageTableSpec T, !PageStore ZS, !PageStoreSpec ZS}.
Context `{!PageStore SS, !PageStoreSpec SS, !File F (World ZS SS)}.
Context (oom : Z -> World ZS SS -> World ZS SS) (debug : bool).

(** The handler on the area it finds. *)
Lemma page_fault_ok base raw h (w : World ZS SS) (ms : MemorySet T F) rest addr i a :
  space_ok base raw h w ms rest -> list_find (fault_match (va_floor addr)) (areas ms) = Some (i, a) ->
  map_file a = None -> map_type a = Framed -> writable_stripped a = false ->
  perm_ok (map_perm a) -> 3 <= fa_unallocated_frames (pfa (wphys w)) ->
  exists p a' t' w' h',
    do_page_fault oom debug ms addr w =
      Some (Ok (ppn_offset p (va_page_offset addr)), mkMS t' (<[i := a']> (areas ms)), w') /\
    space_ok base raw h' w' (mkMS t' (<[i := a']> (areas ms))) rest /\
    fault_post base raw h w (page_table ms) a (others (areas ms) i rest) (va_floor addr) h' w' t' a' p /\
    InMemory p ∈ frames (inner a').
Proof.
  intros Hsp Hfind Hnf Hft Hns Hperm Hu.
  unfold do_page_fault. rewrite Hfind. apply list_find_Some in Hfind as (Hi & [_ Hin] & _).
  pose proof (space_focus _ _ _ _ _ _ _ _ Hsp Hi) as Hm.
  destruct (area_has_frame _ _ _ _ (mo_area _ _ _ _ _ _ _ Hm) Hin) as (j & f & Hj & Ev).
  destruct (fault_area_ok oom debug base raw h w _ a _ addr j f Hm Hj Hnf Hft Hns Hperm Hu)
    as (p & a' & t' & w' & h' & E & Hp). rewrite <- Ev in E, Hp.
  rewrite E. cbn [mbind option_bind]. exists p, a', t', w', h'. split; [done |].
  split; [| split; [done |]].
  - apply (space_unfocus base raw h w ms rest i a); [done | done | apply Hp | apply Hp |].
    intros k Hk. rewrite (fp_view _ _ _ _ _ _ _ _ _ _ _ _ _ Hp), decide_False; [done |]. by apply Hk.
  - rewrite (fp_frames _ _ _ _ _ _ _ _ _ _ _ _ _ Hp j Ev). apply list_elem_of_insert. by eapply lookup_lt_Some.
Qed.

(** C2: A page fault in an anonymous area is resolved, wherever the page is:
    with the three frames that [check_page_fault] reserves, the handler does
    not panic and returns the physical address of the faulting address. The page
    is then mapped with the area's permission in a frame nobody else holds,
    with the contents it had (zero if it was never touched, the saved bytes if
    it was compressed or swapped out, a copy if the frame was shared), and no
    other page, of this space or of any other, changes. *)
Theorem page_fault_resolves base raw h (w : World ZS SS) (ms : MemorySet T F) rest addr i a :
  space_ok base raw h w ms rest -> u64 addr ->
  list_find (fault_match (va_floor addr)) (areas ms) = Some (i, a) ->
  map_file a = None -> map_type a = Framed -> writable_stripped a = false ->
  perm_ok (map_perm a) -> 3 <= fa_unallocated_frames (pfa (wphys w)) ->
  exists p ms' w' h',
    do_page_fault oom debug ms addr w = Some (Ok (ppn_offset p (va_page_offset addr)), ms', w') /\
    space_ok base raw h' w' ms' rest /\
    pt_translate_va (page_table ms') (wphys w') addr = Some (ppn_offset p (va_page_offset addr)) /\
    pt_get_pte_flags (page_table ms') (wphys w') (va_floor addr) = Some (map_perm a) /\
    refs_of w' (InMemory p) = 1%nat /\
    ms_pages h' w' ms' = ms_pages h w ms /\ keeps h w h' w' rest.
Proof.
  intros Hsp Haddr Hfind Hnf Hft Hns Hperm Hu.
  destruct (page_fault_ok _ _ _ _ _ _ _ _ _ Hsp Hfind Hnf Hft Hns Hperm Hu)
    as (p & a' & t' & w' & h' & E & Hsp' & [Pok Pat Ppg Pk Pv Ps Pr _ _] & _).
  apply list_find_Some in Hfind as (Hi & _).
  exists p, (mkMS t' (<[i := a']> (areas ms))), w', h'. split; [done |].
  pose proof (sp_pt _ _ _ _ _ _ Hsp') as Hpt. cbn [page_table] in *.
  split; [done |]. split_and!.
  - rewrite (pt_translate_va_view base raw) by done. by rewrite Pv, decide_True.
  - rewrite (pt_get_pte_flags_view base raw) by (done || by apply va_floor_bound).
    by rewrite Pv, decide_True.
  - done.
  - by apply (ms_pages_insert _ _ _ _ _ _ _ a _ rest).
  - eapply keeps_sub; [exact Pk |]. unfold others. clear. set_solver.
Qed.
End Fault.
