(* ===== verification/SpaceDemo.v ===== *)
(** * A concrete address space

    The laws of [SpaceOk] at work on an Sv39 table, the compressed store and a
    swap area on the memory-backed disk: a space with two anonymous pages, the
    first in memory. *)

From S2P Require Import Prelude Address Phys FrameAlloc PageTable Sv39 Sv39Tree Block.
From S2P Require Import PageStore Zram Swap Frames FileTrait MapArea MapAreaOom MapAreaFault.
From S2P Require Import MemorySet SpaceOk.

Definition sd_oom (_ : Z) (w : Phys) : Phys := w.
#[local] Instance sd_pt : PageTable Sv39PageTable := Sv39_PageTable sd_oom.
#[local] Instance sd_pt_spec : PageTableSpec Sv39PageTable := Sv39_Spec sd_oom.
#[local] Instance sd_zram : PageStore Zram := Zram_PageStore (cons 0) (fun c => Some (tail c)).
#[local] Instance sd_zram_spec : PageStoreSpec Zram :=
  Zram_Spec (cons 0) (fun c => Some (tail c)) (fun _ _ => eq_refl).
#[local] Instance sd_swap : PageStore (Swap * memory) := Swap_PageStore.
#[local] Instance sd_swap_spec : PageStoreSpec (Swap * memory) := Swap_Spec.
#[local] Instance sd_file : File unit (World Zram (Swap * memory)) := {|
  file_offset _ := 0; file_set_offset f _ := f; file_size _ _ := 0; file_deep_clone f := f;
  file_readable _ := true; file_read f _ w := Some ([], f, w); file_single_cache _ _ _ := None |}.

Definition sd_swap_dev : Swap * memory := (swap_new (fun n => seqZ 5 n) 1, ∅).
Definition sd_world : World Zram (Swap * memory) :=
  mkWorld boot1 (mkStore (zram_new 4) ∅) (mkStore sd_swap_dev ∅).
Definition sd_table : Sv39PageTable := mkSv39 0x80400 [0x80400].
Definition sd_held : Held := mkHeld ∅ ∅.
Definition sd_base : Z := pa_ceil 0x80400000.

(** The first two pages of the [mmap] region, with a permission; for the user
    to read and write. *)
Definition sd_area_with (perm : Z) : MapArea unit :=
  mkArea (mkLM (mkRange 0x60000 0x60002) [Unallocated; Unallocated] [] 0 0) Framed perm false None.
Definition sd_area : MapArea unit := sd_area_with 0x16.

Lemma sd_zram_holds : ps_holds (zram_new 4) ∅.
Proof.
  destruct (zram_new_inv 4 ltac:(lia)) as [Hi Hs].
  split_and!; [done | apply map_Forall_empty |]. intros i. by rewrite Hs, lookup_empty.
Qed.

Lemma sd_swap_holds : ps_holds sd_swap_dev ∅.
Proof.
  apply swap_new_holds; [lia | apply NoDup_seqZ | by vm_compute | | done].
  apply Forall_forall. intros b. rewrite elem_of_seqZ. cbn.
  unfold BLOCK_SZ, MEMORY_END, MEMORY_SIZE, MEMORY_START, DISK_IMAGE_BASE, MEMORY_PHYS. lia.
Qed.

Lemma store_ok_empty {S : Type} `{!PageStore S, !PageStoreSpec S} (d : S) :
  ps_holds d ∅ -> store_ok (mkStore d ∅) ∅.
Proof.
  intros H. constructor; cbn; [done | done | |]; by intros ? ? ?%lookup_empty_Some.
Qed.

Lemma sd_world_ok fs : Forall (eq Unallocated) fs -> world_ok sd_base ∅ sd_held sd_world fs.
Proof.
  intros Hf. constructor.
  - apply boot1_inv.
  - apply store_ok_empty, sd_zram_holds.
  - apply store_ok_empty, sd_swap_holds.
  - intros f Hu. assert (fcount f fs = O) as ->; [| lia].
    destruct (decide (f ∈ fs)) as [Hin | Hn].
    + rewrite Forall_forall in Hf. by rewrite (Hf f Hin) in Hu.
    + rewrite fcount_pos in Hn. lia.
Qed.

Lemma sd_area_ok perm : area_ok sd_table sd_world (sd_area_with perm).
Proof.
  constructor; cbn.
  - unfold area_start, area_end. cbn. lia.
  - done.
  - intros i j Hi Hj. unfold area_has, area_start, area_end in Hi, Hj. cbn in Hi, Hj.
    assert (Hi' : i = 0x60000 \/ i = 0x60001) by lia. assert (Hj' : j = 0x60000 \/ j = 0x60001) by lia.
    destruct Hi' as [-> | ->], Hj' as [-> | ->]; done.
  - unfold fits. lia.
  - constructor.
  - intros i f Hf. rewrite (proj2 boot1_inv). by destruct i as [| [| i]]; simplify_eq/=.
Qed.

Lemma sd_space_ok perm : space_ok sd_base ∅ sd_held sd_world (mkMS sd_table [sd_area_with perm]) [].
Proof.
  constructor; cbn [page_table areas].
  - apply sd_world_ok. by repeat constructor.
  - apply boot1_inv.
  - intros i a Hi. destruct i as [| i]; simplify_eq/=. apply sd_area_ok.
  - intros i j a b u v Hi Hj Hne. by destruct i as [| i], j as [| j]; simplify_eq/=.
  - intros p Hp. unfold area_frames in Hp. cbn in Hp. set_solver.
Qed.

Definition sd_oomw (_ : Z) (w : World Zram (Swap * memory)) : World Zram (Swap * memory) := w.

(** A page of a space is touched for the first time. *)
Lemma sd_touch h (w : World Zram (Swap * memory)) t (as_ : list (MapArea unit)) rest i a j :
  space_ok sd_base ∅ h w (mkMS t as_) rest -> as_ !! i = Some a -> frames (inner a) !! j = Some Unallocated ->
  perm_ok (map_perm a) -> 3 <= fa_unallocated_frames (pfa (wphys w)) ->
  exists p a' t' (w' : World Zram (Swap * memory)), space_ok sd_base ∅ h w' (mkMS t' (<[i := a']> as_)) rest /\
    frames (inner a') = <[j := InMemory p]> (frames (inner a)) /\ same_attrs a a' /\
    refs_of w' (InMemory p) = 1%nat /\
    fa_unallocated_frames (pfa (wphys w)) - 3 <= fa_unallocated_frames (pfa (wphys w')).
Proof.
  intros Hsp Hi Hj Hperm Hu. pose proof (space_focus _ _ _ _ _ _ i a Hsp Hi) as Hm.
  destruct (map_one_zeroed_ok false sd_oomw _ _ _ _ _ _ _ j Hm Hj Hperm Hu) as (p & a' & t' & w' & E & P).
  exists p, a', t', w'. split; [| split_and!; [by apply P | apply P..]].
  apply (space_unfocus sd_base ∅ h w (mkMS t as_) rest i a h w' t' a'); [done | done | apply P | apply P |].
  intros k Hk. rewrite (fp_view _ _ _ _ _ _ _ _ _ _ _ _ _ P), decide_False; [done |].
  apply Hk. by apply (area_vpn _ _ _ _ _ (mo_area _ _ _ _ _ _ _ Hm) Hj).
Qed.

(** The space after the first page has been touched. *)
Lemma sd_touched perm : perm_ok perm ->
  exists p (a : MapArea unit) t (w : World Zram (Swap * memory)),
    space_ok sd_base ∅ sd_held w (mkMS t [a]) [] /\
    frames (inner a) = [InMemory p; Unallocated] /\ same_attrs (sd_area_with perm) a /\
    refs_of w (InMemory p) = 1%nat.
Proof.
  intros Hperm. destruct (sd_touch _ _ _ _ _ 0 (sd_area_with perm) 0 (sd_space_ok perm))
    as (p & a & t & w & Hsp & Hf & Ha & Hr & _); [done | done | done | by vm_compute |].
  by exists p, a, t, w.
Qed.

(** ** Instances of the theorems *)

Lemma page_fault_resolves_witness :
  exists p ms' w' h',
    do_page_fault sd_oomw false (mkMS sd_table [sd_area]) 0x60000008 sd_world =
      Some (Ok (ppn_offset p 8), ms', w') /\
    space_ok sd_base ∅ h' w' ms' [] /\
    ms_pages h' w' ms' = [[zero_page; zero_page]].
Proof.
  destruct (page_fault_resolves sd_oomw false sd_base ∅ sd_held sd_world (mkMS sd_table [sd_area]) []
    0x60000008 0 sd_area) as (p & ms' & w' & h' & E & Hsp & _ & _ & _ & Hpg & _);
    [exact (sd_space_ok 0x16) | by vm_compute | by vm_compute | done | done | done | by vm_compute | by vm_compute |].
  exists p, ms', w', h'. split; [exact E |]. split; [exact Hsp |]. rewrite Hpg. reflexivity.
Defined.

Lemma clean_preserves_pages_witness :
  exists p (a : MapArea unit) t (w : World Zram (Swap * memory)) n ms' w' h',
    frames (inner a) = [InMemory p; Unallocated] /\
    do_shallow_clean false (mkMS t [a]) w = Some (n, ms', w') /\
    ms_pages h' w' ms' = ms_pages sd_held w (mkMS t [a]).
Proof.
  destruct (sd_touched 0x16) as (p & a & t & w & Hsp & Hf & _); [by vm_compute |].
  destruct (clean_preserves_pages false _ _ _ _ _ _ Hsp) as [(n & ms' & w' & h' & E & _ & Hpg & _) _].
  exists p, a, t, w, n, ms', w', h'. split; [exact Hf |]. split; [exact E | exact Hpg].
Defined.
