(* ===== verification/SpaceFacts.v ===== *)
(** * Address spaces: error paths

    Behaviours of [mm/memory_set.rs] at the edges: a [brk] that moves down, an
    area whose write permission is taken and given back, a write to a
    read-only area, and the bytes that [push_with_offset] leaves. *)

From S2P Require Import Prelude Address Phys FrameAlloc PageTable PageStore Frames FileTrait.
From S2P Require Import MapArea MapAreaOom MapAreaFault MemorySet SpaceOk.
From S2P Require Import Sv39 Sv39Tree Zram Swap SpaceDemo.

(** ** Ranges that no area touches *)

Section Unmapped.
Context {T ZS SS F : Type} `{!PageTable T, !PageStore ZS, !PageStore SS, !File F (World ZS SS)}.
Notation World := (World ZS SS).
Notation MapArea := (MapArea F).
Notation MemorySet := (MemorySet T F).
Context (debug : bool).

(** No area starts at or below the end of the range and ends above its start. *)
Definition untouched (ms : MemorySet) (start_vpn end_vpn : Z) : Prop :=
  Forall (fun a => end_vpn < area_start a \/ area_end a <= start_vpn) (areas ms).

Lemma munmap_loop_untouched t (w : World) s e as_ idx :
  Forall (fun a : MapArea => e < area_start a \/ area_end a <= s) as_ ->
  munmap_loop debug idx as_ t w s e = Some ((fun a => (a, false)) <$> as_, false, None, w).
Proof.
  intros Hf. revert idx. induction Hf as [| a as_ Ha _ IH]; intros idx; [done |].
  cbn [munmap_loop]. unfold munmap_area, check_overlapping.
  assert (E : (e <? area_start a) || (area_end a <=? s) = true).
  { apply orb_true_iff. destruct (Z.ltb_spec e (area_start a)), (Z.leb_spec (area_end a) s); lia || tauto. }
  rewrite E. cbn [mbind option_bind]. by rewrite IH.
Qed.

Lemma filter_marked (as_ : list MapArea) :
  base.filter (fun am => am.2 = true) ((fun a => (a, false)) <$> as_) = [] /\
  fst <$> base.filter (fun am => am.2 = false) ((fun a => (a, false)) <$> as_) = as_.
Proof.
  induction as_ as [| a as_ [IH1 IH2]]; [done |]. rewrite fmap_cons. split.
  - by rewrite filter_cons_False.
  - rewrite filter_cons_True by done. cbn. by rewrite IH2.
Qed.

(** [munmap] of such a range changes nothing and reports [EINVAL]. *)
Lemma munmap_untouched (ms : MemorySet) start len (w : World) :
  untouched ms (va_floor start) (va_ceil (start +w len)) ->
  munmap debug ms start len w = Some (Err EINVAL, ms, w).
Proof.
  intros Hu. unfold munmap. destruct (va_aligned start); cbn [negb]; [| done].
  rewrite munmap_loop_untouched by done. cbn [mbind option_bind].
  unfold munmap_delete. destruct (filter_marked (areas ms)) as [-> ->]. cbn. by destruct ms.
Qed.
End Unmapped.

Section Brk.
Context {T ZS SS F : Type} `{!PageTable T, !PageStore ZS, !PageStore SS, !File F (World ZS SS)}.
Context (debug : bool) (fd_get_ref : Z -> result F Z).

(** The heap pointer moves only over areas that exist. Moving it down calls [munmap] with
    the old pointer and the negative increment taken as a length, a range that
    ends before it starts and that no area touches; the error is unwrapped, so
    the kernel panics. Moving it up over a range that has no area yet calls
    [unwrap_unchecked] on the same error, which is undefined behaviour. An
    increment of zero, and one beyond the limits, return without touching the
    space. *)
Theorem brk_fails_outside_areas (ms : MemorySet T F) (w : World ZS SS) old bottom inc :
  u64 old -> u64 bottom ->
  (inc < 0 -> bottom < old + inc ->
     untouched ms (va_floor old) (va_ceil (old + inc)) ->
     sbrk debug fd_get_ref ms old bottom inc w = None) /\
  (0 < inc < 2 ^ 63 -> old + inc <= bottom + USER_HEAP_SIZE < 2 ^ 64 -> va_aligned old = true ->
     untouched ms (va_floor old) (va_ceil (old + inc)) ->
     sbrk debug fd_get_ref ms old bottom inc w = None) /\
  sbrk debug fd_get_ref ms old bottom 0 w = Some (old, ms, w) /\
  (0 < inc < 2 ^ 63 -> bottom + USER_HEAP_SIZE < old + inc < 2 ^ 64 ->
     sbrk debug fd_get_ref ms old bottom inc w = Some (old, ms, w)) /\
  (inc < 0 -> 0 <= old + inc <= bottom -> sbrk debug fd_get_ref ms old bottom inc w = Some (old, ms, w)).
Proof.
  unfold fits, USER_HEAP_SIZE, PAGE_SIZE. intros Ho Hb. unfold sbrk, USER_HEAP_SIZE, PAGE_SIZE. split_and!.
  - intros Hi Hn Hu. destruct (Z.ltb_spec 0 inc); [lia |]. destruct (Z.ltb_spec inc 0); [| lia].
    rewrite (wrap64_small (old + inc)) by lia. destruct (Z.leb_spec (old + inc) bottom); [lia |].
    assert (E : old +w wrap64 inc = old + inc).
    { unfold wrapn. rewrite Zplus_mod_idemp_r. apply Z.mod_small. lia. }
    rewrite munmap_untouched; [done |]. by rewrite E.
  - intros Hi Hl Ha Hu. destruct (Z.ltb_spec 0 inc); [| lia].
    rewrite (wrap64_small (old + inc)), (wrap64_small (bottom + _)), (wrap64_small inc) by lia.
    destruct (Z.ltb_spec (bottom + 4096 * 32) (old + inc)); [lia |].
    unfold mmap. change (Z.land old 4095 =? 0) with (va_aligned old). rewrite Ha. cbn [negb].
    destruct (Z.eqb_spec inc 0); [lia |]. destruct (last_mmap_area_idx ms) as [o |]; [| done].
    cbn [mbind option_bind]. change (flags_contains (Z.lor (Z.lor MAP_ANONYMOUS MAP_FIXED) MAP_PRIVATE) MAP_FIXED) with true.
    rewrite munmap_untouched; [done |]. by rewrite (wrap64_small (old + inc)) by lia.
  - cbn. by rewrite Z.add_0_r, wrap64_small by lia.
  - intros Hi Hl. destruct (Z.ltb_spec 0 inc); [| lia].
    rewrite (wrap64_small (old + inc)) by lia.
    destruct (Z.ltb_spec (bottom +w 4096 * 32) (old + inc)) as [| Hge]; [done |].
    exfalso. revert Hge. rewrite wrap64_small by lia. lia.
  - intros Hi Hl. destruct (Z.ltb_spec 0 inc); [lia |]. destruct (Z.ltb_spec inc 0); [| lia].
    rewrite (wrap64_small (old + inc)) by lia. by destruct (Z.leb_spec (old + inc) bottom); [| lia].
Qed.
End Brk.

(** ** [mprotect] on a whole area *)

Lemma list_find_update {A} (P : A -> Prop) `{!forall x, Decision (P x)} l i x y :
  list_find P l = Some (i, x) -> P y -> list_find P (<[i := y]> l) = Some (i, y).
Proof.
  intros Hf Hy. apply list_find_Some in Hf as (Hi & _ & Hb). apply list_find_Some. split_and!.
  - apply list_lookup_insert_eq. by eapply lookup_lt_Some.
  - done.
  - intros j z Hj Hlt. rewrite list_lookup_insert_ne in Hj by lia. by eapply Hb.
Qed.

Section Mprotect.
Context {T ZS SS F : Type} `{!PageTable T, !PageTableSpec T, !PageStore ZS, !PageStore SS}.
Context `{!File F (World ZS SS)}.
Notation World := (World ZS SS).
Notation MapArea := (MapArea F).
Notation MemorySet := (MemorySet T F).

(** Changing the flags of entries maps and unmaps nothing. *)
Lemma set_flags_loop_mapped base raw (t : T) vpns perm : Forall (Z.le 0) vpns -> perm_ok perm ->
  forall (w : World), pt_inv base raw t (wphys w) ->
    pt_inv base raw t (wphys (set_flags_loop vpns t w perm)) /\
    forall k, is_Some (pt_view t (wphys (set_flags_loop vpns t w perm)) k) <->
              is_Some (pt_view t (wphys w) k).
Proof.
  intros Hv Hp. induction Hv as [| v vpns Hv _ IH]; intros w Hi; [done |]. cbn [set_flags_loop].
  pose proof (pt_set_flags_spec base raw t (wphys w) v perm Hi Hv Hp) as Hs. unfold w_set_pte_flags.
  destruct (pt_set_pte_flags t (wphys w) v perm) as [r ph] eqn:E. cbn in Hs |- *.
  destruct Hs as (_ & Hi' & Hvw & _). destruct (IH (set_phys w ph) Hi') as [Hi2 Hk].
  split; [exact Hi2 |]. intros k. rewrite Hk. cbn. rewrite Hvw. case_decide; [| done].
  by rewrite fmap_is_Some.
Qed.

Lemma range_items_nonneg (a : MapArea) : 0 <= area_start a -> Forall (Z.le 0) (range_items (vpn_range (inner a))).
Proof.
  unfold area_start, lm_get_start, get_start. intros H. apply Forall_forall. intros v.
  rewrite elem_of_range_items. lia.
Qed.

Context (debug : bool).

(** The execute bit that [mprotect] keeps. *)
Definition kept_x (ms : MemorySet) (w : World) (a : MapArea) : Z :=
  Z.land (default (map_perm a) (pt_get_pte_flags (page_table ms) (wphys w) (area_start a))) MP_X.

(** The area after [mprotect] of all of it. *)
Definition protected (a : MapArea) (perm : Z) : MapArea :=
  mkArea (inner a) (map_type a) perm
    (if flags_contains (map_perm a) MP_W && negb (flags_contains perm MP_W) then true
     else writable_stripped a) (map_file a).

Lemma kept_x_cases (ms : MemorySet) (w : World) (a : MapArea) : kept_x ms w a = 0 \/ kept_x ms w a = 8.
Proof.
  unfold kept_x. change MP_X with (2 ^ 3). rewrite land_pow2 by lia.
  destruct (Z.testbit _ 3); [by right | by left].
Qed.

Lemma mprotect_whole base raw (ms : MemorySet) addr len prot (w : World) p i a :
  pt_inv base raw (page_table ms) (wphys w) -> 0 <= area_start a ->
  va_aligned addr = true -> len <> 0 -> perm_from_prot prot = Some p -> p = 18 \/ p = 22 ->
  va_floor addr = area_start a -> va_ceil (addr +w len) = area_end a ->
  list_find (fun b => area_start b <= va_floor addr < area_end b) (areas ms) = Some (i, a) ->
  exists w', mprotect debug ms addr len prot w =
    Some (Ok tt, mkMS (page_table ms) (<[i := protected a (Z.lor p (kept_x ms w a))]> (areas ms)), w') /\
    pt_inv base raw (page_table ms) (wphys w') /\
    forall k, is_Some (pt_view (page_table ms) (wphys w') k) <->
              is_Some (pt_view (page_table ms) (wphys w) k).
Proof.
  intros Hpt H0 Hal Hl Hp Hpv Hs He Hf. unfold mprotect. rewrite Hal. cbn [negb].
  destruct (Z.eqb_spec len 0); [done |]. rewrite Hp. cbn [mbind option_bind].
  pose proof Hf as (Hi & Hin & _)%list_find_Some. cbn in Hin. rewrite He. rewrite Hs in Hin.
  destruct (Z.to_nat (area_end a - va_floor addr)) as [| fuel] eqn:Ef; [lia |].
  cbn [mprotect_loop]. destruct (Z.ltb_spec (va_floor addr) (area_end a)); [| lia]. cbn [negb].
  rewrite Hf. rewrite Z.min_id. unfold protect_segment. rewrite Hi. cbn [mbind option_bind].
  rewrite Hs, !Z.eqb_refl. cbn [andb]. unfold protect_area. cbn [mbind option_bind].
  eexists. split; [destruct fuel; cbn [mprotect_loop]; rewrite Z.ltb_irrefl; reflexivity |].
  apply set_flags_loop_mapped; [by apply range_items_nonneg | | done].
  fold (kept_x ms w a). destruct Hpv as [-> | ->], (kept_x_cases ms w a) as [-> | ->]; by vm_compute.
Qed.

Lemma mprotect_strips (ms : MemorySet) (w : World) (a : MapArea) :
  flags_contains (map_perm a) MP_W = true ->
  writable_stripped (protected a (Z.lor 18 (kept_x ms w a))) = true.
Proof.
  intros Hw. unfold protected. cbn [writable_stripped]. rewrite Hw. cbn [andb].
  by destruct (kept_x_cases ms w a) as [-> | ->].
Qed.

(** A write fault on a mapped page of an area that lost write permission. *)
Lemma fault_stripped oom (ms : MemorySet) va (w : World) i a :
  list_find (fault_match (va_floor va)) (areas ms) = Some (i, a) -> writable_stripped a = true ->
  pt_is_mapped (page_table ms) (wphys w) (va_floor va) = true ->
  do_page_fault oom debug ms va w = Some (Err NoPermission, ms, w).
Proof.
  intros Hf Hs Hm. unfold do_page_fault. rewrite Hf. unfold fault_area.
  rewrite Hm, Hs. cbn [negb mbind option_bind].
  apply list_find_Some in Hf as (Hi & _). rewrite list_insert_id by done. by destruct ms.
Qed.

(** C38: Write permission taken away by [mprotect] cannot be given back. After
    [mprotect(PROT_READ)] and then [mprotect(PROT_READ | PROT_WRITE)] of a
    writable area, both of which succeed, the area is marked writable again, but
    [writable_stripped] stays set and every write fault on one of its mapped
    pages is refused with [NoPermission]. *)
Theorem mprotect_write_not_restored base raw oom (ms : MemorySet) addr len (w : World) i a va :
  pt_inv base raw (page_table ms) (wphys w) -> 0 <= area_start a -> u64 va ->
  va_aligned addr = true -> len <> 0 ->
  va_floor addr = area_start a -> va_ceil (addr +w len) = area_end a ->
  list_find (fun b => area_start b <= va_floor addr < area_end b) (areas ms) = Some (i, a) ->
  list_find (fault_match (va_floor va)) (areas ms) = Some (i, a) ->
  flags_contains (map_perm a) MP_W = true ->
  pt_is_mapped (page_table ms) (wphys w) (va_floor va) = true ->
  exists ms1 w1 ms2 w2 a2,
    mprotect debug ms addr len 1 w = Some (Ok tt, ms1, w1) /\
    mprotect debug ms1 addr len 3 w1 = Some (Ok tt, ms2, w2) /\
    areas ms2 = <[i := a2]> (areas ms) /\ flags_contains (map_perm a2) MP_W = true /\
    do_page_fault oom debug ms2 va w2 = Some (Err NoPermission, ms2, w2).
Proof.
  intros Hpt H0 Hva Hal Hl Hs He Hf Hfm Hw Hmap.
  destruct (mprotect_whole base raw ms addr len 1 w 18 i a) as (w1 & E1 & Hpt1 & Hv1);
    [done | done | done | done | done | by left | done | done | done |].
  set (a1 := protected a (Z.lor 18 (kept_x ms w a))) in *.
  pose proof Hf as (Hi & Hin & _)%list_find_Some.
  set (ms1 := mkMS (page_table ms) (<[i := a1]> (areas ms))) in *.
  destruct (mprotect_whole base raw ms1 addr len 3 w1 22 i a1) as (w2 & E2 & Hpt2 & Hv2);
    [done | done | done | done | done | by right | done | done | by apply (list_find_update _ _ _ a) |].
  set (a2 := protected a1 (Z.lor 22 (kept_x ms1 w1 a1))) in *.
  exists ms1, w1, (mkMS (page_table ms) (<[i := a2]> (areas ms))), w2, a2.
  split; [exact E1 |]. split.
  { rewrite E2. unfold ms1. cbn [page_table areas]. by rewrite list_insert_insert_eq. }
  split_and!; [done | |].
  - unfold a2, protected. cbn [map_perm]. by destruct (kept_x_cases ms1 w1 a1) as [-> | ->].
  - apply (fault_stripped _ _ _ _ i a2).
    + apply (list_find_update _ _ _ a); [done |]. apply list_find_Some in Hfm as (_ & [_ Hm] & _).
      split; [| exact Hm]. by destruct (kept_x_cases ms1 w1 a1) as [E | E]; unfold a2; rewrite E.
    + unfold a2, protected. cbn [writable_stripped]. unfold a1. rewrite mprotect_strips by done.
      by destruct (_ && _).
    + assert (0 <= va_floor va) by (apply va_floor_bound; done).
      cbn [page_table]. rewrite (pt_is_mapped_view base raw) in Hmap |- * by done.
      apply bool_decide_eq_true in Hmap. apply bool_decide_eq_true. by apply Hv2, Hv1.
Qed.
End Mprotect.

(** ** Writing to a read-only area *)

Section ReadOnly.
Context {T ZS SS F : Type} `{!PageTable T, !PageTableSpec T, !PageStore ZS, !PageStoreSpec ZS}.
Context `{!PageStore SS, !PageStoreSpec SS, !File F (World ZS SS)}.
Notation World := (World ZS SS).
Notation MapArea := (MapArea F).
Notation MemorySet := (MemorySet T F).
Context (oom : Z -> World -> World) (debug : bool).

(** The same instruction faulting [n] times: what the handler returns each
    time. *)
Fixpoint fault_retry (n : nat) (ms : MemorySet) (addr : Z) (w : World)
    : option (list (result Z MemoryError) * MemorySet * World) :=
  match n with
  | O => Some ([], ms, w)
  | S n =>
      '(r, ms, w) ← do_page_fault oom debug ms addr w;
      '(rs, ms, w) ← fault_retry n ms addr w;
      Some (r :: rs, ms, w)
  end.

(** The page of [addr] is in memory, held by this space only. *)
Record private_page (base : Z) (raw : gset Z) (w : World) (ms : MemorySet) (rest : list Frame)
    (addr : Z) (i : nat) (a : MapArea) (p : Z) : Prop := {
  pp_space : exists h, space_ok base raw h w ms rest;
  pp_addr : u64 addr;
  pp_find : list_find (fault_match (va_floor addr)) (areas ms) = Some (i, a);
  pp_frame : frames (inner a) !! Z.to_nat (va_floor addr - area_start a) = Some (InMemory p);
  pp_refs : refs_of w (InMemory p) = 1%nat;
  pp_perm : perm_ok (map_perm a);
  pp_type : map_type a = Framed;
  pp_kept : writable_stripped a = false
}.

Lemma private_page_retry base raw (w : World) (ms : MemorySet) rest addr i a p :
  private_page base raw w ms rest addr i a p ->
  exists ms' w' a', do_page_fault oom debug ms addr w =
      Some (Ok (ppn_offset p (va_page_offset addr)), ms', w') /\
    private_page base raw w' ms' rest addr i a' p /\ map_perm a' = map_perm a /\
    pt_get_pte_flags (page_table ms') (wphys w') (va_floor addr) = Some (map_perm a).
Proof.
  intros [[h Hsp] Hva Hfind Hfr Href Hperm Hty Hst]. pose proof Hfind as (Hi & [Hru Hin] & _)%list_find_Some.
  pose proof (space_focus _ _ _ _ _ _ _ _ Hsp Hi) as Hm. set (j := Z.to_nat (va_floor addr - area_start a)) in *.
  assert (Ev : va_floor addr = area_start a + Z.of_nat j) by (unfold j; lia).
  destruct (copy_on_write_ok debug oom base raw h w _ a _ j p Hm Hfr Hperm) as (q & a' & t' & w' & h' & E & P & Hq);
    [done |]. rewrite decide_True in Hq by done. subst q.
  unfold do_page_fault. rewrite Hfind. unfold fault_area. rewrite Ev.
  rewrite (pt_is_mapped_frame _ _ _ _ _ _ _ _ _ Hm Hfr), Hst, Hty. cbn [in_memory].
  rewrite bool_decide_eq_true_2 by done. cbn [negb].
  rewrite (bool_decide_eq_true_2 (Framed = Framed)), orb_true_r by done. rewrite E. cbn [mbind option_bind].
  destruct (fp_attrs _ _ _ _ _ _ _ _ _ _ _ _ _ P) as (Ar & At & Ap & As & _).
  assert (Es : area_start a' = area_start a) by (unfold area_start, lm_get_start; by rewrite Ar).
  assert (Ee : area_end a' = area_end a) by (unfold area_end, lm_get_end; by rewrite Ar).
  assert (Hsp' : space_ok base raw h' w' (mkMS t' (<[i := a']> (areas ms))) rest).
  { apply (space_unfocus base raw h w ms rest i a); [done | done | apply P | apply P |].
    intros k Hk. rewrite (fp_view _ _ _ _ _ _ _ _ _ _ _ _ _ P), decide_False; [done |].
    apply Hk. by rewrite <- Ev. }
  eexists _, w', a'. split; [reflexivity |]. split; [| split; [exact Ap |]].
  - constructor; [by exists h' | done | | | apply P | by rewrite Ap | by rewrite At | by rewrite As].
    + apply (list_find_update _ _ _ a); [done |]. split; [by rewrite Ap | by rewrite Es, Ee].
    + rewrite Es. fold j. rewrite (fp_frames _ _ _ _ _ _ _ _ _ _ _ _ _ P j eq_refl).
      apply list_lookup_insert_eq. by eapply lookup_lt_Some.
  - rewrite (pt_get_pte_flags_view base raw); [| apply (sp_pt _ _ _ _ _ _ Hsp') | rewrite <- Ev; by apply va_floor_bound].
    by rewrite (fp_view _ _ _ _ _ _ _ _ _ _ _ _ _ P), decide_True.
Qed.

(** C30: A write to a read-only framed area never ends. The handler answers
    the fault on a mapped page by copying on write, which installs the area's
    permission, without the write bit: it returns [Ok], the instruction runs
    again and faults again. However often it does, every fault is reported
    resolved, and the entry still does not allow writing. *)
Theorem readonly_write_never_ends base raw (w : World) (ms : MemorySet) rest addr i a p n :
  private_page base raw w ms rest addr i a p -> flags_contains (map_perm a) MP_W = false ->
  exists ms' w' perm,
    fault_retry (S n) ms addr w =
      Some (replicate (S n) (Ok (ppn_offset p (va_page_offset addr))), ms', w') /\
    pt_get_pte_flags (page_table ms') (wphys w') (va_floor addr) = Some perm /\
    flags_contains perm MP_W = false.
Proof.
  revert w ms a. induction n as [| n IH]; intros w ms a Hp Hw;
    destruct (private_page_retry _ _ _ _ _ _ _ _ _ Hp) as (ms1 & w1 & a1 & E & Hp1 & Ea & Ef).
  - exists ms1, w1, (map_perm a). cbn [fault_retry]. rewrite E. by cbn.
  - destruct (IH w1 ms1 a1 Hp1) as (ms2 & w2 & perm & E2 & Hr); [by rewrite Ea |].
    exists ms2, w2, perm. split; [| done].
    change (fault_retry (S (S n)) ms addr w) with
      ('(r, ms, w) ← do_page_fault oom debug ms addr w; '(rs, ms, w) ← fault_retry (S n) ms addr w;
       Some (r :: rs, ms, w)).
    rewrite E. cbn [mbind option_bind]. rewrite E2. done.
Qed.
End ReadOnly.

(** ** Instances of the theorems *)

#[local] Existing Instances sd_pt sd_pt_spec sd_zram sd_zram_spec sd_swap sd_swap_spec sd_file.

(** A heap pointer two pages above the heap's bottom, one page down and one up. *)
Lemma brk_fails_outside_areas_witness :
  sbrk false (fun _ => Err 9) (mkMS sd_table [sd_area]) 0x3000 0x1000 (-0x1000) sd_world = None /\
  sbrk false (fun _ => Err 9) (mkMS sd_table [sd_area]) 0x3000 0x1000 0x1000 sd_world = None.
Proof.
  assert (Hu : forall b, b < 0x60000 -> untouched (mkMS sd_table [sd_area]) 0x3 b).
  { intros b Hb. constructor; [left; exact Hb | constructor]. }
  assert (Ho : u64 0x3000 /\ u64 0x1000) by (unfold fits; lia). destruct Ho as [Ho Hb]. split.
  - destruct (brk_fails_outside_areas false (fun _ => Err 9) (mkMS sd_table [sd_area]) sd_world
      0x3000 0x1000 (-0x1000) Ho Hb) as (H & _). apply H; [lia | lia |]. apply Hu. by vm_compute.
  - destruct (brk_fails_outside_areas false (fun _ => Err 9) (mkMS sd_table [sd_area]) sd_world
      0x3000 0x1000 0x1000 Ho Hb) as (_ & H & _). apply H; [lia | by vm_compute | done |].
    apply Hu. by vm_compute.
Defined.

Lemma mprotect_write_not_restored_witness :
  exists (a : MapArea unit) t (w : World Zram (Swap * memory)) ms1 w1 ms2 w2,
    same_attrs sd_area a /\
    mprotect false (mkMS t [a]) 0x60000000 0x2000 1 w = Some (Ok tt, ms1, w1) /\
    mprotect false ms1 0x60000000 0x2000 3 w1 = Some (Ok tt, ms2, w2) /\
    do_page_fault sd_oomw false ms2 0x60000010 w2 = Some (Err NoPermission, ms2, w2).
Proof.
  destruct (sd_touched 0x16) as (p & a & t & w & Hsp & Hf & Hat & _); [by vm_compute |].
  pose proof Hat as (Hr & _ & Hp & _).
  assert (Es : area_start a = 0x60000) by (unfold area_start, lm_get_start; by rewrite Hr).
  assert (Ee : area_end a = 0x60002) by (unfold area_end, lm_get_end; by rewrite Hr).
  destruct (mprotect_write_not_restored false sd_base ∅ sd_oomw (mkMS t [a]) 0x60000000 0x2000 w 0 a 0x60000010)
    as (ms1 & w1 & ms2 & w2 & a2 & E1 & E2 & _ & _ & E3).
  - exact (sp_pt _ _ _ _ _ _ Hsp).
  - rewrite Es. lia.
  - unfold fits. lia.
  - reflexivity.
  - lia.
  - by rewrite Es.
  - by rewrite Ee.
  - apply list_find_Some. split; [done |]. split; [rewrite Es, Ee; by vm_compute | intros; lia].
  - apply list_find_Some. split; [done |]. split; [| intros; lia].
    unfold fault_match. rewrite Hp, Es, Ee. by vm_compute.
  - rewrite Hp. reflexivity.
  - pose proof (pt_is_mapped_frame _ _ _ _ _ _ _ 0 (InMemory p)
      (space_focus _ _ _ _ _ _ 0 a Hsp eq_refl)) as Hm.
    rewrite Es in Hm. rewrite Hf in Hm. apply Hm. reflexivity.
  - exists a, t, w, ms1, w1, ms2, w2. split; [exact Hat |]. split; [exact E1 |]. split; [exact E2 | exact E3].
Defined.

(** A page of a space the user may only read. *)
Lemma readonly_write_never_ends_witness :
  exists (a : MapArea unit) t (w : World Zram (Swap * memory)) p ms' w' perm,
    map_perm a = 0x12 /\
    fault_retry sd_oomw false 3 (mkMS t [a]) 0x60000010 w =
      Some ([Ok (ppn_offset p 0x10); Ok (ppn_offset p 0x10); Ok (ppn_offset p 0x10)], ms', w') /\
    pt_get_pte_flags (page_table ms') (wphys w') 0x60000 = Some perm /\
    flags_contains perm MP_W = false.
Proof.
  destruct (sd_touched 0x12) as (p & a & t & w & Hsp & Hf & Hat & Href); [by vm_compute |].
  pose proof Hat as (Hr & Ht & Hp & Hs & _).
  assert (Es : area_start a = 0x60000) by (unfold area_start, lm_get_start; by rewrite Hr).
  assert (Ee : area_end a = 0x60002) by (unfold area_end, lm_get_end; by rewrite Hr).
  destruct (readonly_write_never_ends sd_oomw false sd_base ∅ w (mkMS t [a]) [] 0x60000010 0 a p 2)
    as (ms' & w' & perm & E & Hg & Hw).
  - constructor; [by exists sd_held | unfold fits; lia | | | done | rewrite Hp; by vm_compute | by rewrite Ht | by rewrite Hs].
    + apply list_find_Some. split; [done |]. split; [| intros; lia].
      unfold fault_match. rewrite Hp, Es, Ee. by vm_compute.
    + rewrite Hf, Es. reflexivity.
  - rewrite Hp. reflexivity.
  - exists a, t, w, p, ms', w', perm. split; [exact Hp |]. split; [exact E | split; [exact Hg | exact Hw]].
Defined.
