(* ===== verification/SpaceFork.v ===== *)
(** * Fork

    [from_existing_user] of [mm/memory_set.rs] ([UserSpace]): the child shares
    the frames of the parent's areas, no page of either is writable any more,
    and the trap context is copied. With the copy on write of [SpaceOk] the two
    spaces then never see each other's writes. *)

From S2P Require Import Prelude Address Phys FrameAlloc PageTable IdAlloc PageStore Frames.
From S2P Require Import FileTrait MapArea MapAreaOom MapAreaFault MemorySet UserSpace SpaceOk.
From S2P Require Import Sv39 Sv39Tree Zram Swap SpaceDemo.

(** ** Cloning frames *)

Section Clone.
Context {ZS SS : Type} `{!PageStore ZS, !PageStoreSpec ZS, !PageStore SS, !PageStoreSpec SS}.
Notation World := (World ZS SS).

Lemma page_of_mem h (w w' : World) f : w_mem w' = w_mem w -> page_of h w' f = page_of h w f.
Proof. Transparent page_of. intros E. destruct f; cbn; [by rewrite E | done..]. Opaque page_of. Qed.

(** What a clone does to the counts. *)
Lemma Frame_clone_ok base raw h (w : World) fs f :
  world_ok base raw h w fs -> f ∈ fs ->
  world_ok base raw h (Frame_clone w f) (f :: fs) /\ w_mem (Frame_clone w f) = w_mem w /\
  pfa (wphys (Frame_clone w f)) = pfa (wphys w) /\
  forall p, InMemory p <> f -> prc (wphys (Frame_clone w f)) !! p = prc (wphys w) !! p.
Proof.
  intros H Hin. pose proof H as [Hp Hz Hs Hr].
  destruct f as [p | i | i |].
  - destruct (world_ok_mem _ _ _ _ _ _ H Hin) as (n & Hn & Hc & _).
    destruct (arc_clone_ok _ _ _ _ _ Hp Hn) as [Hp' Hrc].
    split_and!; [constructor; [done.. |] | done | done |].
    + intros g Hg. specialize (Hr g Hg). cbn [fcount]. case_decide as Hd.
      * subst g. cbn [refs_of Frame_clone wphys set_phys] in *. rewrite Hrc, lookup_insert_eq.
        rewrite Hn in Hr. cbn in *. lia.
      * destruct g as [q | | |]; cbn [refs_of Frame_clone wphys set_phys] in *; try exact Hr.
        rewrite Hrc, lookup_insert_ne by congruence. exact Hr.
    + intros q Hq. cbn [Frame_clone wphys set_phys]. rewrite Hrc, lookup_insert_ne by congruence. done.
  - pose proof (world_ok_refs _ _ _ _ _ _ H Hin ltac:(done)) as Hx. cbn in Hx.
    destruct (st_rc (wzram w) !! i) as [n |] eqn:En; cbn in Hx; [| lia].
    destruct (store_clone_ok _ _ _ _ Hz En) as [Hz' Hrc].
    split_and!; [constructor; [done.. |] | done | done | done].
    intros g Hg. specialize (Hr g Hg). cbn [fcount]. case_decide as Hd.
    + subst g. cbn [refs_of Frame_clone set_zram set_swap wzram wswap] in *. rewrite Hrc, decide_True by done. rewrite En in Hr. cbn in *. lia.
    + destruct g as [| j | |]; cbn [refs_of Frame_clone set_zram wzram wphys wswap] in *; try exact Hr. rewrite Hrc, decide_False by congruence. lia.
  - pose proof (world_ok_refs _ _ _ _ _ _ H Hin ltac:(done)) as Hx. cbn in Hx.
    destruct (st_rc (wswap w) !! i) as [n |] eqn:En; cbn in Hx; [| lia].
    destruct (store_clone_ok _ _ _ _ Hs En) as [Hs' Hrc].
    split_and!; [constructor; [done.. |] | done | done | done].
    intros g Hg. specialize (Hr g Hg). cbn [fcount]. case_decide as Hd.
    + subst g. cbn [refs_of Frame_clone set_zram set_swap wzram wswap] in *. rewrite Hrc, decide_True by done. rewrite En in Hr. cbn in *. lia.
    + destruct g as [| | j |]; cbn [refs_of Frame_clone set_swap wzram wphys wswap] in *; try exact Hr. rewrite Hrc, decide_False by congruence. lia.
  - split_and!; [| done..]. eapply world_ok_sub; [| exact H]. intros g Hg. cbn.
    rewrite decide_False by done. lia.
Qed.

Lemma clone_all_ok base raw h fs : forall (w : World) gs,
  world_ok base raw h w gs -> fs ⊆ gs ->
  let w' := foldl Frame_clone w fs in
  world_ok base raw h w' (fs ++ gs) /\ w_mem w' = w_mem w /\ pfa (wphys w') = pfa (wphys w) /\
  forall p, InMemory p ∉ fs -> prc (wphys w') !! p = prc (wphys w) !! p.
Proof.
  induction fs as [| f fs IH]; intros w gs H Hs; [done |]. cbn [foldl].
  destruct (Frame_clone_ok base raw h w gs f H) as (H1 & Hm1 & Hf1 & Hr1); [set_solver |].
  destruct (IH (Frame_clone w f) (f :: gs) H1) as (H2 & Hm2 & Hf2 & Hr2); [set_solver |].
  cbn zeta. split_and!.
  - eapply world_ok_perm; [| exact H2]. cbn. by rewrite Permutation_middle.
  - by rewrite Hm2.
  - by rewrite Hf2.
  - intros p Hp. rewrite Hr2, Hr1; [done | |]; intros Hx; apply Hp; apply elem_of_cons; [left | right]; done.
Qed.

(** The start of a page nobody else lists is overwritten. *)
Lemma w_put_prefix_ok base raw h (w : World) fs p d :
  world_ok base raw h w (InMemory p :: fs) -> InMemory p ∉ fs -> bytes d -> vlen d <= 4096 ->
  let w' := w_with_mem (fun m => put_bytes_array m p 0 d) w in
  world_ok base raw h w' (InMemory p :: fs) /\
  take (length d) (page_of h w' (InMemory p)) = d /\ keeps h w h w' fs /\
  phys_same {[p]} (wphys w) (wphys w') /\
  prc (wphys w') = prc (wphys w) /\ pfa (wphys w') = pfa (wphys w).
Proof.
  intros H Hn Hb Hl. cbn zeta.
  destruct (world_ok_mem _ _ _ _ _ p H ltac:(apply elem_of_cons; by left)) as (n & _ & _ & Hp).
  split_and!; try done.
  - destruct H. constructor; cbn; [by apply phys_inv_with_mem | done..].
  - Transparent page_of get_bytes_array put_bytes_array. cbn.
    unfold get_bytes_array, put_bytes_array, w_with_mem, w_mem. cbn. rewrite Z.add_0_r.
    rewrite <- (read_write_bytes (pmem (wphys w)) (pa_from_ppn p) d) at 3 by done.
    unfold read_bytes, vlen. rewrite <- fmap_take. f_equal.
    assert (E : seqZ 0 4096 = seqZ 0 (vlen d) ++ seqZ (0 + vlen d) (4096 - vlen d)).
    { rewrite <- seqZ_app; [f_equal; lia | apply vlen_nonneg | lia]. }
    rewrite E, take_app_length'; [done |]. unfold vlen. rewrite length_seqZ. lia.
    Opaque page_of get_bytes_array put_bytes_array.
  - intros f Hf. destruct f as [q | | |]; try (by apply page_of_mem).
    + destruct (world_ok_mem _ _ _ _ _ q H ltac:(apply elem_of_cons; by right)) as (k & _ & _ & Hq).
      Transparent page_of. cbn. Opaque page_of.
      apply get_bytes_page_eq; [done |]. apply put_bytes_page_eq; [done | lia | lia | congruence].
    + done.
    + done.
    + done.
  - intros q k Hq Hx. split; [done |]. cbn. apply put_bytes_page_eq; [done | lia | lia | set_solver].
Qed.
End Clone.

(** ** Changing the table and the frames outside a space *)

Section Spaces.
Context {T ZS SS F : Type} `{!PageTable T, !PageTableSpec T, !PageStore ZS, !PageStoreSpec ZS}.
Context `{!PageStore SS, !PageStoreSpec SS, !File F (World ZS SS)}.
Notation World := (World ZS SS).
Notation MapArea := (MapArea F).
Notation MemorySet := (MemorySet T F).

(** A step that leaves the frame of every page of the space in place. *)
Lemma space_ok_views base raw h (w : World) (ms : MemorySet) rest (w' : World) (t' : T) rest' :
  space_ok base raw h w ms rest -> world_ok base raw h w' (area_frames (areas ms) ++ rest') ->
  pt_inv base raw t' (wphys w') ->
  (forall i a v, areas ms !! i = Some a -> area_has a v ->
     fst <$> pt_view t' (wphys w') (pt_slot v) = fst <$> pt_view (page_table ms) (wphys w) (pt_slot v)) ->
  (forall p, InMemory p ∈ area_frames (areas ms) ++ rest' -> p ∉ pt_frames t') ->
  space_ok base raw h w' (mkMS t' (areas ms)) rest'.
Proof.
  intros [Hw Hp Ha Hs Hd] Hw' Hp' Hv Hd'. constructor; cbn [page_table areas]; try done.
  intros i a Hi. pose proof (Ha i a Hi) as Hao. constructor; try apply Hao.
  intros j f Hj. rewrite (Hv i a); [by apply Hao | done |]. by apply (area_vpn _ _ _ _ _ Hao Hj).
Qed.

(** An area joins a space: its frames were outside it. *)
Lemma space_ok_snoc base raw h (w : World) (t : T) (as_ : list MapArea) a rest :
  space_ok base raw h w (mkMS t as_) (frames (inner a) ++ rest) -> area_ok t w a ->
  (forall i b u v, as_ !! i = Some b -> area_has b u -> area_has a v -> pt_slot u <> pt_slot v) ->
  space_ok base raw h w (mkMS t (as_ ++ [a])) rest.
Proof.
  intros [Hw Hp Ha Hs Hd] Hao Hsl. cbn [page_table areas] in *.
  assert (E : area_frames (as_ ++ [a]) ++ rest = area_frames as_ ++ frames (inner a) ++ rest).
  { rewrite area_frames_app. unfold area_frames at 2. cbn. by rewrite app_nil_r, <- (assoc_L (++)). }
  constructor; cbn [page_table areas]; [by rewrite E | done | | | by rewrite E].
  - intros i b [Hi | [_ Hi]]%lookup_app_Some; [by eapply Ha |].
    apply list_lookup_singleton_Some in Hi as [_ <-]. done.
  - intros i j b c u v [Hi | [Hli Hi]]%lookup_app_Some [Hj | [Hlj Hj]]%lookup_app_Some Hne Hu Hv.
    + by eapply (Hs i j).
    + apply list_lookup_singleton_Some in Hj as [_ <-]. by eapply Hsl.
    + apply list_lookup_singleton_Some in Hi as [_ <-]. intros E'. by eapply (Hsl j c v u).
    + apply list_lookup_singleton_Some in Hi as [Hi _]. apply list_lookup_singleton_Some in Hj as [Hj _]. lia.
Qed.

Lemma space_ok_rest base raw h (w : World) (ms : MemorySet) rest rest' :
  rest ≡ₚ rest' -> space_ok base raw h w ms rest -> space_ok base raw h w ms rest'.
Proof.
  intros Hp [Hw Hpt Ha Hs Hd]. constructor; try done; [by eapply world_ok_perm; [| exact Hw]; rewrite Hp |].
  intros p Hx. apply Hd. by rewrite Hp.
Qed.

(** The frames of a space are cloned. *)
Lemma space_ok_clone base raw h (w : World) (ms : MemorySet) rest fs :
  space_ok base raw h w ms rest -> fs ⊆ area_frames (areas ms) ++ rest ->
  let w' := foldl Frame_clone w fs in
  space_ok base raw h w' ms (fs ++ rest) /\
  forall k, pt_view (page_table ms) (wphys w') k = pt_view (page_table ms) (wphys w) k.
Proof.
  intros Hsp Hfs. pose proof (sp_world _ _ _ _ _ _ Hsp) as Hw. cbn zeta.
  destruct (clone_all_ok base raw h fs w _ Hw Hfs) as (Hw' & Hm & Hf & Hr).
  pose proof (sp_disj _ _ _ _ _ _ Hsp) as Hd.
  destruct (pt_stable base raw (page_table ms) (wphys w) (wphys (foldl Frame_clone w fs))) as [Hp' Hv'].
  { apply (sp_pt _ _ _ _ _ _ Hsp). }
  { apply Hw'. }
  { intros p Hp. unfold w_mem in Hm. rewrite Hm. split; [apply page_eq_refl |].
    rewrite Hr; [by eapply pt_inv_frames; [apply (sp_pt _ _ _ _ _ _ Hsp) |] |].
    intros Hin. by apply (Hd p (Hfs _ Hin)). }
  split; [| exact Hv'].
  assert (Hp : fs ++ area_frames (areas ms) ++ rest ≡ₚ area_frames (areas ms) ++ fs ++ rest).
  { rewrite !(assoc_L (++)). apply Permutation_app_tail, Permutation_app_comm. }
  destruct ms as [t as_]. apply (space_ok_views base raw h w (mkMS t as_) rest); cbn [page_table areas] in *; try done.
  - by eapply world_ok_perm; [exact Hp |].
  - intros i a v Hi Hv. by rewrite Hv'.
  - intros p Hin. apply Hd. rewrite <- Hp in Hin. apply elem_of_app in Hin as [Hin | Hin]; [by apply Hfs | done].
Qed.
End Spaces.

(** ** Two tables *)

Section Tables.
Context {T ZS SS F : Type} `{!PageTable T, !PageTableSpec T, !PageStore ZS, !PageStoreSpec ZS}.
Context `{!PageStore SS, !PageStoreSpec SS, !File F (World ZS SS)}.
Notation World := (World ZS SS).
Notation MapArea := (MapArea F).

(** Two tables over the same frames, made of different frames. *)
Record two_tables (base : Z) (raw : gset Z) (h : Held) (w : World) (src dst : T) (fs : list Frame)
    : Prop := {
  tt_world : world_ok base raw h w fs;
  tt_src : pt_inv base raw src (wphys w);
  tt_dst : pt_inv base raw dst (wphys w);
  tt_sep : pt_frames src ## pt_frames dst;
  tt_fs : forall p, InMemory p ∈ fs -> p ∉ pt_frames src /\ p ∉ pt_frames dst
}.

Definition revoke (e : Z * Z) : Z * Z := (e.1, flags_difference e.2 MP_W).

Lemma block_step base raw h (w : World) (src dst : T) fs vpn :
  two_tables base raw h w src dst fs -> 0 <= vpn ->
  exists ph, pt_block_and_ret_mut src (wphys w) vpn = (fst <$> pt_view src (wphys w) (pt_slot vpn), ph) /\
    let w' := set_phys w ph in
    two_tables base raw h w' src dst fs /\ keeps h w h w' fs /\
    (forall k, pt_view src (wphys w') k =
       if decide (k = pt_slot vpn) then revoke <$> pt_view src (wphys w) k else pt_view src (wphys w) k) /\
    (forall k, pt_view dst (wphys w') k = pt_view dst (wphys w) k) /\
    pfa (wphys w') = pfa (wphys w).
Proof.
  intros [Hw Hs Hd Hx Hf] Hv. pose proof (pt_block_spec _ _ _ _ vpn Hs Hv) as Hb.
  destruct (pt_block_and_ret_mut src (wphys w) vpn) as [r ph]. destruct Hb as (-> & Hs' & Hk & Hr & Hu & Hp).
  exists ph. split; [done |]. cbn zeta.
  destruct (w_table_ok base raw h w fs (pt_frames src) ph) as (A & B & C);
    [done | by eapply pt_inv_phys | | intros; by apply Hf |].
  { intros p Hn. split; [by apply Hp | by rewrite Hr]. }
  destruct (pt_stable_same base raw dst (wphys w) ph (pt_frames src)) as [Hd' Hdv];
    [done | by eapply pt_inv_phys | done | set_solver |].
  split_and!; done.
Qed.

Lemma map_step base raw h (w : World) (src dst : T) fs vpn ppn perm :
  two_tables base raw h w src dst fs -> 0 <= vpn -> ppn_ok ppn -> perm_ok perm ->
  pt_view dst (wphys w) (pt_slot vpn) = None -> 2 <= fa_unallocated_frames (pfa (wphys w)) ->
  exists dst' w', w_map dst w vpn ppn perm = Some (dst', w') /\
    two_tables base raw h w' src dst' fs /\ keeps h w h w' fs /\
    (forall k, pt_view dst' (wphys w') k =
       if decide (k = pt_slot vpn) then Some (ppn, perm) else pt_view dst (wphys w) k) /\
    (forall k, pt_view src (wphys w') k = pt_view src (wphys w) k) /\
    fa_unallocated_frames (pfa (wphys w)) - 2 <= fa_unallocated_frames (pfa (wphys w')).
Proof.
  intros [Hw Hs Hd Hx Hf] Hv Hp Hq Hn Hu.
  destruct (w_map_ok base raw h w dst fs vpn ppn perm) as
    (dst' & w' & E & Mw & Mk & Ms & Mi & Mv & Mf & Msub & Mfree & Mu); try done; [intros; by apply Hf |].
  exists dst', w'. split; [done |].
  destruct (pt_stable_same base raw src (wphys w) (wphys w') (pt_frames dst)) as [Hs' Hsv];
    [done | by eapply pt_inv_phys | done | set_solver |].
  split_and!; try done. constructor; try done.
  - intros p H1 H2. destruct (Mfree p H2) as [H3 | H3]; [by eapply Hx |].
    apply H3, elem_of_union_l, elem_of_dom. eexists. by eapply (pt_inv_frames base raw src).
  - intros p Hi. split; [by apply Hf | by apply Mf].
Qed.

(** What sharing the entries in the slots [ks] guarantees; [n] pages were
    gone through. *)
Record shared (base : Z) (raw : gset Z) (h : Held) (src : T) (fs : list Frame) (perm : Z)
    (ks : list (list Z)) (n : nat) (w : World) (dst : T) (w' : World) (dst' : T) : Prop := {
  sh_tables : two_tables base raw h w' src dst' fs;
  sh_keeps : keeps h w h w' fs;
  sh_src : forall k, pt_view src (wphys w') k =
    if decide (k ∈ ks) then revoke <$> pt_view src (wphys w) k else pt_view src (wphys w) k;
  sh_dst : forall k, pt_view dst' (wphys w') k =
    if decide (k ∈ ks) then (fun e => (e.1, perm)) <$> pt_view src (wphys w) k
    else pt_view dst (wphys w) k;
  sh_free : fa_unallocated_frames (pfa (wphys w)) - 2 * Z.of_nat n <=
    fa_unallocated_frames (pfa (wphys w'))
}.

Lemma shared_trans base raw h src fs perm ks1 ks2 n1 n2 (w : World) dst w1 dst1 w2 dst2 :
  (forall k, k ∈ ks1 -> k ∈ ks2 -> False) ->
  shared base raw h src fs perm ks1 n1 w dst w1 dst1 ->
  shared base raw h src fs perm ks2 n2 w1 dst1 w2 dst2 ->
  shared base raw h src fs perm (ks1 ++ ks2) (n1 + n2) w dst w2 dst2.
Proof.
  intros Hx [_ Hk1 Hs1 Hd1 Hu1] [Ht2 Hk2 Hs2 Hd2 Hu2].
  assert (Hin : forall k, k ∈ ks1 ++ ks2 <-> k ∈ ks1 \/ k ∈ ks2) by (intros; apply elem_of_app).
  constructor; [done | by eapply keeps_trans | | | lia].
  - intros k. rewrite Hs2, Hs1. pose proof (Hx k). specialize (Hin k).
    repeat case_decide; try reflexivity; exfalso; tauto.
  - intros k. rewrite Hd2, Hd1, Hs1. pose proof (Hx k). specialize (Hin k).
    repeat case_decide; try reflexivity; exfalso; tauto.
Qed.

(** One page: every entry of the parent's table loses its write bit and is
    entered in the child's. *)
Lemma shared_one base raw h src fs perm v vpns (w : World) (dst : T) :
  two_tables base raw h w src dst fs -> perm_ok perm -> 0 <= v ->
  pt_view dst (wphys w) (pt_slot v) = None -> 2 <= fa_unallocated_frames (pfa (wphys w)) ->
  exists w1 dst1, map_from_existing_loop (v :: vpns) perm dst src w =
      map_from_existing_loop vpns perm dst1 src w1 /\
    shared base raw h src fs perm [pt_slot v] 1 w dst w1 dst1.
Proof.
  intros Htt Hperm Hv Hnone Hu. cbn [map_from_existing_loop].
  destruct (block_step base raw h w src dst fs v Htt Hv) as (ph & -> & Htt1 & Hk1 & Hs1 & Hd1 & Hu1).
  set (w1 := set_phys w ph) in *. rewrite <- Hd1 in Hnone.
  assert (Hone : forall (k : list Z) A (x y : A),
    (if decide (k ∈ [pt_slot v]) then x else y) = if decide (k = pt_slot v) then x else y).
  { intros k A x y. pose proof (list_elem_of_singleton k (pt_slot v)). repeat case_decide; tauto || done. }
  destruct (pt_view src (wphys w) (pt_slot v)) as [[p q] |] eqn:Ev; cbn [fmap option_fmap option_map].
  - rewrite (pt_is_mapped_view base raw) by (apply Htt1 || done).
    rewrite Hnone, bool_decide_eq_false_2 by (by intros [? ?]). cbn [negb fst].
    destruct (map_step base raw h w1 src dst fs v p perm) as (dst2 & w2 & -> & Htt2 & Hk2 & Hd2 & Hs2 & Hu2);
      [done | done | | done | done | rewrite Hu1; lia |].
    { apply (pt_view_ok base raw src (wphys w) (pt_slot v) (p, q)); [apply Htt | done]. }
    exists w2, dst2. split; [done |]. constructor; [done | by eapply keeps_trans | | | rewrite Hu1 in Hu2; lia].
    + intros k. by rewrite Hone, Hs2, Hs1.
    + intros k. rewrite Hone, Hd2, Hd1. case_decide; [| done]. subst k. by rewrite Ev.
  - exists w1, dst. split; [done |]. constructor; [done | done | | | rewrite Hu1; lia].
    + intros k. by rewrite Hone, Hs1.
    + intros k. rewrite Hone. case_decide; [| by rewrite Hd1]. subst k. by rewrite Ev.
Qed.

(** The loop of [map_from_existing_page_table]. *)
Lemma map_from_existing_loop_ok base raw h src fs perm vpns : forall (w : World) (dst : T),
  two_tables base raw h w src dst fs -> perm_ok perm ->
  Forall (Z.le 0) vpns -> NoDup (pt_slot <$> vpns) ->
  (forall v, v ∈ vpns -> pt_view dst (wphys w) (pt_slot v) = None) ->
  2 * Z.of_nat (length vpns) <= fa_unallocated_frames (pfa (wphys w)) ->
  exists dst' w', map_from_existing_loop vpns perm dst src w = Some (Ok tt, dst', w') /\
    shared base raw h src fs perm (pt_slot <$> vpns) (length vpns) w dst w' dst'.
Proof.
  induction vpns as [| v vpns IH]; intros w dst Htt Hperm H0 Hnd Hnone Hu.
  { exists dst, w. split; [done |]. constructor; [done | done | done | done | cbn; lia]. }
  apply Forall_cons in H0 as [Hv H0]. rewrite fmap_cons in Hnd. apply NoDup_cons in Hnd as [Hnv Hnd].
  cbn [length] in Hu.
  destruct (shared_one base raw h src fs perm v vpns w dst) as (w1 & dst1 & -> & Hs1);
    [done | done | done | apply Hnone, elem_of_cons; by left | lia |].
  destruct (IH w1 dst1) as (dst' & w' & E & Hs'); try done.
  - apply Hs1.
  - intros u Hin. rewrite (sh_dst _ _ _ _ _ _ _ _ _ _ _ _ Hs1), decide_False.
    + apply Hnone, elem_of_cons. by right.
    + intros Es%list_elem_of_singleton. apply Hnv. rewrite <- Es. by apply list_elem_of_fmap_2.
  - pose proof (sh_free _ _ _ _ _ _ _ _ _ _ _ _ Hs1). lia.
  - exists dst', w'. split; [done |]. refine (shared_trans _ _ _ _ _ _ [_] _ 1 _ _ _ _ _ _ _ _ Hs1 Hs').
    intros k Hk%list_elem_of_singleton. by subst k.
Qed.
End Tables.

(** ** Sharing the areas *)

Section Fork.
Context {T ZS SS F : Type} `{!PageTable T, !PageTableSpec T, !PageStore ZS, !PageStoreSpec ZS}.
Context `{!PageStore SS, !PageStoreSpec SS, !File F (World ZS SS)}.
Notation World := (World ZS SS).
Notation MapArea := (MapArea F).
Notation MemorySet := (MemorySet T F).

(** Parent and child between two areas; [tramp] are the slots of the child's
    trampolines. *)
Record fork_state (base : Z) (raw : gset Z) (h : Held) (tramp : list (list Z)) (w : World)
    (parent child : MemorySet) (rest : list Frame) : Prop := {
  fk_parent : space_ok base raw h w parent (area_frames (areas child) ++ rest);
  fk_child : space_ok base raw h w child (area_frames (areas parent) ++ rest);
  fk_sep : pt_frames (page_table parent) ## pt_frames (page_table child);
  fk_entries : forall k, is_Some (pt_view (page_table child) (wphys w) k) ->
    k ∈ tramp \/ exists a v, a ∈ areas child /\ area_has a v /\ k = pt_slot v;
  fk_readonly : forall a v e, a ∈ areas child -> area_has a v ->
    pt_view (page_table parent) (wphys w) (pt_slot v) = Some e \/
    pt_view (page_table child) (wphys w) (pt_slot v) = Some e ->
    flags_contains e.2 MP_W = false
}.

Lemma difference_no_W q : flags_contains (flags_difference q MP_W) MP_W = false.
Proof.
  change MP_W with (2 ^ 2). rewrite flags_contains_pow2 by lia. unfold flags_difference.
  rewrite Z.ldiff_spec, testbit_pow2 by lia. by destruct (Z.testbit q 2).
Qed.

Lemma elem_of_vpns (a : MapArea) v : v ∈ range_items (vpn_range (inner a)) <-> area_has a v.
Proof. apply elem_of_range_items. Qed.

Lemma area_slots_nodup t (w : World) (a : MapArea) :
  area_ok t w a -> NoDup (pt_slot <$> range_items (vpn_range (inner a))).
Proof.
  intros Ha. apply NoDup_fmap_2_strong; [| apply NoDup_seqZ].
  intros u v Hu Hv. apply (ao_slots _ _ _ Ha); by apply elem_of_vpns.
Qed.

Lemma elem_of_slots (a : MapArea) k :
  k ∈ pt_slot <$> range_items (vpn_range (inner a)) <-> exists v, area_has a v /\ k = pt_slot v.
Proof.
  rewrite list_elem_of_fmap. split; intros (v & H1 & H2); exists v; split; try done; by apply elem_of_vpns.
Qed.

(** The clone of one area: both spaces now list its frames outside. *)
Lemma fork_clone base raw h tramp (w : World) (parent child : MemorySet) rest i a :
  fork_state base raw h tramp w parent child rest -> areas parent !! i = Some a ->
  let w1 := foldl Frame_clone w (frames (inner a)) in
  fork_state base raw h tramp w1 parent child (frames (inner a) ++ rest) /\
  w_mem w1 = w_mem w /\ pfa (wphys w1) = pfa (wphys w).
Proof.
  intros [Hp Hc Hsep He Hro] Hi. cbn zeta.
  assert (Hsub : frames (inner a) ⊆ area_frames (areas parent)).
  { intros f Hf. by eapply elem_area_frames. }
  destruct (space_ok_clone base raw h w parent _ (frames (inner a)) Hp) as [Hp1 Hvp].
  { intros f Hf. apply elem_of_app. left. by apply Hsub. }
  destruct (space_ok_clone base raw h w child _ (frames (inner a)) Hc) as [Hc1 Hvc].
  { intros f Hf. apply elem_of_app. right. apply elem_of_app. left. by apply Hsub. }
  destruct (clone_all_ok base raw h (frames (inner a)) w _ (sp_world _ _ _ _ _ _ Hp)) as (_ & Hm & Hf & _).
  { intros f Hf. apply elem_of_app. left. by apply Hsub. }
  split_and!; [| done | done]. constructor.
  - eapply space_ok_rest; [| exact Hp1]. rewrite !(assoc_L (++)). apply Permutation_app_tail, Permutation_app_comm.
  - eapply space_ok_rest; [| exact Hc1]. rewrite !(assoc_L (++)). apply Permutation_app_tail, Permutation_app_comm.
  - done.
  - intros k. rewrite Hvc. apply He.
  - intros b v e. rewrite Hvp, Hvc. apply Hro.
Qed.

Lemma fork_two_tables base raw h tramp (w : World) (parent child : MemorySet) rest :
  fork_state base raw h tramp w parent child rest ->
  two_tables base raw h w (page_table parent) (page_table child)
    (area_frames (areas parent) ++ area_frames (areas child) ++ rest).
Proof.
  intros [Hp Hc Hsep _ _]. constructor; [apply Hp | apply Hp | apply Hc | done |].
  intros p Hin. split; [by apply Hp |]. apply Hc.
  apply elem_of_app in Hin as [Hin | [Hin | Hin]%elem_of_app]; rewrite !elem_of_app; tauto.
Qed.

(** Both spaces after a step that leaves the frame of every page in place. *)
Lemma spaces_of_tables base raw h (w : World) (parent child : MemorySet) rest (w' : World) (dst' : T) rest' :
  space_ok base raw h w parent (area_frames (areas child) ++ rest) ->
  space_ok base raw h w child (area_frames (areas parent) ++ rest) ->
  two_tables base raw h w' (page_table parent) dst'
    (area_frames (areas parent) ++ area_frames (areas child) ++ rest') ->
  (forall b v, b ∈ areas parent -> area_has b v ->
     fst <$> pt_view (page_table parent) (wphys w') (pt_slot v) =
     fst <$> pt_view (page_table parent) (wphys w) (pt_slot v)) ->
  (forall b v, b ∈ areas child -> area_has b v ->
     fst <$> pt_view dst' (wphys w') (pt_slot v) = fst <$> pt_view (page_table child) (wphys w) (pt_slot v)) ->
  space_ok base raw h w' parent (area_frames (areas child) ++ rest') /\
  space_ok base raw h w' (mkMS dst' (areas child)) (area_frames (areas parent) ++ rest').
Proof.
  intros Hp Hc [Ht Hts Htd _ Htf] Hvp Hvc. split.
  - enough (Hx : space_ok base raw h w' (mkMS (page_table parent) (areas parent))
      (area_frames (areas child) ++ rest')) by (by destruct parent).
    apply (space_ok_views base raw h w parent (area_frames (areas child) ++ rest));
      [done | done | done | | intros p Hx; by apply Htf].
    intros j b v Hj. apply Hvp. by eapply list_elem_of_lookup_2.
  - apply (space_ok_views base raw h w child (area_frames (areas parent) ++ rest)); [done | | done | |].
    + eapply world_ok_perm; [| exact Ht]. clear. solve_Permutation.
    + intros j b v Hj. apply Hvc. by eapply list_elem_of_lookup_2.
    + intros p Hx. apply Htf. rewrite !elem_of_app in *. tauto.
Qed.

Lemma area_frames_snoc (as_ : list MapArea) a (rest : list Frame) :
  area_frames (as_ ++ [a]) ++ rest = area_frames as_ ++ frames (inner a) ++ rest.
Proof. rewrite area_frames_app. unfold area_frames at 2. cbn. by rewrite app_nil_r, <- (assoc_L (++)). Qed.

(** The area joins the child once its entries are shared. *)
Lemma fork_join base raw h tramp (w : World) (parent child : MemorySet) rest i a n (w' : World) (t' : T) :
  fork_state base raw h tramp w parent child (frames (inner a) ++ rest) -> areas parent !! i = Some a ->
  (forall b u v, b ∈ areas child -> area_has b u -> area_has a v -> pt_slot u <> pt_slot v) ->
  shared base raw h (page_table parent)
    (area_frames (areas parent) ++ area_frames (areas child) ++ frames (inner a) ++ rest)
    (flags_difference (map_perm a) MP_W) (pt_slot <$> range_items (vpn_range (inner a))) n
    w (page_table child) w' t' ->
  fork_state base raw h tramp w' parent (mkMS t' (areas child ++ [a])) rest.
Proof.
  intros [Hp Hc _ He Hro] Hi Hne [Htt Hk Hs Hd _].
  assert (Hin : forall v, area_has a v -> pt_slot v ∈ pt_slot <$> range_items (vpn_range (inner a))).
  { intros v Hv. apply elem_of_slots. by exists v. }
  assert (Hout : forall b v, b ∈ areas child -> area_has b v ->
    pt_slot v ∉ pt_slot <$> range_items (vpn_range (inner a))).
  { intros b v Hb Hv (u & Hu & Eu)%elem_of_slots. by eapply (Hne b v u). }
  destruct (spaces_of_tables base raw h w parent child _ w' t' (frames (inner a) ++ rest) Hp Hc Htt) as [Hp2 Hc2].
  { intros b v _ _. rewrite Hs. case_decide; [| done]. by destruct (pt_view _ (wphys w) (pt_slot v)). }
  { intros b v Hb Hv. rewrite Hd, decide_False; [done |]. by apply (Hout b). }
  constructor; cbn [page_table areas].
  - by rewrite area_frames_snoc.
  - apply space_ok_snoc; [| | intros j b u v Hj; apply Hne; by eapply list_elem_of_lookup_2].
    { eapply space_ok_rest; [| exact Hc2]. clear. solve_Permutation. }
    pose proof (sp_areas _ _ _ _ _ _ Hp i a Hi) as Ha. constructor; try apply Ha.
    intros j f Hj. rewrite <- (ao_ptes _ _ _ Ha j f Hj). rewrite Hd, decide_True.
    + by destruct (pt_view (page_table parent) (wphys w) _).
    + apply Hin. by apply (area_vpn _ _ _ _ _ Ha Hj).
  - apply Htt.
  - intros k. rewrite Hd. case_decide as Hk2.
    + intros _. right. apply elem_of_slots in Hk2 as (v & Hv & ->). exists a, v.
      split_and!; [apply elem_of_app; right; by apply list_elem_of_singleton | done | done].
    + intros Hx. destruct (He k Hx) as [? | (b & v & Hb & Hv & ->)]; [by left | right].
      exists b, v. split_and!; [apply elem_of_app; by left | done | done].
  - intros b v e [Hb | Hb]%elem_of_app Hv; rewrite Hs, Hd.
    + rewrite !decide_False by (by apply (Hout b)). by apply (Hro b).
    + apply list_elem_of_singleton in Hb as ->. rewrite !decide_True by (by apply Hin).
      destruct (pt_view (page_table parent) (wphys w) (pt_slot v)) as [e0 |]; cbn; [| by intros [? | ?]].
      intros [[= <-] | [= <-]]; apply difference_no_W.
Qed.

(** One turn of the loop over the areas. *)
Lemma fork_area_step base raw h tramp (w : World) (parent child : MemorySet) rest i a :
  fork_state base raw h tramp w parent child rest -> areas parent !! i = Some a ->
  (forall b, b ∈ areas child -> exists j, j <> i /\ areas parent !! j = Some b) ->
  (forall v, area_has a v -> pt_slot v ∉ tramp) -> perm_ok (map_perm a) ->
  2 * vlen (frames (inner a)) <= fa_unallocated_frames (pfa (wphys w)) ->
  exists t' w',
    map_from_existing_page_table a (page_table child) (page_table parent) (area_clone a w).2 =
      Some (Ok tt, t', w') /\
    fork_state base raw h tramp w' parent (mkMS t' (areas child ++ [a])) rest /\
    keeps h w h w' (area_frames (areas parent) ++ rest) /\
    fa_unallocated_frames (pfa (wphys w)) - 2 * vlen (frames (inner a)) <=
      fa_unallocated_frames (pfa (wphys w')).
Proof.
  intros Hst Hi Hch Htr Hperm Hu. cbn [area_clone snd].
  destruct (fork_clone _ _ _ _ _ _ _ _ _ _ Hst Hi) as (Hst1 & Hm1 & Hf1).
  set (w1 := foldl Frame_clone w (frames (inner a))) in *.
  pose proof (sp_areas _ _ _ _ _ _ (fk_parent _ _ _ _ _ _ _ _ Hst1) i a Hi) as Ha.
  pose proof (ao_range _ _ _ Ha) as Hr. pose proof (ao_len _ _ _ Ha) as Hl.
  set (vpns := range_items (vpn_range (inner a))).
  assert (Hlen : Z.of_nat (length vpns) = vlen (frames (inner a))).
  { unfold vpns, range_items. rewrite length_seqZ, Hl. unfold area_start, area_end, lm_get_start, lm_get_end in *.
    unfold get_start, get_end in *. lia. }
  assert (Hne : forall b u v, b ∈ areas child -> area_has b u -> area_has a v -> pt_slot u <> pt_slot v).
  { intros b u v Hb Hbu Hv. destruct (Hch b Hb) as (j & Hj & Hbj).
    by eapply (sp_slots _ _ _ _ _ _ (fk_parent _ _ _ _ _ _ _ _ Hst1) j i). }
  destruct (map_from_existing_loop_ok base raw h (page_table parent)
    (area_frames (areas parent) ++ area_frames (areas child) ++ frames (inner a) ++ rest)
    (flags_difference (map_perm a) MP_W) vpns w1 (page_table child)) as (t' & w' & E & Hsh).
  - by eapply fork_two_tables.
  - by apply perm_ok_difference.
  - apply Forall_forall. intros v Hv%elem_of_vpns. unfold area_has in Hv. lia.
  - by eapply area_slots_nodup.
  - intros v Hv%elem_of_vpns. destruct (pt_view _ _ (pt_slot v)) eqn:Ev; [| done].
    destruct (fk_entries _ _ _ _ _ _ _ _ Hst1 (pt_slot v)) as [Hin | (b & u & Hb & Hbu & Eu)]; [by rewrite Ev | |].
    + by destruct (Htr v Hv).
    + exfalso. by eapply (Hne b u v).
  - rewrite Hf1. lia.
  - exists t', w'. split; [exact E |]. split; [by apply (fork_join _ _ _ _ w1 _ _ _ i _ (length vpns)) |].
    pose proof (sh_free _ _ _ _ _ _ _ _ _ _ _ _ Hsh) as Hfr. rewrite Hf1 in Hfr. split; [| lia].
    intros f Hin. rewrite (sh_keeps _ _ _ _ _ _ _ _ _ _ _ _ Hsh) by (rewrite !elem_of_app in *; tauto).
    by apply page_of_mem.
Qed.

(** The loop over the areas but the last. *)
Lemma fork_areas_ok base raw h tramp (parent : MemorySet) rest tail todo :
  forall past (w : World) (child : MemorySet),
  areas parent = past ++ todo ++ tail -> areas child = past ->
  fork_state base raw h tramp w parent child rest ->
  (forall a, a ∈ todo -> perm_ok (map_perm a) /\ forall v, area_has a v -> pt_slot v ∉ tramp) ->
  2 * vlen (area_frames todo) <= fa_unallocated_frames (pfa (wphys w)) ->
  exists child' w', fork_areas todo child (page_table parent) w = Some (child', w') /\
    areas child' = past ++ todo /\ fork_state base raw h tramp w' parent child' rest /\
    keeps h w h w' (area_frames (areas parent) ++ rest) /\
    fa_unallocated_frames (pfa (wphys w)) - 2 * vlen (area_frames todo) <=
      fa_unallocated_frames (pfa (wphys w')).
Proof.
  induction todo as [| a todo IH]; intros past w child Hpa Hca Hst Hok Hu.
  { exists child, w. rewrite app_nil_r. split_and!; try done. unfold vlen. cbn. lia. }
  assert (Hlen : vlen (area_frames (a :: todo)) = vlen (frames (inner a)) + vlen (area_frames todo)).
  { unfold area_frames. rewrite fmap_cons. cbn [concat]. apply vlen_app. }
  pose proof (vlen_nonneg (area_frames todo)) as Hn.
  destruct (Hok a ltac:(apply elem_of_cons; by left)) as [Hperm Htr].
  assert (Hi : areas parent !! length past = Some a).
  { rewrite Hpa. rewrite lookup_app_r, Nat.sub_diag by lia. done. }
  destruct (fork_area_step base raw h tramp w parent child rest (length past) a) as (t' & w1 & E & Hst1 & Hk1 & Hu1);
    [done | done | | done | done | lia |].
  { intros b Hb. rewrite Hca in Hb. apply list_elem_of_lookup in Hb as [j Hj].
    pose proof (lookup_lt_Some _ _ _ Hj). exists j. split; [lia |]. rewrite Hpa. by apply lookup_app_l_Some. }
  cbn [fork_areas]. unfold area_clone in E |- *. cbn [snd] in E. rewrite E. cbn [unwrap mbind option_bind].
  destruct (IH (past ++ [a]) w1 (mkMS t' (areas child ++ [a]))) as (child' & w' & E' & Ha' & Hst' & Hk' & Hu').
  - rewrite Hpa, <- !(assoc_L (++)). done.
  - cbn [areas]. by rewrite Hca.
  - done.
  - intros b Hb. apply Hok. apply elem_of_cons. by right.
  - lia.
  - exists child', w'. split_and!; [exact E' | by rewrite Ha', <- (assoc_L (++)) | done | by eapply keeps_trans | lia].
Qed.

(** ** The child's table and its trampolines *)

Lemma fork_start base raw h (w : World) (parent : MemorySet) rest :
  space_ok base raw h w parent rest -> 1 <= fa_unallocated_frames (pfa (wphys w)) ->
  exists (t : T) w', new_bare w = Some (mkMS t [] : MemorySet, w') /\
    fork_state base raw h [] w' parent (mkMS t []) rest /\
    keeps h w h w' (area_frames (areas parent) ++ rest) /\
    fa_unallocated_frames (pfa (wphys w')) = fa_unallocated_frames (pfa (wphys w)) - 1.
Proof.
  intros Hsp Hu. pose proof (sp_world _ _ _ _ _ _ Hsp) as Hw.
  destruct (pt_new_spec base raw (wphys w)) as (t & ph & E & Hi & Hv & Hfree & Hsame & Hu'); [apply Hw | done |].
  unfold new_bare. rewrite E. cbn [mbind option_bind]. exists t, (set_phys w ph). split; [done |].
  assert (Hlive : forall p n, prc (wphys w) !! p = Some n -> p ∉ pt_frames t).
  { intros p n Hp Ht. apply (Hfree p Ht), elem_of_union_l, elem_of_dom. eauto. }
  assert (Hfs : forall p, InMemory p ∈ area_frames (areas parent) ++ rest -> p ∉ pt_frames t).
  { intros p Hin. destruct (world_ok_mem _ _ _ _ _ _ Hw Hin) as (n & Hn & _). by eapply Hlive. }
  assert (Hpf : forall p, p ∈ pt_frames (page_table parent) -> p ∉ pt_frames t).
  { intros p Hp. eapply Hlive. eapply pt_inv_frames; [apply Hsp | done]. }
  destruct (w_table_ok base raw h w _ (pt_frames t) ph Hw) as (Hw' & Hk & Hps);
    [by eapply pt_inv_phys | done | done |].
  destruct (pt_stable_same base raw (page_table parent) (wphys w) ph (pt_frames t)) as [Hi' Hv'];
    [apply Hsp | by eapply pt_inv_phys | done | done |].
  split_and!; [constructor; cbn [page_table areas] | done | done].
  - enough (Hx : space_ok base raw h (set_phys w ph) (mkMS (page_table parent) (areas parent)) rest)
      by (by destruct parent).
    apply (space_ok_views base raw h w parent rest); [done | done | done | | apply Hsp].
    intros i a v _ _. cbn. by rewrite Hv'.
  - constructor; cbn [page_table areas]; [done | done | by intros [] | by intros [] | done].
  - intros p Hp Hc. by eapply Hpf.
  - intros k. cbn. rewrite Hv. by intros [? ?].
  - by intros a v e ?%not_elem_of_nil.
Qed.

Lemma fork_tramp base raw h tramp (w : World) (parent : MemorySet) (t : T) rest vpn ppn perm :
  fork_state base raw h tramp w parent (mkMS t []) rest -> 0 <= vpn -> ppn_ok ppn -> perm_ok perm ->
  pt_slot vpn ∉ tramp -> 2 <= fa_unallocated_frames (pfa (wphys w)) ->
  exists t' w', w_map t w vpn ppn perm = Some (t', w') /\
    fork_state base raw h (pt_slot vpn :: tramp) w' parent (mkMS t' []) rest /\
    keeps h w h w' (area_frames (areas parent) ++ rest) /\
    fa_unallocated_frames (pfa (wphys w)) - 2 <= fa_unallocated_frames (pfa (wphys w')).
Proof.
  intros Hst Hv Hp Hq Hn Hu. pose proof (fork_two_tables _ _ _ _ _ _ _ _ Hst) as Htt.
  pose proof (fk_entries _ _ _ _ _ _ _ _ Hst) as He. cbn [page_table areas] in *.
  destruct (map_step base raw h w (page_table parent) t _ vpn ppn perm Htt)
    as (t' & w' & E & Htt' & Hk & Hd & Hs & Hu'); [done | done | done | | done |].
  { destruct (pt_view t (wphys w) (pt_slot vpn)) eqn:Ev; [| done].
    destruct (He (pt_slot vpn)) as [? | (? & ? & ?%not_elem_of_nil & _)]; by rewrite ?Ev. }
  exists t', w'. split; [done |]. split_and!; [| done | done].
  destruct (spaces_of_tables base raw h w parent (mkMS t []) rest w' t' rest) as [Hp2 Hc2];
    [apply Hst | apply Hst | done | intros; by rewrite Hs | by intros ? ? ?%not_elem_of_nil |].
  constructor; cbn [page_table areas] in *; [done | done | apply Htt' | | by intros ? ? ? ?%not_elem_of_nil].
  intros k. rewrite Hd. case_decide as Hx.
  - intros _. left. apply elem_of_cons. by left.
  - intros Hi. destruct (He k Hi) as [? | (? & ? & ?%not_elem_of_nil & _)]; [| done].
    left. apply elem_of_cons. by right.
Qed.

(** The tables after a frame was allocated. *)
Lemma two_tables_alloc base raw h (w : World) (src dst : T) fs oom :
  two_tables base raw h w src dst fs -> 0 < fa_unallocated_frames (pfa (wphys w)) ->
  exists p w', w_frame_alloc_uninit oom w = (Some p, w') /\
    two_tables base raw h w' src dst (InMemory p :: fs) /\ InMemory p ∉ fs /\ ppn_ok p /\
    keeps h w h w' fs /\
    (forall k, pt_view src (wphys w') k = pt_view src (wphys w) k) /\
    (forall k, pt_view dst (wphys w') k = pt_view dst (wphys w) k) /\
    fa_unallocated_frames (pfa (wphys w')) = fa_unallocated_frames (pfa (wphys w)) - 1.
Proof.
  intros [Hw Hs Hd Hx Hf] Hu.
  destruct (w_alloc_uninit_ok oom base raw h w fs Hw Hu) as (p & w' & E & Hw' & Hn & Hp & Hk & Hsame & Hfree & _ & Hu').
  exists p, w'. split; [done |].
  destruct (pt_stable_same base raw src (wphys w) (wphys w') ∅) as [Hs' Hsv]; [done | apply Hw' | done | set_solver |].
  destruct (pt_stable_same base raw dst (wphys w) (wphys w') ∅) as [Hd' Hdv]; [done | apply Hw' | done | set_solver |].
  split_and!; try done. constructor; try done.
  intros q [[= ->] | Hq]%elem_of_cons; [| by apply Hf].
  split; intros Ht; apply Hfree, elem_of_union_l, elem_of_dom; eexists;
    [by eapply (pt_inv_frames base raw src) | by eapply (pt_inv_frames base raw dst)].
Qed.

(** ** The trap context *)

Context (oom : Z -> World -> World) (debug : bool).

(** An area of one page, in the place of [trap]. *)
Definition one_page (trap : MapArea) (f : Frame) (act : list Z) : MapArea :=
  mkArea (mkLM (mkRange (area_start trap) (area_start trap + 1)) [f] act 0 0) (map_type trap)
    (map_perm trap) (writable_stripped trap) (map_file trap).

Lemma from_another_one (trap : MapArea) :
  0 <= area_start trap -> area_end trap = area_start trap + 1 ->
  area_from_another trap = Some (one_page trap Unallocated []).
Proof.
  intros H0 He. unfold area_from_another. rewrite He. unfold range_new.
  destruct (Z.leb_spec (area_start trap) (area_start trap + 1)); [| lia]. cbn [mbind option_bind].
  unfold lm_new, one_page, get_end, get_start. cbn [range_l range_r].
  assert (E : area_start trap + 1 -w area_start trap = 1) by (rewrite wrap64_small; lia).
  by rewrite E.
Qed.

Lemma one_page_has (trap : MapArea) f act v : area_has (one_page trap f act) v <-> v = area_start trap.
Proof.
  unfold area_has.
  change (area_start (one_page trap f act)) with (area_start trap).
  change (area_end (one_page trap f act)) with (area_start trap + 1). lia.
Qed.

Lemma one_page_ok t (w : World) (trap : MapArea) p perm :
  0 <= area_start trap -> area_start trap + 1 < 2 ^ 52 ->
  pt_view t (wphys w) (pt_slot (area_start trap)) = Some (p, perm) ->
  area_ok t w (one_page trap (InMemory p) [0]).
Proof.
  intros H0 H1 Hv. constructor;
    change (area_start (one_page trap (InMemory p) [0])) with (area_start trap);
    change (area_end (one_page trap (InMemory p) [0])) with (area_start trap + 1).
  - lia.
  - unfold vlen. cbn. lia.
  - intros i j ->%one_page_has ->%one_page_has. done.
  - cbn. unfold fits. lia.
  - by repeat constructor.
  - intros [| j] f Hf; [| done]. injection Hf as <-. by rewrite Z.add_0_r, Hv.
Qed.

(** [push] of the copied trap context: a new frame, entered in the child's table,
    that starts with [data]. *)
Lemma push_one_page base raw h (w : World) (src : T) (child : MemorySet) fs trap data :
  two_tables base raw h w src (page_table child) fs ->
  0 <= area_start trap < 2 ^ 52 -> map_type trap = Framed -> perm_ok (map_perm trap) ->
  pt_view (page_table child) (wphys w) (pt_slot (area_start trap)) = None ->
  3 <= fa_unallocated_frames (pfa (wphys w)) -> bytes data -> 0 < vlen data <= 4096 ->
  exists p t' w',
    push oom debug child (one_page trap Unallocated []) (Some data) w =
      Some (Ok tt, mkMS t' (areas child ++ [one_page trap (InMemory p) [0]]), w') /\
    two_tables base raw h w' src t' (InMemory p :: fs) /\ InMemory p ∉ fs /\ keeps h w h w' fs /\
    take (length data) (page_of h w' (InMemory p)) = data /\
    (forall k, pt_view src (wphys w') k = pt_view src (wphys w) k) /\
    (forall k, pt_view t' (wphys w') k =
       if decide (k = pt_slot (area_start trap)) then Some (p, map_perm trap)
       else pt_view (page_table child) (wphys w) k) /\
    fa_unallocated_frames (pfa (wphys w)) - 3 <= fa_unallocated_frames (pfa (wphys w')).
Proof.
  intros Htt Hs Hty Hperm Hnone Hu Hb Hl. unfold push, one_page. rewrite Hty. cbn [inner vpn_range].
  assert (Ev : range_items (mkRange (area_start trap) (area_start trap + 1)) = [area_start trap]).
  { unfold range_items. cbn. replace (area_start trap + 1 - area_start trap) with 1 by lia.
    rewrite seqZ_cons by lia. by rewrite seqZ_nil by lia. }
  rewrite Ev. cbn [push_data_loop]. unfold map_one. cbn [map_type].
  rewrite (bool_decide_eq_false_2 (Framed = Identical)) by done. cbn [orb].
  rewrite (pt_is_mapped_view base raw) by (apply Htt || lia).
  rewrite Hnone, bool_decide_eq_false_2 by (by intros [? ?]). cbn [negb].
  unfold map_one_unchecked. cbn [map_type].
  destruct (two_tables_alloc base raw h w src (page_table child) fs oom Htt ltac:(lia))
    as (p & w1 & -> & Htt1 & Hn & Hp & Hk1 & Hsv1 & Hdv1 & Hu1). cbn [mbind option_bind inner].
  set (l := mkLM _ _ _ _ _).
  assert (El : lm_alloc_in_memory debug l (area_start trap) p w1 = Some (lm_filled l 0 p, w1)).
  { replace (area_start trap) with (lm_get_start l + Z.of_nat 0) by (unfold l, lm_get_start, get_start; cbn; lia).
    apply lm_alloc_at; [unfold l, lm_get_start, get_start; cbn; lia | | done].
    unfold l, lm_get_start, get_start, vlen. cbn. lia. }
  rewrite El. cbn [mbind option_bind map_perm].
  destruct (map_step base raw h w1 src (page_table child) _ (area_start trap) p (map_perm trap) Htt1)
    as (t' & w2 & -> & Htt2 & Hk2 & Hd2 & Hs2 & Hu2); [lia | done | done | by rewrite Hdv1 | lia |].
  cbn [mbind option_bind].
  assert (Esl : slice data 0 (Z.min (vlen data) (0 +w PAGE_SIZE)) = Some data).
  { apply slice_Some. change (0 +w PAGE_SIZE) with 4096. rewrite Z.min_l by lia.
    split; [lia |]. split; [lia |]. rewrite Z.sub_0_r. unfold vlen. rewrite Nat2Z.id, drop_0. by rewrite firstn_all. }
  rewrite Esl. cbn [mbind option_bind push_finish].
  destruct (w_put_prefix_ok base raw h w2 fs p data) as (Hw3 & Hpg & Hk3 & Hs3 & Hr3 & Hf3);
    [apply Htt2 | done | done | lia |].
  eexists p, t', _. split.
  { reflexivity. }
  destruct (tt_fs _ _ _ _ _ _ _ Htt2 p ltac:(apply elem_of_cons; by left)) as [Hps Hpd].
  destruct (pt_stable_same base raw src _ _ {[p]} (tt_src _ _ _ _ _ _ _ Htt2) (wo_phys _ _ _ _ _ Hw3) Hs3)
    as [Hi3 Hv3]; [set_solver |].
  destruct (pt_stable_same base raw t' _ _ {[p]} (tt_dst _ _ _ _ _ _ _ Htt2) (wo_phys _ _ _ _ _ Hw3) Hs3)
    as [Hj3 Hx3]; [set_solver |].
  split_and!; [constructor; [done | done | done | apply Htt2 | apply Htt2] | done | | done | | | rewrite Hf3; lia].
  - apply (keeps_trans _ _ h w2); [| done]. apply (keeps_trans _ _ h w1); [done |].
    eapply keeps_sub; [exact Hk2 |]. clear. set_solver.
  - intros k. by rewrite Hv3, Hs2, Hsv1.
  - intros k. by rewrite Hx3, Hd2, Hdv1.
Qed.

(** The trap context joins the child. *)
Lemma fork_trap base raw h tramp (w : World) (parent child : MemorySet) rest trap q data :
  fork_state base raw h tramp w parent child rest -> areas parent = areas child ++ [trap] ->
  frames (inner trap) = [InMemory q] -> map_type trap = Framed -> perm_ok (map_perm trap) ->
  (forall v, area_has trap v -> pt_slot v ∉ tramp) ->
  3 <= fa_unallocated_frames (pfa (wphys w)) -> bytes data -> 0 < vlen data <= 4096 ->
  exists p t' w',
    push oom debug child (one_page trap Unallocated []) (Some data) w =
      Some (Ok tt, mkMS t' (areas child ++ [one_page trap (InMemory p) [0]]), w') /\
    let child' := mkMS t' (areas child ++ [one_page trap (InMemory p) [0]]) in
    space_ok base raw h w' parent (area_frames (areas child') ++ rest) /\
    space_ok base raw h w' child' (area_frames (areas parent) ++ rest) /\
    keeps h w h w' (area_frames (areas parent) ++ rest) /\
    take (length data) (page_of h w' (InMemory p)) = data /\
    (forall k, pt_view (page_table parent) (wphys w') k = pt_view (page_table parent) (wphys w) k) /\
    (forall k, k <> pt_slot (area_start trap) -> pt_view t' (wphys w') k = pt_view (page_table child) (wphys w) k) /\
    fa_unallocated_frames (pfa (wphys w)) - 3 <= fa_unallocated_frames (pfa (wphys w')).
Proof.
  intros Hst Hpa Hfr Hty Hperm Htr Hu Hb Hl.
  assert (Hi : areas parent !! length (areas child) = Some trap).
  { rewrite Hpa, lookup_app_r, Nat.sub_diag by lia. done. }
  pose proof (sp_areas _ _ _ _ _ _ (fk_parent _ _ _ _ _ _ _ _ Hst) _ _ Hi) as Ha.
  pose proof (ao_range _ _ _ Ha) as Hr. pose proof (ao_len _ _ _ Ha) as Hlen. rewrite Hfr in Hlen.
  unfold vlen in Hlen. cbn in Hlen.
  assert (Hts : area_has trap (area_start trap)) by (unfold area_has; lia).
  assert (Hne : forall b u, b ∈ areas child -> area_has b u -> pt_slot u <> pt_slot (area_start trap)).
  { intros b u [j Hj]%list_elem_of_lookup Hbu. pose proof (lookup_lt_Some _ _ _ Hj).
    apply (sp_slots _ _ _ _ _ _ (fk_parent _ _ _ _ _ _ _ _ Hst) j (length (areas child)) b trap); try done; [| lia].
    rewrite Hpa. by apply lookup_app_l_Some. }
  pose proof (fork_two_tables _ _ _ _ _ _ _ _ Hst) as Htt.
  destruct (push_one_page base raw h w (page_table parent) child _ trap data Htt)
    as (p & t' & w' & E & Htt' & Hn & Hk & Hpg & Hvp & Hvc & Hu'); try done; [lia | |].
  { destruct (pt_view _ _ _) eqn:Ev; [| done].
    destruct (fk_entries _ _ _ _ _ _ _ _ Hst (pt_slot (area_start trap))) as [Hin | (c & u & Hc & Hcu & Eu)];
      [by rewrite Ev | by destruct (Htr _ Hts) | by destruct (Hne c u Hc Hcu)]. }
  exists p, t', w'. split; [exact E |]. cbn zeta. cbn [areas].
  destruct (spaces_of_tables base raw h w parent child rest w' t' (InMemory p :: rest)) as [Hp2 Hc2];
    [apply Hst | apply Hst | | intros; by rewrite Hvp | |].
  { constructor; try apply Htt'.
    - eapply world_ok_perm; [| apply Htt']. clear. solve_Permutation.
    - intros x Hx. apply Htt'. revert Hx. rewrite !elem_of_app, !elem_of_cons. rewrite !elem_of_app. tauto. }
  { intros b v Hbc Hbv. rewrite Hvc, decide_False; [done |]. by apply (Hne b). }
  split_and!; [| | | done | done | | done].
  - rewrite area_frames_snoc. exact Hp2.
  - apply space_ok_snoc; [eapply space_ok_rest; [| exact Hc2]; cbn; clear; solve_Permutation | |].
    + apply (one_page_ok _ _ _ _ (map_perm trap)); [lia | lia |]. by rewrite Hvc, decide_True.
    + intros j b u v Hj Hbu ->%one_page_has. apply (Hne b); [by eapply list_elem_of_lookup_2 | done].
  - eapply keeps_sub; [exact Hk |]. clear. set_solver.
  - intros k Hx. by rewrite Hvc, decide_False.
Qed.

(** ** [from_existing_user] *)

Context (strampoline ssignaltrampoline : Z).

Definition tramp_slots : list (list Z) :=
  [pt_slot (va_floor SIGNAL_TRAMPOLINE); pt_slot (va_floor TRAMPOLINE)].

(** A space that can be forked: the areas [front] and the trap context [trap],
    whose page is [q], none of which uses the trampolines' entries; and memory
    for the child's table. *)
Record fork_ready (base : Z) (raw : gset Z) (h : Held) (w : World) (parent : MemorySet)
    (rest : list Frame) (front : list MapArea) (trap : MapArea) (q : Z) : Prop := {
  fr_space : space_ok base raw h w parent rest;
  fr_areas : areas parent = front ++ [trap];
  fr_perm : forall a, a ∈ areas parent -> perm_ok (map_perm a);
  fr_slots : forall a v, a ∈ areas parent -> area_has a v -> pt_slot v ∉ tramp_slots;
  fr_trap : frames (inner trap) = [InMemory q];
  fr_framed : map_type trap = Framed;
  fr_distinct : pt_slot (va_floor SIGNAL_TRAMPOLINE) <> pt_slot (va_floor TRAMPOLINE);
  fr_code : exists p1 p2, ppn_from_pa strampoline = Some p1 /\ ppn_ok p1 /\
    ppn_from_pa ssignaltrampoline = Some p2 /\ ppn_ok p2;
  fr_free : 11 + 2 * vlen (area_frames front) <= fa_unallocated_frames (pfa (wphys w))
}.

(** The child before its areas: an empty table with the trampolines. *)
Lemma fork_prepare base raw h (w : World) (parent : MemorySet) rest front trap q :
  fork_ready base raw h w parent rest front trap q ->
  exists t w0 t1 w1 t2 w2,
    new_bare w = Some (mkMS t [] : MemorySet, w0) /\
    map_trampoline strampoline (mkMS t [] : MemorySet) w0 = Some (mkMS t1 [], w1) /\
    map_signaltrampoline ssignaltrampoline (mkMS t1 [] : MemorySet) w1 = Some (mkMS t2 [], w2) /\
    fork_state base raw h tramp_slots w2 parent (mkMS t2 []) rest /\
    keeps h w h w2 (area_frames (areas parent) ++ rest) /\
    fa_unallocated_frames (pfa (wphys w)) - 5 <= fa_unallocated_frames (pfa (wphys w2)).
Proof.
  intros [Hsp _ _ _ _ _ Hdis (p1 & p2 & E1 & Hp1 & E2 & Hp2) Hu].
  pose proof (vlen_nonneg (area_frames front)) as Hf.
  destruct (fork_start base raw h w parent rest Hsp ltac:(lia)) as (t & w0 & E0 & Hst0 & Hk0 & Hu0).
  destruct (fork_tramp base raw h [] w0 parent t rest (va_floor TRAMPOLINE) p1 MP_RX)
    as (t1 & w1 & M1 & Hst1 & Hk1 & Hu1); [done | by vm_compute | done | by vm_compute | apply not_elem_of_nil | lia |].
  destruct (fork_tramp base raw h [pt_slot (va_floor TRAMPOLINE)] w1 parent t1 rest (va_floor SIGNAL_TRAMPOLINE) p2 (Z.lor MP_RX MP_U))
    as (t2 & w2 & M2 & Hst2 & Hk2 & Hu2); [done | by vm_compute | done | by vm_compute | | lia |].
  { by intros ?%list_elem_of_singleton. }
  exists t, w0, t1, w1, t2, w2. split_and!; [done | | | done | | lia].
  - unfold map_trampoline. change (vpn_from_va TRAMPOLINE) with (Some (va_floor TRAMPOLINE)).
    rewrite E1. cbn [mbind option_bind page_table areas]. by rewrite M1.
  - unfold map_signaltrampoline. change (vpn_from_va SIGNAL_TRAMPOLINE) with (Some (va_floor SIGNAL_TRAMPOLINE)).
    rewrite E2. cbn [mbind option_bind page_table areas]. by rewrite M2.
  - eapply keeps_trans; [exact Hk0 |]. by eapply keeps_trans.
Qed.

Lemma trap_bytes h (w : World) q :
  read_bytes (w_mem w) (ppn_start_addr q) TRAP_CX_SIZE = take 560 (page_of h w (InMemory q)).
Proof.
  Transparent page_of get_bytes_array. cbn [page_of]. unfold get_bytes_array, read_bytes.
  rewrite <- fmap_take. reflexivity. Opaque page_of get_bytes_array.
Qed.

(** The trap context of a space: one page, whose frame is [q]. *)
Lemma trap_page base raw h (w : World) (parent : MemorySet) rest front trap q :
  space_ok base raw h w parent rest -> areas parent = front ++ [trap] -> frames (inner trap) = [InMemory q] ->
  0 <= area_start trap /\ area_end trap = area_start trap + 1 /\
  InMemory q ∈ area_frames (areas parent) ++ rest /\ ms_translate parent w (area_start trap) = Some q /\
  forall a v, a ∈ front -> area_has a v -> pt_slot v <> pt_slot (area_start trap).
Proof.
  intros Hsp Hpa Htrap.
  assert (Hi : areas parent !! length front = Some trap) by (rewrite Hpa, lookup_app_r, Nat.sub_diag by lia; done).
  pose proof (sp_areas _ _ _ _ _ _ Hsp _ _ Hi) as Ha.
  pose proof (ao_range _ _ _ Ha) as Hr. pose proof (ao_len _ _ _ Ha) as Hl.
  rewrite Htrap in Hl. unfold vlen in Hl. cbn in Hl. split; [lia |]. split; [lia |]. split_and!.
  - apply elem_of_app. left. eapply elem_area_frames; [exact Hi |]. rewrite Htrap. by apply list_elem_of_singleton.
  - unfold ms_translate. rewrite (pt_translate_view base raw); [| apply Hsp | lia].
    pose proof (ao_ptes _ _ _ Ha O (InMemory q)) as Hpte. rewrite Htrap, Z.add_0_r in Hpte. by apply Hpte.
  - intros a v [j Hj]%list_elem_of_lookup Hv. pose proof (lookup_lt_Some _ _ _ Hj).
    apply (sp_slots _ _ _ _ _ _ Hsp j (length front) a trap); try done; [| lia | unfold area_has; lia].
    rewrite Hpa. by apply lookup_app_l_Some.
Qed.

Lemma fork_ok base raw h (w : World) (parent : MemorySet) rest front trap q :
  fork_ready base raw h w parent rest front trap q ->
  exists p t w', let child := mkMS t (front ++ [one_page trap (InMemory p) [0]]) in
    from_existing_user oom debug strampoline ssignaltrampoline parent w = Some (child, w') /\
    space_ok base raw h w' parent (area_frames (areas child) ++ rest) /\
    space_ok base raw h w' child (area_frames (areas parent) ++ rest) /\
    keeps h w h w' (area_frames (areas parent) ++ rest) /\
    take 560 (page_of h w' (InMemory p)) = take 560 (page_of h w (InMemory q)) /\
    (forall a v e, a ∈ front -> area_has a v ->
       pt_view (page_table parent) (wphys w') (pt_slot v) = Some e \/
       pt_view t (wphys w') (pt_slot v) = Some e -> flags_contains e.2 MP_W = false) /\
    3 <= fa_unallocated_frames (pfa (wphys w')).
Proof.
  intros Hrd. destruct (fork_prepare _ _ _ _ _ _ _ _ _ Hrd) as (t & w0 & t1 & w1 & t2 & w2 & E0 & E1 & E2 & Hst & Hk2 & Hu2).
  destruct Hrd as [Hsp Hpa Hperm Hslots Htrap Hty _ _ Hu].
  assert (Htin : trap ∈ areas parent).
  { rewrite Hpa. apply elem_of_app. right. by apply list_elem_of_singleton. }
  destruct (fork_areas_ok base raw h tramp_slots parent rest [trap] front [] w2 (mkMS t2 []))
    as (child & w3 & E3 & Hc3 & Hst3 & Hk3 & Hu3); [done | done | done | | lia |].
  { intros a Hin. assert (Ha : a ∈ areas parent) by (rewrite Hpa; apply elem_of_app; by left).
    split; [by apply Hperm | intros v; by apply Hslots]. }
  cbn [app] in Hc3.
  destruct (trap_page _ _ _ _ _ _ _ _ _ (fk_parent _ _ _ _ _ _ _ _ Hst3) Hpa Htrap) as (H0 & He & _ & Etr & Hne).
  destruct (trap_page _ _ _ _ _ _ _ _ _ Hsp Hpa Htrap) as (_ & _ & Hqin & _).
  assert (Edata : take 560 (page_of h w3 (InMemory q)) = take 560 (page_of h w (InMemory q))) by (by rewrite Hk3, Hk2).
  pose proof (page_of_ok _ _ _ _ _ (InMemory q) (sp_world _ _ _ _ _ _ Hsp) Hqin) as [Hpl Hpb].
  set (data := take 560 (page_of h w (InMemory q))) in *.
  assert (Hdl : length data = 560%nat) by (unfold data; rewrite length_take; unfold vlen, PAGE_SIZE in Hpl; lia).
  destruct (fork_trap base raw h tramp_slots w3 parent child rest trap q data)
    as (p & t' & w' & E4 & Hp4 & Hc4 & Hk4 & Hpg4 & Hvp4 & Hvc4 & Hu4);
    [done | by rewrite Hc3 | done | done | by apply Hperm | intros v; by apply Hslots | lia | by apply Forall_take | unfold vlen; lia |].
  exists p, t', w'. cbn zeta. rewrite <- Hc3. split.
  - unfold from_existing_user. rewrite E0. cbn [mbind option_bind]. rewrite E1. cbn [mbind option_bind].
    rewrite E2. cbn [mbind option_bind]. rewrite Hpa, last_snoc. cbn [mbind option_bind].
    rewrite length_app, take_app_length' by (cbn; lia). rewrite E3. cbn [mbind option_bind].
    rewrite from_another_one by done. cbn [mbind option_bind].
    rewrite Etr. cbn [mbind option_bind]. by rewrite (trap_bytes h), Edata, E4.
  - split_and!; [done | done | | by rewrite <- Hdl | | lia].
    + eapply keeps_trans; [exact Hk2 |]. by eapply keeps_trans.
    + intros a v e Hin Hv. rewrite Hvp4, Hvc4; [by apply (fk_readonly _ _ _ _ _ _ _ _ Hst3 a) |].
      apply (Hne a); [by rewrite <- Hc3 | done].
Qed.

(** After a write fault the whole page can be overwritten: no frame outside the
    space sees it. *)
Lemma write_isolated base raw h (w : World) (ms : MemorySet) rest addr i a :
  space_ok base raw h w ms rest -> list_find (fault_match (va_floor addr)) (areas ms) = Some (i, a) ->
  map_file a = None -> map_type a = Framed -> writable_stripped a = false ->
  perm_ok (map_perm a) -> 3 <= fa_unallocated_frames (pfa (wphys w)) ->
  exists p ms' w' h', do_page_fault oom debug ms addr w =
      Some (Ok (ppn_offset p (va_page_offset addr)), ms', w') /\
    forall d, page_ok d -> keeps h w h' (w_with_mem (fun m => put_bytes_array m p 0 d) w') rest.
Proof.
  intros Hsp Hf Hnf Hft Hns Hperm Hu.
  destruct (page_fault_ok oom debug _ _ _ _ _ _ _ _ _ Hsp Hf Hnf Hft Hns Hperm Hu)
    as (p & a' & t' & w' & h' & E & Hsp' & P & Hin). apply list_find_Some in Hf as (Hi & _).
  eexists p, _, w', h'. split; [exact E |]. intros d Hd.
  pose proof (sp_world _ _ _ _ _ _ Hsp') as Hw. cbn [areas] in Hw.
  assert (Hia : InMemory p ∈ area_frames (<[i := a']> (areas ms))).
  { eapply (elem_area_frames _ i a'); [| done]. apply list_lookup_insert_eq. by eapply lookup_lt_Some. }
  apply fcount_pos in Hia. pose proof (wo_refs _ _ _ _ _ Hw (InMemory p) ltac:(done)) as Hr.
  rewrite (fp_private _ _ _ _ _ _ _ _ _ _ _ _ _ P), fcount_app in Hr.
  destruct (w_put_ok base raw h' w' rest p d) as (_ & _ & Hk & _); [| | done |].
  - eapply world_ok_sub; [| exact Hw]. intros f Hfu. rewrite fcount_app. cbn [fcount].
    case_decide as Hx; [| lia]. subst f. lia.
  - rewrite fcount_pos. lia.
  - eapply keeps_trans; [| exact Hk]. eapply keeps_sub; [apply P |]. unfold others. clear. set_solver.
Qed.

(** C3: [fork] isolates. The child gets every page of the parent with its
    contents and a copy of the trap context; the parent and every other space
    keep theirs, and no shared page can be written through either table. From
    then on, when one of the two writes to an anonymous page, the fault is
    resolved with a frame of its own, and whatever is then stored in that page,
    no page of the other, or of any third space, changes. *)
Theorem fork_isolates base raw h (w : World) (parent : MemorySet) rest front trap q :
  fork_ready base raw h w parent rest front trap q ->
  exists child w' trap' p,
    from_existing_user oom debug strampoline ssignaltrampoline parent w = Some (child, w') /\
    areas child = front ++ [trap'] /\ frames (inner trap') = [InMemory p] /\
    take 560 (page_of h w' (InMemory p)) = take 560 (page_of h w (InMemory q)) /\
    keeps h w h w' (area_frames (areas parent) ++ rest) /\
    (forall a v e, a ∈ front -> area_has a v ->
       pt_view (page_table parent) (wphys w') (pt_slot v) = Some e \/
       pt_view (page_table child) (wphys w') (pt_slot v) = Some e -> flags_contains e.2 MP_W = false) /\
    (forall me other addr i a, me = child /\ other = parent \/ me = parent /\ other = child ->
       list_find (fault_match (va_floor addr)) (areas me) = Some (i, a) ->
       map_file a = None -> map_type a = Framed -> writable_stripped a = false ->
       exists pg me' w2 h2, do_page_fault oom debug me addr w' =
           Some (Ok (ppn_offset pg (va_page_offset addr)), me', w2) /\
         forall d, page_ok d ->
           keeps h w' h2 (w_with_mem (fun m => put_bytes_array m pg 0 d) w2)
             (area_frames (areas other) ++ rest)).
Proof.
  intros Hrd. destruct (fork_ok _ _ _ _ _ _ _ _ _ Hrd) as (p & t & w' & E & Hp & Hc & Hk & Hpg & Hro & Hu).
  set (child := mkMS t (front ++ [one_page trap (InMemory p) [0]])) in *.
  exists child, w', (one_page trap (InMemory p) [0]), p.
  split; [exact E |]. do 5 (split; [done |]).
  destruct Hrd as [_ Hpa Hperm _ _ _ _ _ _].
  intros me other addr i a Hme Hf Hnf Hft Hns. pose proof Hf as (Hi & _)%list_find_Some.
  apply list_elem_of_lookup_2 in Hi. destruct Hme as [[-> ->] | [-> ->]].
  - apply (write_isolated base raw h w' child _ addr i a Hc Hf Hnf Hft Hns); [| done].
    cbn in Hi. apply elem_of_app in Hi as [Hi | ->%list_elem_of_singleton].
    + apply Hperm. rewrite Hpa. apply elem_of_app. by left.
    + apply (Hperm trap). rewrite Hpa. apply elem_of_app. right. by apply list_elem_of_singleton.
  - apply (write_isolated base raw h w' parent _ addr i a Hp Hf Hnf Hft Hns); [by apply Hperm | done].
Qed.
End Fork.

(** ** A process with a shared page and a trap context *)

#[local] Existing Instances sd_pt sd_pt_spec sd_zram sd_zram_spec sd_swap sd_swap_spec sd_file.

Definition sd_trap : MapArea unit :=
  mkArea (mkLM (mkRange (2 ^ 52 - 3) (2 ^ 52 - 2)) [Unallocated] [] 0 0) Framed 0x6 false None.

Lemma sd_trap_ok : area_ok sd_table sd_world sd_trap.
Proof.
  constructor; unfold sd_trap, area_start, area_end, lm_get_start, lm_get_end, get_start, get_end; cbn.
  - lia.
  - done.
  - intros i j Hi Hj _. unfold area_has, area_start, area_end in Hi, Hj. cbn in Hi, Hj. lia.
  - unfold fits. lia.
  - constructor.
  - intros i f Hf. rewrite (proj2 boot1_inv). by destruct i as [| i]; simplify_eq/=.
Qed.

(** The slots of the pages in use, and of the trampolines, are different. *)
Lemma sd_slots (a : MapArea unit) v : vpn_range (inner a) = mkRange 0x60000 0x60002 -> area_has a v ->
  pt_slot v ∉ pt_slot (2 ^ 52 - 3) :: tramp_slots.
Proof.
  intros Hr Hv. unfold area_has, area_start, area_end, lm_get_start, lm_get_end, get_start, get_end in Hv.
  rewrite Hr in Hv. cbn in Hv. assert (E : v = 0x60000 \/ v = 0x60001) by lia.
  destruct E as [-> | ->]; apply (bool_decide_unpack _); by vm_compute.
Qed.

Lemma sd_fork_space : space_ok sd_base ∅ sd_held sd_world (mkMS sd_table [sd_area; sd_trap]) [].
Proof.
  assert (Hne : forall u v, area_has sd_area u -> area_has sd_trap v -> pt_slot u <> pt_slot v).
  { intros u v Hu Hv. assert (v = 2 ^ 52 - 3) as -> by (unfold area_has, area_start, area_end in Hv; cbn in Hv; lia).
    intros E. apply (sd_slots sd_area u eq_refl Hu). rewrite E. apply elem_of_cons. by left. }
  constructor; cbn [page_table areas].
  - apply sd_world_ok. by repeat constructor.
  - apply boot1_inv.
  - intros [| [| i]] a Hi; simplify_eq/=; [apply sd_area_ok | apply sd_trap_ok].
  - intros [| [| i]] [| [| j]] a b u v Hi Hj Hn Hu Hv; simplify_eq/=; try done; [by apply Hne |].
    intros E. by apply (Hne v u).
  - intros p Hp. unfold area_frames in Hp. cbn in Hp. set_solver.
Qed.

(** Both touched pages in memory. *)
Lemma sd_fork_ready :
  exists p q (a trap : MapArea unit) t (w : World Zram (Swap * memory)),
    fork_ready 0x80200000 0x80201000 sd_base ∅ sd_held w (mkMS t [a; trap]) [] [a] trap q /\
    same_attrs sd_area a /\ frames (inner a) = [InMemory p; Unallocated].
Proof.
  destruct (sd_touch _ _ _ _ _ 0 sd_area 0 sd_fork_space) as (p & a & t1 & w1 & Hs1 & Hf1 & Ha & _ & Hu1);
    [done | done | by vm_compute | by vm_compute |].
  assert (Hu0 : 100 <= fa_unallocated_frames (pfa (wphys sd_world))) by (by vm_compute).
  destruct (sd_touch _ _ _ _ _ 1 sd_trap 0 Hs1) as (q & trap & t & w & Hs & Hf & Ht & _ & Hu);
    [done | done | by vm_compute | lia |].
  pose proof Ha as (Har & _ & Hap & _). pose proof Ht as (Htr & Htt & Htp & _).
  exists p, q, a, trap, t, w. split; [| split; [exact Ha | by rewrite Hf1]].
  constructor; cbn [areas]; [exact Hs | done | | | by rewrite Hf | by rewrite Htt | | |].
  - intros b [-> | ->%list_elem_of_singleton]%elem_of_cons; [rewrite Hap | rewrite Htp]; by vm_compute.
  - intros b v [-> | ->%list_elem_of_singleton]%elem_of_cons Hv.
    + intros Hin. apply (sd_slots a v Har Hv). apply elem_of_cons. by right.
    + assert (v = 2 ^ 52 - 3) as ->.
      { unfold area_has, area_start, area_end, lm_get_start, lm_get_end, get_start, get_end in Hv.
        rewrite Htr in Hv. cbn in Hv. lia. }
      apply (bool_decide_unpack _). by vm_compute.
  - apply (bool_decide_unpack _). by vm_compute.
  - exists 0x80200, 0x80201. by vm_compute.
  - unfold area_frames. cbn. rewrite Hf1. unfold vlen. cbn. lia.
Qed.

Lemma fork_isolates_witness :
  exists (a trap trap' : MapArea unit) t t' (w w' : World Zram (Swap * memory)) p pg child' w2 h2,
    frames (inner a) = [InMemory p; Unallocated] /\
    from_existing_user sd_oomw false 0x80200000 0x80201000 (mkMS t [a; trap]) w =
      Some (mkMS t' [a; trap'], w') /\
    do_page_fault sd_oomw false (mkMS t' [a; trap']) 0x60000010 w' =
      Some (Ok (ppn_offset pg 0x10), child', w2) /\
    page_of h2 (w_with_mem (fun m => put_bytes_array m pg 0 (replicate 4096 7)) w2) (InMemory p) =
      page_of sd_held w (InMemory p).
Proof.
  destruct sd_fork_ready as (p & q & a & trap & t & w & Hrd & Ha & Hf).
  pose proof Ha as (Har & Hat & Hap & Has & Haf).
  destruct (fork_isolates sd_oomw false 0x80200000 0x80201000 sd_base ∅ sd_held w (mkMS t [a; trap]) [] [a] trap q Hrd)
    as ([t' as'] & w' & trap' & pt & E & Ec & _ & _ & Hk & _ & Hw).
  cbn [areas app] in Ec. subst as'.
  destruct (Hw (mkMS t' [a; trap']) (mkMS t [a; trap]) 0x60000010 0%nat a) as (pg & child' & w2 & h2 & E2 & Hd).
  - left. done.
  - apply list_find_Some. split; [done |]. split; [| intros; lia]. unfold fault_match.
    unfold area_start, area_end, lm_get_start, lm_get_end, get_start, get_end. rewrite Hap, Har. by vm_compute.
  - by rewrite Haf.
  - by rewrite Hat.
  - by rewrite Has.
  - assert (Hin : InMemory p ∈ area_frames [a; trap] ++ []).
    { apply elem_of_app. left. apply (elem_area_frames _ 0 a); [done |]. rewrite Hf. apply elem_of_cons. by left. }
    exists a, trap, trap', t, t', w, w', p, pg, child', w2, h2.
    split; [exact Hf |]. split; [exact E |]. split; [exact E2 |].
    rewrite (Hd (replicate 4096 7)); [apply Hk; exact Hin | | exact Hin].
    split; [by vm_compute |]. apply Forall_replicate. unfold fits. lia.
Defined.
