(* ===== verification/Pipe.v ===== *)
(** * Pipes

    [fs/dev/pipe.rs]: the ring buffer behind a pipe and the reads and writes of
    its two ends. An operation either returns or blocks; a blocked one has
    changed nothing and runs again from the start when its task is woken. The
    ring refines a queue of at most 65536 bytes. *)

From S2P Require Import Prelude Address Phys UserBuf.
#[local] Open Scope kernel_scope.

Definition ESPIPE : Z := -29.
Definition RING_DEFAULT_BUFFER_SIZE : Z := 65536.

Inductive RingBufferStatus := FULL | EMPTY | NORMAL.
#[export] Instance RingBufferStatus_eq_dec : EqDecision RingBufferStatus.
Proof. solve_decision. Defined.

(** The two ends are weak references: [write_end] and [read_end] name a [Pipe],
    and [alive] says which have not been dropped. *)
Record PipeRingBuffer := mkRing {
  rb_arr : list Z; rb_head : Z; rb_tail : Z; rb_status : RingBufferStatus;
  rb_write_end : option nat; rb_read_end : option nat
}.
Record Pipe := mkPipe { p_readable : bool; p_writable : bool }.

Definition read_end_with_buffer : Pipe := mkPipe true false.
Definition write_end_with_buffer : Pipe := mkPipe false true.

Definition set_status (r : PipeRingBuffer) (s : RingBufferStatus) : PipeRingBuffer :=
  mkRing (rb_arr r) (rb_head r) (rb_tail r) s (rb_write_end r) (rb_read_end r).
Definition set_head (r : PipeRingBuffer) (h : Z) : PipeRingBuffer :=
  mkRing (rb_arr r) h (rb_tail r) (rb_status r) (rb_write_end r) (rb_read_end r).

Definition ring_new : PipeRingBuffer :=
  mkRing (replicate (Z.to_nat RING_DEFAULT_BUFFER_SIZE) 0) 0 0 EMPTY None None.

Definition get_used_size (r : PipeRingBuffer) : option Z :=
  match rb_status r with
  | FULL => Some (vlen (rb_arr r))
  | EMPTY => Some 0
  | NORMAL =>
      _ ← assert_ (negb (rb_head r =? rb_tail r));
      Some (if rb_head r <? rb_tail r then rb_tail r -w rb_head r
            else rb_tail r +w vlen (rb_arr r) -w rb_head r)
  end.

(** [copy_nonoverlapping] outside the array is undefined behaviour. *)
Definition buffer_read (r : PipeRingBuffer) (buf_len : Z) : option (list Z * PipeRingBuffer) :=
  let begin := rb_head r in
  let end_ := if rb_tail r <=? rb_head r then RING_DEFAULT_BUFFER_SIZE else rb_tail r in
  let read_bytes := Z.min buf_len (end_ -w begin) in
  bs ← slice (rb_arr r) begin (begin + read_bytes);
  Some (bs, set_head r (if begin +w read_bytes =? RING_DEFAULT_BUFFER_SIZE then 0
                        else begin +w read_bytes)).
Definition buffer_write (r : PipeRingBuffer) (buf : list Z) : option (Z * PipeRingBuffer) :=
  let begin := rb_tail r in
  let end_ := if rb_tail r <? rb_head r then rb_head r else RING_DEFAULT_BUFFER_SIZE in
  let write_bytes := Z.min (vlen buf) (end_ -w begin) in
  arr ← copy_slice (rb_arr r) begin (begin + write_bytes) (take (Z.to_nat write_bytes) buf);
  let tail := if begin +w write_bytes =? RING_DEFAULT_BUFFER_SIZE then 0 else begin +w write_bytes in
  Some (write_bytes,
        mkRing arr (rb_head r) tail (rb_status r) (rb_write_end r) (rb_read_end r)).

Definition set_write_end (r : PipeRingBuffer) (id : nat) : PipeRingBuffer :=
  mkRing (rb_arr r) (rb_head r) (rb_tail r) (rb_status r) (Some id) (rb_read_end r).
Definition set_read_end (r : PipeRingBuffer) (id : nat) : PipeRingBuffer :=
  mkRing (rb_arr r) (rb_head r) (rb_tail r) (rb_status r) (rb_write_end r) (Some id).

Definition all_write_ends_closed (alive : nat -> bool) (r : PipeRingBuffer) : option bool :=
  (fun id => negb (alive id)) <$> rb_write_end r.
Definition all_read_ends_closed (alive : nat -> bool) (r : PipeRingBuffer) : option bool :=
  (fun id => negb (alive id)) <$> rb_read_end r.

(** [make_pipe], with the identities of the two ends it allocates. *)
Definition make_pipe (read_id write_id : nat) : Pipe * Pipe * PipeRingBuffer :=
  (read_end_with_buffer, write_end_with_buffer,
   set_read_end (set_write_end ring_new write_id) read_id).

(** [deep_clone] of either end is a read end. *)
Definition pipe_deep_clone (p : Pipe) : Pipe := read_end_with_buffer.

(** ** Reading and writing *)

Inductive outcome := Blocked | Returned (n : Z).

(** [while start < len] of [read] and [read_user]: every turn moves at least a
    byte. The flag says that the ring ran empty, where the caller returns. *)
Fixpoint fill_loop (fuel : nat) (r : PipeRingBuffer) (start len : Z) (out : list Z)
    : option (bool * Z * list Z * PipeRingBuffer) :=
  if negb (start <? len) then Some (false, start, out, r)
  else
    match fuel with
    | O => None
    | S fuel =>
        '(bs, r) ← buffer_read r (len -w start);
        let start := start +w vlen bs in
        if rb_head r =? rb_tail r then Some (true, start, out ++ bs, set_status r EMPTY)
        else fill_loop fuel r start len (out ++ bs)
    end.
Fixpoint drain_loop (fuel : nat) (r : PipeRingBuffer) (start : Z) (buf : list Z)
    : option (bool * Z * PipeRingBuffer) :=
  if negb (start <? vlen buf) then Some (false, start, r)
  else
    match fuel with
    | O => None
    | S fuel =>
        '(k, r) ← buffer_write r (drop (Z.to_nat start) buf);
        let start := start +w k in
        if rb_head r =? rb_tail r then Some (true, start, set_status r FULL)
        else drain_loop fuel r start buf
    end.

(** One turn of the [loop] of [read]: what is returned and the bytes read. *)
Definition pipe_read (alive : nat -> bool) (offset : option Z) (r : PipeRingBuffer) (len : Z)
    : option (outcome * list Z * PipeRingBuffer) :=
  match offset with
  | Some _ => Some (Returned (wrap64 ESPIPE), [], r)
  | None =>
      if decide (rb_status r = EMPTY) then
        closed ← all_write_ends_closed alive r;
        Some (if closed : bool then Returned 0 else Blocked, [], r)
      else
        '(emptied, read_size, out, r) ← fill_loop (Z.to_nat len) r 0 len [];
        Some (Returned read_size, out, if emptied : bool then r else set_status r NORMAL)
  end.
Definition pipe_write (alive : nat -> bool) (offset : option Z) (r : PipeRingBuffer) (buf : list Z)
    : option (outcome * PipeRingBuffer) :=
  match offset with
  | Some _ => Some (Returned (wrap64 ESPIPE), r)
  | None =>
      if decide (rb_status r = FULL) then
        closed ← all_read_ends_closed alive r;
        Some (if closed : bool then Returned 0 else Blocked, r)
      else
        '(filled, write_size, r) ← drain_loop (length buf) r 0 buf;
        Some (Returned write_size, if filled : bool then r else set_status r NORMAL)
  end.

(** The loops over the slices of a user buffer. *)
Fixpoint read_user_loop (bufs : list (Z * Z)) (r : PipeRingBuffer) (m : memory) (read_size : Z)
    : option (Z * memory * PipeRingBuffer) :=
  match bufs with
  | [] => Some (read_size, m, set_status r NORMAL)
  | buf :: bufs =>
      '(emptied, buf_start, out, r) ← fill_loop (Z.to_nat buf.2) r 0 buf.2 [];
      let m := write_bytes m buf.1 out in
      if emptied : bool then Some (read_size +w buf_start, m, r)
      else read_user_loop bufs r m (read_size +w buf_start)
  end.
Fixpoint write_user_loop (bufs : list (Z * Z)) (r : PipeRingBuffer) (m : memory) (write_size : Z)
    : option (Z * PipeRingBuffer) :=
  match bufs with
  | [] => Some (write_size, set_status r NORMAL)
  | buf :: bufs =>
      '(filled, buf_start, r) ← drain_loop (Z.to_nat buf.2) r 0 (read_bytes m buf.1 buf.2);
      if filled : bool then Some (write_size +w buf_start, r)
      else write_user_loop bufs r m (write_size +w buf_start)
  end.

Definition pipe_read_user (alive : nat -> bool) (offset : option Z) (r : PipeRingBuffer)
    (bufs : list (Z * Z)) (m : memory) : option (outcome * memory * PipeRingBuffer) :=
  match offset with
  | Some _ => Some (Returned (wrap64 ESPIPE), m, r)
  | None =>
      if decide (rb_status r = EMPTY) then
        closed ← all_write_ends_closed alive r;
        Some (if closed : bool then Returned 0 else Blocked, m, r)
      else
        '(read_size, m, r) ← read_user_loop bufs r m 0;
        Some (Returned read_size, m, r)
  end.
Definition pipe_write_user (alive : nat -> bool) (offset : option Z) (r : PipeRingBuffer)
    (bufs : list (Z * Z)) (m : memory) : option (outcome * PipeRingBuffer) :=
  match offset with
  | Some _ => Some (Returned (wrap64 ESPIPE), r)
  | None =>
      if decide (rb_status r = FULL) then
        closed ← all_read_ends_closed alive r;
        Some (if closed : bool then Returned 0 else Blocked, r)
      else
        '(write_size, r) ← write_user_loop bufs r m 0;
        Some (Returned write_size, r)
  end.

Definition r_ready (r : PipeRingBuffer) : bool := bool_decide (rb_status r <> EMPTY).
Definition w_ready (r : PipeRingBuffer) : bool := bool_decide (rb_status r <> FULL).
Definition hang_up (alive : nat -> bool) (p : Pipe) (r : PipeRingBuffer) : option bool :=
  if p_readable p then all_write_ends_closed alive r else all_read_ends_closed alive r.

(** ** The ring as a queue *)

(** The bytes from [head], going round, are those of [q]. *)
Record holds (r : PipeRingBuffer) (q : list Z) : Prop := {
  ho_len : vlen (rb_arr r) = RING_DEFAULT_BUFFER_SIZE;
  ho_head : 0 <= rb_head r < RING_DEFAULT_BUFFER_SIZE;
  ho_tail : rb_tail r = (rb_head r + vlen q) mod RING_DEFAULT_BUFFER_SIZE;
  ho_cap : vlen q <= RING_DEFAULT_BUFFER_SIZE;
  ho_at : forall i x, q !! i = Some x ->
    rb_arr r !! Z.to_nat ((rb_head r + Z.of_nat i) mod RING_DEFAULT_BUFFER_SIZE) = Some x
}.

(** The status of a ring that holds [q]. *)
Definition status_of (q : list Z) : RingBufferStatus :=
  if decide (q = []) then EMPTY
  else if decide (vlen q = RING_DEFAULT_BUFFER_SIZE) then FULL else NORMAL.
Definition pipe_inv (r : PipeRingBuffer) (q : list Z) : Prop := holds r q /\ rb_status r = status_of q.

(** Two rings that differ in their bytes and positions only. *)
Definition same_ends (r r' : PipeRingBuffer) : Prop :=
  rb_write_end r' = rb_write_end r /\ rb_read_end r' = rb_read_end r.

Lemma same_ends_trans r r1 r2 : same_ends r r1 -> same_ends r1 r2 -> same_ends r r2.
Proof. intros [] []. split; congruence. Qed.

Lemma ring_new_holds : pipe_inv ring_new [].
Proof.
  split; [| done]. constructor; [by vm_compute | by vm_compute | done | done | done].
Qed.

Lemma holds_status r q s : holds r q -> holds (set_status r s) q.
Proof. intros []. by constructor. Qed.

Lemma vlen_pos {A} (q : list A) : q <> [] -> 0 < vlen q.
Proof. unfold vlen. destruct q; [done |]. cbn. lia. Qed.

Lemma buffer_read_ok r q n :
  holds r q -> q <> [] -> 0 < n ->
  let k := Z.min n (Z.min (vlen q) (RING_DEFAULT_BUFFER_SIZE - rb_head r)) in
  exists r', buffer_read r n = Some (take (Z.to_nat k) q, r') /\ holds r' (drop (Z.to_nat k) q) /\
    rb_status r' = rb_status r /\ same_ends r r' /\ 0 < k <= vlen q.
Proof.
  intros [Hl Hh Ht Hc Ha] Hq Hn. cbn zeta. apply vlen_pos in Hq. unfold RING_DEFAULT_BUFFER_SIZE in *.
  unfold buffer_read, RING_DEFAULT_BUFFER_SIZE.
  assert (Ee : (if rb_tail r <=? rb_head r then 65536 else rb_tail r) -w rb_head r =
               Z.min (vlen q) (65536 - rb_head r)).
  { destruct (Z.leb_spec (rb_tail r) (rb_head r)); rewrite wrap64_small; lia. }
  rewrite Ee. set (k := Z.min n (Z.min (vlen q) (65536 - rb_head r))).
  assert (Hk : 0 < k <= vlen q /\ rb_head r + k <= 65536) by lia.
  assert (Es : slice (rb_arr r) (rb_head r) (rb_head r + k) = Some (take (Z.to_nat k) q)).
  { apply slice_Some. split; [lia |]. split; [lia |]. apply list_eq. intros i.
    destruct (decide (i < Z.to_nat k)%nat).
    - rewrite !lookup_take_lt by lia. rewrite lookup_drop.
      destruct (lookup_lt_is_Some_2 q i) as [x Hx]; [unfold vlen in Hk; lia |]. rewrite Hx.
      symmetry. rewrite <- (Ha i x Hx). f_equal. rewrite Z.mod_small by lia. lia.
    - rewrite !lookup_take_ge by lia. done. }
  rewrite Es. cbn [mbind option_bind]. rewrite (wrap64_small (rb_head r + k)) by lia.
  eexists. split; [reflexivity |]. split_and!; [| done | done | lia | lia].
  assert (Eh : (if rb_head r + k =? 65536 then 0 else rb_head r + k) = (rb_head r + k) mod 65536).
  { destruct (Z.eqb_spec (rb_head r + k) 65536); lia. }
  assert (Hv : vlen (drop (Z.to_nat k) q) = vlen q - k) by (unfold vlen in *; rewrite length_drop; lia).
  constructor; unfold RING_DEFAULT_BUFFER_SIZE; cbn; rewrite ?Eh, ?Hv; [done | lia | lia | lia |].
  intros i x Hi. rewrite lookup_drop in Hi. rewrite <- (Ha _ x Hi). do 2 f_equal.
  rewrite Zplus_mod_idemp_l. f_equal. lia.
Qed.

(** The positions meet exactly when the ring is empty or full. *)
Lemma holds_meet r q : holds r q -> vlen q < RING_DEFAULT_BUFFER_SIZE -> (rb_head r =? rb_tail r) = bool_decide (q = []).
Proof.
  intros [_ Hh Ht _ _] Hc. unfold RING_DEFAULT_BUFFER_SIZE in *. case_bool_decide as Hq.
  - subst q. apply Z.eqb_eq. rewrite Ht. unfold vlen. cbn [length]. lia.
  - apply vlen_pos in Hq. apply Z.eqb_neq. lia.
Qed.

Lemma fill_loop_ok fuel : forall r q start len out,
  holds r q -> q <> [] -> 0 <= start <= len -> len < 2 ^ 64 -> len - start <= Z.of_nat fuel ->
  exists r', fill_loop fuel r start len out =
      Some (vlen q <=? len - start, start + Z.min (len - start) (vlen q),
            out ++ take (Z.to_nat (len - start)) q, r') /\
    holds r' (drop (Z.to_nat (len - start)) q) /\ same_ends r r' /\
    rb_status r' = if vlen q <=? len - start then EMPTY else rb_status r.
Proof.
  induction fuel as [| fuel IH]; intros r q start len out H Hq Hs Hl Hf; cbn [fill_loop];
    pose proof (vlen_pos _ Hq) as Hq0; destruct (Z.ltb_spec start len); cbn [negb]; try lia.
  1, 3: assert (start = len) as -> by lia; exists r; rewrite Z.sub_diag; cbn [Z.to_nat take drop];
    rewrite app_nil_r, Z.min_l, Z.add_0_r by lia; destruct (Z.leb_spec (vlen q) 0); [lia |]; by split_and!.
  rewrite (wrap64_small (len - start)) by lia.
  destruct (buffer_read_ok r q (len - start) H Hq ltac:(lia)) as (r1 & -> & H1 & Hst & Hends & Hk).
  cbn [mbind option_bind]. set (k := Z.min (len - start) _) in *.
  assert (Hv1 : vlen (take (Z.to_nat k) q) = k) by (unfold vlen in *; rewrite length_take; lia).
  assert (Hv2 : vlen (drop (Z.to_nat k) q) = vlen q - k) by (unfold vlen in *; rewrite length_drop; lia).
  pose proof (ho_cap _ _ H). rewrite Hv1, wrap64_small by lia.
  rewrite (holds_meet _ _ H1) by lia. case_bool_decide as Hd.
  - assert (Hkq : k = vlen q) by (rewrite Hd in Hv2; unfold vlen at 1 in Hv2; cbn in Hv2; lia).
    exists (set_status r1 EMPTY). destruct (Z.leb_spec (vlen q) (len - start)); [| lia].
    rewrite !take_ge, drop_ge by (unfold vlen in *; lia). rewrite Z.min_r, <- Hkq by lia. split_and!; [done | | done | done].
    rewrite <- Hd. by apply holds_status.
  - apply vlen_pos in Hd as Hd0. destruct (IH r1 (drop (Z.to_nat k) q) (start + k) len (out ++ take (Z.to_nat k) q))
      as (r' & E & H' & He' & Hs'); [done | done | lia | lia | lia |].
    exists r'. rewrite E, Hv2. clear E. rewrite Hv2 in Hs'.
    assert (Eb : (vlen q - k <=? len - (start + k)) = (vlen q <=? len - start)) by lia. rewrite Eb in Hs' |- *.
    assert (En : (Z.to_nat (len - start) = Z.to_nat k + Z.to_nat (len - (start + k)))%nat) by lia.
    rewrite drop_drop in H'. split_and!.
    + rewrite <- (assoc_L (++)), take_take_drop, <- En.
      by replace (start + k + Z.min (len - (start + k)) (vlen q - k)) with (start + Z.min (len - start) (vlen q)) by lia.
    + by rewrite En.
    + by eapply same_ends_trans.
    + by rewrite Hs', Hst.
Qed.

(** A list with a part overwritten. *)
Lemma overwrite_lookup {A} (l src : list A) (b : nat) i :
  (b + length src <= length l)%nat ->
  (take b l ++ src ++ drop (b + length src) l) !! i =
  if decide (b <= i < b + length src)%nat then src !! (i - b)%nat else l !! i.
Proof.
  intros Hl. assert (Hb : length (take b l) = b) by (rewrite length_take; lia).
  destruct (decide (i < b)%nat); [| destruct (decide (i < b + length src)%nat)].
  - rewrite decide_False, lookup_app_l, lookup_take_lt by lia. done.
  - rewrite decide_True, lookup_app_r, lookup_app_l, Hb by lia. done.
  - rewrite decide_False, !lookup_app_r, Hb, lookup_drop by lia. f_equal. lia.
Qed.

Lemma buffer_write_ok r q buf :
  holds r q -> vlen q < RING_DEFAULT_BUFFER_SIZE -> buf <> [] -> vlen buf < 2 ^ 64 ->
  exists k r', buffer_write r buf = Some (k, r') /\ holds r' (q ++ take (Z.to_nat k) buf) /\
    rb_status r' = rb_status r /\ same_ends r r' /\
    0 < k <= vlen buf /\ k <= RING_DEFAULT_BUFFER_SIZE - vlen q.
Proof.
  intros [Hl Hh Ht Hc Ha] Hq Hb Hbl. apply vlen_pos in Hb. pose proof (vlen_nonneg q) as Hq0.
  unfold RING_DEFAULT_BUFFER_SIZE in *. unfold buffer_write, RING_DEFAULT_BUFFER_SIZE.
  assert (Ht0 : 0 <= rb_tail r < 65536) by lia.
  set (e := (if rb_tail r <? rb_head r then rb_head r else 65536) -w rb_tail r).
  assert (Ee : 0 < e <= 65536 - vlen q /\ rb_tail r + e <= 65536).
  { unfold e. destruct (Z.ltb_spec (rb_tail r) (rb_head r)); rewrite wrap64_small; lia. }
  clearbody e. set (k := Z.min (vlen buf) e).
  assert (Hk : 0 < k <= vlen buf /\ k <= 65536 - vlen q /\ rb_tail r + k <= 65536) by lia. clearbody k.
  set (src := take (Z.to_nat k) buf).
  assert (Hs : length src = Z.to_nat k) by (unfold src; rewrite length_take; unfold vlen in *; lia).
  assert (Ec : copy_slice (rb_arr r) (rb_tail r) (rb_tail r + k) src =
    Some (take (Z.to_nat (rb_tail r)) (rb_arr r) ++ src ++ drop (Z.to_nat (rb_tail r) + length src) (rb_arr r))).
  { apply copy_slice_Some. split; [lia |]. split; [lia |]. split; [unfold vlen; lia |]. do 3 f_equal. lia. }
  rewrite Ec. cbn [mbind option_bind]. rewrite (wrap64_small (rb_tail r + k)) by lia.
  eexists k, _. split; [reflexivity |]. split_and!; [| done | done | lia | lia | lia].
  assert (Et : (if rb_tail r + k =? 65536 then 0 else rb_tail r + k) = (rb_tail r + k) mod 65536).
  { destruct (Z.eqb_spec (rb_tail r + k) 65536); lia. }
  assert (Hv : vlen (q ++ src) = vlen q + k) by (rewrite vlen_app; unfold vlen at 2; lia).
  assert (Hal : (Z.to_nat (rb_tail r) + length src <= length (rb_arr r))%nat) by (unfold vlen in Hl; lia).
  fold src. constructor; unfold RING_DEFAULT_BUFFER_SIZE; cbn; rewrite ?Et, ?Hv; [| lia | | lia |].
  - unfold vlen. rewrite !length_app, length_take, length_drop. unfold vlen in Hl. lia.
  - rewrite Ht, Zplus_mod_idemp_l. f_equal. lia.
  - intros i x Hi. rewrite overwrite_lookup by done.
    apply lookup_app_Some in Hi as [Hi | [Hge Hi]].
    + pose proof (lookup_lt_Some _ _ _ Hi). rewrite decide_False; [by apply Ha |]. unfold vlen in *. lia.
    + pose proof (lookup_lt_Some _ _ _ Hi). unfold vlen in *. rewrite decide_True by lia.
      rewrite <- Hi. f_equal. lia.
Qed.

Lemma drain_loop_ok fuel : forall r q start buf,
  holds r q -> vlen q < RING_DEFAULT_BUFFER_SIZE -> 0 <= start <= vlen buf -> vlen buf < 2 ^ 64 ->
  vlen buf - start <= Z.of_nat fuel ->
  let rem := drop (Z.to_nat start) buf in
  let n := Z.min (vlen buf - start) (RING_DEFAULT_BUFFER_SIZE - vlen q) in
  let filled := RING_DEFAULT_BUFFER_SIZE - vlen q <=? vlen buf - start in
  exists r', drain_loop fuel r start buf = Some (filled, start + n, r') /\
    holds r' (q ++ take (Z.to_nat n) rem) /\ same_ends r r' /\
    rb_status r' = if filled then FULL else rb_status r.
Proof.
  induction fuel as [| fuel IH]; intros r q start buf H Hq Hs Hl Hf; cbn zeta; cbn [drain_loop];
    pose proof (vlen_nonneg q) as Hq0; unfold RING_DEFAULT_BUFFER_SIZE in Hq;
    destruct (Z.ltb_spec start (vlen buf)); cbn [negb]; try lia.
  1, 3: assert (start = vlen buf) as -> by lia; exists r; rewrite Z.sub_diag; unfold RING_DEFAULT_BUFFER_SIZE;
    rewrite Z.min_l, Z.add_0_r by lia; destruct (Z.leb_spec (65536 - vlen q) 0); [lia |]; cbn [Z.to_nat take];
    rewrite app_nil_r; by split_and!.
  set (rem := drop (Z.to_nat start) buf).
  assert (Hrl : vlen rem = vlen buf - start) by (unfold rem, vlen in *; rewrite length_drop; lia).
  destruct (buffer_write_ok r q rem) as (k & r1 & -> & H1 & Hst & Hends & Hk & Hkq);
    [done | done | intros E; rewrite E in Hrl; unfold vlen at 1 in Hrl; cbn in Hrl; lia | lia |].
  cbn [mbind option_bind]. unfold RING_DEFAULT_BUFFER_SIZE in *. rewrite wrap64_small by lia.
  assert (Hv1 : vlen (q ++ take (Z.to_nat k) rem) = vlen q + k).
  { rewrite vlen_app. unfold vlen in *. rewrite length_take. lia. }
  destruct (Z.eqb_spec (rb_head r1) (rb_tail r1)) as [Em | Em].
  - assert (Hkn : k = 65536 - vlen q).
    { pose proof (ho_tail _ _ H1) as Ht. pose proof (ho_head _ _ H1) as Hh. unfold RING_DEFAULT_BUFFER_SIZE in *.
      rewrite Hv1 in Ht. lia. }
    exists (set_status r1 FULL). destruct (Z.leb_spec (65536 - vlen q) (vlen buf - start)); [| lia].
    rewrite Z.min_r, <- Hkn by lia. split_and!; [done | by apply holds_status | done | done].
  - assert (Hlt : vlen q + k < 65536).
    { pose proof (ho_tail _ _ H1) as Ht. pose proof (ho_head _ _ H1) as Hh. unfold RING_DEFAULT_BUFFER_SIZE in *.
      rewrite Hv1 in Ht. lia. }
    destruct (IH r1 (q ++ take (Z.to_nat k) rem) (start + k) buf) as (r' & E & H' & He' & Hs');
      [done | lia | lia | lia | lia |].
    exists r'. rewrite E. clear E. rewrite Hv1 in *.
    assert (Eb : (65536 - (vlen q + k) <=? vlen buf - (start + k)) = (65536 - vlen q <=? vlen buf - start)) by lia.
    rewrite Eb in *. set (n := Z.min (vlen buf - start) (65536 - vlen q)).
    assert (En : Z.min (vlen buf - (start + k)) (65536 - (vlen q + k)) = n - k) by lia. rewrite En in *.
    split_and!; [do 2 f_equal; f_equal; lia | | by eapply same_ends_trans | by rewrite Hs', Hst].
    rewrite <- (assoc_L (++)) in H'. unfold rem in H'.
    replace (Z.to_nat (start + k)) with (Z.to_nat start + Z.to_nat k)%nat in H' by lia.
    rewrite <- drop_drop, take_take_drop in H'.
    by replace (Z.to_nat k + Z.to_nat (n - k))%nat with (Z.to_nat n) in H' by lia.
Qed.

(** ** The four operations on a queue *)

Lemma status_drop q n :
  q <> [] -> 0 < n ->
  status_of (drop (Z.to_nat n) q) = (if vlen q <=? n then EMPTY else NORMAL) \/
  RING_DEFAULT_BUFFER_SIZE < vlen q.
Proof.
  intros Hq Hn. unfold status_of. destruct (decide (RING_DEFAULT_BUFFER_SIZE < vlen q)); [by right | left].
  assert (Hv : n < vlen q -> vlen (drop (Z.to_nat n) q) = vlen q - n) by (unfold vlen; rewrite length_drop; lia).
  destruct (Z.leb_spec (vlen q) n).
  - rewrite drop_ge by (unfold vlen in *; lia). done.
  - specialize (Hv ltac:(lia)). rewrite decide_False, decide_False; [done | lia |].
    intros E. rewrite E in Hv. unfold vlen at 1 in Hv. cbn in Hv. lia.
Qed.

Lemma status_app q bs :
  bs <> [] -> vlen (q ++ bs) <= RING_DEFAULT_BUFFER_SIZE ->
  status_of (q ++ bs) = if RING_DEFAULT_BUFFER_SIZE <=? vlen (q ++ bs) then FULL else NORMAL.
Proof.
  intros Hb Hl. unfold status_of. rewrite decide_False.
  - destruct (Z.leb_spec RING_DEFAULT_BUFFER_SIZE (vlen (q ++ bs)));
      [rewrite decide_True by lia | rewrite decide_False by lia]; done.
  - intros [_ E]%app_nil. done.
Qed.

Lemma read_user_loop_ok bufs : forall r q m n,
  holds r q -> q <> [] -> bufs_ok bufs -> 0 <= n -> n + vlen (ub_addrs bufs) < 2 ^ 64 ->
  let len := vlen (ub_addrs bufs) in
  exists r', read_user_loop bufs r m n =
      Some (n + Z.min len (vlen q), scatter m (ub_addrs bufs) (take (Z.to_nat len) q), r') /\
    holds r' (drop (Z.to_nat len) q) /\ same_ends r r' /\
    rb_status r' = if vlen q <=? len then EMPTY else NORMAL.
Proof.
  induction bufs as [| b bufs IH]; intros r q m n H Hq Hb Hn Hl; cbn zeta; cbn [read_user_loop].
  { pose proof (vlen_pos _ Hq). exists (set_status r NORMAL). 
    change (ub_addrs []) with (@nil Z). change (vlen (@nil Z)) with 0. rewrite Z.min_l, Z.add_0_r by lia. destruct (Z.leb_spec (vlen q) 0); [lia |].
    split_and!; [done | by apply holds_status | done | done]. }
  destruct (bufs_ok_cons _ _ Hb) as (Hb2 & Hbs & Hvl & Hb63). rewrite ub_addrs_cons, <- ub_addrs_cons, Hvl in *.
  pose proof (vlen_nonneg (ub_addrs bufs)) as Hbn. pose proof (vlen_pos _ Hq) as Hq0. pose proof (ho_cap _ _ H) as Hcap.
  destruct (fill_loop_ok (Z.to_nat b.2) r q 0 b.2 [] H Hq) as (r1 & -> & H1 & He1 & Hs1); [lia | lia | lia |].
  rewrite Z.sub_0_r, Z.add_0_l in *. cbn [mbind option_bind app]. set (bs := take (Z.to_nat b.2) q) in *.
  assert (Hbl : vlen bs = Z.min b.2 (vlen q)) by (unfold bs, vlen; rewrite length_take; lia).
  unfold RING_DEFAULT_BUFFER_SIZE in Hcap. rewrite wrap64_small by lia.
  rewrite write_bytes_scatter.
  destruct (Z.leb_spec (vlen q) b.2) as [Hle | Hgt].
  - exists r1. destruct (Z.leb_spec (vlen q) (b.2 + vlen (ub_addrs bufs))); [| lia].
    rewrite !Z.min_r by lia. rewrite drop_ge in H1 by (unfold vlen in *; lia).
    rewrite drop_ge by (unfold vlen in *; lia). split_and!; [| done | done | done].
    assert (Eq : bs = q) by (unfold bs; rewrite take_ge; [done | unfold vlen in *; lia]).
    rewrite Eq, (take_ge q) by (unfold vlen in *; lia). do 3 f_equal.
    rewrite ub_addrs_cons, <- (scatter_take m (slice_addrs b ++ _)). f_equal. unfold slice_addrs.
    rewrite take_app_le by (rewrite length_seqZ; unfold vlen in *; lia).
    apply list_eq. intros i. destruct (decide (i < length q)%nat).
    + rewrite lookup_take_lt by done. rewrite !lookup_seqZ_lt by (unfold vlen in *; lia). done.
    + rewrite lookup_take_ge, lookup_seqZ_ge by (unfold vlen in *; lia). done.
  - destruct (IH r1 (drop (Z.to_nat b.2) q) (scatter m (seqZ b.1 (vlen bs)) bs) (n + Z.min b.2 (vlen q)))
      as (r' & E & H' & He' & Hs'); try done; try lia.
    { intros E. apply (f_equal vlen) in E. unfold vlen in *. rewrite length_drop in E. cbn in E. lia. }
    exists r'. rewrite E. clear E.
    assert (Hvd : vlen (drop (Z.to_nat b.2) q) = vlen q - b.2) by (unfold vlen in *; rewrite length_drop; lia).
    rewrite Hvd in *. rewrite drop_drop in H'.
    replace (Z.to_nat (b.2 + vlen (ub_addrs bufs))) with (Z.to_nat b.2 + Z.to_nat (vlen (ub_addrs bufs)))%nat by lia.
    split_and!; [| done | by eapply same_ends_trans |].
    + rewrite <- take_take_drop, ub_addrs_cons, scatter_app; [| rewrite length_slice_addrs; unfold bs, vlen in *; lia].
      fold bs. replace (vlen bs) with b.2 by lia. unfold slice_addrs.
      by replace (n + Z.min b.2 (vlen q) + Z.min (vlen (ub_addrs bufs)) (vlen q - b.2)) with
        (n + Z.min (b.2 + vlen (ub_addrs bufs)) (vlen q)) by lia.
    + rewrite Hs'. by replace (vlen q - b.2 <=? vlen (ub_addrs bufs)) with (vlen q <=? b.2 + vlen (ub_addrs bufs)) by lia.
Qed.

Lemma write_user_loop_ok m bufs : forall r q n,
  holds r q -> vlen q < RING_DEFAULT_BUFFER_SIZE -> bufs_ok bufs -> 0 <= n ->
  n + vlen (ub_addrs bufs) < 2 ^ 64 ->
  let bs := mem_get m <$> ub_addrs bufs in
  let k := Z.min (vlen bs) (RING_DEFAULT_BUFFER_SIZE - vlen q) in
  exists r', write_user_loop bufs r m n = Some (n + k, r') /\
    holds r' (q ++ take (Z.to_nat k) bs) /\ same_ends r r' /\
    rb_status r' = if RING_DEFAULT_BUFFER_SIZE - vlen q <=? vlen bs then FULL else NORMAL.
Proof.
  induction bufs as [| b bufs IH]; intros r q n H Hq Hb Hn Hl; cbn zeta; cbn [write_user_loop].
  { exists (set_status r NORMAL). change (mem_get m <$> ub_addrs []) with (@nil Z). change (vlen (@nil Z)) with 0.
    rewrite Z.min_l, Z.add_0_r, take_nil, app_nil_r by lia.
    destruct (Z.leb_spec (RING_DEFAULT_BUFFER_SIZE - vlen q) 0); [lia |].
    split_and!; [done | by apply holds_status | done | done]. }
  destruct (bufs_ok_cons _ _ Hb) as (Hb2 & Hbs & Hvl & Hb63).
  rewrite ub_addrs_cons, fmap_app, <- read_bytes_addrs. rewrite Hvl in Hl.
  set (x := read_bytes m b.1 b.2). set (y := mem_get m <$> ub_addrs bufs) in *.
  assert (Hx : vlen x = b.2) by (unfold x, vlen; rewrite length_read_bytes by done; lia).
  assert (Hy : vlen y = vlen (ub_addrs bufs)) by (unfold y, vlen; by rewrite length_fmap).
  pose proof (vlen_nonneg y) as Hy0. pose proof (vlen_nonneg q) as Hq0. rewrite vlen_app, Hx.
  destruct (drain_loop_ok (Z.to_nat b.2) r q 0 x) as (r1 & -> & H1 & He1 & Hs1); [done | done | lia | lia | lia |].
  rewrite Z.sub_0_r, Z.add_0_l, Hx in *. cbn [mbind option_bind drop] in *. change (drop (Z.to_nat 0) x) with x in H1.
  unfold RING_DEFAULT_BUFFER_SIZE in *. rewrite wrap64_small by lia.
  destruct (Z.leb_spec (65536 - vlen q) b.2) as [Hle | Hgt].
  - exists r1. destruct (Z.leb_spec (65536 - vlen q) (b.2 + vlen y)); [| lia].
    rewrite !Z.min_r in * by lia. split_and!; [done | | done | done].
    rewrite take_app_le by (unfold vlen in *; lia). done.
  - rewrite Z.min_l in * by lia. rewrite take_ge in H1 by (unfold vlen in *; lia).
    destruct (IH r1 (q ++ x) (n + b.2)) as (r' & E & H' & He' & Hs'); [done | rewrite vlen_app; lia | done | lia | lia |].
    exists r'. rewrite E. clear E. rewrite vlen_app, Hx in *.
    replace (65536 - (vlen q + b.2)) with (65536 - vlen q - b.2) in * by lia.
    split_and!; [do 2 f_equal; lia | | by eapply same_ends_trans |].
    + rewrite <- (assoc_L (++)) in H'. revert H'.
      rewrite (take_app_ge x) by (unfold vlen in *; lia).
      by replace (Z.to_nat (Z.min (b.2 + vlen y) (65536 - vlen q)) - length x)%nat
        with (Z.to_nat (Z.min (vlen y) (65536 - vlen q - b.2))) by (unfold vlen in *; lia).
    + rewrite Hs'. by replace (65536 - vlen q - b.2 <=? vlen y) with (65536 - vlen q <=? b.2 + vlen y) by lia.
Qed.

(** ** Operations with a buffer that is not empty *)

Section Ops.
Context (alive : nat -> bool).

(** What a read of [len] bytes does. *)
Definition read_returns (q : list Z) (len : Z) (r : PipeRingBuffer) (o : outcome) (out : list Z)
    (r' : PipeRingBuffer) : Prop :=
  same_ends r r' /\
  if decide (q = []) then
    out = [] /\ r' = r /\
    (forall id, rb_write_end r = Some id -> o = if alive id then Blocked else Returned 0)
  else o = Returned (Z.min len (vlen q)) /\ out = take (Z.to_nat len) q /\ pipe_inv r' (drop (Z.to_nat len) q).

Definition write_returns (q buf : list Z) (r : PipeRingBuffer) (o : outcome) (r' : PipeRingBuffer) : Prop :=
  let free := RING_DEFAULT_BUFFER_SIZE - vlen q in
  same_ends r r' /\
  if decide (free = 0) then
    r' = r /\ (forall id, rb_read_end r = Some id -> o = if alive id then Blocked else Returned 0)
  else o = Returned (Z.min (vlen buf) free) /\ pipe_inv r' (q ++ take (Z.to_nat (Z.min (vlen buf) free)) buf).

Lemma status_of_EMPTY q : status_of q = EMPTY <-> q = [].
Proof. unfold status_of. repeat case_decide; naive_solver. Qed.

Lemma status_of_FULL q : status_of q = FULL <-> vlen q = RING_DEFAULT_BUFFER_SIZE.
Proof.
  unfold status_of. repeat case_decide; subst; split; done.
Qed.

Lemma pipe_read_ok r q len :
  pipe_inv r q -> 0 < len < 2 ^ 64 -> is_Some (rb_write_end r) ->
  exists o out r', pipe_read alive None r len = Some (o, out, r') /\ read_returns q len r o out r'.
Proof.
  intros [H Hst] Hl [id Hid]. unfold pipe_read, read_returns. rewrite Hst.
  destruct (decide (q = [])) as [Hq | Hq].
  - rewrite decide_True by (by apply status_of_EMPTY). unfold all_write_ends_closed. rewrite Hid.
    cbn [fmap option_fmap option_map mbind option_bind]. eexists _, [], r. split; [done |]. split_and!; try done.
    intros id' [= <-]. by destruct (alive id).
  - rewrite decide_False by (by rewrite status_of_EMPTY).
    destruct (fill_loop_ok (Z.to_nat len) r q 0 len [] H Hq) as (r1 & -> & H1 & He1 & Hs1); [lia | lia | lia |].
    rewrite Z.sub_0_r, Z.add_0_l in *. cbn [mbind option_bind app].
    eexists _, _, _. split; [done |]. split; [by destruct (vlen q <=? len) |]. split_and!; [done | done |].
    destruct (status_drop q len Hq) as [E | E]; [lia | | pose proof (ho_cap _ _ H); lia].
    split; rewrite ?E; destruct (vlen q <=? len); try done. by apply holds_status.
Qed.

Lemma pipe_read_user_ok r q bufs m :
  pipe_inv r q -> bufs_ok bufs -> 0 < vlen (ub_addrs bufs) -> is_Some (rb_write_end r) ->
  exists o out r', pipe_read_user alive None r bufs m = Some (o, scatter m (ub_addrs bufs) out, r') /\
    read_returns q (vlen (ub_addrs bufs)) r o out r'.
Proof.
  intros [H Hst] Hb Hl [id Hid]. unfold pipe_read_user, read_returns. rewrite Hst.
  pose proof Hb as [_ Hb63].
  destruct (decide (q = [])) as [Hq | Hq].
  - rewrite decide_True by (by apply status_of_EMPTY). unfold all_write_ends_closed. rewrite Hid.
    cbn [fmap option_fmap option_map mbind option_bind]. exists (if negb (alive id) then Returned 0 else Blocked), [], r.
    rewrite scatter_nil_r. split; [done |]. split_and!; try done.
    intros id' [= <-]. by destruct (alive id).
  - rewrite decide_False by (by rewrite status_of_EMPTY).
    destruct (read_user_loop_ok bufs r q m 0 H Hq Hb) as (r1 & -> & H1 & He1 & Hs1); [lia | lia |].
    rewrite Z.add_0_l in *. cbn [mbind option_bind].
    eexists _, _, _. split; [done |]. split; [done |]. split_and!; [done | done |].
    destruct (status_drop q (vlen (ub_addrs bufs)) Hq Hl) as [E | E]; [| pose proof (ho_cap _ _ H); lia].
    split; [done |]. by rewrite E.
Qed.

Lemma status_append q buf :
  vlen q < RING_DEFAULT_BUFFER_SIZE -> 0 < vlen buf ->
  status_of (q ++ take (Z.to_nat (Z.min (vlen buf) (RING_DEFAULT_BUFFER_SIZE - vlen q))) buf) =
  if RING_DEFAULT_BUFFER_SIZE - vlen q <=? vlen buf then FULL else NORMAL.
Proof.
  intros Hq Hb. set (bs := take _ buf).
  assert (Hbs : vlen bs = Z.min (vlen buf) (RING_DEFAULT_BUFFER_SIZE - vlen q)).
  { unfold bs, vlen in *. rewrite length_take. lia. }
  rewrite status_app; rewrite ?vlen_app, ?Hbs; [| intros E; rewrite E in Hbs; unfold vlen at 1 in Hbs; cbn in Hbs; lia | lia].
  by destruct (Z.leb_spec (RING_DEFAULT_BUFFER_SIZE - vlen q) (vlen buf)),
    (Z.leb_spec RING_DEFAULT_BUFFER_SIZE (vlen q + Z.min (vlen buf) (RING_DEFAULT_BUFFER_SIZE - vlen q))); try lia.
Qed.

Lemma pipe_write_ok r q buf :
  pipe_inv r q -> buf <> [] -> vlen buf < 2 ^ 64 -> is_Some (rb_read_end r) ->
  exists o r', pipe_write alive None r buf = Some (o, r') /\ write_returns q buf r o r'.
Proof.
  intros [H Hst] Hb Hl [id Hid]. apply vlen_pos in Hb. unfold pipe_write, write_returns. rewrite Hst.
  pose proof (ho_cap _ _ H) as Hc. destruct (decide (RING_DEFAULT_BUFFER_SIZE - vlen q = 0)) as [Hq | Hq].
  - rewrite decide_True by (apply status_of_FULL; lia). unfold all_read_ends_closed. rewrite Hid.
    cbn [fmap option_fmap option_map mbind option_bind]. eexists _, r. split; [done |]. split_and!; try done.
    intros id' [= <-]. by destruct (alive id).
  - rewrite decide_False by (rewrite status_of_FULL; lia).
    destruct (drain_loop_ok (length buf) r q 0 buf H) as (r1 & -> & H1 & He1 & Hs1); [lia | lia | lia | unfold vlen; lia |].
    rewrite Z.sub_0_r, Z.add_0_l in *. cbn [mbind option_bind]. change (drop (Z.to_nat 0) buf) with buf in H1.
    eexists _, _. split; [done |]. split; [by destruct (_ <=? vlen buf) |]. split; [done |].
    pose proof (status_append q buf ltac:(lia) Hb) as E.
    split; rewrite ?E; destruct (_ <=? vlen buf); try done. by apply holds_status.
Qed.

Lemma pipe_write_user_ok r q bufs m :
  pipe_inv r q -> bufs_ok bufs -> 0 < vlen (ub_addrs bufs) -> is_Some (rb_read_end r) ->
  exists o r', pipe_write_user alive None r bufs m = Some (o, r') /\
    write_returns q (mem_get m <$> ub_addrs bufs) r o r'.
Proof.
  intros [H Hst] Hb Hl [id Hid]. unfold pipe_write_user, write_returns. rewrite Hst. pose proof Hb as [_ Hb63].
  pose proof (ho_cap _ _ H) as Hc. destruct (decide (RING_DEFAULT_BUFFER_SIZE - vlen q = 0)) as [Hq | Hq].
  - rewrite decide_True by (apply status_of_FULL; lia). unfold all_read_ends_closed. rewrite Hid.
    cbn [fmap option_fmap option_map mbind option_bind]. eexists _, r. split; [done |]. split_and!; try done.
    intros id' [= <-]. by destruct (alive id).
  - rewrite decide_False by (rewrite status_of_FULL; lia).
    destruct (write_user_loop_ok m bufs r q 0 H) as (r1 & -> & H1 & He1 & Hs1); [lia | done | lia | lia |].
    rewrite Z.add_0_l in *. cbn [mbind option_bind].
    eexists _, _. split; [done |]. split; [done |]. split; [done |]. split; [done |].
    rewrite Hs1. symmetry. apply status_append; [lia |]. unfold vlen in *. by rewrite length_fmap.
Qed.
End Ops.

(** ** Any sequence of reads and writes *)

Definition moved (o : outcome) : nat := match o with Returned n => Z.to_nat n | Blocked => 0 end.

(** Two tasks or more use the two ends, in any order, each turn under the lock of
    the ring. Lengths are not zero, and the slices of a buffer do not overlap.
    [pipe_trace r sent received]: [sent] are the bytes the writers were told are
    written, [received] those the readers found in their buffers. *)
Inductive pipe_trace : PipeRingBuffer -> list Z -> list Z -> Prop :=
| pt_make read_id write_id : pipe_trace (make_pipe read_id write_id).2 [] []
| pt_read r s t alive len o out r' :
    pipe_trace r s t -> 0 < len < 2 ^ 64 ->
    pipe_read alive None r len = Some (o, out, r') ->
    pipe_trace r' s (t ++ take (moved o) out)
| pt_write r s t alive buf o r' :
    pipe_trace r s t -> buf <> [] -> vlen buf < 2 ^ 64 -> bytes buf ->
    pipe_write alive None r buf = Some (o, r') ->
    pipe_trace r' (s ++ take (moved o) buf) t
| pt_read_user r s t alive bufs m o m' r' :
    pipe_trace r s t -> bufs_ok bufs -> 0 < vlen (ub_addrs bufs) -> NoDup (ub_addrs bufs) ->
    pipe_read_user alive None r bufs m = Some (o, m', r') ->
    pipe_trace r' s (t ++ (mem_get m' <$> take (moved o) (ub_addrs bufs)))
| pt_write_user r s t alive bufs m o r' :
    pipe_trace r s t -> bufs_ok bufs -> 0 < vlen (ub_addrs bufs) ->
    pipe_write_user alive None r bufs m = Some (o, r') ->
    pipe_trace r' (s ++ take (moved o) (mem_get m <$> ub_addrs bufs)) t.

Record trace_inv (r : PipeRingBuffer) (s t q : list Z) : Prop := {
  ti_inv : pipe_inv r q;
  ti_wend : is_Some (rb_write_end r);
  ti_rend : is_Some (rb_read_end r);
  ti_bytes : bytes q;
  ti_fifo : s = t ++ q
}.

(** A read hands out the front of the queue. *)
Lemma read_returns_front alive q len r o out r' s t :
  read_returns alive q len r o out r' -> trace_inv r s t q -> 0 < len ->
  exists k q', q = k ++ q' /\ out = k /\ moved o = length k /\ trace_inv r' s (t ++ k) q'.
Proof.
  intros [[Hw Hr] H] [Hi Hwe Hre Hb Hf] Hl. case_decide as Hq.
  - destruct H as (-> & -> & Ho). destruct Hwe as [id Hid]. exists [], q. subst q.
    split_and!; [done | done | rewrite (Ho id Hid); by destruct (alive id) |].
    constructor; rewrite ?app_nil_r in *; done.
  - destruct H as (-> & -> & Hi'). exists (take (Z.to_nat len) q), (drop (Z.to_nat len) q).
    split_and!; [by rewrite take_drop | done | cbn; unfold vlen; rewrite length_take; lia |].
    constructor; [done | by rewrite Hw | by rewrite Hr | by apply Forall_drop |].
    by rewrite <- app_assoc, take_drop.
Qed.

(** A write appends what it reports to the queue. *)
Lemma write_returns_back alive q buf r o r' s t :
  write_returns alive q buf r o r' -> trace_inv r s t q -> bytes buf ->
  trace_inv r' (s ++ take (moved o) buf) t (q ++ take (moved o) buf).
Proof.
  intros [[Hw Hr] H] [Hi Hwe Hre Hb Hf] Hbuf. case_decide as Hq.
  - destruct H as (-> & Ho). destruct Hre as [id Hid]. rewrite (Ho id Hid).
    assert (moved (if alive id then Blocked else Returned 0) = 0%nat) as -> by (by destruct (alive id)).
    cbn [take]. rewrite !app_nil_r. by constructor.
  - destruct H as (-> & Hi'). cbn [moved].
    constructor; [done | by rewrite Hw | by rewrite Hr | by apply Forall_app_2; [| apply Forall_take] |].
    by rewrite Hf, app_assoc.
Qed.

Lemma make_pipe_inv read_id write_id : trace_inv (make_pipe read_id write_id).2 [] [] [].
Proof.
  destruct ring_new_holds as [[Hl Hh Ht Hc Ha] Hs]. constructor; [| done | done | constructor | done].
  by split; [constructor |].
Qed.

Lemma scatter_front m addrs k :
  NoDup addrs -> (length k <= length addrs)%nat -> bytes k ->
  mem_get (scatter m addrs k) <$> take (length k) addrs = k.
Proof.
  intros Hn Hl Hb. rewrite <- scatter_take. apply read_scatter; [by apply (sublist_NoDup _ addrs), sublist_take | | done].
  rewrite length_take. lia.
Qed.

Lemma pipe_trace_inv r s t : pipe_trace r s t -> exists q, trace_inv r s t q.
Proof.
  induction 1 as [rid wid | r s t alive len o out r' _ [q IH] Hl E | r s t alive buf o r' _ [q IH] Hne Hl Hb E
    | r s t alive bufs m o m' r' _ [q IH] Hok Hl Hn E | r s t alive bufs m o r' _ [q IH] Hok Hl E].
  - exists []. apply make_pipe_inv.
  - destruct (pipe_read_ok alive r q len (ti_inv _ _ _ _ IH) Hl (ti_wend _ _ _ _ IH)) as (o1 & out1 & r1 & E1 & R).
    rewrite E in E1. injection E1 as -> -> ->.
    destruct (read_returns_front _ _ _ _ _ _ _ _ _ R IH) as (k & q' & _ & <- & Hm & I); [lia |].
    exists q'. by rewrite Hm, firstn_all.
  - destruct (pipe_write_ok alive r q buf (ti_inv _ _ _ _ IH) Hne Hl (ti_rend _ _ _ _ IH)) as (o1 & r1 & E1 & R).
    rewrite E in E1. injection E1 as -> ->. eexists. by eapply write_returns_back.
  - destruct (pipe_read_user_ok alive r q bufs m (ti_inv _ _ _ _ IH) Hok Hl (ti_wend _ _ _ _ IH))
      as (o1 & out1 & r1 & E1 & R). rewrite E in E1. injection E1 as -> -> ->.
    assert (Hlen : (length out1 <= length (ub_addrs bufs))%nat).
    { destruct R as [_ R]. case_decide; destruct R as (? & -> & _); [subst; cbn; lia |].
      rewrite length_take. unfold vlen. lia. }
    destruct (read_returns_front _ _ _ _ _ _ _ _ _ R IH) as (k & q' & Eq & <- & Hm & I); [lia |].
    exists q'. rewrite Hm, scatter_front; [done | done | done |].
    pose proof (ti_bytes _ _ _ _ IH) as Hb. rewrite Eq in Hb. by apply Forall_app in Hb as [].
  - destruct (pipe_write_user_ok alive r q bufs m (ti_inv _ _ _ _ IH) Hok Hl (ti_rend _ _ _ _ IH))
      as (o1 & r1 & E1 & R). rewrite E in E1. injection E1 as -> ->. eexists.
    eapply write_returns_back; [done | done |]. apply Forall_fmap, Forall_true. intros. apply mem_get_byte.
Qed.

Lemma get_used_size_ok r q : pipe_inv r q -> get_used_size r = Some (vlen q).
Proof.
  intros [[Hl Hh Ht Hc _] Hs]. unfold get_used_size. rewrite Hs, Hl. unfold status_of.
  case_decide as Hq; [by subst q |]. apply vlen_pos in Hq. case_decide as Hf; [by rewrite Hf |].
  unfold RING_DEFAULT_BUFFER_SIZE in *.
  assert (Hne : rb_head r <> rb_tail r) by lia. destruct (Z.eqb_spec (rb_head r) (rb_tail r)); [done |].
  cbn [negb assert_ mbind option_bind]. f_equal.
  destruct (Z.ltb_spec (rb_head r) (rb_tail r)); rewrite ?(wrap64_small (rb_tail r + _)), wrap64_small by lia; lia.
Qed.

(** C17: Pipes, over every interleaving of reads and writes of non-zero length by
    the two ends: the bytes the readers received followed by the bytes still in
    the ring are the bytes the writers were told are written, at most 65536 are
    held, [get_used_size], [r_ready] and [w_ready] report them, the next read
    returns the oldest bytes (as many as asked for and held) or waits, and the
    next write is accepted as far as there is room or waits; nothing panics. *)
Theorem pipe_fifo r sent received :
  pipe_trace r sent received ->
  exists q, sent = received ++ q /\ vlen q <= RING_DEFAULT_BUFFER_SIZE /\
    get_used_size r = Some (vlen q) /\
    r_ready r = bool_decide (0 < vlen q) /\ w_ready r = bool_decide (vlen q < RING_DEFAULT_BUFFER_SIZE) /\
    (forall alive len, 0 < len < 2 ^ 64 ->
       exists o out r', pipe_read alive None r len = Some (o, out, r') /\ read_returns alive q len r o out r') /\
    (forall alive buf, buf <> [] -> vlen buf < 2 ^ 64 ->
       exists o r', pipe_write alive None r buf = Some (o, r') /\ write_returns alive q buf r o r').
Proof.
  intros [q [Hi Hwe Hre Hb Hf]]%pipe_trace_inv. exists q. pose proof (ho_cap _ _ (proj1 Hi)) as Hc.
  split_and!; [done | done | by apply get_used_size_ok | | | |].
  - unfold r_ready. apply bool_decide_ext. rewrite (proj2 Hi), status_of_EMPTY. split; [apply vlen_pos |].
    by intros ? ->.
  - unfold w_ready. apply bool_decide_ext. rewrite (proj2 Hi), status_of_FULL. lia.
  - intros. by apply pipe_read_ok.
  - intros. by apply pipe_write_ok.
Qed.

Lemma pipe_demo : exists r1 r2,
  pipe_write (fun _ => true) None (make_pipe 0 1).2 [104; 105; 33] = Some (Returned 3, r1) /\
  pipe_read (fun _ => true) None r1 2 = Some (Returned 2, [104; 105], r2).
Proof.
  assert (C1 : fst <$> pipe_write (fun _ => true) None (make_pipe 0 1).2 [104; 105; 33] = Some (Returned 3))
    by (by vm_compute).
  assert (C2 : pipe_write (fun _ => true) None (make_pipe 0 1).2 [104; 105; 33] ≫=
      (fun p => fst <$> pipe_read (fun _ => true) None p.2 2) = Some (Returned 2, [104; 105])) by (by vm_compute).
  destruct (pipe_write _ _ (make_pipe 0 1).2 _) as [[o1 r1] |]; [| discriminate C1].
  cbn [mbind option_bind snd] in C2. injection C1 as ->. exists r1.
  destruct (pipe_read _ _ r1 2) as [[[o2 out] r2] |]; [| discriminate C2]. injection C2 as -> ->. by exists r2.
Qed.

Lemma pipe_fifo_witness :
  exists r, pipe_trace r [104; 105; 33] [104; 105] /\
    exists q, [104; 105; 33] = [104; 105] ++ q /\ vlen q <= RING_DEFAULT_BUFFER_SIZE.
Proof.
  destruct pipe_demo as (r1 & r2 & E1 & E2).
  assert (T1 : pipe_trace r1 [104; 105; 33] []).
  { refine (pt_write _ [] [] _ _ _ _ (pt_make 0 1) _ _ _ E1); [discriminate | reflexivity |].
    repeat constructor; discriminate. }
  pose proof (pt_read _ _ _ _ 2 _ _ _ T1 ltac:(lia) E2) as T.
  exists r2. split; [exact T |].
  destruct (pipe_fifo _ _ _ T) as (q & Hq & Hc & _). exists q. exact (conj Hq Hc).
Defined.

(** An array read all the way round from [head]. *)
Lemma holds_round r :
  holds r [] -> holds r (drop (Z.to_nat (rb_head r)) (rb_arr r) ++ take (Z.to_nat (rb_head r)) (rb_arr r)).
Proof.
  intros [Hl Hh Ht Hc _]. change (vlen (@nil Z)) with 0 in *. unfold RING_DEFAULT_BUFFER_SIZE in *.
  set (h := Z.to_nat (rb_head r)).
  assert (Hd : vlen (drop h (rb_arr r) ++ take h (rb_arr r)) = 65536).
  { unfold vlen in *. rewrite length_app, length_drop, length_take. lia. }
  constructor; unfold RING_DEFAULT_BUFFER_SIZE; [done | lia | lia | lia |].
  intros i x Hx. pose proof (lookup_lt_Some _ _ _ Hx) as Hi. unfold vlen in *.
  destruct (decide (i < length (drop h (rb_arr r)))%nat) as [Hlt | Hge].
  - rewrite lookup_app_l, lookup_drop in Hx by done. rewrite length_drop in Hlt. rewrite <- Hx. f_equal. lia.
  - rewrite lookup_app_r in Hx by lia. apply lookup_take_Some in Hx as [Hx Hih]. rewrite <- Hx.
    rewrite length_drop in *. f_equal. lia.
Qed.

(** A write of no bytes to an empty pipe leaves the ring [NORMAL] with [head]
    equal to [tail]: the next read neither waits nor reports the end of the pipe
    but returns the old contents of the array from [head] round, up to all 65536
    bytes of it, none of which is in the pipe. *)
Theorem empty_write_then_read_returns_stale alive alive' r len :
  pipe_inv r [] -> 0 < len < 2 ^ 64 ->
  exists r1 r2, pipe_write alive None r [] = Some (Returned 0, r1) /\
    pipe_read alive' None r1 len =
      Some (Returned (Z.min len RING_DEFAULT_BUFFER_SIZE),
            take (Z.to_nat len) (drop (Z.to_nat (rb_head r)) (rb_arr r) ++ take (Z.to_nat (rb_head r)) (rb_arr r)), r2).
Proof.
  intros [H Hs] Hlen. pose proof (holds_status _ _ NORMAL (holds_round _ H)) as H1.
  set (q := drop _ _ ++ _) in *.
  assert (Hq : vlen q = RING_DEFAULT_BUFFER_SIZE).
  { destruct H. unfold q, vlen in *. rewrite length_app, length_drop, length_take.
    unfold RING_DEFAULT_BUFFER_SIZE in *. lia. }
  destruct (fill_loop_ok (Z.to_nat len) (set_status r NORMAL) q 0 len []) as (r2 & E & _);
    [done | intros E; by rewrite E in Hq | lia | lia | lia |].
  rewrite Z.sub_0_r, Z.add_0_l, Hq in E. unfold pipe_write, pipe_read. rewrite Hs, decide_False by done.
  exists (set_status r NORMAL). eexists. split; [done |]. rewrite decide_False, E by done. done.
Qed.

Lemma empty_write_then_read_returns_stale_witness :
  exists r1 r2, pipe_write (fun _ => true) None (make_pipe 0 1).2 [] = Some (Returned 0, r1) /\
    pipe_read (fun _ => true) None r1 5 = Some (Returned 5, replicate 5 0, r2).
Proof.
  destruct (empty_write_then_read_returns_stale (fun _ => true) (fun _ => true) (make_pipe 0 1).2 5)
    as (r1 & r2 & E1 & E2); [apply (ti_inv _ _ _ _ (make_pipe_inv 0 1)) | lia |].
  exists r1, r2. split; [exact E1 | rewrite E2; by vm_compute].
Defined.
