(* ===== verification/FdTable.v ===== *)
(** * File descriptors

    [fs/file_descriptor.rs], the descriptor table of a process, and the system
    calls that change it ([syscall/fs.rs], [syscall/process.rs], the close-on-exec
    step of [task/task.rs]). A descriptor number is a [nat]; [recycled] holds
    bytes, so a number is kept modulo 256 there. The open file is a parameter. *)

From S2P Require Import Prelude FileTrait.
#[local] Open Scope kernel_scope.
#[local] Open Scope nat_scope.

Definition SUCCESS : Z := 0.
Definition EBADF : Z := -9.
Definition EMFILE : Z := -24.

Definition DEFAULT_FD_LIMIT : nat := 128.
Definition SYSTEM_FD_LIMIT : nat := 256.

Definition u8_of (fd : nat) : nat := fd `mod` 256.

(** [v[i] = x] panics outside the vector. *)
Definition index_set {A} (v : list A) (i : nat) (x : A) : option (list A) :=
  if decide (i < length v) then Some (<[i := x]> v) else None.

Record FileDescriptor (F : Type) := mkFd { fd_cloexec : bool; fd_nonblock : bool; fd_file : F }.
Arguments mkFd {F} _ _ _.
Arguments fd_cloexec {F} _.
Arguments fd_nonblock {F} _.
Arguments fd_file {F} _.

Record FdTable (F : Type) := mkFdTable {
  ft_inner : list (option (FileDescriptor F)); ft_recycled : list nat;
  ft_soft_limit : nat; ft_hard_limit : nat
}.
Arguments mkFdTable {F} _ _ _ _.
Arguments ft_inner {F} _.
Arguments ft_recycled {F} _.
Arguments ft_soft_limit {F} _.
Arguments ft_hard_limit {F} _.

Section Operations.
Context {F : Type}.
Implicit Types (d : FileDescriptor F) (t : FdTable F).

Definition set_cloexec d (flag : bool) : FileDescriptor F := mkFd flag (fd_nonblock d) (fd_file d).

Definition with_inner t inner : FdTable F :=
  mkFdTable inner (ft_recycled t) (ft_soft_limit t) (ft_hard_limit t).
Definition with_recycled t recycled : FdTable F :=
  mkFdTable (ft_inner t) recycled (ft_soft_limit t) (ft_hard_limit t).

Definition ft_new (inner : list (option (FileDescriptor F))) : FdTable F :=
  mkFdTable inner [] DEFAULT_FD_LIMIT SYSTEM_FD_LIMIT.

(** The common part of the two setters: what lies above the limit is dropped. *)
Definition ft_truncate t (limit : nat) : FdTable F :=
  if decide (limit < length (ft_inner t)) then
    mkFdTable (take limit (ft_inner t)) (filter (fun fd => fd < limit) (ft_recycled t))
      (ft_soft_limit t) (ft_hard_limit t)
  else t.
Definition set_soft_limit t (limit : nat) : FdTable F :=
  let t := ft_truncate t limit in
  mkFdTable (ft_inner t) (ft_recycled t) limit (ft_hard_limit t).
Definition set_hard_limit t (limit : nat) : FdTable F :=
  let t := ft_truncate t limit in
  mkFdTable (ft_inner t) (ft_recycled t) (ft_soft_limit t) limit.

Definition get_ref t (fd : nat) : result (FileDescriptor F) Z :=
  match ft_inner t !! fd with Some (Some d) => Ok d | _ => Err EBADF end.
(** [get_refmut] followed by a store through the reference. *)
Definition get_refmut_set t (fd : nat) (f : FileDescriptor F -> FileDescriptor F) : result unit Z * FdTable F :=
  match ft_inner t !! fd with
  | Some (Some d) => (Ok tt, with_inner t (<[fd := Some (f d)]> (ft_inner t)))
  | _ => (Err EBADF, t)
  end.

Definition ft_remove t (fd : nat) : result (FileDescriptor F) Z * FdTable F :=
  match ft_inner t !! fd with
  | Some (Some d) =>
      (Ok d, with_recycled (with_inner t (<[fd := None]> (ft_inner t))) (ft_recycled t ++ [u8_of fd]))
  | _ => (Err EBADF, t)
  end.

Definition ft_check t (fd : nat) : result unit Z :=
  match ft_inner t !! fd with Some (Some _) => Ok tt | _ => Err EBADF end.

Definition list_min (l : list nat) : option nat :=
  match l with [] => None | x :: l => Some (foldl Nat.min x l) end.
Definition find_min t : option nat * FdTable F :=
  match list_min (ft_recycled t) with
  | Some min_value =>
      match list_find (eq min_value) (ft_recycled t) with
      | Some (index, _) => (Some min_value, with_recycled t (delete index (ft_recycled t)))
      | None => (None, t)
      end
  | None => (None, t)
  end.

(** A new last element, unless the table is at its limit. *)
Definition ft_push t d : result nat Z * FdTable F :=
  let current := length (ft_inner t) in
  if decide (current = ft_soft_limit t) then (Err EMFILE, t)
  else (Ok current, with_inner t (ft_inner t ++ [Some d])).

Definition ft_insert t d : option (result nat Z * FdTable F) :=
  match find_min t with
  | (Some fd, t) => inner ← index_set (ft_inner t) fd (Some d); Some (Ok fd, with_inner t inner)
  | (None, t) => Some (ft_push t d)
  end.

Definition ft_insert_at t d (pos : nat) : option (result nat Z * FdTable F) :=
  let current := length (ft_inner t) in
  if decide (pos < current) then
    old ← ft_inner t !! pos;
    let t := match old with
             | None => with_recycled t (filter (fun fd => fd <> pos) (ft_recycled t))
             | Some _ => t
             end in
    Some (Ok pos, with_inner t (<[pos := Some d]> (ft_inner t)))
  else if decide (ft_soft_limit t <= pos) then Some (Err EMFILE, t)
  else
    Some (Ok pos,
          with_recycled (with_inner t (resize pos None (ft_inner t) ++ [Some d]))
            (ft_recycled t ++ (u8_of <$> reverse (seq current (pos - current))))).

Definition ft_try_insert_at t d (hint : nat) : option (result nat Z * FdTable F) :=
  if decide (ft_soft_limit t <= hint) then Some (Err EMFILE, t)
  else
    let current := length (ft_inner t) in
    if decide (hint < current) then
      old ← ft_inner t !! hint;
      match old with
      | Some _ =>
          match list_find (fun fd => hint < fd) (ft_recycled t) with
          | Some (_, fd) => inner ← index_set (ft_inner t) fd (Some d); Some (Ok fd, with_inner t inner)
          | None => Some (ft_push t d)
          end
      | None =>
          Some (Ok hint, with_recycled (with_inner t (<[hint := Some d]> (ft_inner t)))
                           (filter (fun fd => fd <> hint) (ft_recycled t)))
      end
    else if decide (ft_soft_limit t <= hint) then Some (Err EMFILE, t)
    else
      Some (Ok hint,
            with_recycled (with_inner t (resize hint None (ft_inner t) ++ [Some d]))
              (ft_recycled t ++ (u8_of <$> seq current (hint - current)))).

Definition ft_take t (fd : nat) : option (FileDescriptor F) * FdTable F :=
  match ft_inner t !! fd with
  | Some (Some d) => (Some d, with_inner t (<[fd := None]> (ft_inner t)))
  | _ => (None, t)
  end.

(** [exec]: descriptors with the flag are closed in place. *)
Definition close_on_exec t : FdTable F :=
  with_inner t ((fun o => match o with
                          | Some d => if fd_cloexec d : bool then None else Some d
                          | None => None
                          end) <$> ft_inner t).

(** ** System calls *)

Definition isize_of (r : result nat Z) : Z := match r with Ok fd => Z.of_nat fd | Err e => e end.

Definition sys_close t (fd : nat) : Z * FdTable F :=
  match ft_remove t fd with (Ok _, t) => (SUCCESS, t) | (Err errno, t) => (errno, t) end.

Definition sys_dup t (oldfd : nat) : option (Z * FdTable F) :=
  match get_ref t oldfd with
  | Ok d => '(r, t) ← ft_insert t d; Some (isize_of r, t)
  | Err errno => Some (errno, t)
  end.

Definition sys_dup2 t (oldfd newfd : nat) : option (Z * FdTable F) :=
  match get_ref t oldfd with
  | Ok d => '(r, t) ← ft_insert_at t (set_cloexec d false) newfd; Some (isize_of r, t)
  | Err errno => Some (errno, t)
  end.

Definition O_CLOEXEC : Z := 524288.
Definition O_RDONLY : Z := 0.
Definition O_RDWR : Z := 2.
Definition O_NONBLOCK : Z := 2048.

Definition sys_dup3 t (oldfd newfd : nat) (flags : Z) : option (Z * FdTable F) :=
  if decide (oldfd = newfd) then Some (EINVAL, t)
  else
    let dup is_cloexec :=
      match get_ref t oldfd with
      | Ok d => '(r, t) ← ft_insert_at t (set_cloexec d is_cloexec) newfd; Some (isize_of r, t)
      | Err errno => Some (errno, t)
      end in
    if (flags =? O_CLOEXEC)%Z then dup true
    else if (flags =? O_RDONLY)%Z then dup false
    else Some (EINVAL, t).

Inductive Fcntl_Command := DUPFD | DUPFD_CLOEXEC | GETFD | SETFD | GETFL | OtherCommand.
Definition fcntl_command (cmd : Z) : Fcntl_Command :=
  match cmd with
  | 0 => DUPFD | 1 => GETFD | 2 => SETFD | 3 => GETFL | 1030 => DUPFD_CLOEXEC | _ => OtherCommand
  end%Z.

Definition sys_fcntl t (fd : nat) (cmd : Z) (arg : nat) : option (Z * FdTable F) :=
  match fcntl_command cmd with
  | DUPFD =>
      match get_ref t fd with
      | Ok d => '(r, t) ← ft_try_insert_at t d arg; Some (isize_of r, t)
      | Err errno => Some (errno, t)
      end
  | DUPFD_CLOEXEC =>
      match get_ref t fd with
      | Ok d => '(r, t) ← ft_try_insert_at t (set_cloexec d true) arg; Some (isize_of r, t)
      | Err errno => Some (errno, t)
      end
  | GETFD =>
      match get_ref t fd with
      | Ok d => Some (Z.b2z (fd_cloexec d), t)
      | Err errno => Some (errno, t)
      end
  | SETFD =>
      match get_refmut_set t fd (fun d => set_cloexec d (Nat.odd arg)) with
      | (Ok _, t) => Some (SUCCESS, t)
      | (Err errno, t) => Some (errno, t)
      end
  | GETFL =>
      match get_ref t fd with
      | Ok d => Some (if fd_nonblock d : bool then Z.lor O_RDWR O_NONBLOCK else O_RDWR, t)
      | Err errno => Some (errno, t)
      end
  | OtherCommand => Some (SUCCESS, t)
  end.

(** The [NOFILE] case of [sys_setrlimit] and [sys_prlimit]. *)
Definition set_nofile t (rlim_cur rlim_max : nat) : FdTable F :=
  set_hard_limit (set_soft_limit t rlim_cur) rlim_max.

(** The last step of [sys_openat]: the new descriptor is inserted. *)
Definition open_fd t d : option (Z * FdTable F) := '(r, t) ← ft_insert t d; Some (isize_of r, t).
End Operations.

(** ** The table as a finite map *)

Section Spec.
Context {F : Type}.
Implicit Types (d : FileDescriptor F) (t : FdTable F) (m : gmap nat (FileDescriptor F)).

Definition opened t : gmap nat (FileDescriptor F) := omap id (map_seq 0 (ft_inner t)).

(** [recycled] lists the closed numbers below the end of the table, once each. *)
Record fd_tight t : Prop := {
  tg_nodup : NoDup (ft_recycled t);
  tg_holes : forall fd, fd ∈ ft_recycled t <-> ft_inner t !! fd = Some None;
  tg_len : length (ft_inner t) <= ft_soft_limit t;
  tg_soft : ft_soft_limit t <= 256
}.

Definition least_free m (lo n : nat) : Prop :=
  lo <= n /\ m !! n = None /\ forall k, lo <= k < n -> is_Some (m !! k).

(** The lowest free number from [lo] on, if it is below the limit. *)
Definition spec_insert m (soft lo : nat) d (r : result nat Z) m' : Prop :=
  exists n, least_free m lo n /\
    if decide (n < soft) then r = Ok n /\ m' = <[n := d]> m else r = Err EMFILE /\ m' = m.
(** Exactly [pos], whatever was there. *)
Definition spec_place m (soft pos : nat) d (r : result nat Z) m' : Prop :=
  if decide (pos < soft) then r = Ok pos /\ m' = <[pos := d]> m else r = Err EMFILE /\ m' = m.

Inductive fd_call :=
| COpen d
| CClose (fd : nat)
| CDup (oldfd : nat)
| CDup2 (oldfd newfd : nat)
| CDup3 (oldfd newfd : nat) (flags : Z)
| CFcntl (fd : nat) (cmd : Z) (arg : nat)
| CLimit (cur max : nat).

Definition run_call t (c : fd_call) : option (Z * FdTable F) :=
  match c with
  | COpen d => open_fd t d
  | CClose fd => Some (sys_close t fd)
  | CDup oldfd => sys_dup t oldfd
  | CDup2 oldfd newfd => sys_dup2 t oldfd newfd
  | CDup3 oldfd newfd flags => sys_dup3 t oldfd newfd flags
  | CFcntl fd cmd arg => sys_fcntl t fd cmd arg
  | CLimit cur max => Some (SUCCESS, set_nofile t cur max)
  end.

(** An open descriptor is asked for; otherwise the answer is [EBADF]. *)
Definition on_open m (fd : nat) (ret : Z) m' (k : FileDescriptor F -> Prop) : Prop :=
  match m !! fd with Some d => k d | None => ret = EBADF /\ m' = m end.
Definition inserted m soft lo d (ret : Z) m' : Prop := exists r, spec_insert m soft lo d r m' /\ ret = isize_of r.
Definition placed m soft pos d (ret : Z) m' : Prop := exists r, spec_place m soft pos d r m' /\ ret = isize_of r.

Definition fcntl_spec m soft (fd : nat) (cmd : Fcntl_Command) (arg : nat) (ret : Z) m' : Prop :=
  match cmd with
  | DUPFD => on_open m fd ret m' (fun d => inserted m soft arg d ret m')
  | DUPFD_CLOEXEC => on_open m fd ret m' (fun d => inserted m soft arg (set_cloexec d true) ret m')
  | GETFD => on_open m fd ret m' (fun d => ret = Z.b2z (fd_cloexec d) /\ m' = m)
  | SETFD => on_open m fd ret m' (fun d => ret = SUCCESS /\ m' = <[fd := set_cloexec d (Nat.odd arg)]> m)
  | GETFL => on_open m fd ret m'
      (fun d => ret = (if fd_nonblock d then Z.lor O_RDWR O_NONBLOCK else O_RDWR) /\ m' = m)
  | OtherCommand => ret = SUCCESS /\ m' = m
  end.

Definition call_spec (c : fd_call) m (soft : nat) (ret : Z) m' (soft' : nat) : Prop :=
  match c with
  | COpen d => inserted m soft 0 d ret m' /\ soft' = soft
  | CClose fd => on_open m fd ret m' (fun _ => ret = SUCCESS /\ m' = delete fd m) /\ soft' = soft
  | CDup oldfd => on_open m oldfd ret m' (fun d => inserted m soft 0 d ret m') /\ soft' = soft
  | CDup2 oldfd newfd =>
      on_open m oldfd ret m' (fun d => placed m soft newfd (set_cloexec d false) ret m') /\ soft' = soft
  | CDup3 oldfd newfd flags =>
      (if decide (oldfd = newfd \/ flags <> O_CLOEXEC /\ flags <> O_RDONLY) then ret = EINVAL /\ m' = m
       else on_open m oldfd ret m'
              (fun d => placed m soft newfd (set_cloexec d (bool_decide (flags = O_CLOEXEC))) ret m')) /\
      soft' = soft
  | CFcntl fd cmd arg => fcntl_spec m soft fd (fcntl_command cmd) arg ret m' /\ soft' = soft
  | CLimit cur max => ret = SUCCESS /\ m' = filter (fun p => p.1 < cur /\ p.1 < max) m /\ soft' = cur
  end.

(** No closed number above [hint] in the table, or [hint] itself is closed. *)
Definition no_hole_above t (hint : nat) : Prop :=
  ft_inner t !! hint = Some None \/ forall k, hint < k -> ft_inner t !! k <> Some None.
Definition call_ok t (c : fd_call) : Prop :=
  match c with
  | CFcntl _ cmd arg =>
      match fcntl_command cmd with DUPFD | DUPFD_CLOEXEC => no_hole_above t arg | _ => True end
  | CLimit cur _ => cur <= 256
  | _ => True
  end.

(** ** Lemmas *)

Lemma opened_lookup t fd : opened t !! fd = mjoin (ft_inner t !! fd).
Proof. unfold opened. rewrite lookup_omap, lookup_map_seq_0. by destruct (ft_inner t !! fd) as [[] |]. Qed.

Lemma opened_set t fd o :
  fd < length (ft_inner t) ->
  opened (with_inner t (<[fd := o]> (ft_inner t))) =
  match o with Some d => <[fd := d]> (opened t) | None => delete fd (opened t) end.
Proof.
  intros H. apply map_eq. intros k. rewrite opened_lookup. cbn [with_inner ft_inner].
  destruct (decide (k = fd)) as [-> | Hk].
  - rewrite list_lookup_insert_eq by done. destruct o; simplify_map_eq; done.
  - rewrite list_lookup_insert_ne by done. destruct o; simplify_map_eq; by rewrite opened_lookup.
Qed.

Lemma opened_ext t t' : ft_inner t' = ft_inner t -> opened t' = opened t.
Proof. unfold opened. by intros ->. Qed.

Lemma opened_push t d n :
  length (ft_inner t) <= n ->
  opened (with_inner t (resize n None (ft_inner t) ++ [Some d])) = <[n := d]> (opened t).
Proof.
  intros H. apply map_eq. intros k. rewrite opened_lookup. cbn [with_inner ft_inner].
  destruct (decide (k = n)) as [-> | Hk].
  - rewrite lookup_app_r, length_resize, Nat.sub_diag by (rewrite length_resize; lia). by simplify_map_eq.
  - simplify_map_eq. rewrite opened_lookup. destruct (decide (k < n)).
    + rewrite lookup_app_l by (rewrite length_resize; lia). destruct (decide (k < length (ft_inner t))).
      * by rewrite lookup_resize by lia.
      * rewrite lookup_resize_new by lia. by rewrite (lookup_ge_None_2 (ft_inner t)) by lia.
    + rewrite lookup_ge_None_2, (lookup_ge_None_2 (ft_inner t)); rewrite ?length_app, ?length_resize; cbn; lia || done.
Qed.

Lemma resize_self {A} (l : list (option A)) : resize (length l) None l = l.
Proof. apply resize_all. Qed.

Lemma list_min_spec l : 
  match list_min l with
  | None => l = []
  | Some x => x ∈ l /\ forall y, y ∈ l -> x <= y
  end.
Proof.
  destruct l as [| x l]; [done |]. cbn [list_min]. revert x.
  induction l as [| y l IH]; intros x; cbn [foldl].
  - split; [by left |]. intros y ->%list_elem_of_singleton. done.
  - destruct (IH (x `min` y)) as [Hin Hle]. split.
    + apply elem_of_cons in Hin as [-> | Hin]; [| by do 2 right].
      destruct (Nat.min_spec x y) as [[_ ->] | [_ ->]]; [by left | by right; left].
    + intros z. rewrite !elem_of_cons. pose proof (Hle (x `min` y) ltac:(by left)).
      intros [-> | [-> | Hz]]; [lia | lia |]. apply Hle. by right.
Qed.

Lemma find_min_spec t :
  NoDup (ft_recycled t) ->
  match find_min t with
  | (None, t') => t' = t /\ ft_recycled t = []
  | (Some x, t') => exists l, t' = with_recycled t l /\ NoDup l /\ x ∈ ft_recycled t /\
      (forall y, y ∈ ft_recycled t -> x <= y) /\ (forall y, y ∈ l <-> y ∈ ft_recycled t /\ y <> x)
  end.
Proof.
  intros Hn. unfold find_min. pose proof (list_min_spec (ft_recycled t)) as H.
  destruct (list_min (ft_recycled t)) as [x |]; [| done]. destruct H as [Hin Hle].
  destruct (list_find (eq x) (ft_recycled t)) as [[i y] |] eqn:E.
  - apply list_find_Some in E as (Hi & <- & _). eexists. split; [done |].
    pose proof (delete_Permutation _ _ _ Hi) as P. revert P. generalize (delete i (ft_recycled t)). intros l P.
    rewrite P in Hn. apply NoDup_cons in Hn as [Hx Hn].
    split_and!; [done | done | done |]. intros y. rewrite P, elem_of_cons. naive_solver.
  - apply list_find_None in E. rewrite Forall_forall in E. by destruct (E x Hin).
Qed.

Lemma index_set_lt {A} (v : list A) i x : i < length v -> index_set v i x = Some (<[i := x]> v).
Proof. intros. unfold index_set. by rewrite decide_True. Qed.

(** The end of the table is the lowest free number from [lo] on, when the numbers
    from [lo] to the end are all open. *)
Lemma least_free_end t lo :
  lo <= length (ft_inner t) -> (forall k, lo <= k -> ft_inner t !! k <> Some None) ->
  least_free (opened t) lo (length (ft_inner t)).
Proof.
  intros Hl Hh. split_and!; [done | by rewrite opened_lookup, lookup_ge_None_2 |].
  intros k [Hk1 Hk2]. rewrite opened_lookup. destruct (lookup_lt_is_Some_2 (ft_inner t) k Hk2) as [o E].
  specialize (Hh k Hk1). rewrite E in *. destruct o; [done |]. by destruct Hh.
Qed.

Lemma ft_push_ok t d lo :
  fd_tight t -> lo <= length (ft_inner t) -> (forall k, lo <= k -> ft_inner t !! k <> Some None) ->
  exists r t', ft_push t d = (r, t') /\ fd_tight t' /\ ft_soft_limit t' = ft_soft_limit t /\
    spec_insert (opened t) (ft_soft_limit t) lo d r (opened t').
Proof.
  intros [Hn Hh Hl Hs] Hlo Hlo'. unfold ft_push, spec_insert. case_decide as He.
  - exists (Err EMFILE), t. split_and!; [done | done | done |].
    eexists. split; [by apply least_free_end |]. by rewrite decide_False by lia.
  - eexists _, _. split; [done |]. split_and!; [constructor; cbn | done |].
    + done.
    + intros fd. rewrite Hh. destruct (decide (fd < length (ft_inner t))).
      * by rewrite lookup_app_l.
      * rewrite lookup_app_r, !(lookup_ge_None_2 (ft_inner t)) by lia.
        split; [done |]. intros E. by apply list_lookup_singleton_Some in E as [_ ?].
    + rewrite length_app. cbn. lia.
    + done.
    + eexists. split; [by apply least_free_end |]. rewrite decide_True by lia. split; [done |].
      rewrite <- opened_push by done. by rewrite resize_self.
Qed.

(** Opening a closed number of the table. *)
Lemma reopen_tight t d fd l :
  fd_tight t -> ft_inner t !! fd = Some None -> NoDup l ->
  (forall k, k ∈ l <-> k ∈ ft_recycled t /\ k <> fd) ->
  let t' := with_recycled (with_inner t (<[fd := Some d]> (ft_inner t))) l in
  fd_tight t' /\ opened t' = <[fd := d]> (opened t).
Proof.
  intros [Hn Hh Hl Hs] Hfd Hnl Hin. cbn zeta. pose proof (lookup_lt_Some _ _ _ Hfd) as Hlt. split.
  - constructor; cbn; [done | | by rewrite length_insert | done]. intros k. rewrite Hin, Hh.
    destruct (decide (k = fd)) as [-> |].
    + rewrite list_lookup_insert_eq by done. naive_solver.
    + rewrite list_lookup_insert_ne by done. naive_solver.
  - rewrite <- (opened_set t fd (Some d)) by done. by apply opened_ext.
Qed.

Lemma ft_insert_ok t d :
  fd_tight t ->
  exists r t', ft_insert t d = Some (r, t') /\ fd_tight t' /\ ft_soft_limit t' = ft_soft_limit t /\
    spec_insert (opened t) (ft_soft_limit t) 0 d r (opened t').
Proof.
  intros T. pose proof T as [Hn Hh Hl Hs]. unfold ft_insert. pose proof (find_min_spec t Hn) as M.
  destruct (find_min t) as [[x |] t1].
  - destruct M as (l & -> & Hnl & Hx & Hle & Hin). apply Hh in Hx as E. pose proof (lookup_lt_Some _ _ _ E).
    rewrite index_set_lt by done. cbn [mbind option_bind].
    destruct (reopen_tight t d x l T E Hnl Hin) as [T' O'].
    eexists _, _. split; [done |]. split; [exact T' |]. split; [done |].
    exists x. split; [| rewrite decide_True by lia; by split].
    split_and!; [lia | by rewrite opened_lookup, E |]. intros k Hk. rewrite opened_lookup.
    destruct (ft_inner t !! k) as [[] |] eqn:Ek; [done | |].
    + apply Hh, Hle in Ek. lia.
    + apply lookup_ge_None in Ek. lia.
  - destruct M as [-> Hr]. destruct (ft_push_ok t d 0 T) as (r & t' & -> & H); [lia | |].
    + intros k _ E%Hh. rewrite Hr in E. by apply elem_of_nil in E.
    + by eexists _, _.
Qed.

Lemma u8_of_small l : Forall (fun fd => fd < 256) l -> u8_of <$> l = l.
Proof.
  induction 1 as [| fd l Hfd _ IH]; [done |]. rewrite fmap_cons, IH. unfold u8_of. by rewrite Nat.mod_small.
Qed.

(** Growing the table to [pos], with the numbers on the way recycled. *)
Lemma extend_tight t d pos l :
  fd_tight t -> length (ft_inner t) <= pos < ft_soft_limit t ->
  l ≡ₚ seq (length (ft_inner t)) (pos - length (ft_inner t)) ->
  let t' := with_recycled (with_inner t (resize pos None (ft_inner t) ++ [Some d]))
              (ft_recycled t ++ (u8_of <$> l)) in
  fd_tight t' /\ opened t' = <[pos := d]> (opened t).
Proof.
  intros [Hn Hh Hl Hs] Hp P. cbn zeta.
  assert (Hin : forall k, k ∈ l <-> length (ft_inner t) <= k < pos).
  { intros k. rewrite P, elem_of_seq. lia. }
  rewrite u8_of_small by (apply Forall_forall; intros k ?%Hin; lia).
  split; [constructor; cbn | by rewrite <- opened_push by lia].
  - apply NoDup_app. split_and!; [done | | rewrite P; apply NoDup_seq].
    intros k Hk%Hh%lookup_lt_Some ?%Hin. lia.
  - intros k. rewrite elem_of_app, Hh, Hin.
    destruct (decide (k < length (ft_inner t))); [| destruct (decide (k < pos))].
    + rewrite lookup_app_l, lookup_resize by (rewrite ?length_resize; lia). naive_solver lia.
    + rewrite lookup_app_l, lookup_resize_new by (rewrite ?length_resize; lia). naive_solver lia.
    + rewrite lookup_app_r, length_resize, (lookup_ge_None_2 (ft_inner t)) by (rewrite ?length_resize; lia).
      split; [naive_solver lia |]. intros E. by apply list_lookup_singleton_Some in E as [_ ?].
  - rewrite length_app, length_resize. cbn. lia.
  - done.
Qed.

Lemma filter_ne_spec t fd :
  fd_tight t -> NoDup (filter (fun k => k <> fd) (ft_recycled t)) /\
  forall k, k ∈ filter (fun k => k <> fd) (ft_recycled t) <-> k ∈ ft_recycled t /\ k <> fd.
Proof.
  intros [Hn _ _ _]. split; [by apply NoDup_filter |]. intros k. rewrite list_elem_of_filter. naive_solver.
Qed.

(** Replacing an open descriptor. *)
Lemma replace_tight t d fd d0 :
  fd_tight t -> ft_inner t !! fd = Some (Some d0) ->
  fd_tight (with_inner t (<[fd := Some d]> (ft_inner t))) /\
  opened (with_inner t (<[fd := Some d]> (ft_inner t))) = <[fd := d]> (opened t).
Proof.
  intros [Hn Hh Hl Hs] E. pose proof (lookup_lt_Some _ _ _ E). split; [| by rewrite opened_set].
  constructor; cbn; [done | | by rewrite length_insert | done].
  intros k. rewrite Hh. destruct (decide (k = fd)) as [-> |].
  - rewrite list_lookup_insert_eq by done. naive_solver.
  - by rewrite list_lookup_insert_ne by done.
Qed.

Lemma ft_insert_at_ok t d pos :
  fd_tight t ->
  exists r t', ft_insert_at t d pos = Some (r, t') /\ fd_tight t' /\ ft_soft_limit t' = ft_soft_limit t /\
    spec_place (opened t) (ft_soft_limit t) pos d r (opened t').
Proof.
  intros T. pose proof T as [Hn Hh Hl Hs]. unfold ft_insert_at, spec_place. case_decide as Hp.
  - destruct (lookup_lt_is_Some_2 _ _ Hp) as [o E]. rewrite E. cbn [mbind option_bind].
    eexists _, _. split; [done |]. rewrite decide_True by lia. destruct o as [d0 |].
    + destruct (replace_tight t d pos d0 T E) as [T' O']. by split_and!.
    + destruct (filter_ne_spec t pos T) as [Hf1 Hf2].
      destruct (reopen_tight t d pos _ T E Hf1 Hf2) as [T' O']. by split_and!.
  - case_decide as Hq.
    + eexists _, _. split; [done |]. rewrite decide_False by lia. by split_and!.
    + eexists _, _. split; [done |]. rewrite decide_True by lia.
      destruct (extend_tight t d pos (reverse (seq (length (ft_inner t)) (pos - length (ft_inner t)))) T) as [T' O'];
        [lia | by rewrite reverse_Permutation |]. by split_and!.
Qed.

Lemma ft_try_insert_at_ok t d hint :
  fd_tight t -> no_hole_above t hint ->
  exists r t', ft_try_insert_at t d hint = Some (r, t') /\ fd_tight t' /\
    ft_soft_limit t' = ft_soft_limit t /\ spec_insert (opened t) (ft_soft_limit t) hint d r (opened t').
Proof.
  intros T Hno. pose proof T as [Hn Hh Hl Hs]. unfold ft_try_insert_at.
  assert (Hfree : mjoin (ft_inner t !! hint) = None -> least_free (opened t) hint hint).
  { intros E. split_and!; [done | by rewrite opened_lookup | lia]. }
  case_decide as Hq.
  - eexists _, _. split; [done |]. split_and!; [done | done |]. exists hint.
    split; [apply Hfree; by rewrite lookup_ge_None_2 by lia |]. by rewrite decide_False by lia.
  - case_decide as Hp.
    + destruct (lookup_lt_is_Some_2 _ _ Hp) as [o E]. rewrite E. cbn [mbind option_bind]. destruct o as [d0 |].
      * destruct Hno as [Hno | Hno]; [congruence |].
        replace (list_find (fun fd => hint < fd) (ft_recycled t)) with (@None (nat * nat)).
        2: { symmetry. apply list_find_None, Forall_forall. intros k Hk%Hh Hlt. by destruct (Hno k). }
        destruct (ft_push_ok t d hint T) as (r & t' & -> & H); [lia | | by eexists _, _].
        intros k Hk. destruct (decide (k = hint)) as [-> |]; [by rewrite E | apply Hno; lia].
      * eexists _, _. split; [done |]. destruct (filter_ne_spec t hint T) as [Hf1 Hf2].
        destruct (reopen_tight t d hint _ T E Hf1 Hf2) as [T' O']. split_and!; [done | done |].
        exists hint. split; [by apply Hfree; rewrite E |]. by rewrite decide_True by lia.
    + eexists _, _. split; [done |].
      destruct (extend_tight t d hint (seq (length (ft_inner t)) (hint - length (ft_inner t))) T) as [T' O'];
        [lia | done |]. split_and!; [done | done |].
      exists hint. split; [apply Hfree; by rewrite lookup_ge_None_2 by lia |]. by rewrite decide_True by lia.
Qed.

Lemma ft_remove_ok t fd :
  fd_tight t ->
  match opened t !! fd with
  | Some d => exists t', ft_remove t fd = (Ok d, t') /\ fd_tight t' /\
      ft_soft_limit t' = ft_soft_limit t /\ opened t' = delete fd (opened t)
  | None => ft_remove t fd = (Err EBADF, t)
  end.
Proof.
  intros [Hn Hh Hl Hs]. rewrite opened_lookup. unfold ft_remove.
  destruct (ft_inner t !! fd) as [[d |] |] eqn:E; try done. cbn [mjoin option_join]. pose proof (lookup_lt_Some _ _ _ E) as Hlt.
  unfold u8_of. rewrite Nat.mod_small by lia.
  eexists. split; [done |]. split_and!; [constructor; cbn | done |].
  - apply NoDup_app. split_and!; [done | | apply NoDup_singleton].
    intros k Hk%Hh ->%list_elem_of_singleton. congruence.
  - intros k. rewrite elem_of_app, list_elem_of_singleton, Hh. destruct (decide (k = fd)) as [-> |].
    + rewrite list_lookup_insert_eq by done. naive_solver.
    + rewrite list_lookup_insert_ne by done. naive_solver.
  - by rewrite length_insert.
  - done.
  - rewrite <- (opened_set t fd None) by done. by apply opened_ext.
Qed.

Lemma ft_truncate_ok t limit :
  fd_tight t ->
  fd_tight (ft_truncate t limit) /\ length (ft_inner (ft_truncate t limit)) <= limit /\
  ft_soft_limit (ft_truncate t limit) = ft_soft_limit t /\
  opened (ft_truncate t limit) = filter (fun p => p.1 < limit) (opened t).
Proof.
  intros T. pose proof T as [Hn Hh Hl Hs]. unfold ft_truncate. case_decide as H.
  - split_and!; [constructor; cbn | cbn; rewrite length_take; lia | done |].
    + by apply NoDup_filter.
    + intros k. rewrite list_elem_of_filter, Hh. rewrite lookup_take_Some. naive_solver.
    + rewrite length_take. lia.
    + done.
    + apply map_eq. intros k. rewrite opened_lookup. cbn. apply option_eq. intros d.
      rewrite map_lookup_filter_Some, opened_lookup. cbn. destruct (decide (k < limit)).
      * rewrite lookup_take_lt by done. naive_solver.
      * rewrite lookup_take_ge by lia. naive_solver.
  - split_and!; [done | lia | done |]. symmetry. apply map_filter_id. intros k d. rewrite opened_lookup.
    destruct (ft_inner t !! k) eqn:E; [| done]. intros _. apply lookup_lt_Some in E. cbn. lia.
Qed.

Lemma set_nofile_ok t cur max :
  fd_tight t -> cur <= 256 ->
  fd_tight (set_nofile t cur max) /\ ft_soft_limit (set_nofile t cur max) = cur /\
  opened (set_nofile t cur max) = filter (fun p => p.1 < cur /\ p.1 < max) (opened t).
Proof.
  intros T Hc. unfold set_nofile.
  destruct (ft_truncate_ok t cur T) as ([Hn Hh Hl Hs] & Hlen & _ & O1).
  assert (T1 : fd_tight (set_soft_limit t cur)) by (by constructor).
  destruct (ft_truncate_ok _ max T1) as ([Hn2 Hh2 Hl2 Hs2] & _ & Hs3 & O2).
  split_and!; [by constructor | done |].
  rewrite (opened_ext (ft_truncate (set_soft_limit t cur) max)), O2 by done.
  rewrite (opened_ext (ft_truncate t cur)), O1 by done. rewrite map_filter_filter.
  apply map_filter_ext. cbn. naive_solver.
Qed.

Lemma get_ref_opened t fd :
  get_ref t fd = match opened t !! fd with Some d => Ok d | None => Err EBADF end.
Proof. unfold get_ref. rewrite opened_lookup. by destruct (ft_inner t !! fd) as [[] |]. Qed.

Lemma get_refmut_set_ok t fd f :
  fd_tight t ->
  match opened t !! fd with
  | Some d => exists t', get_refmut_set t fd f = (Ok tt, t') /\ fd_tight t' /\
      ft_soft_limit t' = ft_soft_limit t /\ opened t' = <[fd := f d]> (opened t)
  | None => get_refmut_set t fd f = (Err EBADF, t)
  end.
Proof.
  intros T. rewrite opened_lookup. unfold get_refmut_set. destruct (ft_inner t !! fd) as [[d |] |] eqn:E; try done.
  destruct (replace_tight t (f d) fd d T E) as [T' O']. cbn [mjoin option_join]. eexists. by split_and!.
Qed.

(** A call that reads one descriptor and then inserts. *)
Lemma dup_ok t fd (op : FdTable F -> FileDescriptor F -> option (result nat Z * FdTable F))
    (spec : FileDescriptor F -> result nat Z -> gmap nat (FileDescriptor F) -> Prop) :
  fd_tight t ->
  (forall d, exists r t', op t d = Some (r, t') /\ fd_tight t' /\ ft_soft_limit t' = ft_soft_limit t /\ spec d r (opened t')) ->
  exists ret t',
    match get_ref t fd with
    | Ok d => '(r, t) ← op t d; Some (isize_of r, t)
    | Err errno => Some (errno, t)
    end = Some (ret, t') /\ fd_tight t' /\
    on_open (opened t) fd ret (opened t') (fun d => exists r, spec d r (opened t') /\ ret = isize_of r) /\
    ft_soft_limit t' = ft_soft_limit t.
Proof.
  intros T Hop. rewrite get_ref_opened. unfold on_open. destruct (opened t !! fd) as [d |].
  - destruct (Hop d) as (r & t' & -> & T' & Hs & Hsp). eexists _, _. split; [done |]. split_and!; try done.
    by exists r.
  - by eexists _, _.
Qed.

Lemma sys_fcntl_ok t fd cmd arg :
  fd_tight t -> call_ok t (CFcntl fd cmd arg) ->
  exists ret t', sys_fcntl t fd cmd arg = Some (ret, t') /\ fd_tight t' /\
    fcntl_spec (opened t) (ft_soft_limit t) fd (fcntl_command cmd) arg ret (opened t') /\
    ft_soft_limit t' = ft_soft_limit t.
Proof.
  intros T Hok. cbn in Hok. unfold sys_fcntl, fcntl_spec, inserted. destruct (fcntl_command cmd).
  - apply (dup_ok t fd (fun t d => ft_try_insert_at t d arg)
      (fun d => spec_insert (opened t) (ft_soft_limit t) arg d)); [done |]. intros d. by apply ft_try_insert_at_ok.
  - apply (dup_ok t fd (fun t d => ft_try_insert_at t (set_cloexec d true) arg)
      (fun d => spec_insert (opened t) (ft_soft_limit t) arg (set_cloexec d true))); [done |].
    intros d. by apply ft_try_insert_at_ok.
  - rewrite get_ref_opened. unfold on_open. destruct (opened t !! fd); eexists _, _; by split_and!.
  - pose proof (get_refmut_set_ok t fd (fun d => set_cloexec d (Nat.odd arg)) T) as H. unfold on_open.
    destruct (opened t !! fd) as [d |].
    + destruct H as (t' & -> & T' & Hs & O'). eexists _, _. by split_and!.
    + rewrite H. eexists _, _. by split_and!.
  - rewrite get_ref_opened. unfold on_open. destruct (opened t !! fd); eexists _, _; by split_and!.
  - eexists _, _. by split_and!.
Qed.

Lemma run_call_ok t c :
  fd_tight t -> call_ok t c ->
  exists ret t', run_call t c = Some (ret, t') /\ fd_tight t' /\
    call_spec c (opened t) (ft_soft_limit t) ret (opened t') (ft_soft_limit t').
Proof.
  intros T Hok. destruct c as [d | fd | oldfd | oldfd newfd | oldfd newfd flags | fd cmd arg | cur max]; cbn [run_call call_spec].
  - destruct (ft_insert_ok t d T) as (r & t' & E & T' & Hs & Hsp). unfold open_fd. rewrite E.
    eexists _, _. split; [done |]. split_and!; [done | by exists r | done].
  - unfold sys_close, on_open. pose proof (ft_remove_ok t fd T) as H. destruct (opened t !! fd) as [d |].
    + destruct H as (t' & -> & T' & Hs & O'). eexists _, _. by split_and!.
    + rewrite H. eexists _, _. by split_and!.
  - apply (dup_ok t oldfd ft_insert (spec_insert (opened t) (ft_soft_limit t) 0)); [done |]. intros d. by apply ft_insert_ok.
  - apply (dup_ok t oldfd (fun t d => ft_insert_at t (set_cloexec d false) newfd)
      (fun d => spec_place (opened t) (ft_soft_limit t) newfd (set_cloexec d false))); [done |].
    intros d. by apply ft_insert_at_ok.
  - unfold sys_dup3. destruct (decide (_ \/ _)) as [Hbad | Hgood].
    { destruct (decide (oldfd = newfd)); [by eexists _, _ |]. destruct Hbad as [| [Hf1 Hf2]]; [done |].
      rewrite (proj2 (Z.eqb_neq _ _) Hf1), (proj2 (Z.eqb_neq _ _) Hf2). by eexists _, _. }
    pose proof (dup_ok t oldfd (fun t d => ft_insert_at t (set_cloexec d (bool_decide (flags = O_CLOEXEC))) newfd)
      (fun d => spec_place (opened t) (ft_soft_limit t) newfd (set_cloexec d (bool_decide (flags = O_CLOEXEC)))) T
      (fun d => ft_insert_at_ok t _ newfd T)) as H.
    rewrite decide_False by naive_solver. destruct (Z.eqb_spec flags O_CLOEXEC) as [Hf | Hf].
    { by rewrite bool_decide_true in * by done. }
    destruct (Z.eqb_spec flags O_RDONLY) as [Hf2 | Hf2]; [by rewrite bool_decide_false in * by done |].
    destruct Hgood. by right.
  - by apply sys_fcntl_ok.
  - destruct (set_nofile_ok t cur max T Hok) as (T' & Hs & O'). eexists _, _. by split_and!.
Qed.

Lemma ft_new_tight inner :
  Forall is_Some inner -> length inner <= DEFAULT_FD_LIMIT -> fd_tight (ft_new inner).
Proof.
  intros Hi Hl. constructor; cbn; [constructor | | done | unfold DEFAULT_FD_LIMIT; lia].
  intros fd. split; [by intros ?%elem_of_nil |]. intros E. by destruct (Forall_lookup_1 _ _ _ _ Hi E).
Qed.

(** ** Sequences of calls *)

Fixpoint run_calls t (cs : list fd_call) : option (list Z * FdTable F) :=
  match cs with
  | [] => Some ([], t)
  | c :: cs => '(ret, t) ← run_call t c; '(rets, t) ← run_calls t cs; Some (ret :: rets, t)
  end.

Inductive spec_calls : gmap nat (FileDescriptor F) -> nat -> list fd_call -> list Z ->
    gmap nat (FileDescriptor F) -> nat -> Prop :=
| sc_nil m soft : spec_calls m soft [] [] m soft
| sc_cons m soft c cs ret rets m1 soft1 m2 soft2 :
    call_spec c m soft ret m1 soft1 -> spec_calls m1 soft1 cs rets m2 soft2 ->
    spec_calls m soft (c :: cs) (ret :: rets) m2 soft2.

Fixpoint calls_ok t (cs : list fd_call) : Prop :=
  match cs with
  | [] => True
  | c :: cs => call_ok t c /\ forall ret t', run_call t c = Some (ret, t') -> calls_ok t' cs
  end.

Lemma run_calls_ok cs : forall t,
  fd_tight t -> calls_ok t cs ->
  exists rets t', run_calls t cs = Some (rets, t') /\ fd_tight t' /\
    spec_calls (opened t) (ft_soft_limit t) cs rets (opened t') (ft_soft_limit t').
Proof.
  induction cs as [| c cs IH]; intros t T Hok.
  - eexists _, _. split_and!; [done | done | constructor].
  - destruct Hok as [Hc Hcs]. destruct (run_call_ok t c T Hc) as (ret & t1 & E & T1 & H1).
    destruct (IH t1 T1 (Hcs _ _ E)) as (rets & t2 & E2 & T2 & H2).
    eexists _, _. cbn. rewrite E. cbn. rewrite E2. split_and!; [done | done | by econstructor].
Qed.

(** C18: The descriptor table refines a finite map. Any sequence of opens, closes,
    [dup], [dup2], [dup3], [fcntl] and limit changes from a fresh table runs
    without a panic and returns what the map says: a new descriptor gets the
    lowest free number below the soft limit or [EMFILE], [dup2] and [dup3] the
    number asked for, an unused number is [EBADF], and no other descriptor
    changes. Two kinds of calls are not covered, because the code then departs from
    the map: a soft limit above 256, and [F_DUPFD] with a number that is not a
    closed one and has a closed one above it (see
    [dupfd_number_handed_out_twice]). *)
Theorem fd_table_refines_map inner cs :
  Forall is_Some inner -> length inner <= DEFAULT_FD_LIMIT -> calls_ok (ft_new inner) cs ->
  exists rets t, run_calls (ft_new inner) cs = Some (rets, t) /\
    spec_calls (opened (ft_new inner)) DEFAULT_FD_LIMIT cs rets (opened t) (ft_soft_limit t).
Proof.
  intros Hi Hl Hok. destruct (run_calls_ok cs _ (ft_new_tight _ Hi Hl) Hok) as (rets & t & E & _ & H).
  by exists rets, t.
Qed.

(** [F_DUPFD] on an open number with closed ones above takes the first of them
    in the order they were closed, not the lowest, and leaves it in [recycled]:
    when it is the lowest closed number, the next open returns the same number and
    replaces the descriptor. *)
Theorem dupfd_number_handed_out_twice t d d' hint fd rest :
  fd_tight t -> hint < ft_soft_limit t -> is_Some (opened t !! hint) ->
  ft_recycled t = fd :: rest -> hint < fd -> Forall (fun k => fd <= k) rest ->
  exists t1 t2, ft_try_insert_at t d hint = Some (Ok fd, t1) /\ opened t1 !! fd = Some d /\
    ft_insert t1 d' = Some (Ok fd, t2) /\ opened t2 !! fd = Some d'.
Proof.
  intros [Hn Hh Hl Hs] Hhs [d0 Hd0] Hr Hlt Hle. unfold ft_try_insert_at. rewrite opened_lookup in Hd0.
  assert (E : ft_inner t !! hint = Some (Some d0)) by (by destruct (ft_inner t !! hint) as [[] |]; simplify_eq/=).
  assert (Hfd : fd < length (ft_inner t)) by (apply (lookup_lt_Some _ _ None), Hh; rewrite Hr; by left).
  rewrite decide_False, decide_True, E by (lia || by eapply lookup_lt_Some). cbn [mbind option_bind].
  rewrite Hr. cbn [list_find]. rewrite decide_True, index_set_lt by done. cbn [mbind option_bind].
  set (t1 := with_inner _ _). exists t1.
  assert (O1 : opened t1 !! fd = Some d) by (unfold t1; rewrite opened_set by done; by simplify_map_eq).
  unfold ft_insert.
  pose proof (find_min_spec t1 Hn) as M.
  destruct (find_min t1) as [[x |] t2]; [| destruct M as [_ M]; cbn in M; congruence].
  destruct M as (l & -> & _ & Hx & Hmin & _). cbn in Hx, Hmin. rewrite Hr in Hx, Hmin.
  assert (x = fd) as ->.
  { apply elem_of_cons in Hx as [-> | Hx]; [done |]. rewrite Forall_forall in Hle.
    pose proof (Hle _ Hx). pose proof (Hmin fd ltac:(by left)). lia. }
  rewrite index_set_lt by (cbn; by rewrite length_insert). cbn [mbind option_bind].
  eexists. split_and!; [done | done | done |]. rewrite opened_lookup. cbn. by rewrite list_lookup_insert_eq by (by rewrite length_insert).
Qed.

(** C36: Closed numbers are kept as bytes: with a soft limit above 256 (which
    [setrlimit] and [prlimit] accept), closing [fd >= 256] when nothing else is
    recycled makes the next open take [fd mod 256] from whoever has it. *)
Theorem close_above_255_frees_a_live_number t fd d d0 d' :
  ft_recycled t = [] -> opened t !! fd = Some d0 -> 256 <= fd -> opened t !! u8_of fd = Some d ->
  exists t1 t2, sys_close t fd = (SUCCESS, t1) /\ opened t1 !! u8_of fd = Some d /\
    ft_insert t1 d' = Some (Ok (u8_of fd), t2) /\ opened t2 !! u8_of fd = Some d'.
Proof.
  intros Hr Hfd Hge Hd. unfold sys_close, ft_remove. rewrite opened_lookup in Hfd, Hd.
  pose proof (Nat.mod_upper_bound fd 256 ltac:(done)) as Hub. fold (u8_of fd) in Hub.
  destruct (ft_inner t !! fd) as [[x |] |] eqn:E; simplify_eq/=.
  pose proof (lookup_lt_Some _ _ _ E) as Hlt. eexists. eexists. split; [done |].
  rewrite opened_lookup. cbn [ft_inner with_recycled with_inner]. rewrite list_lookup_insert_ne by lia.
  split; [done |]. rewrite Hr. unfold ft_insert, find_min. cbn [ft_recycled with_recycled app list_min foldl list_find].
  rewrite decide_True by done. rewrite index_set_lt by (cbn; rewrite length_insert; lia).
  cbn [mbind option_bind]. split; [done |]. rewrite opened_lookup. cbn.
  by rewrite list_lookup_insert_eq by (rewrite length_insert; lia).
Qed.

(** [exec] closes the descriptors marked close-on-exec and no others, but
    does not recycle their numbers: the next open returns what it would have
    returned before, so a table full of such descriptors stays full. *)
Theorem exec_leaks_numbers t d :
  opened (close_on_exec t) = filter (fun p => fd_cloexec p.2 = false) (opened t) /\
  (fst <$> ft_insert (close_on_exec t) d) = (fst <$> ft_insert t d).
Proof.
  split.
  - apply map_eq. intros k. rewrite opened_lookup. cbn. rewrite list_lookup_fmap. apply option_eq. intros x.
    rewrite map_lookup_filter_Some, opened_lookup. destruct (ft_inner t !! k) as [[y |] |]; cbn; [| naive_solver ..].
    destruct (fd_cloexec y) eqn:E; naive_solver congruence.
  - unfold ft_insert, find_min. cbn [close_on_exec ft_recycled with_inner].
    destruct (list_min (ft_recycled t)) as [x |]; [destruct (list_find _ _) as [[i y] |] |];
      cbn [with_recycled ft_inner]; unfold index_set, ft_push; cbn; rewrite ?length_fmap; by case_decide.
Qed.
End Spec.

(** ** Examples *)

Definition demo_fd (f : nat) : FileDescriptor nat := mkFd false false f.
Definition demo_std : list (option (FileDescriptor nat)) := Some <$> (demo_fd <$> [100; 101; 102]).
Definition demo_calls : list (@fd_call nat) :=
  [COpen (demo_fd 7); CClose 1; CDup 3; CDup2 0 5; CFcntl 2 0 4; CClose 9].

Ltac step_calls :=
  repeat (split; [first [exact I | by right; intros [| [| [| [| [| [| ?]]]]]] ? | by left] |];
          let E := fresh in intros ? ? E; vm_compute in E; injection E as <- <-).

Lemma fd_table_refines_map_witness :
  run_calls (ft_new demo_std) demo_calls = Some ([3; 0; 1; 5; 4; -9]%Z, 
    mkFdTable [Some (demo_fd 100); Some (demo_fd 7); Some (demo_fd 102); Some (demo_fd 7);
               Some (demo_fd 102); Some (demo_fd 100)] [] 128 256) /\
  exists rets t, run_calls (ft_new demo_std) demo_calls = Some (rets, t) /\
    spec_calls (opened (ft_new demo_std)) DEFAULT_FD_LIMIT demo_calls rets (opened t) (ft_soft_limit t).
Proof.
  split; [vm_compute; reflexivity |].
  apply fd_table_refines_map.
  - repeat constructor; eexists; reflexivity.
  - vm_compute. lia.
  - step_calls. exact I.
Defined.

Definition demo_holes : FdTable nat :=
  mkFdTable [Some (demo_fd 100); None; None; Some (demo_fd 103)] [1; 2] 128 256.

Lemma demo_holes_tight : fd_tight demo_holes.
Proof.
  constructor.
  - vm_compute. repeat constructor; set_solver.
  - intros fd. cbn [demo_holes ft_recycled ft_inner]. rewrite !elem_of_cons.
    destruct fd as [| [| [| [| fd]]]]; cbn; split; intros H; try discriminate H; try reflexivity;
      repeat (destruct H as [H | H]; [lia |]); by (apply elem_of_nil in H || (by left) || (by right; left)).
  - vm_compute. lia.
  - vm_compute. lia.
Qed.

Lemma dupfd_number_handed_out_twice_witness :
  exists t1 t2, ft_try_insert_at demo_holes (demo_fd 100) 0 = Some (Ok 1, t1) /\
    opened t1 !! 1 = Some (demo_fd 100) /\
    ft_insert t1 (demo_fd 5) = Some (Ok 1, t2) /\ opened t2 !! 1 = Some (demo_fd 5).
Proof.
  apply (dupfd_number_handed_out_twice demo_holes (demo_fd 100) (demo_fd 5) 0 1 [2]).
  - exact demo_holes_tight.
  - vm_compute. lia.
  - eexists. vm_compute. reflexivity.
  - reflexivity.
  - lia.
  - repeat constructor.
Defined.

Definition demo_big : FdTable nat := mkFdTable (replicate 300 (Some (demo_fd 1))) [] 1024 1024.

Lemma close_above_255_frees_a_live_number_witness :
  exists t1 t2, sys_close demo_big 259 = (SUCCESS, t1) /\ opened t1 !! 3 = Some (demo_fd 1) /\
    ft_insert t1 (demo_fd 2) = Some (Ok 3, t2) /\ opened t2 !! 3 = Some (demo_fd 2).
Proof.
  apply (close_above_255_frees_a_live_number _ 259 (demo_fd 1) (demo_fd 1) (demo_fd 2)).
  - reflexivity.
  - vm_compute. reflexivity.
  - lia.
  - vm_compute. reflexivity.
Defined.
