(* ===== verification/BlockCache.v ===== *)
(** * Block cache

    [BufferCache] and [BlockCacheManager] of [fs/cache.rs]: a small pool of block
    buffers in front of a device, written back when they are evicted. A buffer
    handed out is pinned until its handle is dropped ([Arc::strong_count]): the
    pool holds one reference, and [bc_refs] counts the handles beyond it. The file
    systems read and write blocks through [BlockStore]; the
    cache over a device is its instance. *)

From S2P Require Import Prelude Address Phys Block.
#[local] Open Scope kernel_scope.

Definition PRIORITY_UPPERBOUND : Z := 1.
Definition BUFFER_SIZE : Z := BLOCK_SZ.
Definition PAGE_BUFFERS : Z := 4096 / BUFFER_SIZE.
Definition BUFFER_CACHE_NUM : Z := 16.
(** [BLOCK_SZ / 512] has three trailing zeros. *)
Definition CACHEPOOLSIZE : Z := Z.shiftr BUFFER_CACHE_NUM 3.
Definition CACHEPOOLPAGE : Z := if 1 <? Z.shiftr CACHEPOOLSIZE 3 then Z.shiftr CACHEPOOLSIZE 3 else 1.

Record BufferCache := mkBuf {
  bc_priority : Z; bc_block_id : Z; bc_dirty : bool; bc_buffer : list Z; bc_refs : Z
}.

(** [read] and [modify] at an offset, for a value of [n] bytes; outside the
    buffer they are undefined. *)
Definition buf_read (b : BufferCache) (offset n : Z) : option (list Z) :=
  slice (bc_buffer b) offset (offset + n).
Definition buf_modify (b : BufferCache) (offset : Z) (bs : list Z) : option BufferCache :=
  buffer ← copy_slice (bc_buffer b) offset (offset + vlen bs) bs;
  Some (mkBuf (bc_priority b) (bc_block_id b) true buffer (bc_refs b)).

Definition buf_new (buffer : list Z) : BufferCache := mkBuf 0 usize_max false buffer 0.

Definition buf_clone (b : BufferCache) : BufferCache :=
  mkBuf (bc_priority b) (bc_block_id b) (bc_dirty b) (bc_buffer b) (bc_refs b + 1).
Definition buf_drop (b : BufferCache) : BufferCache :=
  mkBuf (bc_priority b) (bc_block_id b) (bc_dirty b) (bc_buffer b) (bc_refs b - 1).
Definition buf_touch (b : BufferCache) : BufferCache :=
  if bc_priority b <? PRIORITY_UPPERBOUND
  then mkBuf (bc_priority b + 1) (bc_block_id b) (bc_dirty b) (bc_buffer b) (bc_refs b) else b.

Section Manager.
Context {D : Type} `{!BlockDevice D}.

Definition buf_read_block (b : BufferCache) (block_id : Z) (d : D) : option BufferCache :=
  buffer ← read_block d block_id (vlen (bc_buffer b));
  Some (mkBuf (bc_priority b) block_id (bc_dirty b) buffer (bc_refs b)).

(** The body of the loop of [oom]. *)
Definition oom_one (b : BufferCache) (d : D) : option (BufferCache * D) :=
  if 0 <? bc_refs b then Some (b, d)
  else if 0 <? bc_priority b then
    Some (mkBuf (bc_priority b - 1) (bc_block_id b) (bc_dirty b) (bc_buffer b) (bc_refs b), d)
  else
    d ← (if bc_dirty b then write_block d (bc_block_id b) (bc_buffer b) else Some d);
    Some (mkBuf (bc_priority b) usize_max false (bc_buffer b) (bc_refs b), d).
Fixpoint bm_oom (pool : list BufferCache) (d : D) : option (list BufferCache * D) :=
  match pool with
  | [] => Some ([], d)
  | b :: pool =>
      '(b, d) ← oom_one b d;
      '(pool, d) ← bm_oom pool d;
      Some (b :: pool, d)
  end.

(** [loop] of [alloc_buffer_cache]; [fuel] is the number of calls of [oom]. *)
Fixpoint alloc_buffer_cache (fuel : nat) (pool : list BufferCache) (d : D)
    : option (nat * list BufferCache * D) :=
  match list_find (fun b => bc_block_id b = usize_max) pool with
  | Some (i, b) => Some (i, <[i := buf_clone b]> pool, d)
  | None =>
      match fuel with
      | O => None
      | S fuel => '(pool, d) ← bm_oom pool d; alloc_buffer_cache fuel pool d
      end
  end.

(** One buffer per slot of the pages that were allocated for the pool. *)
Definition bm_new (pages : list (list Z)) : list BufferCache := buf_new <$> pages.

Definition try_get_block_cache (pool : list BufferCache) (block_id : Z) : option (nat * list BufferCache) :=
  '(i, b) ← list_find (fun b => bc_block_id b = block_id) pool;
  Some (i, <[i := buf_clone (buf_touch b)]> pool).

Definition get_block_cache (fuel : nat) (pool : list BufferCache) (d : D) (block_id : Z)
    : option (nat * list BufferCache * D) :=
  match try_get_block_cache pool block_id with
  | Some (i, pool) => Some (i, pool, d)
  | None =>
      '(i, pool, d) ← alloc_buffer_cache fuel pool d;
      b ← pool !! i;
      b ← buf_read_block b block_id d;
      Some (i, <[i := buf_touch b]> pool, d)
  end.

(** [get_block_cache(id, dev).lock().read(offset, f)] and [.modify(offset, f)]:
    the handle is dropped at the end of the statement. *)
Definition cache_read (fuel : nat) (s : list BufferCache * D) (block_id offset n : Z)
    : option (list Z * (list BufferCache * D)) :=
  '(i, pool, d) ← get_block_cache fuel s.1 s.2 block_id;
  b ← pool !! i;
  bs ← buf_read b offset n;
  Some (bs, (<[i := buf_drop b]> pool, d)).
Definition cache_modify (fuel : nat) (s : list BufferCache * D) (block_id offset : Z) (bs : list Z)
    : option (list BufferCache * D) :=
  '(i, pool, d) ← get_block_cache fuel s.1 s.2 block_id;
  b ← pool !! i;
  b ← buf_modify b offset bs;
  Some (<[i := buf_drop b]> pool, d).
End Manager.

(** ** Blocks as the file systems see them *)

Class BlockStore (S : Type) := {
  st_read : S -> Z -> Z -> Z -> option (list Z * S);
  st_write : S -> Z -> Z -> list Z -> option S
}.

(** [bs] stored at [off] of a block. *)
Definition splice (block : list Z) (off : Z) (bs : list Z) : list Z :=
  take (Z.to_nat off) block ++ bs ++ drop (Z.to_nat (off + vlen bs)) block.

Class BlockStoreSpec (S : Type) `{!BlockStore S} := {
  st_inv : S -> Prop;
  st_size : S -> Z;
  st_block : S -> Z -> list Z;
  st_block_ok s b : st_inv s -> 0 <= b < st_size s -> vlen (st_block s b) = BUFFER_SIZE /\ bytes (st_block s b);
  st_read_spec s b off n :
    st_inv s -> 0 <= b < st_size s -> 0 <= off -> 0 <= n -> off + n <= BUFFER_SIZE ->
    exists s', st_read s b off n = Some (take (Z.to_nat n) (drop (Z.to_nat off) (st_block s b)), s') /\
      st_inv s' /\ st_size s' = st_size s /\ forall k, 0 <= k < st_size s -> st_block s' k = st_block s k;
  st_write_spec s b off bs :
    st_inv s -> 0 <= b < st_size s -> 0 <= off -> bytes bs -> off + vlen bs <= BUFFER_SIZE ->
    exists s', st_write s b off bs = Some s' /\ st_inv s' /\ st_size s' = st_size s /\
      forall k, 0 <= k < st_size s ->
        st_block s' k = if decide (k = b) then splice (st_block s b) off bs else st_block s k
}.

(** ** The cache is transparent *)

Section Transparent.
Context {D : Type} `{!BlockDevice D} `{!BlockDeviceSpec D}.
Implicit Types (pool : list BufferCache) (d : D) (b : BufferCache).

Definition disk_block d (id : Z) : list Z := (fun k => bd_byte d (id * BLOCK_SZ + k)) <$> seqZ 0 BUFFER_SIZE.

Record buf_ok d b : Prop := {
  bo_len : vlen (bc_buffer b) = BUFFER_SIZE;
  bo_bytes : bytes (bc_buffer b);
  bo_prio : 0 <= bc_priority b <= PRIORITY_UPPERBOUND;
  bo_refs : 0 <= bc_refs b;
  bo_id : bc_block_id b = usize_max /\ bc_dirty b = false \/
          0 <= bc_block_id b < usize_max /\ (bc_block_id b + 1) * BLOCK_SZ <= bd_size d /\
          (bc_dirty b = false -> bc_buffer b = disk_block d (bc_block_id b))
}.

(** No block is in two buffers. *)
Definition ids_distinct pool : Prop :=
  forall i j bi bj, pool !! i = Some bi -> pool !! j = Some bj ->
    bc_block_id bi = bc_block_id bj -> bc_block_id bi <> usize_max -> i = j.

Record bm_inv pool d : Prop := {
  bm_dev : bd_inv d;
  bm_bufs : Forall (buf_ok d) pool;
  bm_ids : ids_distinct pool
}.

(** The contents of a block: those of its buffer, or those on the disk. *)
Definition logical pool d (id : Z) : list Z :=
  match list_find (fun b => bc_block_id b = id) pool with
  | Some (_, b) => bc_buffer b
  | None => disk_block d id
  end.

Definition on_disk d (id : Z) : Prop := 0 <= id < usize_max /\ (id + 1) * BLOCK_SZ <= bd_size d.

Lemma logical_cached pool d i b :
  ids_distinct pool -> pool !! i = Some b -> bc_block_id b <> usize_max ->
  logical pool d (bc_block_id b) = bc_buffer b.
Proof.
  intros Hd Hi Hne. unfold logical. destruct (list_find _ pool) as [[j bj] |] eqn:E.
  - apply list_find_Some in E as (Hj & Hid & _).
    assert (j = i) as -> by (by apply (Hd j i bj b); rewrite ?Hid). congruence.
  - apply list_find_None in E. by destruct (Forall_lookup_1 _ _ _ _ E Hi).
Qed.

Lemma logical_uncached pool d id :
  (forall i b, pool !! i = Some b -> bc_block_id b <> id) -> logical pool d id = disk_block d id.
Proof.
  intros H. unfold logical. destruct (list_find _ pool) as [[j bj] |] eqn:E; [| done].
  apply list_find_Some in E as (Hj & Hid & _). by destruct (H j bj).
Qed.

Lemma cached_or_not pool id :
  (exists i b, pool !! i = Some b /\ bc_block_id b = id) \/
  (forall i b, pool !! i = Some b -> bc_block_id b <> id).
Proof.
  destruct (list_find (fun b => bc_block_id b = id) pool) as [[i b] |] eqn:E.
  - apply list_find_Some in E as (Hi & Hid & _). left. by exists i, b.
  - apply list_find_None in E. right. intros i b Hi. by apply (Forall_lookup_1 _ _ _ _ E Hi).
Qed.

Lemma read_disk_block d id : bd_inv d -> on_disk d id -> read_block d id BUFFER_SIZE = Some (disk_block d id).
Proof. intros Hi [[H0 _] H1]. apply bd_read_spec; unfold BUFFER_SIZE, BLOCK_SZ in *; (done || lia). Qed.

Lemma disk_block_ok d id : bd_inv d -> vlen (disk_block d id) = BUFFER_SIZE /\ bytes (disk_block d id).
Proof.
  intros Hi. unfold disk_block. split; [unfold vlen; by rewrite length_fmap, length_seqZ |].
  apply Forall_fmap, Forall_true. intros k. by apply bd_byte_fits.
Qed.

Lemma write_disk_block d id bs :
  bd_inv d -> on_disk d id -> vlen bs = BUFFER_SIZE -> bytes bs ->
  exists d', write_block d id bs = Some d' /\ bd_inv d' /\ bd_size d' = bd_size d /\
    forall k, disk_block d' k = if decide (k = id) then bs else disk_block d k.
Proof.
  intros Hi [[H0 _] H1] Hl Hb.
  destruct (bd_write_spec d id bs) as (d' & E & Hi' & Hs & Hby);
    [done | done | by rewrite Hl | by rewrite Hl | done | rewrite Hl; unfold BUFFER_SIZE, BLOCK_SZ in *; lia |].
  unfold BUFFER_SIZE, BLOCK_SZ in *. exists d'. split_and!; [done | done | done |]. intros k. unfold disk_block, BUFFER_SIZE, BLOCK_SZ.
  apply list_eq. intros j. rewrite list_lookup_fmap. pose proof Hl as Hl'. unfold vlen in Hl'.
  destruct (decide (j < 4096)%nat) as [Hj | Hj].
  - rewrite lookup_seqZ_lt by lia. cbn. rewrite Hby, Hl. unfold BLOCK_SZ. destruct (decide (k = id)) as [-> | Hk].
    + rewrite decide_True by lia.
      destruct (lookup_lt_is_Some_2 bs j) as [x Ex]; [lia |].
      replace (Z.to_nat (id * 4096 + (0 + Z.of_nat j) - id * 4096)) with j by lia. by rewrite Ex.
    + rewrite decide_False by lia. rewrite list_lookup_fmap, lookup_seqZ_lt by lia. done.
  - rewrite lookup_seqZ_ge by lia. case_decide; [by rewrite lookup_ge_None_2 by lia |].
    by rewrite list_lookup_fmap, lookup_seqZ_ge by lia.
Qed.

(** Replacing one buffer, and what is on the disk of its block. *)
Lemma bm_replace pool d i b b' d' :
  bm_inv pool d -> pool !! i = Some b -> bd_inv d' -> bd_size d' = bd_size d -> buf_ok d' b' ->
  (forall j bj, pool !! j = Some bj -> bc_block_id bj = bc_block_id b' -> bc_block_id b' <> usize_max -> j = i) ->
  (forall id, id <> bc_block_id b -> disk_block d' id = disk_block d id) ->
  bm_inv (<[i := b']> pool) d' /\
  forall id, id <> bc_block_id b -> id <> bc_block_id b' -> id <> usize_max ->
    logical (<[i := b']> pool) d' id = logical pool d id.
Proof.
  intros [Hd Hb Hu] Hi Hd' Hs Hok Hother Hdisk. pose proof (lookup_lt_Some _ _ _ Hi) as Hlt.
  assert (Hget : forall j bj, <[i := b']> pool !! j = Some bj -> j = i /\ bj = b' \/ j <> i /\ pool !! j = Some bj).
  { intros j bj. destruct (decide (j = i)) as [-> |].
    - rewrite list_lookup_insert_eq by done. naive_solver.
    - rewrite list_lookup_insert_ne by done. naive_solver. }
  assert (I : ids_distinct (<[i := b']> pool)).
  { intros j k bj bk [[-> ->] | [Hj Hbj]]%Hget [[-> ->] | [Hk Hbk]]%Hget E Hne; [done | | | by eapply Hu].
    - symmetry. by apply (Hother k bk).
    - apply (Hother j bj); [done | done |]. by rewrite <- E. }
  split; [constructor; [done | | done] |].
  - apply Forall_lookup. intros j bj [[-> ->] | [Hj Hbj]]%Hget; [done |].
    destruct (Forall_lookup_1 _ _ _ _ Hb Hbj) as [? ? ? ? [Hid | (Hid1 & Hid2 & Hid3)]]; constructor; try done; [by left |].
    right. rewrite Hs. split_and!; [lia | lia | done |]. intros Hc. rewrite Hdisk; [by apply Hid3 |].
    intros E. apply Hj. apply (Hu j i bj b); [done | done | done | lia].
  - intros id H1 H2 H3. destruct (cached_or_not pool id) as [(j & bj & Hj & <-) | Hno].
    + assert (j <> i) by congruence.
      rewrite (logical_cached _ _ j bj), (logical_cached pool _ j bj); try done.
      by rewrite list_lookup_insert_ne.
    + rewrite (logical_uncached pool) by done. rewrite logical_uncached; [by apply Hdisk |].
      intros j bj [[-> ->] | [Hj Hbj]]%Hget; [done | by apply (Hno j)].
Qed.

(** Two buffers that hold the same bytes of the same block. *)
Definition same_data b b' : Prop :=
  bc_block_id b' = bc_block_id b /\ bc_dirty b' = bc_dirty b /\ bc_buffer b' = bc_buffer b.

Lemma bm_same_data pool d i b b' :
  bm_inv pool d -> pool !! i = Some b -> same_data b b' ->
  0 <= bc_priority b' <= PRIORITY_UPPERBOUND -> 0 <= bc_refs b' ->
  bm_inv (<[i := b']> pool) d /\ forall id, id <> usize_max -> logical (<[i := b']> pool) d id = logical pool d id.
Proof.
  intros I Hi (Hid & Hdt & Hbf) Hp Hr. pose proof I as [Hd Hb Hu].
  assert (Hok : buf_ok d b').
  { destruct (Forall_lookup_1 _ _ _ _ Hb Hi) as [? ? ? ? Hx]. constructor; rewrite ?Hid, ?Hdt, ?Hbf; done. }
  destruct (bm_replace pool d i b b' d I Hi Hd) as [I' L']; [done | done | | done |].
  { intros j bj Hj E Hne. apply (Hu j i bj b); congruence. }
  split; [done |]. intros id Hne. destruct (decide (id = bc_block_id b)) as [-> |]; [| apply L'; congruence].
  rewrite <- Hid at 1. rewrite (logical_cached _ _ i b'), (logical_cached pool _ i b), Hbf; try done.
  - by apply I'.
  - apply list_lookup_insert_eq. by eapply lookup_lt_Some.
  - congruence.
Qed.

(** ** [oom] *)

(** What one round does to a buffer: an unused one loses priority, and with none
    left it is emptied. *)
Definition aged b b' : Prop :=
  bc_refs b' = bc_refs b /\ (bc_block_id b' = bc_block_id b \/ bc_block_id b' = usize_max) /\
  (bc_refs b = 0 -> bc_block_id b <> usize_max ->
   if 0 <? bc_priority b then bc_priority b' = bc_priority b - 1 /\ bc_block_id b' = bc_block_id b
   else bc_block_id b' = usize_max).

Lemma oom_one_ok pool d i b :
  bm_inv pool d -> pool !! i = Some b ->
  exists b' d', oom_one b d = Some (b', d') /\ bm_inv (<[i := b']> pool) d' /\ bd_size d' = bd_size d /\
    aged b b' /\ forall id, id <> usize_max -> logical (<[i := b']> pool) d' id = logical pool d id.
Proof.
  intros I Hi. pose proof I as [Hd Hb Hu]. destruct (Forall_lookup_1 _ _ _ _ Hb Hi) as [Hl Hby Hp Hr Hid].
  unfold oom_one, aged. destruct (Z.ltb_spec 0 (bc_refs b)).
  { exists b, d. rewrite list_insert_id by done. split_and!; try done; [by left | lia]. }
  destruct (Z.ltb_spec 0 (bc_priority b)).
  { destruct (bm_same_data pool d i b
      (mkBuf (bc_priority b - 1) (bc_block_id b) (bc_dirty b) (bc_buffer b) (bc_refs b)) I Hi) as [I' L'];
      [by split_and! | cbn; lia | done |]. eexists _, _. split_and!; try done. by left. }
  assert (Hw : exists d', (if bc_dirty b then write_block d (bc_block_id b) (bc_buffer b) else Some d) = Some d' /\
    bd_inv d' /\ bd_size d' = bd_size d /\ (forall k, k <> bc_block_id b -> disk_block d' k = disk_block d k) /\
    (bc_block_id b <> usize_max -> disk_block d' (bc_block_id b) = bc_buffer b)).
  { destruct Hid as [[Hm Hc] | (Hv & Hs & Hc)].
    - exists d. rewrite Hc. by split_and!.
    - destruct (bc_dirty b).
      + destruct (write_disk_block d (bc_block_id b) (bc_buffer b)) as (d' & E & Hi' & Hs' & HB); [done.. |].
        exists d'. split_and!; [done.. | |]; intros; rewrite HB; [by rewrite decide_False | by rewrite decide_True].
      + exists d. split_and!; try done. intros _. by rewrite Hc. }
  destruct Hw as (d' & -> & Hd' & Hs' & Hoth & Hself). cbn [mbind option_bind].
  destruct (bm_replace pool d i b (mkBuf (bc_priority b) usize_max false (bc_buffer b) (bc_refs b)) d' I Hi)
    as [I' L']; [done | done | | done | done |]. { constructor; try done. by left. }
  eexists _, _. split_and!; [done | done | done | done | by right | done |].
  intros id Hne. destruct (decide (id = bc_block_id b)) as [-> |]; [| by apply L'].
  rewrite (logical_cached pool _ i b), <- Hself by done. apply logical_uncached.
  intros j bj Hj. destruct (decide (j = i)) as [-> |].
  - rewrite list_lookup_insert_eq in Hj by (by eapply lookup_lt_Some). injection Hj as <-. cbn. congruence.
  - rewrite list_lookup_insert_ne in Hj by done. intros E.
    assert (j = i); [| done]. apply (Hu j i bj b); congruence.
Qed.

Lemma bm_oom_ok todo : forall done_ d,
  bm_inv (done_ ++ todo) d ->
  exists todo' d', bm_oom todo d = Some (todo', d') /\ bm_inv (done_ ++ todo') d' /\ bd_size d' = bd_size d /\
    Forall2 aged todo todo' /\
    forall id, id <> usize_max -> logical (done_ ++ todo') d' id = logical (done_ ++ todo) d id.
Proof.
  induction todo as [| b todo IH]; intros done_ d I; cbn [bm_oom].
  { exists [], d. by split_and!. }
  destruct (oom_one_ok (done_ ++ b :: todo) d (length done_) b I) as (b' & d1 & -> & I1 & Hs1 & A1 & L1).
  { by apply list_lookup_middle. }
  rewrite insert_app_r_alt, Nat.sub_diag in I1, L1 by lia. cbn in I1, L1. cbn [mbind option_bind].
  destruct (IH (done_ ++ [b']) d1) as (todo' & d2 & -> & I2 & Hs2 & A2 & L2); [by rewrite <- app_assoc |].
  rewrite <- !app_assoc in *. cbn in *. exists (b' :: todo'), d2. split_and!; [done | done | congruence | by constructor |].
  intros id Hne. by rewrite L2, L1.
Qed.

(** ** Getting a buffer *)

Definition refs pool : list Z := bc_refs <$> pool.

Lemma aged_refs pool pool' : Forall2 aged pool pool' -> refs pool' = refs pool.
Proof. unfold refs. induction 1 as [| b b' pool pool' [Hr _] _ IH]; [done |]. cbn. by rewrite Hr, IH. Qed.

Definition uncached pool id : Prop := forall i b, pool !! i = Some b -> bc_block_id b <> id.

Lemma aged_uncached pool pool' id : Forall2 aged pool pool' -> id <> usize_max -> uncached pool id -> uncached pool' id.
Proof.
  intros H Hne Hu i b' Hi. destruct (Forall2_lookup_r _ _ _ _ _ H Hi) as (b & Hb & _ & [E | E] & _); rewrite E; [| done].
  by apply (Hu i).
Qed.

(** A buffer nobody holds, that is free or will be after [n] rounds. *)
Definition evictable (n : nat) pool : Prop :=
  exists i b, pool !! i = Some b /\ bc_refs b = 0 /\ (bc_block_id b = usize_max \/ bc_priority b < Z.of_nat n).

Lemma aged_evictable n pool pool' :
  Forall2 aged pool pool' -> Forall (fun b => bc_block_id b <> usize_max) pool ->
  evictable (S n) pool -> evictable n pool'.
Proof.
  intros H Hno (i & b & Hi & Hr & Hb). destruct (Forall2_lookup_l _ _ _ _ _ H Hi) as (b' & Hi' & Hr' & _ & Ha).
  pose proof (Forall_lookup_1 _ _ _ _ Hno Hi) as Hid. specialize (Ha Hr Hid). exists i, b'.
  split_and!; [done | congruence |]. destruct (Z.ltb_spec 0 (bc_priority b)); [| by left].
  destruct Ha as [-> _]. right. destruct Hb as [Hb | Hb]; [done | lia].
Qed.

Lemma alloc_buffer_cache_ok n : forall pool d,
  bm_inv pool d -> evictable n pool ->
  exists i b pool' d', alloc_buffer_cache n pool d = Some (i, pool', d') /\ bm_inv pool' d' /\
    bd_size d' = bd_size d /\ pool' !! i = Some b /\ bc_block_id b = usize_max /\
    refs pool' = <[i := bc_refs b]> (refs pool) /\ refs pool !! i = Some (bc_refs b - 1) /\
    forall id, id <> usize_max ->
      logical pool' d' id = logical pool d id /\ (uncached pool id -> uncached pool' id).
Proof.
  induction n as [| n IH]; intros pool d I He; cbn [alloc_buffer_cache];
    destruct (list_find (fun b => bc_block_id b = usize_max) pool) as [[i b] |] eqn:E.
  1, 3: apply list_find_Some in E as (Hi & Hid & _); pose proof (lookup_lt_Some _ _ _ Hi);
    pose proof (Forall_lookup_1 _ _ _ _ (bm_bufs _ _ I) Hi) as [_ _ Hp Hr _];
    destruct (bm_same_data pool d i b (buf_clone b) I Hi) as [I' L']; [by split_and! | done | cbn; lia |];
    exists i, (buf_clone b); eexists _, _; split_and!; [done | done | done | by rewrite list_lookup_insert_eq | done
      | by unfold refs; rewrite list_fmap_insert
      | unfold refs; rewrite list_lookup_fmap, Hi; cbn; f_equal; lia |];
    intros id Hne; split; [by apply L' |]; intros Hu j bj Hj;
    apply list_lookup_insert_Some in Hj as [(-> & <- & _) | [_ Hj]]; [apply (Hu j b Hi) | by apply (Hu j)].
  - apply list_find_None in E. destruct He as (i & b & Hi & Hr & [Hb | Hb]).
    + by destruct (Forall_lookup_1 _ _ _ _ E Hi).
    + destruct (Forall_lookup_1 _ _ _ _ (bm_bufs _ _ I) Hi). cbn in Hb. lia.
  - apply list_find_None in E. destruct (bm_oom_ok pool [] d I) as (pool1 & d1 & -> & I1 & Hs1 & A1 & L1).
    cbn [mbind option_bind]. destruct (IH pool1 d1 I1) as (i & b & pool2 & d2 & E2 & I2 & Hs2 & Hi & Hid & Hr & Hr' & L2).
    { by eapply aged_evictable. }
    rewrite (aged_refs _ _ A1) in *. exists i, b, pool2, d2. split_and!; try done; [congruence |].
    intros id Hne. destruct (L2 id Hne) as [L2' U2]. split; [rewrite L2'; by apply L1 |].
    intros Hu. apply U2. by eapply aged_uncached.
Qed.

Lemma buf_touch_same b : same_data b (buf_touch b) /\ bc_refs (buf_touch b) = bc_refs b.
Proof. unfold buf_touch. by destruct (_ <? _). Qed.

Lemma buf_touch_prio b :
  0 <= bc_priority b <= PRIORITY_UPPERBOUND -> 0 <= bc_priority (buf_touch b) <= PRIORITY_UPPERBOUND.
Proof. unfold buf_touch. destruct (Z.ltb_spec (bc_priority b) PRIORITY_UPPERBOUND); cbn; lia. Qed.

(** Filling a free buffer with a block that is in no other. *)
Lemma bm_load pool d i b id :
  bm_inv pool d -> pool !! i = Some b -> bc_block_id b = usize_max -> on_disk d id ->
  uncached pool id ->
  exists b', buf_read_block b id d = Some b' /\ bc_refs b' = bc_refs b /\ bc_block_id b' = id /\
    bm_inv (<[i := buf_touch b']> pool) d /\
    forall k, k <> usize_max -> logical (<[i := buf_touch b']> pool) d k = logical pool d k.
Proof.
  intros I Hi Hid Hon Hno. pose proof I as [Hd Hb Hu]. pose proof (lookup_lt_Some _ _ _ Hi) as Hlt.
  destruct (Forall_lookup_1 _ _ _ _ Hb Hi) as [Hl Hby Hp Hr [[_ Hc] | (? & _)]]; [| lia].
  unfold buf_read_block. rewrite Hl, read_disk_block by done. cbn [mbind option_bind].
  set (b' := mkBuf _ _ _ _ _). exists b'. destruct (buf_touch_same b') as [(E1 & E2 & E3) E4].
  assert (Hok : buf_ok d (buf_touch b')).
  { destruct (disk_block_ok d id Hd) as [Hl' Hby'].
    constructor; rewrite ?E1, ?E2, ?E3, ?E4; [done | done | by apply buf_touch_prio | done |].
    right. destruct Hon as [Hon1 Hon2]. exact (conj Hon1 (conj Hon2 (fun _ => eq_refl))). }
  destruct (bm_replace pool d i b (buf_touch b') d I Hi Hd) as [I' L']; [done | done | | done |].
  { rewrite E1. intros j bj Hj E _. by destruct (Hno j bj). }
  split_and!; [done | done | done | done |]. intros k Hk. destruct (decide (k = id)) as [-> |].
  - rewrite (logical_uncached pool) by done.
    pose proof (logical_cached (<[i := buf_touch b']> pool) d i (buf_touch b')) as L.
    rewrite E1, E3 in L. apply L; [by apply I' | by rewrite list_lookup_insert_eq | done].
  - apply L'; [congruence | rewrite E1; done | done].
Qed.

Lemma get_block_cache_ok n pool d id :
  bm_inv pool d -> on_disk d id -> evictable n pool ->
  exists i b pool' d', get_block_cache n pool d id = Some (i, pool', d') /\ bm_inv pool' d' /\
    bd_size d' = bd_size d /\ pool' !! i = Some b /\ bc_block_id b = id /\ bc_buffer b = logical pool d id /\
    refs pool' = <[i := bc_refs b]> (refs pool) /\ refs pool !! i = Some (bc_refs b - 1) /\
    forall k, k <> usize_max -> logical pool' d' k = logical pool d k.
Proof.
  intros I Hon He. assert (Hne : id <> usize_max) by (destruct Hon; lia). unfold get_block_cache, try_get_block_cache.
  destruct (list_find (fun b => bc_block_id b = id) pool) as [[i b] |] eqn:E; cbn [mbind option_bind].
  - apply list_find_Some in E as (Hi & Hid & _). pose proof (lookup_lt_Some _ _ _ Hi).
    destruct (buf_touch_same b) as [(E1 & E2 & E3) E4].
    destruct (Forall_lookup_1 _ _ _ _ (bm_bufs _ _ I) Hi) as [_ _ Hp Hr _].
    destruct (bm_same_data pool d i b (buf_clone (buf_touch b)) I Hi) as [I' L'];
      [exact (conj E1 (conj E2 E3)) | by apply buf_touch_prio | cbn; lia |].
    exists i, (buf_clone (buf_touch b)). eexists _, _. split_and!; try done.
    + by rewrite list_lookup_insert_eq.
    + cbn. congruence.
    + cbn. rewrite E3, <- Hid. symmetry. apply (logical_cached pool d i b); [by apply I | done | congruence].
    + unfold refs. by rewrite list_fmap_insert.
    + unfold refs. rewrite list_lookup_fmap, Hi. cbn. f_equal. lia.
  - apply list_find_None in E.
    destruct (alloc_buffer_cache_ok n pool d I He) as (i & b & pool1 & d1 & -> & I1 & Hs1 & Hi & Hid & Hr & Hr' & L1).
    cbn [mbind option_bind]. rewrite Hi. cbn [mbind option_bind].
    destruct (L1 id Hne) as [L1' U1]. assert (Hun : uncached pool1 id).
    { apply U1. intros j bj Hj. by apply (Forall_lookup_1 _ _ _ _ E Hj). }
    assert (Hon1 : on_disk d1 id) by (unfold on_disk in *; by rewrite Hs1).
    destruct (bm_load pool1 d1 i b id I1 Hi Hid Hon1 Hun) as (b' & -> & Hr1 & Hid1 & I2 & L2). cbn [mbind option_bind].
    destruct (buf_touch_same b') as [(E1 & E2 & E3) E4]. pose proof (lookup_lt_Some _ _ _ Hi).
    exists i, (buf_touch b'). eexists _, _. split_and!; try done.
    + by rewrite list_lookup_insert_eq.
    + congruence.
    + rewrite <- L1', <- L2 by done. symmetry.
      pose proof (logical_cached (<[i := buf_touch b']> pool1) d1 i (buf_touch b')) as L.
      rewrite E1, Hid1 in L. apply L; [by apply I2 | by rewrite list_lookup_insert_eq | done].
    + unfold refs in *. rewrite list_fmap_insert, Hr, list_insert_insert_eq. done.
    + by rewrite E4, Hr1.
    + intros k Hk. rewrite L2 by done. by apply L1.
Qed.

(** ** Reads and writes through the cache *)

Implicit Types (s : list BufferCache * D).

(** Between two statements no handle is held. *)
Record idle s : Prop := {
  id_inv : bm_inv s.1 s.2;
  id_refs : Forall (eq 0) (refs s.1);
  id_pool : s.1 <> []
}.
Definition blocks s : Z := Z.min (bd_size s.2 / BLOCK_SZ) usize_max.
Definition view s (id : Z) : list Z := logical s.1 s.2 id.

(** Each round costs an unused buffer one of its at most [PRIORITY_UPPERBOUND]
    points, so the second round empties every buffer. *)
Definition CACHE_FUEL : nat := 2.

Lemma idle_evictable s : idle s -> evictable CACHE_FUEL s.1.
Proof.
  intros [I Hr Hp]. destruct s as [[| b pool] d]; [done |]. cbn in *. exists 0%nat, b. split; [done |].
  apply Forall_cons in Hr as [Hr _]. split; [done |]. right.
  destruct (Forall_lookup_1 _ _ 0%nat b (bm_bufs _ _ I) eq_refl). unfold PRIORITY_UPPERBOUND, CACHE_FUEL in *. lia.
Qed.

Lemma blocks_on_disk s id : 0 <= id < blocks s -> on_disk s.2 id.
Proof.
  unfold blocks, on_disk, BLOCK_SZ. intros H. split; [lia |].
  pose proof (Z.mul_div_le (bd_size s.2) 4096 ltac:(lia)). lia.
Qed.

Lemma view_ok s id : idle s -> 0 <= id < blocks s -> vlen (view s id) = BUFFER_SIZE /\ bytes (view s id).
Proof.
  intros [[Hd Hb Hu] _ _] Hid%blocks_on_disk. unfold view, logical.
  destruct (list_find _ s.1) as [[i b] |] eqn:E; [| by apply disk_block_ok].
  apply list_find_Some in E as (Hi & _). by destruct (Forall_lookup_1 _ _ _ _ Hb Hi).
Qed.

(** Dropping the handle of the buffer that was got. *)
Lemma idle_drop pool pool' d d' i b b' :
  idle (pool, d) -> bm_inv (<[i := b']> pool') d' -> bd_size d' = bd_size d -> pool' !! i = Some b ->
  bc_refs b' = bc_refs b - 1 ->
  refs pool' = <[i := bc_refs b]> (refs pool) -> refs pool !! i = Some (bc_refs b - 1) ->
  idle (<[i := b']> pool', d') /\ blocks (<[i := b']> pool', d') = blocks (pool, d).
Proof.
  intros [_ Hr Hp] I Hs Hi Hrb Hr1 Hr2. split; [constructor; [done | |] | unfold blocks; cbn; by rewrite Hs].
  - cbn. unfold refs in *. rewrite list_fmap_insert, Hr1, Hrb, list_insert_insert_eq, list_insert_id by done. done.
  - intros E. cbn [fst] in E. apply (f_equal length) in E. rewrite length_insert in E.
    apply lookup_lt_Some in Hi. cbn [length] in E. lia.
Qed.

Lemma cache_read_ok s id off n :
  idle s -> 0 <= id < blocks s -> 0 <= off -> 0 <= n -> off + n <= BUFFER_SIZE ->
  exists s', cache_read CACHE_FUEL s id off n = Some (take (Z.to_nat n) (drop (Z.to_nat off) (view s id)), s') /\
    idle s' /\ blocks s' = blocks s /\ forall k, 0 <= k < blocks s -> view s' k = view s k.
Proof.
  intros I Hid Ho Hn Hon. destruct (view_ok s id I Hid) as [Hl _]. pose proof (blocks_on_disk s id Hid) as Hd.
  destruct (get_block_cache_ok CACHE_FUEL s.1 s.2 id (id_inv _ I) Hd (idle_evictable s I))
    as (i & b & pool' & d' & E & I' & Hs & Hi & Hbid & Hbuf & Hr & Hr' & L).
  unfold cache_read. rewrite E. cbn [mbind option_bind]. rewrite Hi. cbn [mbind option_bind].
  unfold buf_read. rewrite Hbuf. change (logical s.1 s.2 id) with (view s id).
  destruct (slice (view s id) off (off + n)) as [bs |] eqn:Esl.
  2: { unfold slice in Esl. rewrite Hl in Esl.
       rewrite !(proj2 (Z.leb_le _ _)) in Esl by lia. done. }
  apply slice_Some in Esl as (_ & _ & ->). replace (off + n - off) with n by lia. cbn [mbind option_bind].
  eexists. split; [done |].
  destruct (Forall_lookup_1 _ _ _ _ (bm_bufs _ _ I') Hi) as [_ _ Hp Hrf _].
  assert (Hge : 0 <= bc_refs b - 1) by (rewrite <- (Forall_lookup_1 _ _ _ _ (id_refs _ I) Hr'); done).
  destruct (bm_same_data pool' d' i b (buf_drop b) I' Hi) as [I2 L2]; [done | done | done |].
  destruct (idle_drop s.1 pool' s.2 d' i b (buf_drop b)) as [I3 B3]; [by destruct s | done.. |].
  split_and!; [done | by destruct s |]. intros k Hk. unfold view. cbn [fst snd].
  assert (k <> usize_max) by (unfold blocks in Hk; lia). by rewrite L2, L.
Qed.

Lemma cache_modify_ok s id off bs :
  idle s -> 0 <= id < blocks s -> 0 <= off -> bytes bs -> off + vlen bs <= BUFFER_SIZE ->
  exists s', cache_modify CACHE_FUEL s id off bs = Some s' /\
    idle s' /\ blocks s' = blocks s /\ forall k, 0 <= k < blocks s ->
      view s' k = if decide (k = id) then splice (view s id) off bs else view s k.
Proof.
  intros I Hid Ho Hby Hon. destruct (view_ok s id I Hid) as [Hl Hvb]. pose proof (blocks_on_disk s id Hid) as Hd.
  destruct (get_block_cache_ok CACHE_FUEL s.1 s.2 id (id_inv _ I) Hd (idle_evictable s I))
    as (i & b & pool' & d' & E & I' & Hs & Hi & Hbid & Hbuf & Hr & Hr' & L).
  unfold cache_modify. rewrite E. cbn [mbind option_bind]. rewrite Hi. cbn [mbind option_bind].
  unfold buf_modify. rewrite Hbuf. change (logical s.1 s.2 id) with (view s id). pose proof (vlen_nonneg bs).
  rewrite (proj2 (copy_slice_Some _ _ _ _ _)) by (split_and!; [lia | lia | lia | lia | done]).
  cbn [mbind option_bind]. fold (splice (view s id) off bs). set (b' := buf_drop _).
  eexists. split; [done |]. pose proof (lookup_lt_Some _ _ _ Hi) as Hlt.
  destruct (Forall_lookup_1 _ _ _ _ (bm_bufs _ _ I') Hi) as [_ _ Hp Hrf Hv].
  assert (Hge : 0 <= bc_refs b - 1) by (rewrite <- (Forall_lookup_1 _ _ _ _ (id_refs _ I) Hr'); done).
  assert (Hne : bc_block_id b <> usize_max) by (unfold blocks in Hid; lia).
  assert (Hok : buf_ok d' b').
  { constructor; cbn; [| | done | done |].
    - unfold splice. rewrite !vlen_app. unfold vlen in *. rewrite length_take, length_drop. lia.
    - repeat apply Forall_app_2; [by apply Forall_take | done | by apply Forall_drop].
    - right. destruct Hv as [[? _] | (Hv1 & Hv2 & _)]; [done |].
      split; [exact Hv1 |]. split; [exact Hv2 | discriminate]. }
  destruct (bm_replace pool' d' i b b' d' I' Hi (bm_dev _ _ I')) as [I2 L2]; [done | done | | done |].
  { intros j bj Hj Eid _. change (bc_block_id b') with (bc_block_id b) in Eid.
    apply (bm_ids _ _ I' j i bj b); congruence. }
  destruct (idle_drop s.1 pool' s.2 d' i b b') as [I3 B3]; [by destruct s | done.. |].
  split_and!; [done | by destruct s |]. intros k Hk. unfold view. cbn [fst snd].
  assert (k <> usize_max) by (unfold blocks in Hk; lia). case_decide as Hkid.
  - subst k. pose proof (logical_cached (<[i := b']> pool') d' i b') as Lc. cbn in Lc. rewrite Hbid in Lc.
    apply Lc; [by apply I2 | by rewrite list_lookup_insert_eq | done].
  - rewrite L2 by (cbn; congruence). by apply L.
Qed.

#[export] Instance Cache_BlockStore : BlockStore (list BufferCache * D) := {
  st_read := cache_read CACHE_FUEL;
  st_write := cache_modify CACHE_FUEL
}.
#[export] Program Instance Cache_BlockStoreSpec : BlockStoreSpec (list BufferCache * D) := {
  st_inv := idle;
  st_size := blocks;
  st_block := view
}.
Next Obligation. intros s b. apply view_ok. Qed.
Next Obligation. intros. by apply cache_read_ok. Qed.
Next Obligation. intros. by apply cache_modify_ok. Qed.

(** ** Sequences of operations *)

Inductive cache_op := CRead (id off n : Z) | CModify (id off : Z) (bs : list Z) | COom.

Fixpoint run_cache s (ops : list cache_op) : option (list (list Z) * (list BufferCache * D)) :=
  match ops with
  | [] => Some ([], s)
  | CRead id off n :: ops =>
      '(bs, s) ← cache_read CACHE_FUEL s id off n; '(rs, s) ← run_cache s ops; Some (bs :: rs, s)
  | CModify id off bs :: ops => s ← cache_modify CACHE_FUEL s id off bs; run_cache s ops
  | COom :: ops => s ← bm_oom s.1 s.2; run_cache s ops
  end.

(** The same operations on an array of blocks. *)
Fixpoint run_flat (f : Z -> list Z) (ops : list cache_op) : list (list Z) * (Z -> list Z) :=
  match ops with
  | [] => ([], f)
  | CRead id off n :: ops =>
      let '(rs, f') := run_flat f ops in (take (Z.to_nat n) (drop (Z.to_nat off) (f id)) :: rs, f')
  | CModify id off bs :: ops => run_flat (fun k => if decide (k = id) then splice (f id) off bs else f k) ops
  | COom :: ops => run_flat f ops
  end.

Definition op_ok (size : Z) (op : cache_op) : Prop :=
  match op with
  | CRead id off n => 0 <= id < size /\ 0 <= off /\ 0 <= n /\ off + n <= BUFFER_SIZE
  | CModify id off bs => 0 <= id < size /\ 0 <= off /\ bytes bs /\ off + vlen bs <= BUFFER_SIZE
  | COom => True
  end.

Lemma idle_oom s :
  idle s -> exists s', bm_oom s.1 s.2 = Some s' /\ idle s' /\ blocks s' = blocks s /\ Forall2 aged s.1 s'.1 /\
    forall k, 0 <= k < blocks s -> view s' k = view s k.
Proof.
  intros [I Hr Hp]. destruct (bm_oom_ok s.1 [] s.2 I) as (pool' & d' & E & I' & Hs & A & L).
  exists (pool', d'). split; [done |]. split_and!; [constructor; cbn [fst snd] | unfold blocks; cbn [fst snd]; by rewrite Hs | done |].
  - done.
  - by rewrite (aged_refs _ _ A).
  - intros ->. by apply Forall2_nil_inv_r in A.
  - intros k Hk. apply L. unfold blocks in Hk. lia.
Qed.

Lemma run_cache_ok ops : forall s f,
  idle s -> Forall (op_ok (blocks s)) ops -> (forall k, 0 <= k < blocks s -> view s k = f k) ->
  exists s', run_cache s ops = Some ((run_flat f ops).1, s') /\ idle s' /\ blocks s' = blocks s /\
    forall k, 0 <= k < blocks s -> view s' k = (run_flat f ops).2 k.
Proof.
  induction ops as [| op ops IH]; intros s f I Hok Hf; [by exists s |].
  apply Forall_cons in Hok as [Hop Hok].
  destruct op as [id off n | id off bs |]; cbn [run_cache run_flat]; cbn [op_ok] in Hop.
  - destruct Hop as (Hid & Ho & Hn & Hon).
    destruct (cache_read_ok s id off n I Hid Ho Hn Hon) as (s1 & -> & I1 & B1 & V1). cbn [mbind option_bind].
    destruct (IH s1 f I1) as (s' & -> & I' & B' & V'); [by rewrite B1 | |].
    { intros k Hk. rewrite B1 in Hk. by rewrite V1, Hf. }
    cbn [mbind option_bind]. rewrite B1 in *. destruct (run_flat f ops) as [rs f']. cbn in *.
    exists s'. rewrite Hf by done. by split_and!.
  - destruct Hop as (Hid & Ho & Hby & Hon).
    destruct (cache_modify_ok s id off bs I Hid Ho Hby Hon) as (s1 & -> & I1 & B1 & V1). cbn [mbind option_bind].
    destruct (IH s1 (fun k => if decide (k = id) then splice (f id) off bs else f k) I1) as (s' & -> & I' & B' & V');
      [by rewrite B1 | |].
    { intros k Hk. rewrite B1 in Hk. rewrite V1 by done. case_decide; [by rewrite Hf | by apply Hf]. }
    rewrite B1 in *. by exists s'.
  - destruct (idle_oom s I) as (s1 & -> & I1 & B1 & _ & V1). cbn [mbind option_bind].
    destruct (IH s1 f I1) as (s' & -> & I' & B' & V'); [by rewrite B1 | |].
    { intros k Hk. rewrite B1 in Hk. by rewrite V1, Hf. }
    rewrite B1 in *. by exists s'.
Qed.

Lemma bm_new_idle pages d :
  bd_inv d -> pages <> [] -> Forall (fun p => vlen p = BUFFER_SIZE /\ bytes p) pages ->
  idle (bm_new pages, d) /\ forall k, 0 <= k < blocks (bm_new pages, d) -> view (bm_new pages, d) k = disk_block d k.
Proof.
  intros Hd Hne Hp.
  assert (Hfree : forall i b, bm_new pages !! i = Some b -> bc_block_id b = usize_max).
  { unfold bm_new. intros i b H. apply list_lookup_fmap_Some in H as (p & -> & _). done. }
  split; [constructor; cbn [fst snd] |].
  - constructor; [done | | intros i j bi bj Hi Hj _ Hne2; by destruct Hne2; eapply Hfree].
    apply Forall_fmap. eapply Forall_impl; [done |]. intros p [Hl Hb]. constructor; try done. by left.
  - unfold refs, bm_new. rewrite Forall_fmap, Forall_fmap. by apply Forall_true.
  - unfold bm_new. by destruct pages.
  - intros k Hk. apply logical_uncached. intros i b Hi%Hfree. unfold blocks in Hk. cbn in *. lia.
Qed.

(** After two rounds nothing is cached any more. *)
Lemma two_rounds_flush s :
  idle s -> exists s', run_cache s [COom; COom] = Some ([], s') /\ blocks s' = blocks s /\
    forall k, 0 <= k < blocks s -> disk_block s'.2 k = view s k.
Proof.
  intros I. cbn [run_cache]. destruct (idle_oom s I) as (s1 & -> & I1 & B1 & A1 & V1). cbn [mbind option_bind].
  destruct (idle_oom s1 I1) as (s2 & -> & I2 & B2 & A2 & V2). cbn [mbind option_bind].
  exists s2. split_and!; [done | congruence |]. intros k Hk. rewrite <- V1, <- V2 by (rewrite ?B1; done).
  symmetry. apply logical_uncached. intros i b2 Hi2.
  destruct (Forall2_lookup_r _ _ _ _ _ A2 Hi2) as (b1 & Hi1 & _ & Hid2 & Ha2).
  destruct (Forall2_lookup_r _ _ _ _ _ A1 Hi1) as (b & Hi & _ & Hid1 & Ha1).
  assert (Hk' : k <> usize_max) by (unfold blocks in Hk; lia).
  assert (Hr : bc_refs b = 0 /\ bc_refs b1 = 0).
  { split; symmetry; [apply (Forall_lookup_1 _ _ i _ (id_refs _ I)) | apply (Forall_lookup_1 _ _ i _ (id_refs _ I1))];
      unfold refs; rewrite list_lookup_fmap; [by rewrite Hi | by rewrite Hi1]. }
  destruct (decide (bc_block_id b1 = usize_max)) as [E1 |]; [destruct Hid2; congruence |].
  destruct (decide (bc_block_id b = usize_max)) as [E |]; [destruct Hid1; congruence |].
  destruct Hr as [Hr0 Hr1]. specialize (Ha1 Hr0 ltac:(done)). specialize (Ha2 Hr1 ltac:(done)).
  destruct (Forall_lookup_1 _ _ _ _ (bm_bufs _ _ (id_inv _ I)) Hi) as [_ _ Hp _ _]. unfold PRIORITY_UPPERBOUND in Hp.
  destruct (Z.ltb_spec 0 (bc_priority b)); [| congruence]. destruct Ha1 as [Hp1 _].
  destruct (Z.ltb_spec 0 (bc_priority b1)); [lia | congruence].
Qed.

(** C10: The block cache is transparent: over any sequence of reads, stores and
    reclaim rounds on blocks of the device, starting with an empty pool of at least
    one buffer, every operation returns, each read gives what an uncached array of
    blocks would give, and two reclaim rounds afterwards bring the disk itself to
    the state of that array: no store is lost, whatever was evicted when. *)
Theorem block_cache_transparent pages d ops :
  bd_inv d -> pages <> [] -> Forall (fun p => vlen p = BUFFER_SIZE /\ bytes p) pages ->
  Forall (op_ok (blocks (bm_new pages, d))) ops ->
  exists s s', run_cache (bm_new pages, d) ops = Some ((run_flat (disk_block d) ops).1, s) /\
    run_cache s [COom; COom] = Some ([], s') /\
    forall k, 0 <= k < blocks (bm_new pages, d) -> disk_block s'.2 k = (run_flat (disk_block d) ops).2 k.
Proof.
  intros Hd Hne Hp Hok. destruct (bm_new_idle pages d Hd Hne Hp) as [I V].
  destruct (run_cache_ok ops _ (disk_block d) I Hok V) as (s & E & I1 & B1 & V1).
  destruct (two_rounds_flush s I1) as (s' & E' & B' & V'). exists s, s'. split_and!; [done | done |].
  intros k Hk. by rewrite V', V1 by (rewrite ?B1; done).
Qed.

(** C40: Asking for a block while every buffer is held never returns: the search
    for a free buffer goes round without end. On the default board the pool has
    one buffer, so holding any block and asking for another is enough. *)
Theorem all_held_never_returns pool d id fuel :
  Forall (fun b => 0 < bc_refs b /\ bc_block_id b <> usize_max /\ bc_block_id b <> id) pool ->
  get_block_cache fuel pool d id = None.
Proof.
  intros H. unfold get_block_cache, try_get_block_cache.
  replace (list_find (fun b => bc_block_id b = id) pool) with (@None (nat * BufferCache)).
  2: { symmetry. apply list_find_None. eapply Forall_impl; [done |]. naive_solver. }
  cbn [mbind option_bind]. assert (Hoom : bm_oom pool d = Some (pool, d)).
  { induction H as [| b pool [Hr _] _ IH]; [done |]. cbn [bm_oom]. unfold oom_one.
    rewrite (proj2 (Z.ltb_lt _ _) Hr). cbn [mbind option_bind]. by rewrite IH. }
  assert (Hno : list_find (fun b => bc_block_id b = usize_max) pool = None).
  { apply list_find_None. eapply Forall_impl; [done |]. naive_solver. }
  assert (alloc_buffer_cache fuel pool d = None) as ->; [| done].
  induction fuel as [| fuel IH]; cbn [alloc_buffer_cache]; rewrite Hno; [done |]. by rewrite Hoom.
Qed.
End Transparent.

Definition demo_ops : list cache_op := [CModify 1 5 [7; 8]; CRead 2 0 3; CRead 1 4 4].

Lemma block_cache_transparent_witness :
  exists s s', run_cache (bm_new [replicate 4096 0], (∅ : memory)) demo_ops = Some ([[0; 0; 0]; [0; 7; 8; 0]], s) /\
    run_cache s [COom; COom] = Some ([], s') /\
    forall k, 0 <= k < blocks (bm_new [replicate 4096 0], (∅ : memory)) ->
      disk_block s'.2 k = (run_flat (disk_block (∅ : memory)) demo_ops).2 k.
Proof.
  assert (E : (run_flat (disk_block (∅ : memory)) demo_ops).1 = [[0; 0; 0]; [0; 7; 8; 0]]) by (vm_compute; reflexivity).
  rewrite <- E.
  apply (block_cache_transparent [replicate 4096 0] (∅ : memory) demo_ops).
  - exact I.
  - discriminate.
  - constructor; [| constructor]. split; [reflexivity |]. apply Forall_replicate. split; [lia | reflexivity].
  - repeat constructor; try (vm_compute; congruence); discriminate.
Defined.

Lemma all_held_never_returns_witness :
  get_block_cache 9 [mkBuf 1 5 false (replicate 4096 0) 1] (∅ : memory) 6 = None.
Proof.
  apply all_held_never_returns. repeat constructor; discriminate.
Defined.
