(* ===== verification/Fat.v ===== *)
(** * The FAT

    [fs/fat32/bitmap.rs], the file allocation table: cluster chains, allocation
    and release, and the block-number arithmetic of [fs/fat32/efs.rs] over it. The
    table is read and written through a [BlockStore]; clusters are 32-bit numbers.
    [debug] says whether [debug_assert!] is compiled in. *)

From S2P Require Import Prelude Address Phys Block BlockCache.
#[local] Open Scope kernel_scope.

Definition VACANT_CLUS_CACHE_SIZE : Z := 64.
Definition FAT_ENTRY_FREE : Z := 0.
Definition FAT_ENTRY_RESERVED_TO_END : Z := 0x0FFFFFF8.
Definition EOC : Z := 0x0FFFFFFF.
Definition BAD_BLOCK : Z := 0x0FFFFFF7.

Record Fat := mkFat {
  fat_start_block_id : Z; fat_byts_per_sec : Z; fat_tot_ent : Z;
  fat_vacant_clus : list Z; fat_hint : Z
}.

Definition fat_new (rsvd_sec_cnt byts_per_sec clus : Z) : Fat := mkFat rsvd_sec_cnt byts_per_sec clus [] 0.

Definition set_vacant (f : Fat) (v : list Z) : Fat :=
  mkFat (fat_start_block_id f) (fat_byts_per_sec f) (fat_tot_ent f) v (fat_hint f).
Definition set_hint (f : Fat) (h : Z) : Fat :=
  mkFat (fat_start_block_id f) (fat_byts_per_sec f) (fat_tot_ent f) (fat_vacant_clus f) h.

Definition this_fat_sec_num (f : Fat) (clus_num : Z) : Z :=
  let fat_offset := wrap32 (clus_num * 4) in
  wrap32 (wrap32 (fat_start_block_id f) + fat_offset / wrap32 (fat_byts_per_sec f)).
Definition this_fat_ent_offset (f : Fat) (clus_num : Z) : Z :=
  let fat_offset := wrap32 (clus_num * 4) in
  fat_offset mod wrap32 (fat_byts_per_sec f).

Section Operations.
Context {S : Type} `{!BlockStore S} (debug : bool).

Definition get_next_clus_num (f : Fat) (s : S) (current_clus_num : Z) : option (Z * S) :=
  _ ← assert_ (negb (wrap32 (fat_byts_per_sec f) =? 0));
  '(bs, s) ← st_read s (this_fat_sec_num f current_clus_num) (this_fat_ent_offset f current_clus_num) 4;
  Some (Z.land (le_combine bs) EOC, s).

Definition chain_ends (clus : Z) : bool :=
  (clus =? BAD_BLOCK) || (clus =? FAT_ENTRY_FREE) || (FAT_ENTRY_RESERVED_TO_END <=? clus).

(** The [loop], [fuel] clusters at most. *)
Fixpoint get_all_clus_num (fuel : nat) (f : Fat) (s : S) (current_clus_num : Z) : option (list Z * S) :=
  match fuel with
  | O => None
  | Datatypes.S fuel =>
      '(next, s) ← get_next_clus_num f s current_clus_num;
      if chain_ends next then Some ([current_clus_num], s)
      else '(v, s) ← get_all_clus_num fuel f s next; Some (current_clus_num :: v, s)
  end.

Definition set_next_clus (f : Fat) (s : S) (current : option Z) (next : Z) : option S :=
  match current with
  | None => Some s
  | Some current =>
      _ ← assert_ (negb (wrap32 (fat_byts_per_sec f) =? 0));
      st_write s (this_fat_sec_num f current) (this_fat_ent_offset f current) (le_split 4 next)
  end.

Fixpoint find_free (f : Fat) (s : S) (ids : list Z) : option (option Z * S) :=
  match ids with
  | [] => Some (None, s)
  | clus_id :: ids =>
      '(next, s) ← get_next_clus_num f s clus_id;
      if FAT_ENTRY_FREE =? next then Some (Some clus_id, s) else find_free f s ids
  end.
(** First [start..tot_ent], then [0..start]. *)
Definition get_next_free_clus (f : Fat) (s : S) (start : Z) : option (option Z * S) :=
  '(r, s) ← find_free f s (seqZ start (wrap32 (fat_tot_ent f) - start));
  match r with
  | Some clus_id => Some (Some clus_id, s)
  | None => find_free f s (seqZ 0 start)
  end.

Definition alloc_one (f : Fat) (s : S) (last : option Z) : option (option Z * Fat * S) :=
  s ← match last with
      | Some last =>
          '(next, s) ← get_next_clus_num f s last;
          _ ← assert_ (negb debug || (FAT_ENTRY_RESERVED_TO_END <=? next));
          Some s
      | None => Some s
      end;
  match vec_pop (fat_vacant_clus f) with
  | Some (free_clus_id, vacant) =>
      s ← set_next_clus f s last free_clus_id;
      Some (Some free_clus_id, set_vacant f vacant, s)
  | None =>
      '(r, s) ← get_next_free_clus f s (wrap32 (fat_hint f));
      match r with
      | None => Some (None, f, s)
      | Some free_clus_id =>
          _ ← assert_ (negb (fat_tot_ent f =? 0));
          let f := set_hint f (wrap32 (free_clus_id + 1) mod fat_tot_ent f) in
          s ← set_next_clus f s last free_clus_id;
          Some (Some free_clus_id, f, s)
      end
  end.

(** [for _ in 0..alloc_num], and the end of the chain. *)
Fixpoint alloc_loop (alloc_num : nat) (f : Fat) (s : S) (last : option Z) : option (list Z * Fat * S) :=
  match alloc_num with
  | O => s ← set_next_clus f s last EOC; Some ([], f, s)
  | Datatypes.S n =>
      '(last, f, s) ← alloc_one f s last;
      match last with
      | None => Some ([], f, s)
      | Some c => '(cs, f, s) ← alloc_loop n f s (Some c); Some (c :: cs, f, s)
      end
  end.
Definition fat_alloc (f : Fat) (s : S) (alloc_num : Z) (last : option Z) : option (list Z * Fat * S) :=
  alloc_loop (Z.to_nat alloc_num) f s last.

Fixpoint free_loop (f : Fat) (s : S) (cluster_list : list Z) : option (Fat * S) :=
  match cluster_list with
  | [] => Some (f, s)
  | cluster_id :: rest =>
      s ← set_next_clus f s (Some cluster_id) FAT_ENTRY_FREE;
      let f := if vlen (fat_vacant_clus f) <? VACANT_CLUS_CACHE_SIZE
               then set_vacant f (fat_vacant_clus f ++ [cluster_id]) else f in
      free_loop f s rest
  end.
Definition fat_free (f : Fat) (s : S) (cluster_list : list Z) (last : option Z) : option (Fat * S) :=
  '(f, s) ← free_loop f s cluster_list;
  s ← set_next_clus f s last EOC;
  Some (f, s).
End Operations.

(** ** The table as a function *)

Definition upd (e : Z -> Z) (c v : Z) : Z -> Z := fun k => if decide (k = c) then v else e k.
Definition upd_opt (e : Z -> Z) (last : option Z) (v : Z) : Z -> Z :=
  match last with Some c => upd e c v | None => e end.
Definition nxt (e : Z -> Z) (c : Z) : Z := Z.land (e c) EOC.
Definition is_free (e : Z -> Z) (c : Z) : Prop := nxt e c = FAT_ENTRY_FREE.
#[export] Instance is_free_dec e c : Decision (is_free e c) := decide (nxt e c = FAT_ENTRY_FREE).

(** The entries after [cs] has been linked behind [last]. *)
Fixpoint link (e : Z -> Z) (last : option Z) (cs : list Z) : Z -> Z :=
  match cs with
  | [] => upd_opt e last EOC
  | c :: cs => link (upd_opt e last c) (Some c) cs
  end.

(** [cs] is the chain that starts at its first cluster. *)
Fixpoint chain (e : Z -> Z) (cs : list Z) : Prop :=
  match cs with
  | [] => False
  | [c] => chain_ends (nxt e c) = true
  | c :: (d :: _) as t => nxt e c = d /\ chain_ends d = false /\ chain e t
  end.

(** The order in which free clusters are looked for. *)
Definition order (tot h : Z) : list Z := seqZ h (tot - h) ++ seqZ 0 h.

Section Rep.
Context {S : Type} `{!BlockStore S, !BlockStoreSpec S}.
(** The number of entries of the table on the disk. *)
Context (lim : Z).
Implicit Types (f : Fat) (s : S) (e : Z -> Z).

Definition ent f s (c : Z) : Z :=
  le_combine (take 4 (drop (Z.to_nat (c * 4 mod 4096)) (st_block s (fat_start_block_id f + c * 4 / 4096)))).

Record fat_rep f s e : Prop := {
  fr_inv : st_inv s;
  fr_byts : fat_byts_per_sec f = 4096;
  fr_lim : lim <= BAD_BLOCK;
  fr_start : 0 <= fat_start_block_id f < 2 ^ 31;
  fr_size : fat_start_block_id f + lim / 1024 < st_size s;
  fr_tot : 0 < fat_tot_ent f <= lim;
  fr_ent : forall c, 0 <= c < lim -> ent f s c = e c
}.

(** Blocks outside the table are as they were. *)
Definition keeps_data f s s' : Prop :=
  st_size s' = st_size s /\
  forall b, 0 <= b < st_size s -> (b < fat_start_block_id f \/ fat_start_block_id f + lim / 1024 < b) ->
    st_block s' b = st_block s b.

Lemma keeps_data_refl f s : keeps_data f s s.
Proof. done. Qed.

Lemma keeps_data_trans f s s1 s2 : keeps_data f s s1 -> keeps_data f s1 s2 -> keeps_data f s s2.
Proof.
  intros [H1 H2] [H3 H4]. split; [congruence |]. intros b Hb Ho. rewrite H4, H2; (done || by rewrite H1).
Qed.

Lemma fat_rep_ext f s e e' : fat_rep f s e -> (forall c, 0 <= c < lim -> e c = e' c) -> fat_rep f s e'.
Proof. intros [] H. constructor; try done. intros c Hc. rewrite <- H by done. by apply fr_ent0. Qed.

Lemma fat_rep_same f f' s e :
  fat_rep f s e -> fat_start_block_id f' = fat_start_block_id f -> fat_byts_per_sec f' = fat_byts_per_sec f ->
  fat_tot_ent f' = fat_tot_ent f -> fat_rep f' s e.
Proof.
  intros [] E1 E2 E3. constructor; rewrite ?E1, ?E2, ?E3; try done.
  intros c Hc. rewrite <- fr_ent0 by done. unfold ent. by rewrite E1.
Qed.

Lemma fat_place f s e c :
  fat_rep f s e -> 0 <= c < lim ->
  this_fat_sec_num f c = fat_start_block_id f + c * 4 / 4096 /\ this_fat_ent_offset f c = c * 4 mod 4096 /\
  0 <= fat_start_block_id f + c * 4 / 4096 < st_size s /\ c * 4 mod 4096 + 4 <= 4096 /\
  c * 4 / 4096 <= lim / 1024 /\ negb (wrap32 (fat_byts_per_sec f) =? 0) = true.
Proof.
  intros [_ Hb Hl Hs Hz _ _] Hc. unfold this_fat_sec_num, this_fat_ent_offset. rewrite Hb. unfold BAD_BLOCK in Hl.
  change (wrap32 4096) with 4096. rewrite (wrapn_small 32 (c * 4)) by (unfold fits; lia).
  rewrite (wrapn_small 32 (fat_start_block_id f)) by (unfold fits; lia).
  rewrite wrapn_small by (unfold fits; lia). split_and!; try done; lia.
Qed.

Lemma get_next_ok f s e c :
  fat_rep f s e -> 0 <= c < lim ->
  exists s', get_next_clus_num f s c = Some (nxt e c, s') /\ fat_rep f s' e /\ keeps_data f s s'.
Proof.
  intros R Hc. destruct (fat_place f s e c R Hc) as (E1 & E2 & Hb & Ho & _ & Hnz). pose proof R as [Hi ? ? ? ? ? He].
  unfold get_next_clus_num. rewrite E1, E2, Hnz. cbn [assert_ mbind option_bind].
  destruct (st_read_spec s (fat_start_block_id f + c * 4 / 4096) (c * 4 mod 4096) 4) as (s' & -> & Hi' & Hz & Hbl);
    [done | done | lia | lia | done |]. cbn [mbind option_bind].
  assert (Hent : forall k, 0 <= k < lim -> ent f s' k = ent f s k).
  { intros k Hk. destruct (fat_place f s e k R Hk) as (_ & _ & Hb' & _). unfold ent. by rewrite Hbl. }
  exists s'. split; [| split; [constructor; try done; [by rewrite Hz | intros k Hk; rewrite Hent; by auto] | split; auto]].
  unfold nxt. by rewrite <- (He c Hc).
Qed.

Lemma splice_lookup_out b off bs i :
  0 <= off -> (Z.of_nat i < off \/ off + vlen bs <= Z.of_nat i) -> off + vlen bs <= vlen b ->
  splice b off bs !! i = b !! i.
Proof.
  intros H0 Ho Hl. unfold splice, vlen in *. destruct (decide (i < Z.to_nat off)%nat).
  - rewrite lookup_app_l by (rewrite length_take; lia). by rewrite lookup_take_lt.
  - rewrite lookup_app_r by (rewrite length_take; lia). rewrite length_take.
    rewrite lookup_app_r by lia. rewrite lookup_drop. f_equal. lia.
Qed.

Lemma splice_read b off bs :
  0 <= off -> off + vlen bs <= vlen b -> take (length bs) (drop (Z.to_nat off) (splice b off bs)) = bs.
Proof.
  intros H0 Hl. unfold splice, vlen in *. rewrite drop_app_length' by (rewrite length_take; lia).
  by rewrite take_app_length.
Qed.

Lemma splice_read_out b off bs off' n :
  0 <= off -> 0 <= off' -> 0 <= n -> off + vlen bs <= vlen b -> off' + n <= off \/ off + vlen bs <= off' ->
  take (Z.to_nat n) (drop (Z.to_nat off') (splice b off bs)) = take (Z.to_nat n) (drop (Z.to_nat off') b).
Proof.
  intros H0 H1 H2 Hl Ho. apply list_eq. intros i. destruct (decide (i < Z.to_nat n)%nat).
  - rewrite !lookup_take_lt, !lookup_drop by done. apply splice_lookup_out; [done | lia | done].
  - by rewrite !lookup_take_ge by lia.
Qed.

Lemma set_next_ok f s e c v :
  fat_rep f s e -> 0 <= c < lim -> 0 <= v < 2 ^ 32 ->
  exists s', set_next_clus f s (Some c) v = Some s' /\ fat_rep f s' (upd e c v) /\ keeps_data f s s'.
Proof.
  intros R Hc Hv. destruct (fat_place f s e c R Hc) as (E1 & E2 & Hb & Ho & Hr & Hnz). pose proof R as [Hi ? ? ? ? ? He].
  unfold set_next_clus. rewrite E1, E2, Hnz. cbn [assert_ mbind option_bind].
  assert (Hlen : vlen (le_split 4 v) = 4) by (unfold vlen; by rewrite length_le_split).
  destruct (st_write_spec s (fat_start_block_id f + c * 4 / 4096) (c * 4 mod 4096) (le_split 4 v))
    as (s' & -> & Hi' & Hz & Hbl); [done | done | lia | apply le_split_bytes | by rewrite Hlen |].
  destruct (st_block_ok s _ Hi Hb) as [Hbl_len _].
  exists s'. split; [done |]. split.
  - constructor; try done; [by rewrite Hz |]. intros k Hk.
    destruct (fat_place f s e k R Hk) as (_ & _ & Hb' & Ho' & _). unfold ent, upd. rewrite Hbl by done.
    destruct (decide (k = c)) as [-> | Hne].
    + rewrite decide_True by done.
      pose proof (splice_read (st_block s (fat_start_block_id f + c * 4 / 4096)) (c * 4 mod 4096) (le_split 4 v)) as Hsp.
      rewrite length_le_split in Hsp. rewrite Hsp; [by apply le_combine_split | lia |].
      rewrite Hlen, Hbl_len. unfold BUFFER_SIZE, BLOCK_SZ. lia.
    + rewrite <- (He k Hk). unfold ent. case_decide as Hs; [| done]. rewrite Hs. f_equal.
      apply (splice_read_out _ _ _ _ 4); rewrite ?Hlen, ?Hbl_len; unfold BUFFER_SIZE, BLOCK_SZ; lia.
  - split; [done |]. intros b Hb' Hout. rewrite Hbl by done. rewrite decide_False by lia. done.
Qed.

Lemma set_next_opt_ok f s e last v :
  fat_rep f s e -> (forall c, last = Some c -> 0 <= c < lim) -> 0 <= v < 2 ^ 32 ->
  exists s', set_next_clus f s last v = Some s' /\ fat_rep f s' (upd_opt e last v) /\ keeps_data f s s'.
Proof.
  intros R Hl Hv. destruct last as [c |]; [apply set_next_ok; auto |]. by exists s.
Qed.

Lemma find_free_ok f e ids : forall s,
  fat_rep f s e -> Forall (fun c => 0 <= c < lim) ids ->
  exists s', find_free f s ids = Some (head (filter (is_free e) ids), s') /\ fat_rep f s' e /\ keeps_data f s s'.
Proof.
  induction ids as [| c ids IH]; intros s R Hl; cbn [find_free]; [by exists s |].
  apply Forall_cons in Hl as [Hc Hl]. destruct (get_next_ok f s e c R Hc) as (s1 & -> & R1 & K1). cbn [mbind option_bind].
  rewrite filter_cons. destruct (Z.eqb_spec FAT_ENTRY_FREE (nxt e c)) as [E | E].
  - rewrite decide_True by (symmetry; exact E). by exists s1.
  - rewrite decide_False by (intros F; by apply E). destruct (IH s1 R1 Hl) as (s2 & -> & R2 & K2). exists s2.
    split_and!; [done | done | by eapply keeps_data_trans].
Qed.

Lemma get_next_free_ok f s e h :
  fat_rep f s e -> 0 <= h <= fat_tot_ent f ->
  exists s', get_next_free_clus f s h = Some (head (filter (is_free e) (order (fat_tot_ent f) h)), s') /\
    fat_rep f s' e /\ keeps_data f s s'.
Proof.
  intros R Hh. pose proof R as [_ _ Hl _ _ Ht _]. unfold get_next_free_clus, order, BAD_BLOCK in *.
  rewrite wrapn_small by (unfold fits; lia).
  assert (Hin : forall a n, 0 <= a -> a + n <= lim -> Forall (fun c => 0 <= c < lim) (seqZ a n)).
  { intros a n Ha Hn. apply Forall_forall. intros c Hc%elem_of_seqZ. lia. }
  destruct (find_free_ok f e (seqZ h (fat_tot_ent f - h)) s R) as (s1 & -> & R1 & K1); [apply Hin; lia |].
  cbn [mbind option_bind]. rewrite filter_app. destruct (filter (is_free e) (seqZ h _)) as [| c cs]; cbn [head app].
  - destruct (find_free_ok f e (seqZ 0 h) s1 R1) as (s2 & -> & R2 & K2); [apply Hin; lia |].
    exists s2. split_and!; [done | done | by eapply keeps_data_trans].
  - by exists s1.
Qed.

Definition last_ok (last : option Z) : Prop := forall c, last = Some c -> 0 <= c < lim.

(** The read of [last]'s entry, of which only the debug build uses the value. *)
Lemma read_last_ok f s e last :
  fat_rep f s e -> last_ok last ->
  exists s', match last with
             | Some last =>
                 '(next, s) ← get_next_clus_num f s last;
                 _ ← assert_ (negb false || (FAT_ENTRY_RESERVED_TO_END <=? next)); Some s
             | None => Some s
             end = Some s' /\ fat_rep f s' e /\ keeps_data f s s'.
Proof.
  intros R Hl. destruct last as [c |]; [| by exists s].
  destruct (get_next_ok f s e c R (Hl c eq_refl)) as (s1 & -> & R1 & K1). by exists s1.
Qed.

Lemma alloc_one_vacant f s e last v c :
  fat_rep f s e -> last_ok last -> fat_vacant_clus f = v ++ [c] -> 0 <= c < lim ->
  exists s', alloc_one false f s last = Some (Some c, set_vacant f v, s') /\
    fat_rep f s' (upd_opt e last c) /\ keeps_data f s s'.
Proof.
  intros R Hl Hv Hc. destruct (read_last_ok f s e last R Hl) as (s1 & E1 & R1 & K1).
  unfold alloc_one. rewrite E1. cbn [mbind option_bind]. rewrite Hv, vec_pop_snoc.
  pose proof (fr_lim _ _ _ R). unfold BAD_BLOCK in *.
  destruct (set_next_opt_ok f s1 e last c R1 Hl) as (s2 & -> & R2 & K2); [lia |].
  exists s2. split_and!; [done | done | by eapply keeps_data_trans].
Qed.

Lemma alloc_one_scan f s e last c :
  fat_rep f s e -> last_ok last -> fat_vacant_clus f = [] -> 0 <= fat_hint f <= fat_tot_ent f ->
  head (filter (is_free e) (order (fat_tot_ent f) (fat_hint f))) = Some c -> 0 <= c < fat_tot_ent f ->
  exists s', alloc_one false f s last = Some (Some c, set_hint f ((c + 1) mod fat_tot_ent f), s') /\
    fat_rep f s' (upd_opt e last c) /\ keeps_data f s s'.
Proof.
  intros R Hl Hv Hh Hsc Hc. destruct (read_last_ok f s e last R Hl) as (s1 & E1 & R1 & K1).
  unfold alloc_one. rewrite E1. cbn [mbind option_bind]. rewrite Hv.
  pose proof (fr_lim _ _ _ R). pose proof (fr_tot _ _ _ R). unfold BAD_BLOCK in *. change (vec_pop []) with (@None (Z * list Z)).
  rewrite (wrapn_small 32 (fat_hint f)) by (unfold fits; lia).
  destruct (get_next_free_ok f s1 e (fat_hint f) R1 Hh) as (s2 & -> & R2 & K2). rewrite Hsc. cbn [mbind option_bind].
  destruct (Z.eqb_spec (fat_tot_ent f) 0); [lia |]. cbn [negb assert_ mbind option_bind].
  rewrite wrapn_small by (unfold fits; lia). set (f' := set_hint _ _).
  assert (R2' : fat_rep f' s2 e) by (by eapply fat_rep_same).
  destruct (set_next_opt_ok f' s2 e last c R2' Hl) as (s3 & -> & R3 & K3); [lia |].
  exists s3. split_and!; [done | by eapply fat_rep_same |].
  eapply keeps_data_trans; [exact K1 |]. eapply keeps_data_trans; [exact K2 |]. exact K3.
Qed.

Lemma last_ok_Some c : 0 <= c < lim -> last_ok (Some c).
Proof. intros H x [= <-]. done. Qed.

(** ** Allocation from the clusters freed before *)

Lemma alloc_loop_vacant n : forall f s e last v cs,
  fat_rep f s e -> last_ok last -> fat_vacant_clus f = v ++ reverse cs -> length cs = n ->
  Forall (fun c => 0 <= c < lim) cs ->
  exists s', alloc_loop false n f s last = Some (cs, set_vacant f v, s') /\
    fat_rep f s' (link e last cs) /\ keeps_data f s s'.
Proof.
  induction n as [| n IH]; intros f s e last v cs R Hl Hv Hn Hc; cbn [alloc_loop].
  - destruct cs; [| done]. destruct (set_next_opt_ok f s e last EOC R Hl) as (s1 & -> & R1 & K1); [by unfold EOC |].
    cbn [mbind option_bind]. exists s1. split_and!; [| done | done]. rewrite app_nil_r in Hv. rewrite <- Hv. by destruct f.
  - destruct cs as [| c cs]; [done |]. injection Hn as Hn. apply Forall_cons in Hc as [Hc Hcs].
    rewrite reverse_cons, app_assoc in Hv.
    destruct (alloc_one_vacant f s e last _ c R Hl Hv Hc) as (s1 & -> & R1 & K1). cbn [mbind option_bind].
    destruct (IH (set_vacant f (v ++ reverse cs)) s1 (upd_opt e last c) (Some c) v cs) as (s2 & -> & R2 & K2);
      [by eapply fat_rep_same | by apply last_ok_Some | done | done | done |].
    exists s2. split_and!; [done | by eapply fat_rep_same |]. by eapply keeps_data_trans.
Qed.

(** ** Allocation by scanning the table *)

Lemma elem_of_order tot h c : 0 <= h <= tot -> c ∈ order tot h <-> 0 <= c < tot.
Proof. intros Hh. unfold order. rewrite elem_of_app, !elem_of_seqZ. lia. Qed.

(** After [p] was taken, [p] is the last to be looked at. *)
Lemma order_after tot p :
  0 <= p < tot -> exists l, order tot ((p + 1) mod tot) = l ++ [p] /\ forall c, c ∈ l <-> 0 <= c < tot /\ c <> p.
Proof.
  intros Hp. destruct (decide (p + 1 = tot)) as [E | E].
  - exists (seqZ 0 p). rewrite E, Z.mod_same by lia. unfold order. rewrite app_nil_r, Z.sub_0_r.
    split; [| intros c; rewrite elem_of_seqZ; lia].
    replace tot with (p + 1) by lia. rewrite seqZ_app by lia. done.
  - exists (seqZ (p + 1) (tot - (p + 1)) ++ seqZ 0 p). rewrite Z.mod_small by lia. unfold order. split.
    + rewrite <- app_assoc. f_equal. rewrite seqZ_app by lia. done.
    + intros c. rewrite elem_of_app, !elem_of_seqZ. lia.
Qed.

(** The first free cluster of the scan is not the pending one, if there is another. *)
Lemma scan_head e tot h (p : option Z) :
  0 <= h <= tot -> (forall q, p = Some q -> 0 <= q < tot /\ h = (q + 1) mod tot) ->
  (exists c, is_free e c /\ Some c <> p /\ 0 <= c < tot) ->
  exists c, head (filter (is_free e) (order tot h)) = Some c /\ is_free e c /\ Some c <> p /\ 0 <= c < tot.
Proof.
  intros Hh Hp (x & Hx & Hxp & Hxt).
  assert (Hl : exists l r, order tot h = l ++ r /\ forall c, c ∈ l <-> 0 <= c < tot /\ Some c <> p).
  { destruct p as [q |].
    - destruct (Hp q eq_refl) as [Hq ->]. destruct (order_after tot q Hq) as (l & E & Hl). exists l, [q].
      split; [done |]. intros c. rewrite Hl. naive_solver congruence.
    - exists (order tot h), []. rewrite app_nil_r. split; [done |]. intros c. rewrite elem_of_order by done. naive_solver. }
  destruct Hl as (l & r & -> & Hl). rewrite filter_app.
  destruct (filter (is_free e) l) as [| c cs] eqn:E.
  - assert (Hin : x ∈ filter (is_free e) l) by (apply list_elem_of_filter; split; [done | by apply Hl]).
    rewrite E in Hin. by apply elem_of_nil in Hin.
  - exists c. assert (Hin : c ∈ filter (is_free e) l) by (rewrite E; by left).
    apply list_elem_of_filter in Hin as [Hf Hin]. apply Hl in Hin as [? ?]. done.
Qed.

(** The free clusters of the table, without the pending one. *)
Definition avail e (tot : Z) (p : option Z) : list Z :=
  filter (fun c => is_free e c /\ Some c <> p) (seqZ 0 tot).

Lemma elem_of_avail e tot p c : c ∈ avail e tot p <-> (is_free e c /\ Some c <> p) /\ 0 <= c < tot.
Proof. unfold avail. rewrite list_elem_of_filter, elem_of_seqZ. by rewrite Z.add_0_l. Qed.

Lemma avail_step e tot p last c :
  (forall q, p = Some q -> last = Some q) -> (p = None -> forall l, last = Some l -> ~ is_free e l) ->
  is_free e c -> Some c <> p -> 0 < c < tot -> tot <= BAD_BLOCK ->
  (forall x, is_free (upd_opt e last c) x /\ Some x <> Some c <-> is_free e x /\ Some x <> p /\ x <> c) /\
  is_free (upd_opt e last c) c /\
  (length (avail e tot p) <= 1 + length (avail (upd_opt e last c) tot (Some c)))%nat.
Proof.
  intros Hp Hn Hc Hcp Hct Hl.
  assert (Hland : Z.land c EOC = c).
  { change EOC with (Z.ones 28). rewrite Z.land_ones by lia. apply Z.mod_small. unfold BAD_BLOCK in Hl. lia. }
  assert (Hlast : forall l, last = Some l -> l <> c /\ (is_free e l -> p = Some l) /\ ~ is_free (upd_opt e last c) l).
  { intros l ->. split_and!.
    - intros ->. destruct p as [q |]; [| by destruct (Hn eq_refl c)]. by rewrite (Hp q eq_refl) in Hcp.
    - intros Hf. destruct p as [q |]; [by rewrite (Hp q eq_refl) | by destruct (Hn eq_refl l)].
    - unfold is_free, nxt. cbn. unfold upd. rewrite decide_True, Hland by done. unfold FAT_ENTRY_FREE. lia. }
  assert (Hsame : forall x, last <> Some x -> is_free (upd_opt e last c) x <-> is_free e x).
  { intros x Hx. destruct last as [l |]; [| done]. unfold is_free, nxt. cbn. unfold upd.
    rewrite decide_False by congruence. done. }
  assert (Hiff : forall x, is_free (upd_opt e last c) x /\ Some x <> Some c <-> is_free e x /\ Some x <> p /\ x <> c).
  { intros x. destruct (decide (last = Some x)) as [E | E].
    - destruct (Hlast x E) as (_ & H1 & H2). naive_solver.
    - rewrite (Hsame x E). split; [| naive_solver]. intros [H1 H2]. split_and!; [done | | congruence].
      intros Ep. by apply E, Hp. }
  split_and!; [done | |].
  - apply Hsame; [| done]. intros E. by destruct (Hlast c E) as [? _].
  - change (1 + length (avail (upd_opt e last c) tot (Some c)))%nat
      with (length (c :: avail (upd_opt e last c) tot (Some c))).
    apply submseteq_length, NoDup_submseteq; [apply NoDup_filter, NoDup_seqZ |].
    intros x. rewrite elem_of_cons, !elem_of_avail, Hiff. destruct (decide (x = c)); naive_solver.
Qed.

Lemma alloc_loop_scan n : forall f s e last p,
  fat_rep f s e -> last_ok last -> fat_vacant_clus f = [] -> 0 <= fat_hint f <= fat_tot_ent f -> ~ is_free e 0 ->
  (forall q, p = Some q -> last = Some q /\ 0 <= q < fat_tot_ent f /\ fat_hint f = (q + 1) mod fat_tot_ent f) ->
  (p = None -> forall l, last = Some l -> ~ is_free e l) ->
  (n <= length (avail e (fat_tot_ent f) p))%nat ->
  exists cs h s', alloc_loop false n f s last = Some (cs, set_hint f h, s') /\ length cs = n /\ NoDup cs /\
    Forall (fun c => is_free e c /\ Some c <> p /\ 0 < c < fat_tot_ent f) cs /\ 0 <= h <= fat_tot_ent f /\
    fat_rep f s' (link e last cs) /\ keeps_data f s s'.
Proof.
  induction n as [| n IH]; intros f s e last p R Hl Hv Hh H0 Hp Hpn Hav; cbn [alloc_loop].
  - destruct (set_next_opt_ok f s e last EOC R Hl) as (s1 & -> & R1 & K1); [by unfold EOC |]. cbn [mbind option_bind].
    exists [], (fat_hint f), s1. split_and!; try done; [by destruct f | constructor | lia | lia].
  - pose proof (fr_tot _ _ _ R) as Ht. pose proof (fr_lim _ _ _ R) as Hlim.
    destruct (scan_head e (fat_tot_ent f) (fat_hint f) p Hh) as (c & Hsc & Hcf & Hcp & Hct).
    { intros q E. by destruct (Hp q E) as (_ & ? & ?). }
    { destruct (avail e (fat_tot_ent f) p) as [| x l] eqn:E; [cbn in Hav; lia |].
      exists x. assert (Hx : x ∈ avail e (fat_tot_ent f) p) by (rewrite E; by left).
      apply elem_of_avail in Hx as [[? ?] ?]. done. }
    assert (Hc0 : 0 < c) by (destruct (decide (c = 0)) as [-> |]; [done | lia]).
    destruct (alloc_one_scan f s e last c R Hl Hv Hh Hsc Hct) as (s1 & -> & R1 & K1). cbn [mbind option_bind].
    destruct (avail_step e (fat_tot_ent f) p last c) as (Hiff & Hcf' & Hlen); [intros q E; by destruct (Hp q E) | done | done | done | lia | lia |].
    destruct (IH (set_hint f ((c + 1) mod fat_tot_ent f)) s1 (upd_opt e last c) (Some c) (Some c))
      as (cs & h & s2 & -> & Hcl & Hnd & Hall & Hh' & R2 & K2).
    + by eapply fat_rep_same.
    + apply last_ok_Some. lia.
    + done.
    + cbn. lia.
    + intros Hz. destruct (proj1 (Hiff 0)) as [? _]; [split; [done |]; congruence | done].
    + intros q [= <-]. done.
    + done.
    + cbn. lia.
    + cbn [mbind option_bind]. exists (c :: cs), h, s2.
      rewrite Forall_forall in Hall. split_and!; [done | cbn; by rewrite Hcl | | | cbn in Hh'; lia | cbn in Hh'; lia | | by eapply keeps_data_trans].
      * constructor; [| done]. intros Hin. by destruct (Hall c Hin) as (_ & ? & _).
      * constructor; [split_and!; (done || lia) |]. apply Forall_forall. intros x Hx. destruct (Hall x Hx) as (Hxf & Hxc & Hxt).
        destruct (proj1 (Hiff x) (conj Hxf Hxc)) as (? & ? & _). done.
      * by eapply fat_rep_same.
Qed.

(** ** Chains *)

Lemma chain_ext e e' cs : (forall c, c ∈ cs -> e' c = e c) -> chain e cs -> chain e' cs.
Proof.
  induction cs as [| c [| d cs] IH]; intros H Hc; [done | |]; unfold nxt in *; cbn [chain] in *; unfold nxt in *.
  - rewrite H by (by left). done.
  - rewrite H by (by left). destruct Hc as (? & ? & ?). split_and!; [done | done |].
    apply IH; [| done]. intros x Hx. apply H. by right.
Qed.

(** Two chains that meet in [l]. *)
Lemma chain_app e e' old l cs :
  chain e (old ++ [l]) -> chain e' (l :: cs) -> (forall c, c ∈ old -> e' c = e c) -> chain e' (old ++ l :: cs).
Proof.
  induction old as [| c old IH]; intros H1 H2 He; [done |]. cbn [app] in *.
  assert (E : exists d t, old ++ [l] = d :: t /\ exists t', old ++ l :: cs = d :: t').
  { destruct old as [| d t]; [exists l, []; split; [done | by exists cs] |].
    exists d, (t ++ [l]). split; [done |]. by exists (t ++ l :: cs). }
  destruct E as (d & t & E1 & t' & E2). rewrite E1 in H1. change (nxt e c = d /\ chain_ends d = false /\ chain e (d :: t)) in H1.
  destruct H1 as (Hn & He2 & H1). rewrite <- E1 in H1.
  rewrite E2. change (nxt e' c = d /\ chain_ends d = false /\ chain e' (d :: t')). unfold nxt in *. rewrite He by (by left). split_and!; [done | done |].
  rewrite <- E2. apply IH; [done | done |]. intros x Hx. apply He. by right.
Qed.

Lemma link_out cs : forall e last c, c ∉ cs -> last <> Some c -> link e last cs c = e c.
Proof.
  induction cs as [| d cs IH]; intros e last c Hc Hl; cbn [link].
  - destruct last as [l |]; [| done]. cbn. unfold upd. by rewrite decide_False by congruence.
  - apply not_elem_of_cons in Hc as [Hcd Hc]. rewrite IH by (done || congruence).
    destruct last as [l |]; [| done]. cbn. unfold upd. by rewrite decide_False by congruence.
Qed.

Lemma nxt_cluster c : 0 < c < BAD_BLOCK -> Z.land c EOC = c /\ chain_ends c = false.
Proof.
  unfold BAD_BLOCK. intros H. split.
  - change EOC with (Z.ones 28). rewrite Z.land_ones by lia. apply Z.mod_small. lia.
  - unfold chain_ends, BAD_BLOCK, FAT_ENTRY_FREE, FAT_ENTRY_RESERVED_TO_END.
    destruct (Z.eqb_spec c 0x0FFFFFF7), (Z.eqb_spec c 0), (Z.leb_spec 0x0FFFFFF8 c); done || lia.
Qed.

Lemma link_chain cs : forall e last,
  NoDup (option_list last ++ cs) -> Forall (fun c => 0 < c < BAD_BLOCK) cs -> option_list last ++ cs <> [] ->
  chain (link e last cs) (option_list last ++ cs).
Proof.
  induction cs as [| c cs IH]; intros e last Hn Hc Hne; cbn [link].
  - destruct last as [l |]; [| done]. cbn. unfold nxt, upd. rewrite decide_True by done. done.
  - apply Forall_cons in Hc as [Hc Hcs]. destruct (nxt_cluster c Hc) as [Hl He].
    destruct last as [l |]; cbn [option_list app] in *.
    + apply NoDup_cons in Hn as [Hlc Hn]. apply not_elem_of_cons in Hlc as [Hlc Hlcs]. split_and!; [| done |].
      * unfold nxt. rewrite link_out by (done || congruence). cbn. unfold upd. by rewrite decide_True.
      * by apply (IH (upd e l c) (Some c)).
    + by apply (IH e (Some c)).
Qed.

Lemma link_used cs : forall e last c,
  NoDup (option_list last ++ cs) -> Forall (fun c => 0 < c < BAD_BLOCK) cs -> c ∈ option_list last ++ cs ->
  ~ is_free (link e last cs) c.
Proof.
  induction cs as [| d cs IH]; intros e last c Hn Hc Hin; cbn [link].
  - destruct last as [l |]; [| by apply elem_of_nil in Hin]. cbn in Hin. apply list_elem_of_singleton in Hin as ->.
    unfold is_free, nxt. cbn. unfold upd. by rewrite decide_True.
  - apply Forall_cons in Hc as [Hd Hcs]. destruct (nxt_cluster d Hd) as [Hl _].
    destruct last as [l |]; cbn [option_list app] in *; [| by apply (IH e (Some d))].
    apply NoDup_cons in Hn as [Hlc Hn]. apply elem_of_cons in Hin as [-> | Hin]; [| by apply (IH (upd e l d) (Some d))].
    apply not_elem_of_cons in Hlc as [Hld Hlc]. unfold is_free, nxt. rewrite link_out by (done || congruence).
    cbn. unfold upd. rewrite decide_True, Hl by done. unfold FAT_ENTRY_FREE. lia.
Qed.

(** Linking [cs] behind the chain [old]. *)
Lemma link_extends e old cs :
  (old = [] \/ chain e old) -> NoDup (old ++ cs) -> Forall (fun c => 0 < c < BAD_BLOCK) cs -> old ++ cs <> [] ->
  chain (link e (last old) cs) (old ++ cs).
Proof.
  intros Hold Hn Hc Hne. destruct (last old) as [l |] eqn:El.
  - apply last_Some in El as [init ->]. rewrite <- app_assoc in *. cbn [app] in *.
    destruct Hold as [Hold | Hold]; [by apply app_nil in Hold as [_ ?] |].
    apply NoDup_app in Hn as (_ & Hd & Hn). apply (chain_app e); [done | by apply (link_chain cs e (Some l)) |].
    intros c Hin. pose proof (Hd c Hin) as Hx. apply not_elem_of_cons in Hx as [Hx1 Hx2].
    apply link_out; [done | congruence].
  - apply last_None in El as ->. by apply (link_chain cs e None).
Qed.

Lemma get_all_ok fuel : forall f s e cs c,
  fat_rep f s e -> chain e cs -> head cs = Some c -> Forall (fun c => 0 <= c < lim) cs -> (length cs <= fuel)%nat ->
  exists s', get_all_clus_num fuel f s c = Some (cs, s') /\ fat_rep f s' e /\ keeps_data f s s'.
Proof.
  induction fuel as [| fuel IH]; intros f s e cs c R Hch Hh Hl Hf; (destruct cs as [| c0 cs]; [done |]); [cbn in Hf; lia |].
  injection Hh as ->. apply Forall_cons in Hl as [Hc Hl]. cbn [get_all_clus_num].
  destruct (get_next_ok f s e c R Hc) as (s1 & -> & R1 & K1). cbn [mbind option_bind].
  destruct cs as [| d cs].
  - cbn in Hch. rewrite Hch. by exists s1.
  - destruct Hch as (-> & -> & Hch).
    destruct (IH f s1 e (d :: cs) d R1 Hch eq_refl Hl) as (s2 & -> & R2 & K2); [cbn in *; lia |].
    cbn [mbind option_bind]. exists s2. split_and!; [done | done | by eapply keeps_data_trans].
Qed.

(** ** Files *)

(** What the allocator keeps in memory: freed clusters that are free, each once. *)
Record fat_ok f e : Prop := {
  fo_nodup : NoDup (fat_vacant_clus f);
  fo_vacant : Forall (fun c => is_free e c /\ 0 < c < lim) (fat_vacant_clus f);
  fo_hint : 0 <= fat_hint f <= fat_tot_ent f;
  fo_zero : ~ is_free e 0
}.

(** Files with the clusters [fs]: no cluster in two places, none of them free. *)
Record fat_files f s (fs : list (list Z)) e : Prop := {
  ff_rep : fat_rep f s e;
  ff_ok : fat_ok f e;
  ff_nodup : NoDup (mjoin fs);
  ff_used : Forall (fun c => 0 < c < lim /\ ~ is_free e c) (mjoin fs);
  ff_chain : forall i cs, fs !! i = Some cs -> cs = [] \/ chain e cs
}.

(** The allocator can serve [n] clusters from one of its two sources. *)
Definition fat_can_alloc f s (n : nat) : Prop :=
  (fat_vacant_clus f = [] /\ n <= length (avail (ent f s) (fat_tot_ent f) None))%nat \/
  (n <= length (fat_vacant_clus f))%nat.

Lemma mjoin_set {A} (fs : list (list A)) i x :
  fs !! i = Some x -> exists rest, mjoin fs ≡ₚ x ++ rest /\
    (forall y, mjoin (<[i := y]> fs) ≡ₚ y ++ rest) /\
    forall j z, j <> i -> fs !! j = Some z -> forall a, a ∈ z -> a ∈ rest.
Proof.
  intros Hi. pose proof (lookup_lt_Some _ _ _ Hi) as Hlt. exists (mjoin (take i fs) ++ mjoin (drop (Datatypes.S i) fs)). split_and!.
  - rewrite <- (take_drop_middle fs i x Hi) at 1. rewrite join_app. cbn. solve_Permutation.
  - intros y. rewrite insert_take_drop by done. rewrite join_app. cbn. solve_Permutation.
  - intros j z Hj Hz a Ha. rewrite elem_of_app, !list_elem_of_join. destruct (decide (j < i)%nat).
    + left. exists z. split; [done |]. apply (list_elem_of_lookup_2 _ j). by rewrite lookup_take_lt.
    + right. exists z. split; [done |]. apply (list_elem_of_lookup_2 _ (j - Datatypes.S i)). rewrite lookup_drop.
      rewrite <- Hz. f_equal. lia.
Qed.

Lemma is_free_ext e e' c : e' c = e c -> is_free e' c <-> is_free e c.
Proof. unfold is_free, nxt. by intros ->. Qed.

Lemma filter_ext_in {A} (P Q : A -> Prop) `{!forall x, Decision (P x), !forall x, Decision (Q x)} (l : list A) :
  (forall x, x ∈ l -> P x <-> Q x) -> filter P l = filter Q l.
Proof.
  induction l as [| x l IH]; intros Hpq; [done |]. rewrite !filter_cons, IH by (intros y Hy; apply Hpq; by right).
  pose proof (Hpq x ltac:(by left)). repeat case_decide; naive_solver.
Qed.

Lemma avail_ext e e' tot p : tot <= lim -> (forall c, 0 <= c < lim -> e c = e' c) -> avail e tot p = avail e' tot p.
Proof.
  intros Ht H. apply filter_ext_in. intros c Hc%elem_of_seqZ.
  by rewrite (is_free_ext e' e) by (apply H; lia).
Qed.

(** Both sources of clusters. *)
Lemma alloc_any f s e last n :
  fat_rep f s e -> fat_ok f e -> (forall c, last = Some c -> 0 < c < lim /\ ~ is_free e c) -> fat_can_alloc f s n ->
  exists cs f' s', alloc_loop false n f s last = Some (cs, f', s') /\ length cs = n /\ NoDup cs /\
    Forall (fun c => is_free e c /\ 0 < c < lim) cs /\ fat_rep f' s' (link e last cs) /\ keeps_data f s s' /\
    fat_ok f' (link e last cs) /\ fat_start_block_id f' = fat_start_block_id f.
Proof.
  intros R O Hlast Hcan. pose proof O as [Hnd Hvac Hh H0]. pose proof (fr_tot _ _ _ R) as Ht.
  assert (Hl : last_ok last) by (intros c E; destruct (Hlast c E); lia).
  assert (Hkeep : forall cs c, is_free e c -> c ∉ cs -> is_free (link e last cs) c).
  { intros cs c Hc Hin. apply (is_free_ext e); [| done]. apply link_out; [done |]. intros E. by destruct (Hlast c E). }
  assert (Hzero : forall cs, Forall (fun c => is_free e c /\ 0 < c < lim) cs -> ~ is_free (link e last cs) 0).
  { intros cs Hcs. rewrite (is_free_ext e); [done |]. apply link_out.
    - intros Hin. rewrite Forall_forall in Hcs. destruct (Hcs 0 Hin). lia.
    - intros E. destruct (Hlast 0 E). lia. }
  destruct Hcan as [[Hv Hn] | Hn].
  - rewrite (avail_ext _ e) in Hn by (apply R || lia).
    destruct (alloc_loop_scan n f s e last None) as (cs & h & s' & E & Hlen & Hnc & Hall & Hh' & R' & K'); try done.
    { intros _ l E. by destruct (Hlast l E). }
    assert (Hcs : Forall (fun c => is_free e c /\ 0 < c < lim) cs).
    { eapply Forall_impl; [done |]. cbn. intros c (? & _ & ?). split; [done | lia]. }
    exists cs, (set_hint f h), s'. split_and!; try done; [by eapply fat_rep_same |].
    constructor; cbn; rewrite ?Hv; [constructor | constructor | done | by apply Hzero].
  - set (v := take (length (fat_vacant_clus f) - n) (fat_vacant_clus f)).
    set (cs := reverse (drop (length (fat_vacant_clus f) - n) (fat_vacant_clus f))).
    assert (Hsplit : fat_vacant_clus f = v ++ reverse cs) by (unfold v, cs; by rewrite reverse_involutive, take_drop).
    assert (Hcs : Forall (fun c => is_free e c /\ 0 < c < lim) cs) by (apply Forall_reverse, Forall_drop, Hvac).
    destruct (alloc_loop_vacant n f s e last v cs R Hl Hsplit) as (s' & E & R' & K').
    { unfold cs. rewrite length_reverse, length_drop. lia. }
    { eapply Forall_impl; [done |]. cbn. intros. lia. }
    rewrite Hsplit in Hnd, Hvac. apply NoDup_app in Hnd as (Hnv & Hdis & Hnc). apply Forall_app in Hvac as [Hvv _].
    rewrite reverse_Permutation in Hnc.
    exists cs, (set_vacant f v), s'. split_and!; try done; [| by eapply fat_rep_same |].
    { unfold cs. rewrite length_reverse, length_drop. lia. }
    constructor; cbn; [done | | done | by apply Hzero].
    apply Forall_forall. intros c Hc. rewrite Forall_forall in Hvv. destruct (Hvv c Hc) as [Hf ?]. split; [| done].
    apply Hkeep; [done |]. intros Hin. apply (Hdis c Hc). by rewrite elem_of_reverse.
Qed.

(** Growing a file. *)
Lemma fat_extend f s fs e i old n :
  fat_files f s fs e -> fs !! i = Some old -> fat_can_alloc f s n ->
  exists cs f' s', fat_alloc false f s (Z.of_nat n) (last old) = Some (cs, f', s') /\ length cs = n /\
    fat_files f' s' (<[i := old ++ cs]> fs) (link e (last old) cs) /\ keeps_data f s s' /\
    fat_start_block_id f' = fat_start_block_id f /\
    Forall (is_free e) cs.
Proof.
  intros [R O Hn Hu Hch] Hi Hcan. unfold fat_alloc. rewrite Nat2Z.id.
  destruct (mjoin_set fs i old Hi) as (rest & P & Pset & Hrest). rewrite P in Hn, Hu.
  apply NoDup_app in Hn as (Hno & Hdis & Hnr). apply Forall_app in Hu as [Huo Hur].
  rewrite Forall_forall in Huo. rewrite Forall_forall in Hur.
  assert (Hlast : forall c, last old = Some c -> c ∈ old) by (intros c E; by apply last_Some_elem_of).
  destruct (alloc_any f s e (last old) n R O) as (cs & f' & s' & E & Hlen & Hnc & Hall & R' & K' & O' & G'); [auto | done |].
  pose proof Hall as Hall'. rewrite Forall_forall in Hall. pose proof (fr_lim _ _ _ R) as Hlim.
  assert (Hold : old = [] \/ chain e old) by (by eapply Hch).
  assert (Hoc : forall c, c ∈ old -> c ∉ cs) by (intros c Hc Hin; by destruct (Huo c Hc), (Hall c Hin)).
  assert (Hrc : forall c, c ∈ rest -> c ∉ cs) by (intros c Hc Hin; by destruct (Hur c Hc), (Hall c Hin)).
  assert (Hsame : forall c, c ∈ rest -> link e (last old) cs c = e c).
  { intros c Hc. apply link_out; [auto |]. intros El. by apply (Hdis c), Hc; apply Hlast. }
  assert (Hnoc : NoDup (old ++ cs)) by (by apply NoDup_app).
  assert (Hchn : old ++ cs = [] \/ chain (link e (last old) cs) (old ++ cs)).
  { destruct (decide (old ++ cs = [])); [by left | right]. apply link_extends; [done | done | | done].
    apply Forall_forall. intros c Hc. destruct (Hall c Hc). lia. }
  exists cs, f', s'. split_and!; [done | done | | done | done | by eapply Forall_impl; [done |]; cbn; intros c [? _]].
  constructor; [done | done | | |].
  - rewrite (Pset (old ++ cs)). apply NoDup_app. split_and!; [done | | done].
    intros c [Hc | Hc]%elem_of_app Hr; [by apply (Hdis c) | by apply (Hrc c)].
  - rewrite (Pset (old ++ cs)). apply Forall_app. split; apply Forall_forall; intros c Hc.
    + split; [apply elem_of_app in Hc as [Hc | Hc]; [by apply Huo | by apply Hall] |].
      destruct (decide (c ∈ option_list (last old) ++ cs)) as [Hin | Hout].
      * apply link_used; [| | done].
        -- destruct (last old) as [l |] eqn:El; [| done]. cbn. apply NoDup_cons. split; [| done]. auto.
        -- apply Forall_forall. intros x Hx. destruct (Hall x Hx). lia.
      * apply not_elem_of_app in Hout as [Hout1 Hout2]. rewrite (is_free_ext e).
        -- apply elem_of_app in Hc as [Hc | Hc]; [by apply Huo | done].
        -- apply link_out; [done |]. intros El. apply Hout1. rewrite El. by left.
    + destruct (Hur c Hc) as [? ?]. split; [done |]. by rewrite (is_free_ext e) by auto.
  - intros j z Hz. destruct (decide (j = i)) as [-> | Hj].
    + rewrite list_lookup_insert_eq in Hz by (by eapply lookup_lt_Some). by injection Hz as <-.
    + rewrite list_lookup_insert_ne in Hz by done. destruct (Hch j z Hz) as [? | Hc]; [by left | right].
      apply (chain_ext e); [| done]. intros c Hcz. apply Hsame. by eapply Hrest.
Qed.

(** ** Release *)

Definition zero e (cs : list Z) : Z -> Z := fun k => if decide (k ∈ cs) then FAT_ENTRY_FREE else e k.

Lemma free_loop_ok cs : forall f s e,
  fat_rep f s e -> Forall (fun c => 0 <= c < lim) cs ->
  exists v s', free_loop f s cs = Some (set_vacant f (fat_vacant_clus f ++ v), s') /\ v `sublist_of` cs /\
    fat_rep f s' (zero e cs) /\ keeps_data f s s'.
Proof.
  induction cs as [| c cs IH]; intros f s e R Hl; cbn [free_loop].
  - exists [], s. rewrite app_nil_r. split_and!; [by destruct f | done | done | done].
  - apply Forall_cons in Hl as [Hc Hl]. destruct (set_next_ok f s e c FAT_ENTRY_FREE R Hc) as (s1 & -> & R1 & K1); [done |].
    cbn [mbind option_bind]. set (f1 := if _ <? _ then _ else _).
    assert (Hf1 : exists v1, f1 = set_vacant f (fat_vacant_clus f ++ v1) /\ v1 `sublist_of` [c]).
    { unfold f1. destruct (_ <? _); [by exists [c] |]. exists []. rewrite app_nil_r. split; [by destruct f |].
      apply sublist_nil_l. }
    destruct Hf1 as (v1 & -> & Hv1).
    destruct (IH (set_vacant f (fat_vacant_clus f ++ v1)) s1 (upd e c FAT_ENTRY_FREE)) as (v2 & s2 & -> & Hv2 & R2 & K2);
      [by eapply fat_rep_same | done |].
    exists (v1 ++ v2), s2. cbn [set_vacant fat_vacant_clus]. rewrite app_assoc. split_and!; [done | | | by eapply keeps_data_trans].
    + by apply (sublist_app v1 [c] v2 cs).
    + eapply fat_rep_ext; [by eapply fat_rep_same |]. intros k _. unfold zero, upd.
      destruct (decide (k ∈ cs)), (decide (k ∈ c :: cs)), (decide (k = c)); set_solver.
Qed.

Lemma chain_prefix e e' init l cs :
  chain e (init ++ l :: cs) -> (forall c, c ∈ init -> e' c = e c) -> chain_ends (nxt e' l) = true ->
  chain e' (init ++ [l]).
Proof.
  intros H He Hend. induction init as [| c init IH]; [done |]. cbn [app] in *.
  assert (E : exists d t, init ++ l :: cs = d :: t /\ exists t', init ++ [l] = d :: t').
  { destruct init as [| d t]; [exists l, cs; split; [done | by exists []] |].
    exists d, (t ++ l :: cs). split; [done |]. by exists (t ++ [l]). }
  destruct E as (d & t & E1 & t' & E2). rewrite E1 in H. change (nxt e c = d /\ chain_ends d = false /\ chain e (d :: t)) in H.
  destruct H as (Hn & He2 & H). rewrite <- E1 in H. rewrite E2.
  change (nxt e' c = d /\ chain_ends d = false /\ chain e' (d :: t')). unfold nxt in *. rewrite He by (by left).
  split_and!; [done | done |]. rewrite <- E2. apply IH; [done |]. intros x Hx. apply He. by right.
Qed.

Lemma fat_truncate f s fs e i old cs :
  fat_files f s fs e -> fs !! i = Some (old ++ cs) ->
  exists f' s', fat_free f s cs (last old) = Some (f', s') /\
    fat_files f' s' (<[i := old]> fs) (upd_opt (zero e cs) (last old) EOC) /\ keeps_data f s s' /\
    fat_start_block_id f' = fat_start_block_id f.
Proof.
  intros [R O Hn Hu Hch] Hi. destruct (mjoin_set fs i (old ++ cs) Hi) as (rest & P & Pset & Hrest).
  rewrite P in Hn, Hu. apply NoDup_app in Hn as (Hoc & Hdis & Hnr). apply Forall_app in Hu as [Huo Hur].
  apply Forall_app in Huo as [Huo Huc]. apply NoDup_app in Hoc as (Hno & Hdoc & Hnc).
  rewrite Forall_forall in Huo. rewrite Forall_forall in Hur. rewrite Forall_forall in Huc.
  assert (Hlast : forall c, last old = Some c -> c ∈ old) by (intros c E; by apply last_Some_elem_of).
  unfold fat_free. destruct (free_loop_ok cs f s e R) as (v & s1 & -> & Hv & R1 & K1).
  { apply Forall_forall. intros c Hc. destruct (Huc c Hc). lia. }
  cbn [mbind option_bind]. set (f' := set_vacant f _) in *. assert (R1' : fat_rep f' s1 (zero e cs)) by (by eapply fat_rep_same).
  destruct (set_next_opt_ok f' s1 (zero e cs) (last old) EOC R1') as (s2 & -> & R2 & K2); [| by unfold EOC |].
  { intros c E. destruct (Huo c (Hlast c E)). lia. }
  set (e' := upd_opt (zero e cs) (last old) EOC) in *.
  assert (Hsame : forall c, c ∉ cs -> last old <> Some c -> e' c = e c).
  { intros c Hc E. unfold e', zero. destruct (last old) as [l |]; cbn; unfold upd;
      rewrite ?(decide_False (P := c = l)) by congruence; by rewrite decide_False. }
  assert (Hfree : forall c, c ∈ cs -> is_free e' c).
  { intros c Hc. unfold is_free, nxt, e', zero. destruct (last old) as [l |] eqn:El; cbn; unfold upd.
    - rewrite (decide_False (P := c = l)) by (intros ->; by apply (Hdoc l); auto). by rewrite decide_True.
    - by rewrite decide_True. }
  assert (Hend : forall l, last old = Some l -> e' l = EOC).
  { intros l El. unfold e'. rewrite El. cbn. unfold upd. by rewrite decide_True. }
  assert (Hro : forall c, c ∈ rest -> e' c = e c).
  { intros c Hc. apply Hsame; [intros Hin | intros El%Hlast]; apply (Hdis c); set_solver. }
  exists f', s2. split_and!; [done | | by eapply keeps_data_trans | done]. destruct O as [Ov1 Ov2 Oh O0]. constructor.
  - done.
  - rewrite Forall_forall in Ov2. constructor; cbn; [| | done |].
    + apply NoDup_app. split_and!; [done | | by apply (sublist_NoDup v cs)].
      intros c Hc Hin. destruct (Ov2 c Hc) as [Hf _]. apply (Huc c); [by apply (elem_of_sublist v cs c) | done].
    + apply Forall_app. split; apply Forall_forall; intros c Hc.
      * destruct (Ov2 c Hc) as [Hf Hr]. split; [| done]. rewrite (is_free_ext e); [done |].
        apply Hsame; [intros Hin; by apply (Huc c) | intros El%Hlast; by apply (Huo c)].
      * assert (c ∈ cs) by (by apply (elem_of_sublist v cs c)). split; [auto | by apply Huc].
    + rewrite (is_free_ext e); [done |].
      apply Hsame; [intros Hin%Huc; lia | intros El%Hlast%Huo; lia].
  - rewrite (Pset old). apply NoDup_app. split_and!; [done | | done]. intros c Hc. apply Hdis. set_solver.
  - rewrite (Pset old). apply Forall_app. split; apply Forall_forall; intros c Hc.
    + destruct (Huo c Hc) as [Hr Hf]. split; [done |]. destruct (decide (last old = Some c)) as [El | El].
      * unfold is_free, nxt. by rewrite (Hend c El).
      * rewrite (is_free_ext e); [done |]. apply Hsame; [auto | done].
    + destruct (Hur c Hc) as [Hr Hf]. split; [done |]. by rewrite (is_free_ext e) by auto.
  - intros j z Hz. destruct (decide (j = i)) as [-> | Hj].
    + rewrite list_lookup_insert_eq in Hz by (by eapply lookup_lt_Some). injection Hz as <-.
      destruct (last old) as [l |] eqn:El; [| by left; apply last_None]. right.
      apply last_Some in El as [init ->]. destruct (Hch i _ Hi) as [Hnil | Hc].
      { by apply app_nil in Hnil as [[_ ?]%app_nil _]. }
      rewrite <- app_assoc in Hc. apply (chain_prefix e e' init l cs Hc).
      * intros c Hin. apply NoDup_app in Hno as (_ & Hx & _). apply Hsame; [apply Hdoc; set_solver |].
        intros [= ->]. apply (Hx c Hin). by left.
      * unfold nxt. by rewrite Hend.
    + rewrite list_lookup_insert_ne in Hz by done. destruct (Hch j z Hz) as [? | Hc]; [by left | right].
      apply (chain_ext e); [| done]. intros c Hcz. apply Hro. by eapply Hrest.
Qed.

(** ** Sequences of operations on files *)

Inductive fat_step : Fat * S * list (list Z) -> Fat * S * list (list Z) -> Prop :=
| fs_grow f s fs i old n cs f' s' :
    fs !! i = Some old -> fat_can_alloc f s n -> fat_alloc false f s (Z.of_nat n) (last old) = Some (cs, f', s') ->
    fat_step (f, s, fs) (f', s', <[i := old ++ cs]> fs)
| fs_shrink f s fs i old cs f' s' :
    fs !! i = Some (old ++ cs) -> fat_free f s cs (last old) = Some (f', s') ->
    fat_step (f, s, fs) (f', s', <[i := old]> fs).

Lemma fat_step_ok f s fs e f' s' fs' :
  fat_files f s fs e -> fat_step (f, s, fs) (f', s', fs') ->
  (exists e', fat_files f' s' fs' e') /\ fat_start_block_id f' = fat_start_block_id f /\ keeps_data f s s'.
Proof.
  intros Hf H. inversion H as [? ? ? i old n cs ? ? Hi Hcan E | ? ? ? i old cs ? ? Hi E]; subst.
  - destruct (fat_extend f s fs e i old n Hf Hi Hcan) as (cs1 & f1 & s1 & E1 & _ & H1 & K & G & _).
    rewrite E in E1. injection E1 as <- <- <-. eauto.
  - destruct (fat_truncate f s fs e i old cs Hf Hi) as (f1 & s1 & E1 & H1 & K & G).
    rewrite E in E1. injection E1 as <- <-. eauto.
Qed.

Lemma fat_steps_ok x y :
  rtc fat_step x y -> (exists e, fat_files x.1.1 x.1.2 x.2 e) ->
  (exists e, fat_files y.1.1 y.1.2 y.2 e) /\ keeps_data x.1.1 x.1.2 y.1.2.
Proof.
  induction 1 as [| x y z H _ IH]; intros [e Hx]; [by eauto using keeps_data_refl |].
  destruct x as [[f s] fs], y as [[f1 s1] fs1], z as [[f2 s2] fs2]. cbn in *.
  destruct (fat_step_ok _ _ _ _ _ _ _ Hx H) as (Hy & G & K). destruct (IH Hy) as [Hz K2]. split; [done |].
  eapply keeps_data_trans; [exact K |]. unfold keeps_data in *. by rewrite <- G.
Qed.

(** C9: Clusters of different files never mix. A file is cut, or grown by [n]
    clusters when one source of the allocator can serve them alone: the list of
    freed clusters has [n] of them, or it is empty and the table has [n] free
    entries. Starting from files whose chains are disjoint, after any sequence of
    such steps the chains are still disjoint and free of repetitions,
    [get_all_clus_num] terminates on each file and returns its clusters in order,
    growing a file again gives as many clusters as asked for, none of them in a
    file, and no block outside the table has changed. Requests that use up the
    list half-way, or ask for more than is free, are not covered: the search then
    goes wrong. *)
Theorem fat_chains_disjoint f s fs e f' s' fs' :
  fat_files f s fs e -> rtc fat_step (f, s, fs) (f', s', fs') ->
  NoDup (mjoin fs') /\ keeps_data f s s' /\
  (forall i cs c, fs' !! i = Some cs -> head cs = Some c ->
     exists s'', get_all_clus_num (length cs) f' s' c = Some (cs, s'')) /\
  (forall i old n, fs' !! i = Some old -> fat_can_alloc f' s' n ->
     exists cs f'' s'', fat_alloc false f' s' (Z.of_nat n) (last old) = Some (cs, f'', s'') /\
       length cs = n /\ NoDup cs /\ forall c, c ∈ cs -> c ∉ mjoin fs').
Proof.
  intros Hf Hr. destruct (fat_steps_ok _ _ Hr (ex_intro _ e Hf)) as [[e' Hf'] K]. cbn in *.
  pose proof Hf' as [R O Hn Hu Hch]. rewrite Forall_forall in Hu. split_and!; [done | done | |].
  - intros i cs c Hi Hc. destruct (Hch i cs Hi) as [-> | Hcs]; [done |].
    destruct (get_all_ok (length cs) f' s' e' cs c R Hcs Hc) as (s'' & E & _); [| done | by exists s''].
    apply Forall_forall. intros x Hx. destruct (Hu x); [| lia]. apply list_elem_of_join. exists cs.
    split; [done |]. by eapply list_elem_of_lookup_2.
  - intros i old n Hi Hcan. destruct (fat_extend f' s' fs' e' i old n Hf' Hi Hcan)
      as (cs & f'' & s'' & E & Hlen & Hf'' & _ & _ & Hfree).
    exists cs, f'', s''. split_and!; [done | done | |].
    + destruct (mjoin_set fs' i old Hi) as (rest & _ & Pset & _). pose proof (ff_nodup _ _ _ _ Hf'') as Hn''.
      rewrite (Pset (old ++ cs)) in Hn''. apply NoDup_app in Hn'' as (Hoc & _ & _).
      by apply NoDup_app in Hoc as (_ & _ & ?).
    + rewrite Forall_forall in Hfree. intros c Hc Hin. destruct (Hu c Hin) as [_ Hnf]. by apply Hnf, Hfree.
Qed.

Lemma alloc_one_none f s e c :
  fat_rep f s e -> 0 <= c < lim -> fat_vacant_clus f = [] -> 0 <= fat_hint f <= fat_tot_ent f ->
  (forall x, 0 <= x < fat_tot_ent f -> ~ is_free e x) ->
  exists s', alloc_one false f s (Some c) = Some (None, f, s') /\ fat_rep f s' e.
Proof.
  intros R Hc Hv Hh Hno. destruct (read_last_ok f s e (Some c) R (last_ok_Some c Hc)) as (s1 & E1 & R1 & _).
  unfold alloc_one. rewrite E1. cbn [mbind option_bind]. rewrite Hv. change (vec_pop []) with (@None (Z * list Z)).
  pose proof (fr_lim _ _ _ R). pose proof (fr_tot _ _ _ R). unfold BAD_BLOCK in *.
  rewrite (wrapn_small 32 (fat_hint f)) by (unfold fits; lia).
  destruct (get_next_free_ok f s1 e (fat_hint f) R1 Hh) as (s2 & -> & R2 & _).
  destruct (filter (is_free e) (order (fat_tot_ent f) (fat_hint f))) as [| x l] eqn:E; [by exists s2 |].
  assert (Hx : x ∈ filter (is_free e) (order (fat_tot_ent f) (fat_hint f))) by (rewrite E; by left).
  apply list_elem_of_filter in Hx as [Hf Hx]. apply elem_of_order in Hx; [| done]. by destruct (Hno x).
Qed.

Lemma scan_only e tot h c :
  0 <= h <= tot -> 0 <= c < tot -> (forall x, 0 <= x < tot -> is_free e x <-> x = c) ->
  head (filter (is_free e) (order tot h)) = Some c.
Proof.
  intros Hh Hc Honly. destruct (scan_head e tot h None Hh) as (x & -> & Hx & _ & Hxt); [done | |].
  - exists c. split_and!; [by apply Honly | done | lia | lia].
  - f_equal. by apply Honly.
Qed.

Lemma is_free_upd_opt e last v x : last <> Some x -> is_free (upd_opt e last v) x <-> is_free e x.
Proof.
  intros H. apply is_free_ext. destruct last as [l |]; [| done]. cbn. unfold upd. by rewrite decide_False by congruence.
Qed.

Lemma is_free_upd_cluster e c d : 0 < d < BAD_BLOCK -> ~ is_free (upd e c d) c.
Proof.
  intros Hd. destruct (nxt_cluster d Hd) as [Hl _]. unfold is_free, nxt, upd.
  rewrite decide_True, Hl by done. unfold FAT_ENTRY_FREE. lia.
Qed.

(** A cluster taken from the list of freed clusters is not marked before the
    next one is looked for. When that list runs out in the middle of an allocation
    and the search meets the cluster just taken before any other free one, the
    file gets the same cluster twice, however much room is left. *)
Theorem fat_alloc_reuses_freed f s e last c :
  fat_rep f s e -> (forall l, last = Some l -> 0 <= l < lim /\ ~ is_free e l) -> fat_vacant_clus f = [c] ->
  0 <= fat_hint f <= fat_tot_ent f -> 0 < c < fat_tot_ent f ->
  head (filter (is_free e) (order (fat_tot_ent f) (fat_hint f))) = Some c ->
  exists f' s', fat_alloc false f s 2 last = Some ([c; c], f', s').
Proof.
  intros R Hlast Hv Hh Hc Hsc. pose proof (fr_tot _ _ _ R) as Ht. pose proof (fr_lim _ _ _ R) as Hlim.
  assert (Hl : last_ok last) by (intros l El; by apply Hlast).
  destruct (alloc_one_vacant f s e last [] c R Hl Hv) as (s1 & E1 & R1 & _); [lia |].
  assert (Hsc1 : head (filter (is_free (upd_opt e last c)) (order (fat_tot_ent f) (fat_hint f))) = Some c).
  { rewrite <- Hsc. f_equal. apply filter_ext_in. intros x _. destruct (decide (last = Some x)) as [-> | Hne].
    - destruct (Hlast x eq_refl) as [_ Hnf]. split; [| done]. intros Hx. by apply is_free_upd_cluster in Hx; [| lia].
    - by apply is_free_upd_opt. }
  destruct (alloc_one_scan (set_vacant f []) s1 (upd_opt e last c) (Some c) c) as (s2 & E2 & R2 & _);
    [by eapply fat_rep_same | apply last_ok_Some; lia | done | done | done | cbn; lia |].
  destruct (set_next_ok _ s2 _ c EOC R2) as (s3 & E3 & _); [lia | by unfold EOC |].
  unfold fat_alloc. change (Z.to_nat 2) with 2%nat. cbn [alloc_loop]. rewrite E1. cbn [mbind option_bind].
  rewrite E2. cbn [mbind option_bind].
  assert (E3' : set_next_clus (set_hint (set_vacant f []) ((c + 1) mod fat_tot_ent (set_vacant f []))) s2 (Some c) EOC = Some s3)
    by exact E3.
  rewrite E3'. cbn [mbind option_bind]. by eexists _, _.
Qed.

(** C39: A full disk is not reported. When [c] is the only free cluster and three
    or more are asked for, the allocation returns [c] twice and leaves [c] linked to
    itself, after which listing the clusters of that file never returns. *)
Theorem fat_full_disk_cycle f s e last c n :
  fat_rep f s e -> (forall l, last = Some l -> 0 <= l < lim /\ ~ is_free e l) -> fat_vacant_clus f = [] ->
  0 <= fat_hint f <= fat_tot_ent f -> 0 < c < fat_tot_ent f ->
  (forall x, 0 <= x < fat_tot_ent f -> is_free e x <-> x = c) -> 3 <= n ->
  exists f' s', fat_alloc false f s n last = Some ([c; c], f', s') /\
    forall fuel, get_all_clus_num fuel f' s' c = None.
Proof.
  intros R Hlast Hv Hh Hc Honly Hn. pose proof (fr_tot _ _ _ R) as Ht. pose proof (fr_lim _ _ _ R) as Hlim.
  assert (Hl : last_ok last) by (intros l El; by apply Hlast).
  destruct (alloc_one_scan f s e last c R Hl Hv Hh) as (s1 & E1 & R1 & _); [by apply scan_only; [| lia |] | lia |].
  set (f1 := set_hint f _) in *. set (e1 := upd_opt e last c) in *.
  assert (Honly1 : forall x, 0 <= x < fat_tot_ent f -> is_free e1 x <-> x = c).
  { intros x Hx. destruct (decide (last = Some x)) as [El | Hne].
    - destruct (Hlast x El) as [_ Hnf]. unfold e1. rewrite El. split.
      + intros Hf. by apply is_free_upd_cluster in Hf; [| lia].
      + intros ->. by destruct Hnf; apply Honly.
    - unfold e1. by rewrite is_free_upd_opt, Honly. }
  assert (Hh1 : 0 <= fat_hint f1 <= fat_tot_ent f1) by (cbn; lia).
  destruct (alloc_one_scan f1 s1 e1 (Some c) c) as (s2 & E2 & R2 & _);
    [by eapply fat_rep_same | apply last_ok_Some; lia | done | done | apply scan_only; [done | cbn; lia | done] | cbn; lia |].
  set (f2 := set_hint f1 _) in *. set (e2 := upd_opt e1 (Some c) c) in *.
  assert (Hnone : forall x, 0 <= x < fat_tot_ent f2 -> ~ is_free e2 x).
  { intros x Hx Hf. destruct (decide (x = c)) as [-> | Hne].
    - apply is_free_upd_cluster in Hf; [done | lia].
    - unfold e2 in Hf. rewrite is_free_upd_opt in Hf by congruence. by apply Honly1 in Hf. }
  assert (Hh2 : 0 <= fat_hint f2 <= fat_tot_ent f2) by (cbn; lia).
  destruct (alloc_one_none f2 s2 e2 c) as (s3 & E3 & R3); [by eapply fat_rep_same | lia | done | done | done |].
  exists f2, s3. split.
  - unfold fat_alloc. replace (Z.to_nat n) with (Datatypes.S (Datatypes.S (Datatypes.S (Z.to_nat n - 3)))) by lia.
    cbn [alloc_loop]. rewrite E1. cbn [mbind option_bind]. rewrite E2. cbn [mbind option_bind]. by rewrite E3.
  - assert (Hnx : nxt e2 c = c /\ chain_ends c = false).
    { destruct (nxt_cluster c) as [H1 H2]; [lia |]. unfold nxt, e2. cbn. unfold upd. by rewrite decide_True. }
    intros fuel. revert R3. clear E3. revert s3. induction fuel as [| fuel IH]; intros s3 R3; [done |]. cbn [get_all_clus_num].
    destruct (get_next_ok f2 s3 e2 c R3) as (s4 & -> & R4 & _); [lia |]. cbn [mbind option_bind].
    destruct Hnx as [-> ->]. by rewrite (IH s4 R4).
Qed.
End Rep.

(** ** A small table *)

(** Eight clusters in block 1; [es] are the entries. *)
Definition demo_disk (es : list Z) : memory :=
  write_bytes ∅ (DISK_IMAGE_BASE + 4096) (es ≫= le_split 4).
Definition demo_store (es : list Z) : list BufferCache * memory := (bm_new [replicate 4096 0], demo_disk es).
Definition demo_fat (vacant : list Z) : Fat := mkFat 1 4096 8 vacant 0.

Definition table (es : list Z) (c : Z) : Z := default 0 (es !! Z.to_nat c).

Lemma entry_bytes es c : take 4 (drop (4 * c) (es ≫= le_split 4)) = from_option (le_split 4) [] (es !! c).
Proof.
  revert c. induction es as [| x es IH]; intros c; [by destruct c |]. rewrite bind_cons. destruct c as [| c].
  - rewrite Nat.mul_0_r, drop_0. done.
  - replace (4 * Datatypes.S c)%nat with (length (le_split 4 x) + 4 * c)%nat by (rewrite length_le_split; lia).
    rewrite <- drop_drop, drop_app_length. apply IH.
Qed.

Lemma length_entries es : length (es ≫= le_split 4) = (4 * length es)%nat.
Proof. induction es as [| x es IH]; [done |]. rewrite bind_cons, length_app, IH, length_le_split. cbn. lia. Qed.

Lemma demo_ent f es c :
  fat_start_block_id f = 1 -> vlen es <= 1024 -> Forall (fun x => 0 <= x < 2 ^ 32) es -> 0 <= c < vlen es ->
  ent f (demo_store es) c = table es c.
Proof.
  intros Hf Hl Hes Hc. unfold vlen in *. destruct (lookup_lt_is_Some_2 es (Z.to_nat c)) as [x Hx]; [lia |].
  unfold ent, table. rewrite Hx. cbn [default from_option].
  replace (c * 4 mod 4096) with (4 * c) by lia. replace (fat_start_block_id _ + c * 4 / 4096) with 1 by lia.
  assert (E : take 4 (drop (Z.to_nat (4 * c)) (st_block (demo_store es) 1)) = le_split 4 x).
  2: { rewrite E. apply le_combine_split. by apply (Forall_lookup_1 _ _ _ _ Hes Hx). }
  assert (E : from_option (le_split 4) [] (es !! Z.to_nat c) = le_split 4 x) by (by rewrite Hx).
  rewrite <- E, <- entry_bytes. change (st_block (demo_store es) 1) with (disk_block (demo_disk es) 1).
  set (bs := es ≫= le_split 4). assert (Hbs : bytes bs).
  { unfold bs. apply Forall_bind. apply Forall_true. intros y. apply le_split_bytes. }
  assert (Hlen : length bs = (4 * length es)%nat) by apply length_entries.
  apply list_eq. intros i. destruct (decide (i < 4)%nat); [| by rewrite !lookup_take_ge by lia].
  rewrite !lookup_take_lt, !lookup_drop by done. unfold disk_block. rewrite list_lookup_fmap, lookup_seqZ_lt by (unfold BUFFER_SIZE, BLOCK_SZ; lia).
  cbn [fmap option_fmap option_map]. change (bd_byte (demo_disk es)) with (fun a => mem_get (demo_disk es) (DISK_IMAGE_BASE + a)).
  cbn beta. unfold demo_disk. fold bs. rewrite mem_get_write_bytes. unfold BLOCK_SZ.
  rewrite decide_True by (unfold vlen; lia).
  replace (Z.to_nat (DISK_IMAGE_BASE + (1 * 4096 + (0 + Z.of_nat (Z.to_nat (4 * c) + i))) - (DISK_IMAGE_BASE + 4096)))
    with (4 * Z.to_nat c + i)%nat by lia.
  destruct (bs !! (4 * Z.to_nat c + i)%nat) as [y |] eqn:Ey; [| apply lookup_ge_None in Ey; lia].
  cbn. f_equal. apply wrapn_small. by apply (Forall_lookup_1 _ _ _ _ Hbs Ey).
Qed.

Lemma demo_rep f es :
  fat_start_block_id f = 1 -> fat_byts_per_sec f = 4096 -> fat_tot_ent f = vlen es -> 0 < vlen es <= 1024 ->
  Forall (fun x => 0 <= x < 2 ^ 32) es -> fat_rep (vlen es) f (demo_store es) (table es).
Proof.
  intros Hf Hb Ht Hl Hes.
  constructor; [| done | unfold BAD_BLOCK; lia | lia | rewrite Hf | lia | intros c Hc; apply demo_ent; (done || lia)].
  2: { assert (vlen es / 1024 <= 1) by (apply Z.div_le_upper_bound; lia).
       assert (2 < st_size (demo_store es)) by done. lia. }
  apply (bm_new_idle [replicate 4096 0] (demo_disk es)); [done | done |]. constructor; [| constructor].
  split; [done |]. apply Forall_replicate. by split.
Qed.

(** Below eight, a property of every cluster is eight facts. *)
Lemma below_eight (P : Z -> Prop) : Forall P [0; 1; 2; 3; 4; 5; 6; 7] -> forall c, 0 <= c < 8 -> P c.
Proof.
  intros H c Hc. rewrite Forall_forall in H. apply H.
  assert (Hs : c ∈ seqZ 0 8) by (apply elem_of_seqZ; lia). by vm_compute in Hs.
Qed.

Definition demo_es : list Z := [EOC; EOC; 3; EOC; 0; 0; 0; 0].

Lemma demo_es_ok : Forall (fun x => 0 <= x < 2 ^ 32) demo_es.
Proof. by repeat constructor. Qed.

Lemma demo_files : fat_files 8 (demo_fat []) (demo_store demo_es) [[2; 3]; []] (table demo_es).
Proof.
  constructor; [by apply (demo_rep _ demo_es), demo_es_ok | | | |].
  - constructor; [constructor | constructor | done | done].
  - vm_compute. repeat constructor; set_solver.
  - repeat constructor; done.
  - intros [| [| i]] cs; [| | done]; intros [= <-]; [right | by left]. by vm_compute.
Qed.

Lemma demo_can_alloc : fat_can_alloc (demo_fat []) (demo_store demo_es) 2.
Proof.
  left. split; [done |]. rewrite (avail_ext 8 _ (table demo_es)).
  - vm_compute. lia.
  - done.
  - intros c Hc. by apply demo_ent, Hc; [| | apply demo_es_ok].
Qed.

Lemma fat_chains_disjoint_witness :
  exists f s cs, rtc fat_step (demo_fat [], demo_store demo_es, [[2; 3]; []]) (f, s, [[2; 3]; cs]) /\
    length cs = 2%nat /\ NoDup ([2; 3] ++ cs).
Proof.
  destruct (fat_extend 8 _ _ _ _ 1 [] 2 demo_files eq_refl demo_can_alloc) as (cs & f & s & E & Hl & _).
  exists f, s, cs.
  pose proof (rtc_once _ _ (fs_grow _ _ [[2; 3]; []] 1 [] 2 cs f s eq_refl demo_can_alloc E)) as R.
  split; [exact R |]. split; [exact Hl |].
  destruct (fat_chains_disjoint 8 _ _ _ _ _ _ _ demo_files R) as [H _].
  rewrite <- (app_nil_r cs). exact H.
Defined.

(** Cluster 4 was just freed; 5, 6 and 7 are free too. *)
Lemma fat_alloc_reuses_freed_witness :
  exists f' s', fat_alloc false (demo_fat [4]) (demo_store demo_es) 2 (Some 3) = Some ([4; 4], f', s').
Proof.
  apply (fat_alloc_reuses_freed 8 _ _ (table demo_es)).
  - apply (demo_rep _ demo_es); [reflexivity | reflexivity | reflexivity | vm_compute; split; [reflexivity | discriminate] | apply demo_es_ok].
  - intros l [= <-]. split; [lia |]. vm_compute. discriminate.
  - reflexivity.
  - vm_compute. split; discriminate.
  - vm_compute. split; reflexivity.
  - vm_compute. reflexivity.
Defined.

Definition demo_full : list Z := [EOC; EOC; 3; EOC; EOC; 0; EOC; EOC].

Lemma fat_full_disk_cycle_witness :
  exists f' s', fat_alloc false (demo_fat []) (demo_store demo_full) 3 (Some 3) = Some ([5; 5], f', s') /\
    forall fuel, get_all_clus_num fuel f' s' 5 = None.
Proof.
  apply (fat_full_disk_cycle 8 _ _ (table demo_full)).
  - apply (demo_rep _ demo_full); [reflexivity | reflexivity | reflexivity | vm_compute; split; [reflexivity | discriminate] |].
    repeat constructor; discriminate.
  - intros l [= <-]. split; [lia |]. vm_compute. discriminate.
  - reflexivity.
  - vm_compute. split; discriminate.
  - vm_compute. split; reflexivity.
  - apply below_eight. repeat constructor; intros H; (reflexivity || discriminate H || (vm_compute in H; discriminate H)).
  - lia.
Defined.
