(* ===== verification/Efs.v ===== *)
(** * The FAT32 volume

    The boot sector ([BPB] of [fs/fat32/layout.rs]) and [EasyFileSystem]
    ([fs/fat32/efs.rs]): the geometry of the volume, opening it, and the blocks it
    hands to the swap area. Arithmetic is that of the release build; [debug] says
    whether [debug_assert!] is compiled in. *)

From S2P Require Import Prelude Address Phys Block PageStore Swap BlockCache Fat.
#[local] Open Scope kernel_scope.

(** The boot sector; byte arrays are lists. *)
Record BPB := mkBPB {
  bs_jmp_boot : list Z; bs_oem_name : list Z;
  byts_per_sec : Z; sec_per_clus : Z; rsvd_sec_cnt : Z; num_fats : Z; root_ent_cnt : Z; tot_sec16 : Z; media : Z;
  fat_sz16 : Z; sec_per_trk : Z; num_heads : Z; hidd_sec : Z; tot_sec32 : Z; fat_sz32 : Z; ext_flags : Z;
  fs_ver : Z; root_clus : Z; fs_info : Z; bk_boot_sec : Z; bpb_reserved : list Z;
  drv_num : Z; resvered1 : Z; boot_sig : Z; vol_id : Z; vol_lab : list Z; fil_sys_type : list Z
}.

(** The bytes and the little-endian value of a field of [n] bytes at [off] of the
    packed struct. *)
Definition field_bytes (bs : list Z) (off n : nat) : list Z := take n (drop off bs).
Definition field (bs : list Z) (off n : nat) : Z := le_combine (field_bytes bs off n).
Definition bpb_of_bytes (bs : list Z) : BPB :=
  mkBPB (field_bytes bs 0 3) (field_bytes bs 3 8)
    (field bs 11 2) (field bs 13 1) (field bs 14 2) (field bs 16 1) (field bs 17 2) (field bs 19 2) (field bs 21 1)
    (field bs 22 2) (field bs 24 2) (field bs 26 2) (field bs 28 4) (field bs 32 4) (field bs 36 4) (field bs 40 2)
    (field bs 42 2) (field bs 44 4) (field bs 48 2) (field bs 50 2) (field_bytes bs 52 12)
    (field bs 64 1) (field bs 65 1) (field bs 66 1) (field bs 67 4) (field_bytes bs 71 11) (field_bytes bs 82 8).
Definition BPB_SIZE : Z := 90.

(** A division by zero panics. *)
Definition udiv (a b : Z) : option Z := _ ← assert_ (negb (b =? 0)); Some (a / b).

Definition root_dir_sec (b : BPB) : option Z :=
  udiv (wrap16 (wrap16 (root_ent_cnt b * 32) + wrap16 (byts_per_sec b - 1))) (byts_per_sec b).
Definition data_sector_count (b : BPB) : option Z :=
  r ← root_dir_sec b;
  Some (wrap32 (tot_sec32 b - wrap32 (wrap32 (rsvd_sec_cnt b + wrap32 (num_fats b * fat_sz32 b)) + r))).
Definition count_of_cluster (b : BPB) : option Z := n ← data_sector_count b; udiv n (sec_per_clus b).
Definition bpb_clus_size (b : BPB) : Z := wrap16 (byts_per_sec b * sec_per_clus b).
Definition first_data_sector (b : BPB) : option Z :=
  let fat_sz := if negb (fat_sz16 b =? 0) then fat_sz16 b else fat_sz32 b in
  r ← root_dir_sec b;
  Some (wrap32 (wrap32 (rsvd_sec_cnt b + wrap32 (num_fats b * fat_sz)) + r)).
Definition is_valid (b : BPB) : option bool :=
  r ← root_dir_sec b;
  if negb (r =? 0) then Some false
  else if negb (tot_sec16 b =? 0) then Some false
  else
    n ← count_of_cluster b;
    Some ((66625 <=? n) && (fat_sz16 b =? 0) && (root_ent_cnt b =? 0)).

Inductive FatType := FAT32 | FAT16 | FAT12.
Definition fat_type (b : BPB) : option FatType :=
  n ← count_of_cluster b;
  Some (if n <? 4085 then FAT12 else if n <? 65525 then FAT16 else FAT32).

Record EasyFileSystem := mkEfs {
  efs_fat : Fat; efs_data_area_start_block : Z; efs_root_clus : Z; efs_sec_per_clus : Z; efs_byts_per_sec : Z
}.

Definition clus_size (v : EasyFileSystem) : Z := wrap32 (efs_byts_per_sec v * efs_sec_per_clus v).

(** [u8::count_ones]. *)
Definition count_ones (x : Z) : Z := Z.of_nat (length (filter (fun i => Z.testbit x i = true) (seqZ 0 8))).

Section Volume.
Context {S : Type} `{!BlockStore S} (debug : bool).

Definition first_sector_of_cluster (v : EasyFileSystem) (clus_num : Z) : option Z :=
  _ ← assert_ (negb debug || (count_ones (efs_sec_per_clus v) =? 1) && (2 <=? clus_num));
  Some (wrap32 (efs_data_area_start_block v + wrap32 (wrap32 (clus_num - 2) * efs_sec_per_clus v))).

Definition efs_open (s : S) : option (EasyFileSystem * S) :=
  '(bs, s) ← st_read s 0 0 BPB_SIZE;
  let b := bpb_of_bytes bs in
  _ ← assert_ (negb debug || (byts_per_sec b =? BLOCK_SZ));
  _ ← assert_ (negb debug || (BUFFER_SIZE mod byts_per_sec b =? 0));
  _ ← (if debug then ok ← is_valid b; assert_ ok else Some tt);
  n ← data_sector_count b;
  clus ← udiv n (sec_per_clus b);
  start ← first_data_sector b;
  Some (mkEfs (fat_new (rsvd_sec_cnt b) (byts_per_sec b) clus) start (root_clus b) (sec_per_clus b) (byts_per_sec b), s).

Fixpoint cluster_blocks (v : EasyFileSystem) (clus : list Z) : option (list Z) :=
  match clus with
  | [] => Some []
  | clus_id :: clus =>
      first_sec ← first_sector_of_cluster v clus_id;
      rest ← cluster_blocks v clus;
      Some (seqZ first_sec (efs_sec_per_clus v) ++ rest)
  end.

Definition alloc_blocks (v : EasyFileSystem) (s : S) (blocks : Z) : option (list Z * EasyFileSystem * S) :=
  alloc_num ← udiv (blocks -w 1 +w efs_sec_per_clus v) (efs_sec_per_clus v);
  '(clus, fat, s) ← fat_alloc debug (efs_fat v) s alloc_num None;
  _ ← assert_ (negb debug || (vlen clus =? alloc_num));
  block_ids ← cluster_blocks v clus;
  Some (block_ids,
        mkEfs fat (efs_data_area_start_block v) (efs_root_clus v) (efs_sec_per_clus v) (efs_byts_per_sec v), s).
End Volume.

(** ** Clusters and blocks *)

(** A cluster lies on the volume. *)
Definition on_volume (v : EasyFileSystem) (size c : Z) : Prop :=
  2 <= c /\ 0 <= efs_data_area_start_block v /\
  efs_data_area_start_block v + (c - 1) * efs_sec_per_clus v <= size.

Lemma first_sector_ok v size c :
  on_volume v size c -> size < 2 ^ 32 -> 0 < efs_sec_per_clus v ->
  first_sector_of_cluster false v c = Some (efs_data_area_start_block v + (c - 2) * efs_sec_per_clus v).
Proof.
  intros (H2 & Hs & Hb) Hz Hp. unfold first_sector_of_cluster. cbn [negb orb assert_ mbind option_bind].
  assert (Hc : 0 <= c - 2 < 2 ^ 32) by nia. rewrite (wrapn_small 32 (c - 2)) by exact Hc.
  assert (Hm : 0 <= (c - 2) * efs_sec_per_clus v < 2 ^ 32) by nia. rewrite (wrapn_small 32 (_ * _)) by exact Hm.
  rewrite wrapn_small by (unfold fits; nia). done.
Qed.

(** The blocks of cluster [c]: the data area starts with cluster 2. *)
Definition blocks_of_cluster (v : EasyFileSystem) (c : Z) : list Z :=
  seqZ (efs_data_area_start_block v + (c - 2) * efs_sec_per_clus v) (efs_sec_per_clus v).

Lemma elem_of_cluster v c b :
  b ∈ blocks_of_cluster v c <->
  efs_data_area_start_block v + (c - 2) * efs_sec_per_clus v <= b < efs_data_area_start_block v + (c - 1) * efs_sec_per_clus v.
Proof. unfold blocks_of_cluster. rewrite elem_of_seqZ. lia. Qed.

(** Different clusters have no block in common. *)
Lemma clusters_apart v c d b :
  0 < efs_sec_per_clus v -> b ∈ blocks_of_cluster v c -> b ∈ blocks_of_cluster v d -> c = d.
Proof. rewrite !elem_of_cluster. intros Hp Hc Hd. assert (c < d \/ c = d \/ d < c) as [? | [? | ?]] by lia; nia. Qed.

Lemma cluster_blocks_ok v size clus :
  NoDup clus -> Forall (on_volume v size) clus -> size < 2 ^ 32 -> 0 < efs_sec_per_clus v ->
  cluster_blocks false v clus = Some (clus ≫= blocks_of_cluster v) /\ NoDup (clus ≫= blocks_of_cluster v) /\
  vlen (clus ≫= blocks_of_cluster v) = vlen clus * efs_sec_per_clus v.
Proof.
  intros Hn Hv Hz Hp. induction clus as [| c clus IH]; cbn [cluster_blocks]; [by split_and!; [| constructor |] |].
  apply NoDup_cons in Hn as [Hc Hn]. apply Forall_cons in Hv as [Hvc Hv].
  rewrite (first_sector_ok v size c Hvc Hz Hp). cbn [mbind option_bind].
  destruct (IH Hn Hv) as (-> & Hnb & Hl). cbn [mbind option_bind]. split; [done |].
  rewrite bind_cons. split.
  - apply NoDup_app. split_and!; [apply NoDup_seqZ | | done]. intros b Hb (d & Hbd & Hd)%list_elem_of_bind.
    by rewrite (clusters_apart v c d b Hp Hb Hbd) in Hc.
  - unfold vlen in *. rewrite length_app. unfold blocks_of_cluster at 1. rewrite length_seqZ. cbn [length]. lia.
Qed.

Section Alloc.
Context {S : Type} `{!BlockStore S, !BlockStoreSpec S}.
Implicit Types (v : EasyFileSystem) (s : S).

(** A mounted volume: the table lies before the data area, and every cluster the
    allocator can hand out lies on the device. *)
Record volume_ok (lim : Z) v s (fs : list (list Z)) (e : Z -> Z) : Prop := {
  vo_files : fat_files lim (efs_fat v) s fs e;
  vo_one : ~ is_free e 1;
  vo_spc : 0 < efs_sec_per_clus v < 256;
  vo_start : fat_start_block_id (efs_fat v) + lim / 1024 < efs_data_area_start_block v;
  vo_size : efs_data_area_start_block v + (lim - 1) * efs_sec_per_clus v <= st_size s < 2 ^ 32
}.

Lemma alloc_num_ok v s blocks lim fs e :
  volume_ok lim v s fs e -> 0 < blocks < 2 ^ 63 ->
  udiv (blocks -w 1 +w efs_sec_per_clus v) (efs_sec_per_clus v) =
  Some ((blocks - 1 + efs_sec_per_clus v) / efs_sec_per_clus v).
Proof.
  intros [_ _ Hp _ _] Hb. unfold udiv. destruct (Z.eqb_spec (efs_sec_per_clus v) 0); [lia |].
  cbn [negb assert_ mbind option_bind]. wrap_simpl. done.
Qed.

(** [alloc_blocks] hands out the blocks of clusters that were free. *)
Lemma alloc_blocks_ok lim v s fs e blocks :
  volume_ok lim v s fs e -> 0 < blocks < 2 ^ 63 ->
  let n := (blocks - 1 + efs_sec_per_clus v) / efs_sec_per_clus v in
  fat_can_alloc (efs_fat v) s (Z.to_nat n) ->
  exists v' s' cs e', alloc_blocks false v s blocks = Some (cs ≫= blocks_of_cluster v, v', s') /\
    vlen cs = n /\ Forall (fun c => is_free e c /\ 2 <= c < lim) cs /\ NoDup (cs ≫= blocks_of_cluster v) /\
    vlen (cs ≫= blocks_of_cluster v) = n * efs_sec_per_clus v /\
    volume_ok lim v' s' (cs :: fs) e' /\ keeps_data lim (efs_fat v) s s'.
Proof.
  intros V Hb n Hcan. pose proof V as [Hf H1 Hp Hst Hsz]. unfold alloc_blocks. rewrite (alloc_num_ok v s blocks lim fs e V Hb).
  cbn [mbind option_bind]. fold n.
  assert (Hn : 0 <= n) by (unfold n; apply Z.div_pos; lia).
  assert (Hf0 : fat_files lim (efs_fat v) s ([] :: fs) e).
  { destruct Hf as [R O Hnd Hu Hch]. constructor; try done. intros [| i] cs Hi; [injection Hi as <-; by left | by eapply Hch]. }
  destruct (fat_extend lim (efs_fat v) s ([] :: fs) e 0 [] (Z.to_nat n) Hf0 eq_refl Hcan)
    as (cs & fat' & s' & E & Hlen & Hf' & K & G & Hfree).
  rewrite Z2Nat.id in E by done. change (last []) with (@None Z) in E. rewrite E. cbn [negb orb assert_ mbind option_bind].
  cbn in Hf'. pose proof (ff_nodup _ _ _ _ _ Hf') as Hnd. cbn in Hnd. apply NoDup_app in Hnd as (Hnc & _ & _).
  pose proof (ff_used _ _ _ _ _ Hf') as Hu. cbn in Hu. apply Forall_app in Hu as [Hu _].
  rewrite Forall_forall in Hfree. rewrite Forall_forall in Hu.
  assert (Hc2 : forall c, c ∈ cs -> 2 <= c < lim).
  { intros c Hc. destruct (Hu c Hc) as [Hr _]. split; [| lia]. destruct (decide (c = 1)) as [-> |]; [| lia].
    by destruct H1; apply Hfree. }
  destruct (cluster_blocks_ok v (st_size s) cs Hnc) as (-> & Hnb & Hvl); [| lia | lia |].
  { apply Forall_forall. intros c Hc. pose proof (Hc2 c Hc). destruct Hf as [R _ _ _ _]. pose proof (fr_start _ _ _ _ R).
    pose proof (fr_tot _ _ _ _ R). assert (0 <= lim / 1024) by (apply Z.div_pos; lia). split_and!; nia. }
  assert (Hvc : vlen cs = n) by (unfold vlen; rewrite Hlen; by rewrite Z2Nat.id).
  cbn [mbind option_bind]. eexists _, s', cs, _. split; [done |]. split_and!; [done | | done | by rewrite Hvl, Hvc | | done].
  - apply Forall_forall. intros c Hc. split; [by apply Hfree | by apply Hc2].
  - destruct K as [Kz _]. constructor; cbn [efs_fat efs_sec_per_clus efs_data_area_start_block];
      [exact Hf' | | done | by rewrite G | by rewrite Kz].
    cbn [last]. rewrite (is_free_ext e); [done |]. apply link_out; [| done]. intros Hin1%Hc2. lia.
Qed.
End Alloc.

(** C22: The swap area on a FAT volume. On a mounted volume whose allocator can
    serve the clusters from one of its two sources (the list of freed clusters
    has that many, or it is empty and the table has that many free entries),
    [alloc_blocks] takes as many clusters as the swap area needs, each of them
    free before and so in no file, and returns exactly their blocks, in order:
    all of them in the data area and on the device, none of them a block of a
    file. The files keep their clusters, and the swap area built on the blocks
    starts out as the empty page store that the swap theorems assume. *)
Theorem swap_on_volume {D} `{!BlockDevice D, !BlockDeviceSpec D} lim v (s : list BufferCache * D) fs e size :
  volume_ok lim v s fs e -> 0 < size < 2 ^ 20 ->
  let n := (size * 256 - 1 + efs_sec_per_clus v) / efs_sec_per_clus v in
  fat_can_alloc (efs_fat v) s (Z.to_nat n) ->
  exists bs v' s' cs e', alloc_blocks false v s (size * 256) = Some (bs, v', s') /\
    vlen cs = n /\ (forall c, c ∈ cs -> is_free e c /\ c ∉ mjoin fs) /\
    bs = (c ← cs; seqZ (efs_data_area_start_block v + (c - 2) * efs_sec_per_clus v) (efs_sec_per_clus v)) /\
    (forall b, b ∈ bs -> efs_data_area_start_block v <= b < st_size s) /\
    (forall b c, b ∈ bs -> c ∈ mjoin fs ->
       b ∉ seqZ (efs_data_area_start_block v + (c - 2) * efs_sec_per_clus v) (efs_sec_per_clus v)) /\
    volume_ok lim v' s' (cs :: fs) e' /\ swap_holds (swap_new (fun _ => bs) size, s'.2) ∅.
Proof.
  intros V Hs n Hcan. destruct (alloc_blocks_ok lim v s fs e (size * 256) V) as (v' & s' & cs & e' & E & Hl & Hcs & Hn & Hvl & V' & K);
    [lia | done |]. fold n in Hl, Hvl.
  exists (cs ≫= blocks_of_cluster v), v', s', cs, e'. pose proof V as [Hf _ Hp Hst Hsz]. rewrite Forall_forall in Hcs.
  assert (Hnf : forall c, c ∈ cs -> is_free e c /\ c ∉ mjoin fs).
  { intros c Hc. destruct (Hcs c Hc) as [Hfr _]. split; [done |]. intros Hin. pose proof (ff_used _ _ _ _ _ Hf) as Hu.
    rewrite Forall_forall in Hu. by destruct (Hu c Hin). }
  assert (Hb : forall b, b ∈ cs ≫= blocks_of_cluster v -> efs_data_area_start_block v <= b < st_size s).
  { intros b (c & Hbc%elem_of_cluster & Hc)%list_elem_of_bind. destruct (Hcs c Hc) as [_ ?]. nia. }
  split_and!; [done | done | done | done | done | | done |].
  - intros b c (d & Hbd & Hd)%list_elem_of_bind Hc Hbc. destruct (Hnf d Hd) as [_ Hdf].
    by rewrite (clusters_apart v d c b ltac:(lia) Hbd Hbc) in Hdf.
  - pose proof (fr_inv _ _ _ _ (ff_rep _ _ _ _ _ (vo_files _ _ _ _ _ V'))) as Hi'.
    destruct K as [Kz _]. apply swap_new_holds; [lia | done | | | by apply Hi'].
    + rewrite Hvl. assert (n <= size * 256 - 1 + efs_sec_per_clus v); [| nia].
      unfold n. apply Z.div_le_upper_bound; nia.
    + apply Forall_forall. intros b Hin. pose proof (Hb b Hin) as Hr.
      pose proof (fr_start _ _ _ _ (ff_rep _ _ _ _ _ Hf)). pose proof (fr_tot _ _ _ _ (ff_rep _ _ _ _ _ Hf)).
      assert (0 <= lim / 1024) by (apply Z.div_pos; lia).
      split; [lia |]. apply (blocks_on_disk s' b). change (blocks s') with (st_size s'). rewrite Kz. lia.
Qed.

Definition demo_volume : EasyFileSystem := mkEfs (mkFat 1 4096 16 [] 0) 4 2 32 4096.
Definition demo_entries : list Z := [EOC; EOC] ++ replicate 14 0.

Lemma demo_entries_ok : Forall (fun x => 0 <= x < 2 ^ 32) demo_entries.
Proof. by repeat constructor. Qed.

Lemma demo_volume_ok : volume_ok 16 demo_volume (demo_store demo_entries) [] (table demo_entries).
Proof.
  constructor; [| done | done | done | done].
  constructor; [by apply (demo_rep _ demo_entries), demo_entries_ok | | constructor | constructor | done].
  constructor; [constructor | constructor | done | done].
Qed.

Lemma demo_volume_can_alloc : fat_can_alloc (efs_fat demo_volume) (demo_store demo_entries) 8.
Proof.
  left. split; [done |]. rewrite (avail_ext 16 _ (table demo_entries)).
  - vm_compute. lia.
  - done.
  - intros c Hc. by apply demo_ent, Hc; [| | apply demo_entries_ok].
Qed.

Lemma swap_on_volume_witness :
  exists bs v' s' cs e', alloc_blocks false demo_volume (demo_store demo_entries) (1 * 256) = Some (bs, v', s') /\
    vlen cs = 8 /\ volume_ok 16 v' s' [cs] e' /\ swap_holds (swap_new (fun _ => bs) 1, s'.2) ∅.
Proof.
  destruct (swap_on_volume 16 demo_volume (demo_store demo_entries) [] _ 1 demo_volume_ok ltac:(lia) demo_volume_can_alloc)
    as (bs & v' & s' & cs & e' & E & Hl & _ & _ & _ & _ & V' & Hs).
  exists bs, v', s', cs, e'. split; [exact E |]. split; [exact Hl |]. split; [exact V' | exact Hs].
Defined.
