(* ===== verification/Timer.v ===== *)
(** * Time

    [timer.rs]: the two representations of a point in time or a duration,
    [TimeSpec] (nanoseconds) and [TimeVal] (microseconds), and the interval
    timers and CPU accounting of a task ([task/task.rs]). The tick counter is
    the hardware's: [get_time()] is the argument [tick]. Whatever a program
    passes in, what the operations return is normalised; on normalised values
    they are arithmetic on nanoseconds and microseconds. *)

From S2P Require Import Prelude.
#[local] Open Scope kernel_scope.

Definition MSEC_PER_SEC : Z := 1000.
Definition USEC_PER_SEC : Z := 1000000.
Definition USEC_PER_MSEC : Z := 1000.
Definition NSEC_PER_SEC : Z := 1000000000.
Definition NSEC_PER_MSEC : Z := 1000000.
Definition NSEC_PER_USEC : Z := 1000.

(** [hal/platform/riscv/qemu.rs]; [get_clock_freq()]. *)
Definition CLOCK_FREQ : Z := 12500000.

Definition get_time_sec (tick : Z) : Z := tick / CLOCK_FREQ.
Definition get_time_ms (tick : Z) : Z := tick / (CLOCK_FREQ / MSEC_PER_SEC).
Definition get_time_us (tick : Z) : Z := tick / (CLOCK_FREQ / USEC_PER_SEC).
Definition get_time_ns (tick : Z) : Z := (tick *w NSEC_PER_SEC) / CLOCK_FREQ.

(** ** [TimeSpec] *)

Record TimeSpec := mkTS { tv_sec : Z; tv_nsec : Z }.
#[export] Instance TimeSpec_eq_dec : EqDecision TimeSpec.
Proof. solve_decision. Defined.

Definition ts_add_assign (a b : TimeSpec) : TimeSpec :=
  mkTS (tv_sec a +w tv_sec b) (tv_nsec a +w tv_nsec b).

Definition ts_add (a b : TimeSpec) : TimeSpec :=
  let sec := tv_sec a +w tv_sec b in
  let nsec := tv_nsec a +w tv_nsec b in
  mkTS (sec +w nsec / NSEC_PER_SEC) (nsec mod NSEC_PER_SEC).

Definition ts_new : TimeSpec := mkTS 0 0.
Definition ts_from_tick (tick : Z) : TimeSpec :=
  mkTS (tick / CLOCK_FREQ) (((tick mod CLOCK_FREQ) *w NSEC_PER_SEC) / CLOCK_FREQ).
Definition ts_from_s (s : Z) : TimeSpec := mkTS s 0.
Definition ts_from_ms (ms : Z) : TimeSpec :=
  mkTS (ms / MSEC_PER_SEC) ((ms mod MSEC_PER_SEC) *w NSEC_PER_MSEC).
Definition ts_from_us (us : Z) : TimeSpec :=
  mkTS (us / USEC_PER_SEC) ((us mod USEC_PER_SEC) *w NSEC_PER_USEC).
Definition ts_from_ns (ns : Z) : TimeSpec := mkTS (ns / NSEC_PER_SEC) (ns mod NSEC_PER_SEC).
Definition ts_to_ns (t : TimeSpec) : Z := (tv_sec t *w NSEC_PER_SEC) +w tv_nsec t.
Definition ts_is_zero (t : TimeSpec) : bool := (tv_sec t =? 0) && (tv_nsec t =? 0).
Definition ts_now (tick : Z) : TimeSpec := ts_from_tick tick.

Definition ts_sub (a b : TimeSpec) : TimeSpec :=
  let self_ns := ts_to_ns a in
  let other_ns := ts_to_ns b in
  if self_ns <=? other_ns then ts_new else ts_from_ns (self_ns -w other_ns).

Definition ts_cmp (a b : TimeSpec) : comparison :=
  match tv_sec a ?= tv_sec b with
  | Lt => Lt
  | Eq => tv_nsec a ?= tv_nsec b
  | Gt => Gt
  end.

(** [a > b] and [a <= b] of the derived [PartialOrd] operators. *)
Definition ts_gt (a b : TimeSpec) : bool :=
  match ts_cmp a b with Gt => true | _ => false end.
Definition ts_le (a b : TimeSpec) : bool := negb (ts_gt a b).

(** ** [TimeVal] *)

Record TimeVal := mkTV { tvl_sec : Z; tvl_usec : Z }.
#[export] Instance TimeVal_eq_dec : EqDecision TimeVal.
Proof. solve_decision. Defined.

Definition tv_new : TimeVal := mkTV 0 0.
Definition tv_from_tick (tick : Z) : TimeVal :=
  mkTV (tick / CLOCK_FREQ) (((tick mod CLOCK_FREQ) *w USEC_PER_SEC) / CLOCK_FREQ).
Definition tv_to_tick (t : TimeVal) : Z :=
  (tvl_sec t *w CLOCK_FREQ) +w (tvl_usec t *w CLOCK_FREQ) / USEC_PER_SEC.
Definition tv_from_s (s : Z) : TimeVal := mkTV s 0.
Definition tv_from_ms (ms : Z) : TimeVal :=
  mkTV (ms / MSEC_PER_SEC) ((ms mod MSEC_PER_SEC) *w USEC_PER_MSEC).
Definition tv_from_us (us : Z) : TimeVal := mkTV (us / USEC_PER_SEC) (us mod USEC_PER_SEC).
Definition tv_to_us (t : TimeVal) : Z := (tvl_sec t *w USEC_PER_SEC) +w tvl_usec t.
Definition tv_is_zero (t : TimeVal) : bool := (tvl_sec t =? 0) && (tvl_usec t =? 0).

Definition tv_add (a b : TimeVal) : TimeVal :=
  let sec := tvl_sec a +w tvl_sec b in
  let usec := tvl_usec a +w tvl_usec b in
  mkTV (sec +w usec / USEC_PER_SEC) (usec mod USEC_PER_SEC).

Definition tv_sub (a b : TimeVal) : TimeVal :=
  let self_us := tv_to_us a in
  let other_us := tv_to_us b in
  if self_us <=? other_us then tv_new else tv_from_us (self_us -w other_us).

(** ** Interval timers and CPU time of a task *)

Record ITimerVal := mkIT { it_interval : TimeVal; it_value : TimeVal }.

(** The fields of [TaskControlBlockInner] the accounting reads and writes:
    [clock], [rusage], [timer] and the pending signals. *)
Record Acct := mkAcct {
  last_enter_u_mode : TimeVal; last_enter_s_mode : TimeVal;
  ru_utime : TimeVal; ru_stime : TimeVal;
  itimers : list ITimerVal; acct_pending : Z
}.

(** The body the three [update_itimer_*_if_exists] share: timer [i] and the
    signal [sig] it raises. [self.timer] is an array of three. *)
Definition update_itimer_if_exists (i : nat) (sig : Z) (diff : TimeVal) (a : Acct) : Acct :=
  match itimers a !! i with
  | None => a
  | Some t =>
      if negb (tv_is_zero (it_value t)) then
        let v := tv_sub (it_value t) diff in
        let fired := tv_is_zero v in
        mkAcct (last_enter_u_mode a) (last_enter_s_mode a) (ru_utime a) (ru_stime a)
          (<[i := mkIT (it_interval t) (if fired then it_interval t else v)]> (itimers a))
          (if fired then Z.lor (acct_pending a) sig else acct_pending a)
      else a
  end.

Definition SIGALRM : Z := Z.shiftl 1 13.
Definition SIGVTALRM : Z := Z.shiftl 1 25.
Definition SIGPROF : Z := Z.shiftl 1 26.

Definition update_itimer_real_if_exists := update_itimer_if_exists 0 SIGALRM.
Definition update_itimer_virtual_if_exists := update_itimer_if_exists 1 SIGVTALRM.
Definition update_itimer_prof_if_exists := update_itimer_if_exists 2 SIGPROF.

Definition update_process_times_enter_trap (tick : Z) (a : Acct) : Acct :=
  let now := tv_from_tick tick in
  let diff := tv_sub now (last_enter_u_mode a) in
  let a := mkAcct (last_enter_u_mode a) now (tv_add (ru_utime a) diff) (ru_stime a)
             (itimers a) (acct_pending a) in
  update_itimer_prof_if_exists diff (update_itimer_virtual_if_exists diff a).

Definition update_process_times_leave_trap (tick : Z) (is_timer : bool) (a : Acct) : Acct :=
  let now := tv_from_tick tick in
  let a := update_itimer_real_if_exists (tv_sub now (last_enter_u_mode a)) a in
  let a :=
    if is_timer then
      let diff := tv_sub now (last_enter_s_mode a) in
      update_itimer_prof_if_exists diff
        (mkAcct (last_enter_u_mode a) (last_enter_s_mode a) (ru_utime a)
           (tv_add (ru_stime a) diff) (itimers a) (acct_pending a))
    else a in
  mkAcct now (last_enter_s_mode a) (ru_utime a) (ru_stime a) (itimers a) (acct_pending a).

(** ** [clock_gettime] and [gettimeofday]

    The values the two calls copy out ([syscall/process.rs]); [boot_offset] is
    [BOOT_TIME_OFFSET]. *)

Definition uptime (tick : Z) : Z := get_time_sec tick.
Definition current_time (boot_offset tick : Z) : Z := uptime tick +w boot_offset.

Definition clock_gettime_value (boot_offset clk_id tick : Z) : TimeSpec :=
  if clk_id =? 0 then mkTS (current_time boot_offset tick) (get_time_ns tick mod NSEC_PER_SEC)
  else if clk_id =? 5 then mkTS (current_time boot_offset tick) 0
  else ts_now tick.

Definition gettimeofday_value (boot_offset tick : Z) : TimeVal :=
  let uptime_us := get_time_us tick in
  let offset := current_time boot_offset tick -w uptime tick in
  let unix_us := uptime_us +w offset *w 1000000 in
  mkTV (unix_us / 1000000) (unix_us mod 1000000).

(** ** Normalised values *)

Definition ts_ok (t : TimeSpec) : Prop := u64 (tv_sec t) /\ 0 <= tv_nsec t < NSEC_PER_SEC.
Definition tv_ok (t : TimeVal) : Prop := u64 (tvl_sec t) /\ 0 <= tvl_usec t < USEC_PER_SEC.

(** Nanoseconds and microseconds without a width. *)
Definition ns_of (t : TimeSpec) : Z := tv_sec t * NSEC_PER_SEC + tv_nsec t.
Definition us_of (t : TimeVal) : Z := tvl_sec t * USEC_PER_SEC + tvl_usec t.

(** Durations short enough that two of them add up within 64 bits of
    nanoseconds: 272 years. *)
Definition ts_short (t : TimeSpec) : Prop := ts_ok t /\ tv_sec t < 2 ^ 33.
Definition tv_short (t : TimeVal) : Prop := tv_ok t /\ tvl_sec t < 2 ^ 43.

Ltac time_unfold :=
  unfold ts_short, tv_short, ts_ok, tv_ok, ns_of, us_of, fits, ts_new, tv_new,
    ts_from_tick, ts_from_s, ts_from_ms, ts_from_us, ts_from_ns, ts_to_ns,
    tv_from_tick, tv_from_s, tv_from_ms, tv_from_us, tv_to_us,
    NSEC_PER_SEC, USEC_PER_SEC, MSEC_PER_SEC, NSEC_PER_MSEC, NSEC_PER_USEC, USEC_PER_MSEC,
    CLOCK_FREQ in *; cbn [tv_sec tv_nsec tvl_sec tvl_usec] in *.

(** Unfolds the operations and settles what is left by linear arithmetic. *)
Ltac time_lia := time_unfold; wrap_simpl; lia.

Lemma ts_from_tick_ok k : u64 k -> ts_ok (ts_from_tick k).
Proof. intros. time_lia. Qed.

Lemma tv_from_tick_ok k : u64 k -> tv_ok (tv_from_tick k).
Proof. intros. time_lia. Qed.

Lemma ts_add_ok a b : ts_ok (ts_add a b).
Proof.
  unfold ts_add. pose proof (wrap64_bound (tv_sec a +w tv_sec b +
    (tv_nsec a +w tv_nsec b) / NSEC_PER_SEC)). split; [done |]. time_unfold. lia.
Qed.

Lemma tv_add_ok a b : tv_ok (tv_add a b).
Proof.
  unfold tv_add. pose proof (wrap64_bound (tvl_sec a +w tvl_sec b +
    (tvl_usec a +w tvl_usec b) / USEC_PER_SEC)). split; [done |]. time_unfold. lia.
Qed.

Lemma ts_from_ns_ok n : u64 n -> ts_ok (ts_from_ns n).
Proof. intros. time_lia. Qed.

Lemma tv_from_us_ok n : u64 n -> tv_ok (tv_from_us n).
Proof. intros. time_lia. Qed.

Lemma ts_sub_ok a b : ts_ok (ts_sub a b).
Proof.
  unfold ts_sub. destruct (_ <=? _); [time_lia |]. apply ts_from_ns_ok, wrap64_bound.
Qed.

Lemma tv_sub_ok a b : tv_ok (tv_sub a b).
Proof.
  unfold tv_sub. destruct (_ <=? _); [time_lia |]. apply tv_from_us_ok, wrap64_bound.
Qed.

(** The type of a time: whatever words a program passes in, and for every
    value of the tick counter, each constructor and each operation of
    [TimeSpec] and [TimeVal] but [+=] returns a value whose seconds are a
    64-bit word and whose fraction is less than a second. *)
Theorem time_values_normalised (k : Z) (a b : TimeSpec) (c d : TimeVal) (Hk : u64 k) :
  ts_ok ts_new /\ ts_ok (ts_now k) /\ ts_ok (ts_from_s k) /\ ts_ok (ts_from_ms k) /\
  ts_ok (ts_from_us k) /\ ts_ok (ts_from_ns k) /\ ts_ok (ts_add a b) /\ ts_ok (ts_sub a b) /\
  tv_ok tv_new /\ tv_ok (tv_from_tick k) /\ tv_ok (tv_from_s k) /\ tv_ok (tv_from_ms k) /\
  tv_ok (tv_from_us k) /\ tv_ok (tv_add c d) /\ tv_ok (tv_sub c d).
Proof.
  repeat match goal with |- _ /\ _ => split end;
    eauto using ts_add_ok, tv_add_ok, ts_sub_ok, tv_sub_ok, ts_from_tick_ok, tv_from_tick_ok,
      ts_from_ns_ok, tv_from_us_ok; time_lia.
Qed.

Definition demo_tick : Z := 2 ^ 40 + 12345.

Lemma time_values_normalised_witness :
  u64 demo_tick /\ ts_ok (ts_add (mkTS 1 (2 ^ 64 - 1)) (ts_now demo_tick)).
Proof.
  assert (H : u64 demo_tick) by (unfold demo_tick, fits; lia). split; [exact H |].
  exact (proj1 (proj2 (proj2 (proj2 (proj2 (proj2 (proj2
    (time_values_normalised demo_tick (mkTS 1 (2 ^ 64 - 1)) (ts_now demo_tick)
       tv_new tv_new H)))))))).
Defined.

(** ** Arithmetic *)

Lemma ts_to_ns_short a : ts_short a -> ts_to_ns a = ns_of a.
Proof. intros. time_lia. Qed.

Lemma tv_to_us_short a : tv_short a -> tv_to_us a = us_of a.
Proof. intros. time_lia. Qed.

Lemma ts_add_short a b : ts_short a -> ts_short b -> ns_of (ts_add a b) = ns_of a + ns_of b.
Proof. intros. unfold ts_add. time_lia. Qed.

Lemma tv_add_short a b : tv_short a -> tv_short b -> us_of (tv_add a b) = us_of a + us_of b.
Proof. intros. unfold tv_add. time_lia. Qed.

Lemma ts_sub_short a b :
  ts_short a -> ts_short b -> ns_of (ts_sub a b) = Z.max 0 (ns_of a - ns_of b).
Proof.
  intros Ha Hb. unfold ts_sub. rewrite !ts_to_ns_short by done.
  destruct (Z.leb_spec (ns_of a) (ns_of b)); time_lia.
Qed.

Lemma tv_sub_short a b :
  tv_short a -> tv_short b -> us_of (tv_sub a b) = Z.max 0 (us_of a - us_of b).
Proof.
  intros Ha Hb. unfold tv_sub. rewrite !tv_to_us_short by done.
  destruct (Z.leb_spec (us_of a) (us_of b)); time_lia.
Qed.

Lemma ts_cmp_ns a b : ts_ok a -> ts_ok b -> ts_cmp a b = (ns_of a ?= ns_of b).
Proof.
  intros Ha Hb. unfold ts_cmp. destruct (Z.compare_spec (tv_sec a) (tv_sec b)) as [Hs | Hs | Hs].
  - destruct (Z.compare_spec (tv_nsec a) (tv_nsec b)); symmetry;
      [apply Z.compare_eq_iff | apply Z.compare_lt_iff | apply Z.compare_gt_iff]; time_lia.
  - symmetry. apply Z.compare_lt_iff. time_lia.
  - symmetry. apply Z.compare_gt_iff. time_lia.
Qed.

Lemma ts_gt_ns a b : ts_ok a -> ts_ok b -> ts_gt a b = (ns_of b <? ns_of a).
Proof.
  intros Ha Hb. unfold ts_gt. rewrite ts_cmp_ns by done.
  destruct (Z.compare_spec (ns_of a) (ns_of b)), (Z.ltb_spec (ns_of b) (ns_of a)); lia || done.
Qed.

(** Later ticks are later times, to the 80 nanoseconds of a tick. *)
Lemma ts_now_ns k : u64 k -> ns_of (ts_now k) = k * 80.
Proof. intros. unfold ts_now. time_lia. Qed.

(** C24: [TimeSpec] is nanoseconds: for normalised times of less than 272 years,
    [+] is addition, [-] is subtraction that stops at zero, the order is the
    order of nanoseconds, [to_ns] and [from_ns] are inverse, and the clock
    advances by 80 nanoseconds a tick. *)
Theorem timespec_refines_ns (a b : TimeSpec) (k : Z)
    (Ha : ts_short a) (Hb : ts_short b) (Hk : u64 k) :
  ns_of (ts_add a b) = ns_of a + ns_of b /\
  ns_of (ts_sub a b) = Z.max 0 (ns_of a - ns_of b) /\
  ts_cmp a b = (ns_of a ?= ns_of b) /\
  ts_from_ns (ts_to_ns a) = a /\
  ns_of (ts_now k) = k * 80.
Proof.
  split_and!; [by apply ts_add_short | by apply ts_sub_short | | | by apply ts_now_ns].
  - apply ts_cmp_ns; [apply Ha | apply Hb].
  - rewrite ts_to_ns_short by done. destruct a as [s n]. time_unfold. f_equal; lia.
Qed.

Lemma timespec_refines_ns_witness :
  ns_of (ts_sub (mkTS 7 5) (mkTS 6 999999999)) = 6.
Proof.
  assert (Ha : ts_short (mkTS 7 5)) by (time_unfold; lia).
  assert (Hb : ts_short (mkTS 6 999999999)) by (time_unfold; lia).
  assert (Hk : u64 0) by (unfold fits; lia).
  exact (proj1 (proj2 (timespec_refines_ns _ _ 0 Ha Hb Hk))).
Defined.

(** [+=] does not carry: the sum of two normalised times need not be one. *)
Lemma add_assign_not_normalised :
  ts_ok (mkTS 0 999999999) /\ ~ ts_ok (ts_add_assign (mkTS 0 999999999) (mkTS 0 1)).
Proof. split; [time_unfold; lia |]. unfold ts_add_assign. time_unfold. wrap_simpl. lia. Qed.

(** ** The clocks *)

(** C37: [CLOCK_REALTIME] runs backwards. [get_time_ns] multiplies the tick
    counter by a billion in 64 bits, which wraps every 1475 seconds, at a
    fraction of a second. Here one tick later the clock shows an earlier time,
    for every boot offset, while the monotonic clock advances. *)
Theorem clock_realtime_runs_backwards (boot_offset : Z) (Hb : 0 <= boot_offset < 2 ^ 63) :
  ns_of (clock_gettime_value boot_offset 0 18446744074) <
  ns_of (clock_gettime_value boot_offset 0 18446744073) /\
  ns_of (clock_gettime_value boot_offset 1 18446744073) <
  ns_of (clock_gettime_value boot_offset 1 18446744074).
Proof.
  split; [| by vm_compute].
  unfold clock_gettime_value, current_time, uptime, get_time_sec, get_time_ns, ns_of.
  cbn [tv_sec tv_nsec Z.eqb].
  change (18446744073 / CLOCK_FREQ) with 1475. change (18446744074 / CLOCK_FREQ) with 1475.
  change (((18446744073 *w NSEC_PER_SEC) / CLOCK_FREQ) mod NSEC_PER_SEC) with 739525840.
  change (((18446744074 *w NSEC_PER_SEC) / CLOCK_FREQ) mod NSEC_PER_SEC) with 23. lia.
Qed.

Lemma clock_realtime_runs_backwards_witness :
  ns_of (clock_gettime_value 1749900000 0 18446744074) <
  ns_of (clock_gettime_value 1749900000 0 18446744073).
Proof.
  assert (H : 0 <= 1749900000 < 2 ^ 63) by lia.
  exact (proj1 (clock_realtime_runs_backwards 1749900000 H)).
Defined.

(** [gettimeofday] divides the counter by 12 ticks a microsecond instead of
    12.5: after [s] seconds of uptime it is [s / 24] seconds ahead. *)
Lemma gettimeofday_drifts (boot_offset s : Z) (Hs : 0 <= s < 2 ^ 32) (Hb : 0 <= boot_offset < 2 ^ 43) :
  us_of (gettimeofday_value boot_offset (s * CLOCK_FREQ)) =
  (s + boot_offset) * 1000000 + s * 1000000 / 24.
Proof.
  unfold gettimeofday_value, current_time, uptime, get_time_sec, get_time_us, us_of.
  cbn [tvl_sec tvl_usec]. unfold CLOCK_FREQ, USEC_PER_SEC.
  replace (s * 12500000 / 12500000) with s by lia.
  change (12500000 / 1000000) with 12.
  replace (s * 12500000 / 12) with (s * 1000000 + s * 1000000 / 24) by lia.
  wrap_simpl. lia.
Qed.

(** ** Interval timers *)

Definition elapse (i : nat) (sig : Z) (ds : list TimeVal) (a : Acct) : Acct :=
  foldl (fun a d => update_itimer_if_exists i sig d a) a ds.
Definition total_us (ds : list TimeVal) : Z := foldr (fun d n => us_of d + n) 0 ds.

Lemma tv_is_zero_us t : tv_ok t -> tv_is_zero t = (us_of t =? 0).
Proof. intros. unfold tv_is_zero. bool_cases; simpl; time_unfold; lia. Qed.

Lemma tv_sub_is_short a b : tv_short a -> tv_short b -> tv_short (tv_sub a b).
Proof.
  intros Ha Hb. split; [apply tv_sub_ok |]. pose proof (tv_sub_short a b Ha Hb) as H.
  pose proof (tv_sub_ok a b) as Hok. revert H Hok. generalize (tv_sub a b). intros c.
  time_unfold. lia.
Qed.

Lemma total_us_nonneg ds : Forall tv_short ds -> 0 <= total_us ds.
Proof. induction 1; simpl; [lia | time_unfold; lia]. Qed.

(** One interval, on a timer that is running: it counts down, or fires. *)
Lemma update_itimer_step i sig d a I v :
  tv_short v -> tv_short d -> 0 < us_of v -> itimers a !! i = Some (mkIT I v) ->
  let a' := update_itimer_if_exists i sig d a in
  if us_of v <=? us_of d
  then itimers a' !! i = Some (mkIT I I) /\ acct_pending a' = Z.lor (acct_pending a) sig
  else exists v', itimers a' !! i = Some (mkIT I v') /\ tv_short v' /\
         us_of v' = us_of v - us_of d /\ acct_pending a' = acct_pending a.
Proof.
  intros Hv Hd Hpos Hi. cbv zeta. unfold update_itimer_if_exists. rewrite Hi.
  cbn [it_value it_interval].
  pose proof (tv_sub_is_short _ _ Hv Hd) as Hs. pose proof (tv_sub_short _ _ Hv Hd) as Hus.
  rewrite !tv_is_zero_us by (apply Hv || apply Hs).
  destruct (Z.eqb_spec (us_of v) 0); [lia |]. cbn [negb]. apply lookup_lt_Some in Hi.
  destruct (Z.eqb_spec (us_of (tv_sub v d)) 0), (Z.leb_spec (us_of v) (us_of d)); try lia;
    cbn [itimers acct_pending]; rewrite list_lookup_insert_eq by done; [done |].
  exists (tv_sub v d). split_and!; [done | done | lia | done].
Qed.

(** C26: An interval timer fires on time: armed with [v], it counts the elapsed
    intervals down and raises nothing while their sum is below [v]; the
    interval that reaches [v] raises its signal and re-arms it with its period
    (a zero period leaves it off). *)
Theorem itimer_fires_on_time (i : nat) (sig : Z) (ds : list TimeVal) (d : TimeVal)
    (a : Acct) (I v : TimeVal)
    (Hv : tv_short v) (Hds : Forall tv_short ds) (Hd : tv_short d)
    (Hi : itimers a !! i = Some (mkIT I v)) (Hsum : total_us ds < us_of v) :
  (exists v', itimers (elapse i sig ds a) !! i = Some (mkIT I v') /\
     us_of v' = us_of v - total_us ds /\ acct_pending (elapse i sig ds a) = acct_pending a) /\
  (us_of v <= total_us ds + us_of d ->
     itimers (elapse i sig (ds ++ [d]) a) !! i = Some (mkIT I I) /\
     acct_pending (elapse i sig (ds ++ [d]) a) = Z.lor (acct_pending a) sig).
Proof.
  revert a v Hv Hi Hsum. induction Hds as [| x ds Hx Hds IH]; intros a v Hv Hi Hsum.
  - cbn in Hsum |- *. split; [exists v; split_and!; [done | lia | done] |]. intros Hle.
    pose proof (update_itimer_step i sig d a I v Hv Hd ltac:(lia) Hi) as H. cbv zeta in H.
    destruct (Z.leb_spec (us_of v) (us_of d)); [exact H | lia].
  - cbn [total_us foldr] in Hsum. fold (total_us ds) in Hsum.
    pose proof (total_us_nonneg ds Hds).
    assert (0 <= us_of x) by (time_unfold; lia).
    pose proof (update_itimer_step i sig x a I v Hv Hx ltac:(lia) Hi) as Hst. cbv zeta in Hst.
    destruct (Z.leb_spec (us_of v) (us_of x)); [lia |].
    destruct Hst as (v1 & Hi1 & Hv1 & Hus1 & Hp1).
    destruct (IH _ v1 Hv1 Hi1 ltac:(lia)) as [IH1 IH2].
    cbn [elapse foldl app total_us foldr]. fold (total_us ds).
    fold (elapse i sig ds (update_itimer_if_exists i sig x a)).
    fold (elapse i sig (ds ++ [d]) (update_itimer_if_exists i sig x a)).
    rewrite Hp1 in IH1, IH2. split.
    + destruct IH1 as (v' & ? & ? & ?). exists v'. split_and!; [done | lia | done].
    + intros Hle. apply IH2. lia.
Qed.

Definition demo_acct : Acct :=
  mkAcct tv_new tv_new tv_new tv_new [mkIT (mkTV 1 0) (mkTV 2 500000); mkIT tv_new tv_new;
    mkIT tv_new tv_new] 0.

Lemma itimer_fires_on_time_witness :
  acct_pending (elapse 0 SIGALRM [mkTV 1 0; mkTV 1 499999; mkTV 0 3] demo_acct) = SIGALRM.
Proof.
  assert (Hv : tv_short (mkTV 2 500000)) by (time_unfold; lia).
  assert (Hds : Forall tv_short [mkTV 1 0; mkTV 1 499999]).
  { repeat (constructor; [time_unfold; lia |]). constructor. }
  assert (Hd : tv_short (mkTV 0 3)) by (time_unfold; lia).
  refine (proj2 (proj2 (itimer_fires_on_time 0 SIGALRM _ _ demo_acct (mkTV 1 0)
    (mkTV 2 500000) Hv Hds Hd eq_refl _) _)); vm_compute; [reflexivity | discriminate].
Defined.
