(* ===== verification/Sched.v ===== *)
(** * The scheduler

    [task/manager.rs], [task/processor.rs] and the scheduling functions of
    [task/mod.rs]: the ready and interruptible queues, wait queues, the queue of
    timed waits, and the processor. A task is named by the identity of its
    control block; [tcbs] holds the blocks that are alive, so upgrading a weak
    reference is a lookup. One hart runs ([main.rs] starts no other) and the
    kernel is not preempted, so that an operation is one step.

    The invariant [sched_ok] ties the status of a task to the queue it is in. *)

From S2P Require Import Prelude Timer.
#[local] Open Scope kernel_scope.

(** ** Tasks ([task/task.rs]) *)

Inductive TaskStatus := Ready | Running | Zombie | Interruptible.
#[export] Instance TaskStatus_eq_dec : EqDecision TaskStatus.
Proof. solve_decision. Defined.

(** The fields the scheduler, futexes, signals and exit read and write. *)
Record TaskControlBlockInner := mkInner {
  sigmask : Z; sigpending : Z; task_status : TaskStatus; parent : option Z;
  children : list Z; exit_code : Z; clear_child_tid : Z
}.

(** [vm] and [futex] are handles of shared objects. *)
Record TaskControlBlock := mkTask {
  pid : Z; tid : Z; tgid : Z; exit_signal : Z; vm : Z; futex : Z;
  inner : TaskControlBlockInner
}.

Definition set_inner (t : TaskControlBlock) (i : TaskControlBlockInner) : TaskControlBlock :=
  mkTask (pid t) (tid t) (tgid t) (exit_signal t) (vm t) (futex t) i.
Definition set_task_status (st : TaskStatus) (t : TaskControlBlock) : TaskControlBlock :=
  let i := inner t in
  set_inner t (mkInner (sigmask i) (sigpending i) st (parent i) (children i) (exit_code i)
                 (clear_child_tid i)).
Definition add_signal (sig : Z) (t : TaskControlBlock) : TaskControlBlock :=
  let i := inner t in
  set_inner t (mkInner (sigmask i) (Z.lor (sigpending i) sig) (task_status i) (parent i)
                 (children i) (exit_code i) (clear_child_tid i)).

(** ** [ActiveTracker]: a bitmap of process numbers *)

Abbreviation ActiveTracker := (list Z).
Definition SYSTEM_TASK_LIMIT : Z := 128.

Definition at_new : ActiveTracker := replicate (Z.to_nat ((SYSTEM_TASK_LIMIT + 63) / 64)) 0.

Definition ensure_capacity (b : ActiveTracker) (p : Z) : ActiveTracker :=
  let needed := p / 64 + 1 in
  if vlen b <? needed then vec_resize b needed 0 else b.

Definition check_active (b : ActiveTracker) (p : Z) : bool :=
  match b !! Z.to_nat (p / 64) with
  | None => false
  | Some w => negb (Z.land w (1 <<w (p mod 64)) =? 0)
  end.
Definition check_inactive (b : ActiveTracker) (p : Z) : bool :=
  match b !! Z.to_nat (p / 64) with
  | None => true
  | Some w => Z.land w (1 <<w (p mod 64)) =? 0
  end.
Definition mark_active (b : ActiveTracker) (p : Z) : ActiveTracker :=
  let b := ensure_capacity b p in
  alter (fun w => Z.lor w (1 <<w (p mod 64))) (Z.to_nat (p / 64)) b.
Definition mark_inactive (b : ActiveTracker) (p : Z) : ActiveTracker :=
  let b := ensure_capacity b p in
  alter (fun w => Z.land w (not64 (1 <<w (p mod 64)))) (Z.to_nat (p / 64)) b.

(** ** The state *)

Record TaskManager := mkTM {
  ready_queue : list Z; interruptible_queue : list Z; active_tracker : ActiveTracker
}.

Record TimeoutWaiter := mkWaiter { w_task : Z; w_timeout : TimeSpec }.

Abbreviation WaitQueue := (list Z).
Abbreviation Futex := (gmap Z (list Z)).

(** [handles]: the tasks whose kernel stack keeps an [Arc] of their own across a
    switch, as the [task] of [sys_wait4] and of [sys_read] on a pipe. *)
Record Sys := mkSys {
  tcbs : gmap Z TaskControlBlock;
  manager : TaskManager;
  current : option Z;
  timeouts : list TimeoutWaiter;
  futexes : gmap Z Futex;
  handles : gset Z
}.

Definition set_tcbs (s : Sys) (m : gmap Z TaskControlBlock) : Sys :=
  mkSys m (manager s) (current s) (timeouts s) (futexes s) (handles s).
Definition set_manager (s : Sys) (m : TaskManager) : Sys :=
  mkSys (tcbs s) m (current s) (timeouts s) (futexes s) (handles s).
Definition set_current (s : Sys) (c : option Z) : Sys :=
  mkSys (tcbs s) (manager s) c (timeouts s) (futexes s) (handles s).
Definition set_timeouts (s : Sys) (h : list TimeoutWaiter) : Sys :=
  mkSys (tcbs s) (manager s) (current s) h (futexes s) (handles s).
Definition set_futexes (s : Sys) (f : gmap Z Futex) : Sys :=
  mkSys (tcbs s) (manager s) (current s) (timeouts s) f (handles s).
Definition set_handles (s : Sys) (h : gset Z) : Sys :=
  mkSys (tcbs s) (manager s) (current s) (timeouts s) (futexes s) h.
Definition update_task (s : Sys) (p : Z) (f : TaskControlBlock -> TaskControlBlock) : Sys :=
  set_tcbs s (alter f p (tcbs s)).

Definition ready (s : Sys) : list Z := ready_queue (manager s).
Definition interruptible (s : Sys) : list Z := interruptible_queue (manager s).
Definition status_of (s : Sys) (p : Z) : option TaskStatus :=
  (fun t => task_status (inner t)) <$> tcbs s !! p.
Definition pid_of (s : Sys) (p : Z) : option Z := pid <$> tcbs s !! p.
Definition tgid_of (s : Sys) (p : Z) : option Z := tgid <$> tcbs s !! p.

Definition tm_new : TaskManager := mkTM [] [] at_new.

(** ** [TaskManager] *)

Definition add_task (s : Sys) (p : Z) : Sys :=
  let m := manager s in
  set_manager s (mkTM (ready_queue m ++ [p]) (interruptible_queue m) (active_tracker m)).

(** [None] here: the queue is empty. The queues hold live tasks. *)
Definition fetch (s : Sys) : option (Z * Sys) :=
  let m := manager s in
  match ready_queue m with
  | [] => None
  | p :: rest =>
      let tracker := match pid_of s p with
                     | Some n => mark_active (active_tracker m) n
                     | None => active_tracker m
                     end in
      Some (p, set_manager s (mkTM rest (interruptible_queue m) tracker))
  end.

Definition add_interruptible (s : Sys) (p : Z) : Sys :=
  let m := manager s in
  set_manager s (mkTM (ready_queue m) (interruptible_queue m ++ [p]) (active_tracker m)).

Definition drop_interruptible (s : Sys) (p : Z) : Sys :=
  let m := manager s in
  set_manager s (mkTM (ready_queue m) (filter (fun q => q <> p) (interruptible_queue m))
                   (active_tracker m)).

(** The first task of both queues that satisfies a test. *)
Definition find_task (s : Sys) (f : Z -> bool) : option Z :=
  snd <$> list_find (fun q => f q = true) (ready s ++ interruptible s).
Definition find_by_pid (s : Sys) (n : Z) : option Z :=
  find_task s (fun q => bool_decide (pid_of s q = Some n)).
Definition find_by_tgid (s : Sys) (n : Z) : option Z :=
  find_task s (fun q => bool_decide (tgid_of s q = Some n)).

Inductive WaitQueueError := AlreadyWaken.

Definition try_wake_interruptible (s : Sys) (p : Z) : result unit WaitQueueError * Sys :=
  let s := drop_interruptible s p in
  match pid_of s p ≫= find_by_pid s with
  | None => (Ok tt, add_task s p)
  | Some _ => (Err AlreadyWaken, s)
  end.
Definition wake_interruptible (s : Sys) (p : Z) : Sys := snd (try_wake_interruptible s p).

Definition procs_count (s : Sys) : Z :=
  wrap16 (wrap16 (vlen (ready s)) + wrap16 (vlen (interruptible s))).

(** ** Wait queues *)

(** The [while let] of [wake_at_most]. [held] is a task whose inner lock the
    caller holds: locking it again never returns ([None]). *)
Fixpoint wake_loop (held : option Z) (q : WaitQueue) (limit cnt : Z) (s : Sys)
    : option (WaitQueue * Z * Sys) :=
  match q with
  | [] => Some ([], cnt, s)
  | p :: q =>
      match status_of s p with
      | None => wake_loop held q limit cnt s
      | Some st =>
          if decide (held = Some p) then None
          else if decide (st = Interruptible) then
            let s := update_task s p (set_task_status Ready) in
            let '(r, s) := try_wake_interruptible s p in
            let cnt := match r with Ok _ => cnt +w 1 | Err _ => cnt end in
            if cnt =? limit then Some (q, cnt, s) else wake_loop held q limit cnt s
          else wake_loop held q limit cnt s
      end
  end.

Definition wake_at_most (held : option Z) (q : WaitQueue) (limit : Z) (s : Sys)
    : option (WaitQueue * Z * Sys) :=
  if limit =? 0 then Some (q, 0, s) else wake_loop held q limit 0 s.
Definition wake_all (held : option Z) (q : WaitQueue) (s : Sys) : option (WaitQueue * Z * Sys) :=
  wake_at_most held q usize_max s.

(** ** Timed waits *)

(** [Ord for TimeoutWaiter], reversed so that the greatest is the earliest. *)
Definition waiter_cmp (a b : TimeoutWaiter) : comparison :=
  CompOpp (ts_cmp (w_timeout a) (w_timeout b)).

Definition wait_with_timeout (s : Sys) (p : Z) (timeout : TimeSpec) : Sys :=
  set_timeouts s (mkWaiter p timeout :: timeouts s).

(** [BinaryHeap::pop] takes out an element no other is greater than. *)
Definition pop_ok (pop : list TimeoutWaiter -> option (TimeoutWaiter * list TimeoutWaiter)) : Prop :=
  forall h, match pop h with
            | None => h = []
            | Some (x, r) => h ≡ₚ x :: r /\ forall y, y ∈ r -> waiter_cmp y x <> Gt
            end.

Section timed.
Context (pop : list TimeoutWaiter -> option (TimeoutWaiter * list TimeoutWaiter)).

(** The fuel is the number of waiters and one for the last test. *)
Fixpoint wake_expired_loop (fuel : nat) (now : TimeSpec) (s : Sys) : option Sys :=
  match fuel with
  | O => None
  | S fuel =>
      match pop (timeouts s) with
      | None => Some s
      | Some (x, h) =>
          if ts_gt (w_timeout x) now then Some (set_timeouts s (x :: h))
          else
            let s := set_timeouts s h in
            if decide (status_of s (w_task x) = Some Interruptible) then
              let s := update_task s (w_task x) (set_task_status Ready) in
              wake_expired_loop fuel now (wake_interruptible s (w_task x))
            else wake_expired_loop fuel now s
      end
  end.
Definition do_wake_expired (tick : Z) (s : Sys) : option Sys :=
  wake_expired_loop (S (length (timeouts s))) (ts_now tick) s.

(** ** The processor *)

(** One turn of [run_tasks]: switch to the next ready task, or wake the timed
    waits that are over. *)
Definition run_tasks_turn (tick : Z) (s : Sys) : option Sys :=
  match fetch s with
  | Some (p, s) => Some (set_current (update_task s p (set_task_status Running)) (Some p))
  | None => do_wake_expired tick s
  end.
End timed.

Definition take_current (s : Sys) : option (Z * Sys) :=
  (fun p => (p, set_current s None)) <$> current s.

Definition suspend_current (s : Sys) : option Sys :=
  '(p, s) ← take_current s;
  Some (add_task (update_task s p (set_task_status Ready)) p).

Definition block_current (s : Sys) : option Sys :=
  '(p, s) ← take_current s;
  Some (add_interruptible (update_task s p (set_task_status Interruptible)) p).

(** [find_task_by_pid] and [find_task_by_tgid]: the current task first. *)
Definition find_task_by_pid (s : Sys) (n : Z) : option (option Z) :=
  p ← current s;
  Some (if decide (pid_of s p = Some n) then Some p else find_by_pid s n).
Definition find_task_by_tgid (s : Sys) (n : Z) : option (option Z) :=
  p ← current s;
  Some (if decide (tgid_of s p = Some n) then Some p else find_by_tgid s n).

(** ** The invariant

    A task is in exactly the queue its status names, once, and no two live
    tasks share a process number. *)
Record sched_ok (s : Sys) : Prop := {
  ok_ready p : p ∈ ready s <-> status_of s p = Some Ready;
  ok_interruptible p : p ∈ interruptible s <-> status_of s p = Some Interruptible;
  ok_current p : current s = Some p <-> status_of s p = Some Running;
  ok_ready_once : NoDup (ready s);
  ok_interruptible_once : NoDup (interruptible s);
  ok_pids p q n : pid_of s p = Some n -> pid_of s q = Some n -> p = q
}.

(** Only queues, the processor, statuses and process numbers matter. *)
Lemma sched_ok_ext s s' :
  sched_ok s -> ready s' = ready s -> interruptible s' = interruptible s ->
  current s' = current s -> (forall p, status_of s' p = status_of s p) ->
  (forall p, pid_of s' p = pid_of s p) -> sched_ok s'.
Proof.
  intros [H1 H2 H3 H4 H5 H6] Hr Hi Hc Hs Hp.
  split; intros; rewrite ?Hr, ?Hi, ?Hc, ?Hs in *; eauto.
  rewrite Hp in *. eauto.
Qed.

Lemma status_set s p st q :
  status_of (update_task s p (set_task_status st)) q =
  if decide (q = p) then (fun _ => st) <$> status_of s p else status_of s q.
Proof.
  unfold status_of, update_task, set_tcbs. cbn [tcbs].
  destruct (decide (q = p)) as [-> | Hne].
  - rewrite lookup_alter_eq. by destruct (tcbs s !! p).
  - by rewrite lookup_alter_ne.
Qed.

Lemma pid_update s p f q :
  (forall t, pid (f t) = pid t) -> pid_of (update_task s p f) q = pid_of s q.
Proof.
  intros Hf. unfold pid_of, update_task, set_tcbs. cbn [tcbs].
  destruct (decide (q = p)) as [-> | Hne].
  - rewrite lookup_alter_eq. destruct (tcbs s !! p); simpl; congruence.
  - by rewrite lookup_alter_ne.
Qed.

Lemma pid_set s p st q : pid_of (update_task s p (set_task_status st)) q = pid_of s q.
Proof. by apply pid_update. Qed.

Lemma status_update s p f q :
  (forall t, task_status (inner (f t)) = task_status (inner t)) ->
  status_of (update_task s p f) q = status_of s q.
Proof.
  intros Hf. unfold status_of, update_task, set_tcbs. cbn [tcbs].
  destruct (decide (q = p)) as [-> | Hne].
  - rewrite lookup_alter_eq. destruct (tcbs s !! p); simpl; congruence.
  - by rewrite lookup_alter_ne.
Qed.

(** An update that keeps statuses and process numbers keeps the invariant. *)
Lemma sched_ok_update s p f :
  (forall t, pid (f t) = pid t) ->
  (forall t, task_status (inner (f t)) = task_status (inner t)) ->
  sched_ok s -> sched_ok (update_task s p f).
Proof.
  intros Hp Hst H. apply (sched_ok_ext s); try done; intros q.
  - by apply status_update.
  - by apply pid_update.
Qed.

Lemma status_pid s p st : status_of s p = Some st -> exists n, pid_of s p = Some n.
Proof. unfold status_of, pid_of. destruct (tcbs s !! p); [eauto | done]. Qed.

(** What waking a sleeping task does. *)
Definition awaken (s : Sys) (p : Z) : Sys :=
  mkSys (alter (set_task_status Ready) p (tcbs s))
    (mkTM (ready s ++ [p]) (filter (fun q => q <> p) (interruptible s))
       (active_tracker (manager s)))
    (current s) (timeouts s) (futexes s) (handles s).

Lemma status_awaken s p q :
  status_of (awaken s p) q =
  if decide (q = p) then (fun _ => Ready) <$> status_of s p else status_of s q.
Proof. exact (status_set s p Ready q). Qed.

Lemma pid_awaken s p q : pid_of (awaken s p) q = pid_of s q.
Proof. exact (pid_set s p Ready q). Qed.

Lemma find_by_pid_None s n :
  (forall q, q ∈ ready s \/ q ∈ interruptible s -> pid_of s q <> Some n) -> find_by_pid s n = None.
Proof.
  intros H. unfold find_by_pid, find_task.
  destruct (list_find _ _) as [[i q] |] eqn:E; [| done].
  apply list_find_Some in E as (Hq & Hp & _). apply bool_decide_eq_true in Hp.
  apply list_elem_of_lookup_2 in Hq. rewrite elem_of_app in Hq. by destruct (H q Hq).
Qed.

Lemma awaken_ok s p :
  sched_ok s -> status_of s p = Some Interruptible -> sched_ok (awaken s p).
Proof.
  intros H Hp. split.
  - intros q. rewrite status_awaken. change (ready (awaken s p)) with (ready s ++ [p]).
    rewrite elem_of_app, list_elem_of_singleton, (ok_ready s H), Hp.
    destruct (decide (q = p)); naive_solver.
  - intros q. rewrite status_awaken.
    change (interruptible (awaken s p)) with (filter (fun q => q <> p) (interruptible s)).
    rewrite list_elem_of_filter, (ok_interruptible s H), Hp.
    destruct (decide (q = p)); naive_solver.
  - intros q. rewrite status_awaken. change (current (awaken s p)) with (current s).
    rewrite (ok_current s H), Hp. destruct (decide (q = p)); naive_solver.
  - change (ready (awaken s p)) with (ready s ++ [p]). apply NoDup_app. split_and!.
    + apply H.
    + intros q Hq ->%list_elem_of_singleton. apply (ok_ready s H) in Hq. congruence.
    + apply NoDup_singleton.
  - apply NoDup_filter, H.
  - intros q r n. rewrite !pid_awaken. apply H.
Qed.

(** Setting a sleeping task to [Ready] and waking it always succeeds. *)
Lemma wake_one s p :
  sched_ok s -> status_of s p = Some Interruptible ->
  try_wake_interruptible (update_task s p (set_task_status Ready)) p = (Ok tt, awaken s p).
Proof.
  intros H Hp. destruct (status_pid s p _ Hp) as [n Hn]. unfold try_wake_interruptible.
  set (s1 := drop_interruptible _ _).
  assert (Hpid : forall q, pid_of s1 q = pid_of s q) by (intros q; exact (pid_set s p Ready q)).
  assert (HN : pid_of s1 p ≫= find_by_pid s1 = None).
  { rewrite Hpid, Hn. cbn [mbind option_bind]. apply find_by_pid_None. intros q Hq Hqn.
    rewrite Hpid in Hqn. assert (q = p) as -> by (by eapply ok_pids).
    destruct Hq as [Hq | Hq].
    - apply (ok_ready s H) in Hq. congruence.
    - apply list_elem_of_filter in Hq as [? _]. done. }
  by rewrite HN.
Qed.

(** ** Waking a wait queue *)

(** The tasks of a wait queue that sleep, each at its first entry. *)
Fixpoint waiting (s : Sys) (q : WaitQueue) : list Z :=
  match q with
  | [] => []
  | p :: q =>
      if decide (status_of s p = Some Interruptible)
      then p :: filter (fun x => x <> p) (waiting s q) else waiting s q
  end.

Lemma elem_of_waiting s q p :
  p ∈ waiting s q <-> p ∈ q /\ status_of s p = Some Interruptible.
Proof.
  induction q as [| x q IH]; cbn [waiting]; [rewrite elem_of_nil; tauto |].
  destruct (decide (status_of s x = Some Interruptible)) as [Hx | Hx].
  - rewrite !elem_of_cons, list_elem_of_filter, IH.
    destruct (decide (p = x)); naive_solver.
  - rewrite elem_of_cons, IH. naive_solver.
Qed.

Lemma waiting_NoDup s q : NoDup (waiting s q).
Proof.
  induction q as [| x q IH]; cbn [waiting]; [constructor |].
  destruct (decide (status_of s x = Some Interruptible)); [| done].
  constructor; [| by apply NoDup_filter]. rewrite list_elem_of_filter. naive_solver.
Qed.

Lemma waiting_length s q : (length (waiting s q) <= length q)%nat.
Proof.
  induction q as [| x q IH]; cbn [waiting]; [done |].
  destruct (decide (status_of s x = Some Interruptible)); cbn [length]; [| lia].
  pose proof (length_filter (fun y => y <> x) (waiting s q)). lia.
Qed.

Lemma waiting_awaken s p q : waiting (awaken s p) q = filter (fun x => x <> p) (waiting s q).
Proof.
  induction q as [| x q IH]; simpl; [done |]. rewrite status_awaken.
  destruct (decide (x = p)) as [-> | Hne].
  - destruct (decide (status_of s p = Some Interruptible)) as [Hp | Hp].
    + rewrite Hp. rewrite decide_False by done. rewrite filter_cons_False by naive_solver.
      rewrite IH. symmetry. rewrite list_filter_filter_l; [done | naive_solver].
    + rewrite decide_False; [done |]. destruct (status_of s p); naive_solver.
  - destruct (decide (status_of s x = Some Interruptible)); [| done].
    rewrite filter_cons_True by done. f_equal. rewrite IH.
    rewrite !list_filter_filter. apply list_filter_iff. naive_solver.
Qed.

Lemma list_filter_all {A} (P : A -> Prop) `{forall x, Decision (P x)} (l : list A) :
  (forall x, x ∈ l -> P x) -> filter P l = l.
Proof.
  induction l as [| x l IH]; intros HP; [done |].
  rewrite filter_cons_True by (apply HP; left). f_equal. apply IH. intros y Hy. apply HP. by right.
Qed.

Definition awaken_all (s : Sys) (ps : list Z) : Sys := foldl awaken s ps.

Lemma awaken_all_queues s ps :
  ready (awaken_all s ps) = ready s ++ ps /\
  interruptible (awaken_all s ps) = filter (fun q => q ∉ ps) (interruptible s) /\
  current (awaken_all s ps) = current s.
Proof.
  revert s. induction ps as [| p ps IH]; intros s; cbn [awaken_all foldl].
  - rewrite app_nil_r. split_and!; [done | | done]. symmetry. apply list_filter_all.
    intros q _. apply not_elem_of_nil.
  - destruct (IH (awaken s p)) as (Hr & Hi & Hc). unfold awaken_all in *.
    rewrite Hr, Hi, Hc. cbn. rewrite <- app_assoc. split_and!; [done | | done].
    change (interruptible (awaken s p)) with (filter (fun q => q <> p) (interruptible s)).
    rewrite list_filter_filter. apply list_filter_iff. intros q. rewrite not_elem_of_cons. tauto.
Qed.

Lemma status_awaken_all s ps q :
  (forall p, p ∈ ps -> is_Some (status_of s p)) ->
  status_of (awaken_all s ps) q = if decide (q ∈ ps) then Some Ready else status_of s q.
Proof.
  revert s. induction ps as [| p ps IH]; intros s Hps; cbn [awaken_all foldl].
  - by rewrite decide_False by apply not_elem_of_nil.
  - unfold awaken_all in *. rewrite IH.
    + rewrite status_awaken. destruct (Hps p ltac:(left)) as [st ->].
      destruct (decide (q ∈ ps)); [by rewrite decide_True by (by right) |].
      destruct (decide (q = p)) as [-> | Hne]; [by rewrite decide_True by (by left) |].
      rewrite decide_False; [done |]. by rewrite not_elem_of_cons.
    + intros x Hx. rewrite status_awaken. destruct (decide (x = p)) as [-> |].
      * destruct (Hps p ltac:(left)) as [st ->]. eauto.
      * apply Hps. by right.
Qed.

Lemma awaken_all_ok s ps :
  sched_ok s -> NoDup ps -> (forall p, p ∈ ps -> status_of s p = Some Interruptible) ->
  sched_ok (awaken_all s ps).
Proof.
  revert s. induction ps as [| p ps IH]; intros s H Hnd Hps; cbn [awaken_all foldl]; [done |].
  apply NoDup_cons in Hnd as [Hp Hnd].
  apply IH; [apply awaken_ok; [done |]; apply Hps; left | done |].
  intros q Hq. rewrite status_awaken, decide_False by congruence. apply Hps. by right.
Qed.

(** The loop from a count [cnt] wakes the first tasks it finds asleep, and stops
    behind the one that reaches the limit. *)
Lemma wake_loop_ok q limit cnt s :
  sched_ok s -> 0 <= cnt < limit -> cnt + vlen q < 2 ^ 64 ->
  let ps := take (Z.to_nat (limit - cnt)) (waiting s q) in
  exists q1 q2, q = q1 ++ q2 /\ waiting s q1 = ps /\
    (vlen ps < limit - cnt -> q2 = []) /\
    wake_loop None q limit cnt s = Some (q2, cnt + vlen ps, awaken_all s ps).
Proof.
  revert cnt s. induction q as [| p q IH]; intros cnt s H Hc Hl.
  { exists [], []. cbn [waiting]. rewrite take_nil. split_and!; [done.. |].
    cbn. by rewrite Z.add_0_r. }
  unfold vlen in Hl. cbn [length] in Hl. fold (@vlen Z) in Hl. cbn [waiting wake_loop].
  destruct (decide (status_of s p = Some Interruptible)) as [Hp | Hp].
  - rewrite Hp. rewrite decide_False by done. rewrite decide_True by done.
    rewrite wake_one by done. cbv beta iota.
    rewrite wrap64_small by (unfold vlen in *; lia).
    replace (Z.to_nat (limit - cnt)) with (S (Z.to_nat (limit - (cnt + 1)))) by lia.
    cbn [take]. rewrite <- waiting_awaken.
    destruct (Z.eqb_spec (cnt + 1) limit) as [He | Hne].
    + rewrite He, Z.sub_diag. change (Z.to_nat 0) with 0%nat. cbn [take]. exists [p], q.
      cbn [waiting]. rewrite decide_True by done. rewrite filter_nil.
      split_and!; [done | done | intros Hlt; unfold vlen in Hlt; cbn [length] in Hlt; lia |]. cbn. by rewrite <- He.
    + destruct (IH (cnt + 1) (awaken s p)) as (q1 & q2 & -> & Hw & Hlt & Hrun);
        [by apply awaken_ok | lia | unfold vlen in *; lia |].
      exists (p :: q1), q2. cbn [waiting]. rewrite decide_True by done.
      rewrite <- waiting_awaken, Hw. unfold vlen in *. cbn [length app] in *.
      split_and!; [done | done | intros; apply Hlt; lia |]. rewrite Hrun. cbn [awaken_all foldl].
      do 3 f_equal. lia.
  - destruct (IH cnt s) as (q1 & q2 & -> & Hw & Hlt & Hrun); [done | lia | unfold vlen in *; lia |].
    exists (p :: q1), q2. cbn [waiting]. rewrite decide_False by done. split_and!; try done.
    destruct (status_of s p); [| done]. rewrite decide_False by done.
    rewrite decide_False by naive_solver. done.
Qed.

Lemma wake_at_most_run q limit s :
  sched_ok s -> 0 <= limit -> vlen q < 2 ^ 64 ->
  let ps := take (Z.to_nat limit) (waiting s q) in
  exists q1 q2, q = q1 ++ q2 /\ waiting s q1 = ps /\
    (vlen ps < limit -> q2 = []) /\
    wake_at_most None q limit s = Some (q2, vlen ps, awaken_all s ps) /\
    sched_ok (awaken_all s ps).
Proof.
  intros H Hl Hq. cbv zeta. unfold wake_at_most.
  assert (Hok : sched_ok (awaken_all s (take (Z.to_nat limit) (waiting s q)))).
  { apply awaken_all_ok; [done | |].
    - eapply sublist_NoDup; [apply waiting_NoDup | apply sublist_take].
    - intros p Hp. apply elem_of_take in Hp as (i & Hi & _).
      apply list_elem_of_lookup_2 in Hi. by apply elem_of_waiting in Hi as [_ ?]. }
  destruct (Z.eqb_spec limit 0) as [-> | Hne].
  - exists [], q. change (Z.to_nat 0) with 0%nat in *. cbn [take] in *. split_and!; [done | done | intros Hlt; unfold vlen in Hlt; cbn [length] in Hlt; lia | done | done].
  - destruct (wake_loop_ok q limit 0 s H) as (q1 & q2 & Hq12 & Hw & Hlt & Hrun); [lia | lia |].
    rewrite Z.sub_0_r in *. exists q1, q2. by split_and!.
Qed.

(** C20: Waking a wait queue is exact. With the scheduler consistent,
    [wake_at_most] returns, wakes the first [limit] tasks of the queue that
    sleep (each once, in the order of the queue, at the end of the ready
    queue), changes the status of no other task, keeps the scheduler
    consistent, and returns how many it woke; and nobody is forgotten: a task of
    the queue that sleeps afterwards is still in the queue. *)
Theorem wake_at_most_fifo (s : Sys) (q : WaitQueue) (limit : Z)
    (Hok : sched_ok s) (Hl : 0 <= limit) (Hq : vlen q < 2 ^ 64) :
  exists q' s',
    wake_at_most None q limit s = Some (q', Z.min limit (vlen (waiting s q)), s') /\
    sched_ok s' /\ current s' = current s /\
    ready s' = ready s ++ take (Z.to_nat limit) (waiting s q) /\
    (forall p, status_of s' p = if decide (p ∈ take (Z.to_nat limit) (waiting s q))
                                then Some Ready else status_of s p) /\
    (forall p, p ∈ q -> status_of s' p = Some Interruptible -> p ∈ q').
Proof.
  destruct (wake_at_most_run q limit s Hok Hl Hq) as (q1 & q2 & -> & Hw & Hlt & Hrun & Hok').
  set (ps := take _ _) in *. exists q2, (awaken_all s ps).
  assert (Hst : forall p, status_of (awaken_all s ps) p =
                  if decide (p ∈ ps) then Some Ready else status_of s p).
  { intros p. apply status_awaken_all. intros x Hx. rewrite <- Hw in Hx.
    apply elem_of_waiting in Hx as [_ ->]. eauto. }
  destruct (awaken_all_queues s ps) as (Hr & _ & Hc). split_and!; try done.
  - rewrite Hrun. do 3 f_equal. unfold ps, vlen. rewrite length_take. lia.
  - intros p Hp. rewrite Hst. destruct (decide (p ∈ ps)) as [| Hnp]; [done |]. intros Hi.
    apply elem_of_app in Hp as [Hp | Hp]; [| done]. destruct Hnp. rewrite <- Hw.
    by apply elem_of_waiting.
Qed.

(** ** Timed waits *)

Definition expired (now : TimeSpec) (w : TimeoutWaiter) : Prop := ts_gt (w_timeout w) now = false.
#[export] Instance expired_dec now w : Decision (expired now w).
Proof. unfold expired. apply _. Defined.

(** When the earliest waiter is not over, none is. *)
Lemma earliest_not_expired x y now :
  waiter_cmp y x <> Gt -> ~ expired now x -> ~ expired now y.
Proof.
  unfold waiter_cmp, expired, ts_gt, ts_cmp.
  destruct x as [? [xs xn]], y as [? [ys yn]], now as [ns nn]. cbn [w_timeout tv_sec tv_nsec].
  destruct (Z.compare_spec ys xs), (Z.compare_spec xs ns), (Z.compare_spec ys ns),
    (Z.compare_spec yn xn), (Z.compare_spec xn nn), (Z.compare_spec yn nn);
    cbn [CompOpp]; intros Ha Hb Hc; congruence || lia.
Qed.

Lemma set_timeouts_awaken s p h : set_timeouts (awaken s p) h = awaken (set_timeouts s h) p.
Proof. done. Qed.

Lemma set_timeouts_awaken_all s ps h :
  set_timeouts (awaken_all s ps) h = awaken_all (set_timeouts s h) ps.
Proof. revert s. induction ps as [| p ps IH]; intros s; [done |]. apply (IH (awaken s p)). Qed.

Lemma set_timeouts_ok s h : sched_ok s -> sched_ok (set_timeouts s h).
Proof. intros H. by apply (sched_ok_ext s). Qed.

Section expiry.
Context (pop : list TimeoutWaiter -> option (TimeoutWaiter * list TimeoutWaiter)).
Context (Hpop : pop_ok pop).

(** What the loop does: it wakes the sleeping tasks [ps] of the waiters that are
    over and leaves the other waiters. *)
Definition expiry (now : TimeSpec) (s s' : Sys) : Prop :=
  exists ps h, s' = set_timeouts (awaken_all s ps) h /\ NoDup ps /\
    (forall p, p ∈ ps <-> status_of s p = Some Interruptible /\
       exists w, w ∈ timeouts s /\ w_task w = p /\ expired now w) /\
    h ≡ₚ filter (fun w => ~ expired now w) (timeouts s).

Lemma expiry_stop now s x h :
  timeouts s ≡ₚ x :: h -> (forall y, y ∈ h -> waiter_cmp y x <> Gt) -> ~ expired now x ->
  expiry now s (set_timeouts s (x :: h)).
Proof.
  intros Hperm Hmax Hx. assert (Hall : forall w, w ∈ timeouts s -> ~ expired now w).
  { intros w. rewrite Hperm, elem_of_cons. intros [-> | Hw]; [done |].
    by apply (earliest_not_expired x), Hx; apply Hmax. }
  exists [], (x :: h). split_and!; [done | constructor | |].
  - intros p. split; [by intros ?%elem_of_nil |]. intros (_ & w & Hw & _ & He).
    by destruct (Hall w Hw).
  - rewrite <- Hperm. by rewrite list_filter_all.
Qed.

(** A waiter that is over whose task is not asleep is dropped. *)
Lemma expiry_skip now s x h s' :
  timeouts s ≡ₚ x :: h -> expired now x -> status_of s (w_task x) <> Some Interruptible ->
  expiry now (set_timeouts s h) s' -> expiry now s s'.
Proof.
  intros Hperm Hx Hst (ps & h' & -> & Hnd & Hps & Hh). exists ps, h'.
  split_and!; [by rewrite !set_timeouts_awaken_all | done | |].
  - intros p. rewrite Hps. change (status_of (set_timeouts s h) p) with (status_of s p).
    cbn [timeouts set_timeouts]. split; intros (Hp & w & Hw & Hwt & He); (split; [done |]).
    + exists w. rewrite Hperm, elem_of_cons. eauto.
    + rewrite Hperm, elem_of_cons in Hw. destruct Hw as [-> | Hw]; [congruence | eauto].
  - rewrite Hh, Hperm. cbn [timeouts set_timeouts]. by rewrite filter_cons_False by tauto.
Qed.

Lemma expiry_wake now s x h s' :
  timeouts s ≡ₚ x :: h -> expired now x -> status_of s (w_task x) = Some Interruptible ->
  expiry now (awaken (set_timeouts s h) (w_task x)) s' -> expiry now s s'.
Proof.
  intros Hperm Hx Hst (ps & h' & -> & Hnd & Hps & Hh). exists (w_task x :: ps), h'.
  cbn [timeouts awaken set_timeouts] in *.
  assert (Hnot : w_task x ∉ ps).
  { intros [Hi _]%Hps. rewrite status_awaken, decide_True in Hi by done.
    change (status_of (set_timeouts s h) (w_task x)) with (status_of s (w_task x)) in Hi.
    by rewrite Hst in Hi. }
  split_and!; [by rewrite !set_timeouts_awaken_all | by constructor | |].
  - intros p. rewrite elem_of_cons, Hps, status_awaken.
    change (status_of (set_timeouts s h) p) with (status_of s p).
    change (status_of (set_timeouts s h) (w_task x)) with (status_of s (w_task x)).
    split.
    + intros [-> | (Hp & w & Hw & Hwt & He)].
      * split; [done |]. exists x. rewrite Hperm, elem_of_cons. eauto.
      * destruct (decide (p = w_task x)); [by rewrite Hst in Hp |]. split; [done |].
        exists w. rewrite Hperm, elem_of_cons. eauto.
    + intros (Hp & w & Hw & Hwt & He). destruct (decide (p = w_task x)); [by left |]. right.
      split; [done |]. exists w. rewrite Hperm, elem_of_cons in Hw.
      destruct Hw as [-> | Hw]; [congruence | done].
  - rewrite Hh, Hperm. by rewrite filter_cons_False by tauto.
Qed.

Lemma wake_expired_loop_ok fuel now s :
  sched_ok s -> (length (timeouts s) < fuel)%nat ->
  exists s', wake_expired_loop pop fuel now s = Some s' /\ sched_ok s' /\ expiry now s s'.
Proof.
  revert s. induction fuel as [| fuel IH]; intros s H Hf; [lia |]. cbn [wake_expired_loop].
  pose proof (Hpop (timeouts s)) as Hp. destruct (pop (timeouts s)) as [[x h] |].
  2: { exists s. split_and!; [done | done |]. exists [], []. split_and!;
       [by destruct s; cbn in *; subst | constructor | | by rewrite Hp].
       intros p. split; [by intros ?%elem_of_nil |]. rewrite Hp.
       by intros (_ & w & ?%elem_of_nil & _). }
  destruct Hp as [Hperm Hmax]. pose proof (Permutation_length Hperm) as Hlen. cbn in Hlen.
  destruct (ts_gt (w_timeout x) now) eqn:Hgt.
  { eexists. split_and!; [done | by apply set_timeouts_ok |]. apply expiry_stop; try done.
    unfold expired. congruence. }
  change (status_of (set_timeouts s h) (w_task x)) with (status_of s (w_task x)).
  destruct (decide (status_of s (w_task x) = Some Interruptible)) as [Hi | Hi].
  - unfold wake_interruptible. rewrite wake_one by (done || by apply set_timeouts_ok). cbn [snd].
    destruct (IH (awaken (set_timeouts s h) (w_task x))) as (s' & Hrun & Hok & He).
    { apply awaken_ok; [by apply set_timeouts_ok | done]. }
    { cbn [timeouts awaken set_timeouts]. lia. }
    exists s'. split_and!; [done | done |]. by eapply expiry_wake.
  - destruct (IH (set_timeouts s h)) as (s' & Hrun & Hok & He);
      [by apply set_timeouts_ok | cbn [timeouts set_timeouts]; lia |].
    exists s'. split_and!; [done | done |]. by eapply expiry_skip.
Qed.

Lemma do_wake_expired_ok tick s :
  sched_ok s ->
  exists s', do_wake_expired pop tick s = Some s' /\ sched_ok s' /\ expiry (ts_now tick) s s'.
Proof. intros H. apply wake_expired_loop_ok; [done | lia]. Qed.
End expiry.

(** C19: Timed waits end when they are over, and only then. Whatever order the
    heap gives to equal times, [do_wake_expired] returns with the scheduler
    consistent; the waiters left are those whose time is after now; the tasks
    that become ready are exactly the sleeping tasks with a waiter that is
    over, appended to the ready queue once each; every other task, asleep,
    ready, running or a zombie, keeps its status, and the processor its task. *)
Theorem wake_expired_exact (pop : list TimeoutWaiter -> option (TimeoutWaiter * list TimeoutWaiter))
    (s : Sys) (tick : Z) (Hpop : pop_ok pop) (Hok : sched_ok s) :
  let due p := status_of s p = Some Interruptible /\
    exists w, w ∈ timeouts s /\ w_task w = p /\ ts_gt (w_timeout w) (ts_now tick) = false in
  exists s' woken, do_wake_expired pop tick s = Some s' /\ sched_ok s' /\
    (forall w, w ∈ timeouts s' <-> w ∈ timeouts s /\ ts_gt (w_timeout w) (ts_now tick) = true) /\
    NoDup woken /\ (forall p, p ∈ woken <-> due p) /\ ready s' = ready s ++ woken /\
    current s' = current s /\
    (forall p, status_of s' p = if decide (p ∈ woken) then Some Ready else status_of s p).
Proof.
  destruct (do_wake_expired_ok pop Hpop tick s Hok) as (s' & Hrun & Hok' & ps & h & -> & Hnd & Hps & Hh).
  eexists _, ps. split; [done |]. split; [done |]. split.
  { intros w. cbn [timeouts set_timeouts]. rewrite Hh, list_elem_of_filter. unfold expired.
    destruct (ts_gt _ _); naive_solver. }
  split; [done |]. split; [done |]. destruct (awaken_all_queues s ps) as (Hr & _ & Hc).
  split; [exact Hr |]. split; [exact Hc |].
  intros p. apply (status_awaken_all s ps p). intros x [Hx _]%Hps. by exists Interruptible.
Qed.

(** A pop by linear search, for concrete runs. *)
Fixpoint pop_min (h : list TimeoutWaiter) : option (TimeoutWaiter * list TimeoutWaiter) :=
  match h with
  | [] => None
  | x :: h =>
      match pop_min h with
      | None => Some (x, [])
      | Some (y, r) =>
          if ts_gt (w_timeout x) (w_timeout y) then Some (y, x :: r) else Some (x, y :: r)
      end
  end.

Lemma waiter_cmp_trans x y z :
  waiter_cmp z y <> Gt -> waiter_cmp y x <> Gt -> waiter_cmp z x <> Gt.
Proof.
  unfold waiter_cmp, ts_cmp.
  destruct x as [? [xs xn]], y as [? [ys yn]], z as [? [zs zn]]. cbn [w_timeout tv_sec tv_nsec].
  destruct (Z.compare_spec zs ys), (Z.compare_spec ys xs), (Z.compare_spec zs xs),
    (Z.compare_spec zn yn), (Z.compare_spec yn xn), (Z.compare_spec zn xn);
    cbn [CompOpp]; intros Ha Hb Hc; congruence || lia.
Qed.

Lemma ts_gt_waiter x y :
  if ts_gt (w_timeout x) (w_timeout y) then waiter_cmp x y <> Gt else waiter_cmp y x <> Gt.
Proof.
  unfold ts_gt, waiter_cmp, ts_cmp.
  destruct x as [? [xs xn]], y as [? [ys yn]]. cbn [w_timeout tv_sec tv_nsec].
  destruct (Z.compare_spec xs ys), (Z.compare_spec ys xs), (Z.compare_spec xn yn),
    (Z.compare_spec yn xn); cbn [CompOpp]; intros ?; congruence || lia.
Qed.

Lemma pop_min_ok : pop_ok pop_min.
Proof.
  intros h. induction h as [| x h IH]; cbn [pop_min]; [done |].
  destruct (pop_min h) as [[y r] |].
  - destruct IH as [Hperm Hmax]. pose proof (ts_gt_waiter x y) as Hxy.
    destruct (ts_gt (w_timeout x) (w_timeout y)); rewrite Hperm.
    + split; [apply perm_swap |]. intros z [-> | Hz]%elem_of_cons; auto.
    + split; [done |]. intros z [-> | Hz]%elem_of_cons; [done |].
      eapply waiter_cmp_trans; [by apply Hmax | done].
  - subst. split; [done |]. by intros z ?%elem_of_nil.
Qed.

(** ** Switching tasks *)

(** A task changes its status; its old queue loses it, its new one gains it.
    [r], [i] and [c] are the queues and the processor afterwards. *)
Lemma switch_ok s p st r i c tr :
  sched_ok s -> is_Some (status_of s p) ->
  (forall q, q <> p -> (q ∈ r <-> q ∈ ready s) /\ (q ∈ i <-> q ∈ interruptible s) /\
     (c = Some q <-> current s = Some q)) ->
  (p ∈ r <-> st = Ready) -> (p ∈ i <-> st = Interruptible) -> (c = Some p <-> st = Running) ->
  NoDup r -> NoDup i ->
  sched_ok (mkSys (alter (set_task_status st) p (tcbs s)) (mkTM r i tr) c (timeouts s) (futexes s) (handles s)).
Proof.
  intros H [st0 Hp] Hq Hr Hi Hc Hnr Hni.
  assert (Hst : forall q, status_of (mkSys (alter (set_task_status st) p (tcbs s)) (mkTM r i tr)
      c (timeouts s) (futexes s) (handles s)) q = if decide (q = p) then Some st else status_of s q).
  { intros q. etrans; [apply (status_set s p st q) |]. by rewrite Hp. }
  split; [| | | done | done |].
  - intros q. rewrite Hst. destruct (decide (q = p)) as [-> | Hne]; [naive_solver |].
    rewrite <- (ok_ready s H). by apply Hq.
  - intros q. rewrite Hst. destruct (decide (q = p)) as [-> | Hne]; [naive_solver |].
    rewrite <- (ok_interruptible s H). by apply Hq.
  - intros q. rewrite Hst. destruct (decide (q = p)) as [-> | Hne]; [naive_solver |].
    rewrite <- (ok_current s H). by apply Hq.
  - intros q q' n Hn Hn'. apply (ok_pids s H q q' n).
    + rewrite <- Hn. symmetry. apply (pid_set s p st).
    + rewrite <- Hn'. symmetry. apply (pid_set s p st).
Qed.

Lemma current_not_queued s p :
  sched_ok s -> current s = Some p -> p ∉ ready s /\ p ∉ interruptible s.
Proof.
  intros H Hc%(ok_current s H). rewrite (ok_ready s H), (ok_interruptible s H), Hc. naive_solver.
Qed.

Lemma NoDup_snoc {A} (l : list A) x : NoDup l -> x ∉ l -> NoDup (l ++ [x]).
Proof.
  intros Hl Hx. apply NoDup_app. split_and!; [done | | apply NoDup_singleton].
  intros y Hy ->%list_elem_of_singleton. done.
Qed.

Lemma suspend_ok s p :
  sched_ok s -> current s = Some p ->
  exists s', suspend_current s = Some s' /\ sched_ok s' /\ current s' = None /\
    ready s' = ready s ++ [p] /\ interruptible s' = interruptible s.
Proof.
  intros H Hc. destruct (current_not_queued s p H Hc) as [Hr Hi].
  unfold suspend_current, take_current. rewrite Hc. cbn [fmap option_fmap mbind option_bind].
  eexists. split_and!; [done | | done..].
  apply (switch_ok s p Ready (ready s ++ [p]) (interruptible s) None); try done.
  - apply (ok_current s H) in Hc as ->. eauto.
  - intros q Hq. rewrite elem_of_app, list_elem_of_singleton, Hc. split_and!; naive_solver.
  - rewrite elem_of_app, list_elem_of_singleton. naive_solver.
  - apply NoDup_snoc; [apply H | done].
  - apply H.
Qed.

Lemma block_ok s p :
  sched_ok s -> current s = Some p ->
  exists s', block_current s = Some s' /\ sched_ok s' /\ current s' = None /\
    ready s' = ready s /\ interruptible s' = interruptible s ++ [p] /\
    timeouts s' = timeouts s /\ futexes s' = futexes s.
Proof.
  intros H Hc. destruct (current_not_queued s p H Hc) as [Hr Hi].
  unfold block_current, take_current. rewrite Hc. cbn [fmap option_fmap mbind option_bind].
  eexists. split_and!; [done | | done..].
  apply (switch_ok s p Interruptible (ready s) (interruptible s ++ [p]) None); try done.
  - apply (ok_current s H) in Hc as ->. eauto.
  - intros q Hq. rewrite elem_of_app, list_elem_of_singleton, Hc. split_and!; naive_solver.
  - rewrite elem_of_app, list_elem_of_singleton. naive_solver.
  - apply H.
  - apply NoDup_snoc; [apply H | done].
Qed.

Lemma dispatch_ok pop tick s p rest :
  sched_ok s -> current s = None -> ready s = p :: rest ->
  exists s', run_tasks_turn pop tick s = Some s' /\ sched_ok s' /\ current s' = Some p /\
    ready s' = rest /\ interruptible s' = interruptible s /\ timeouts s' = timeouts s /\
    futexes s' = futexes s.
Proof.
  intros H Hc Hr. unfold run_tasks_turn, fetch. fold (ready s). rewrite Hr.
  eexists. split_and!; [done | | done..].
  pose proof (ok_ready_once s H) as Hnd. rewrite Hr in Hnd. apply NoDup_cons in Hnd as [Hp Hnd].
  assert (Hst : status_of s p = Some Ready) by (apply (ok_ready s H); rewrite Hr; left).
  apply (switch_ok s p Running rest (interruptible s) (Some p)); try done.
  - intros q Hq. rewrite Hr, elem_of_cons, Hc. split_and!; naive_solver.
  - split; [| done]. intros Hi%(ok_interruptible s H). congruence.
  - apply H.
Qed.

(** A new control block, in the state [sys_clone] leaves it, is added to the
    ready queue. *)
Definition spawn (s : Sys) (p : Z) (t : TaskControlBlock) : Sys :=
  add_task (set_tcbs s (<[p := t]> (tcbs s))) p.

Lemma status_spawn s p t q :
  status_of (spawn s p t) q =
  if decide (q = p) then Some (task_status (inner t)) else status_of s q.
Proof.
  unfold spawn, status_of. cbn. destruct (decide (q = p)) as [-> |].
  - by rewrite lookup_insert_eq.
  - by rewrite lookup_insert_ne by done.
Qed.

Lemma pid_spawn s p t q :
  pid_of (spawn s p t) q = if decide (q = p) then Some (pid t) else pid_of s q.
Proof.
  unfold spawn, pid_of. cbn. destruct (decide (q = p)) as [-> |].
  - by rewrite lookup_insert_eq.
  - by rewrite lookup_insert_ne by done.
Qed.

Lemma spawn_ok s p t :
  sched_ok s -> tcbs s !! p = None -> task_status (inner t) = Ready ->
  (forall q, pid_of s q <> Some (pid t)) -> sched_ok (spawn s p t).
Proof.
  intros H Hp Ht Hpid.
  assert (Hnone : status_of s p = None) by (unfold status_of; by rewrite Hp).
  split.
  - intros q. change (ready (spawn s p t)) with (ready s ++ [p]).
    rewrite status_spawn, Ht, elem_of_app, list_elem_of_singleton, (ok_ready s H).
    destruct (decide (q = p)); naive_solver.
  - intros q. change (interruptible (spawn s p t)) with (interruptible s).
    rewrite status_spawn, Ht, (ok_interruptible s H). destruct (decide (q = p)); naive_solver.
  - intros q. change (current (spawn s p t)) with (current s).
    rewrite status_spawn, Ht, (ok_current s H). destruct (decide (q = p)); naive_solver.
  - apply NoDup_snoc; [apply H |]. rewrite (ok_ready s H). congruence.
  - apply H.
  - intros q r n. rewrite !pid_spawn. destruct (decide (q = p)), (decide (r = p)); intros Hq Hr;
      simplify_eq; [done | by apply Hpid in Hr | by apply Hpid in Hq | by eapply ok_pids].
Qed.

(** ** A concrete system

    Three threads of one process, in the ready queue. *)
Definition demo_task (n : Z) : TaskControlBlock :=
  mkTask (10 + n) n 11 0 0 7 (mkInner 0 0 Ready None [] 0 0).
Definition sys_empty : Sys := mkSys ∅ tm_new None [] ∅ ∅.
Definition demo_sys : Sys :=
  spawn (spawn (spawn sys_empty 1 (demo_task 1)) 2 (demo_task 2)) 3 (demo_task 3).

Lemma sys_empty_ok : sched_ok sys_empty.
Proof.
  split; try (intros p; unfold status_of; cbn; rewrite lookup_empty; cbn).
  - rewrite elem_of_nil. naive_solver.
  - rewrite elem_of_nil. naive_solver.
  - naive_solver.
  - constructor.
  - constructor.
  - intros p q n. unfold pid_of. cbn. by rewrite !lookup_empty.
Qed.

Lemma demo_sys_ok : sched_ok demo_sys.
Proof.
  unfold demo_sys. repeat (apply spawn_ok; [| done | done |]); [apply sys_empty_ok | ..];
    intros q; rewrite ?pid_spawn; unfold pid_of; cbn [tcbs sys_empty]; rewrite lookup_empty;
    repeat (destruct (decide _)); done.
Qed.

(** The same, with the first running, or with all three asleep. *)
Definition demo_running : Sys := default sys_empty (run_tasks_turn pop_min 0 demo_sys).
Definition demo_asleep : Sys :=
  default sys_empty (s ← block_current demo_running;
                     s ← run_tasks_turn pop_min 0 s; s ← block_current s;
                     s ← run_tasks_turn pop_min 0 s; block_current s).

Lemma demo_running_ok : sched_ok demo_running /\ current demo_running = Some 1.
Proof.
  destruct (dispatch_ok pop_min 0 demo_sys 1 [2; 3] demo_sys_ok eq_refl eq_refl)
    as (s & Hrun & Hok & Hc & _).
  unfold demo_running. rewrite Hrun. done.
Qed.

Lemma demo_asleep_ok : sched_ok demo_asleep /\ interruptible demo_asleep = [1; 2; 3].
Proof.
  split; [| by vm_compute]. unfold demo_asleep. destruct demo_running_ok as [H1 Hc1].
  destruct (block_ok _ _ H1 Hc1) as (s2 & -> & H2 & Hc2 & Hr2 & _). cbn [mbind option_bind].
  destruct (dispatch_ok pop_min 0 s2 2 [3] H2 Hc2 Hr2) as (s3 & -> & H3 & Hc3 & Hr3 & _).
  cbn [mbind option_bind].
  destruct (block_ok _ _ H3 Hc3) as (s4 & -> & H4 & Hc4 & Hr4 & _). cbn [mbind option_bind].
  rewrite Hr3 in Hr4.
  destruct (dispatch_ok pop_min 0 s4 3 [] H4 Hc4 Hr4) as (s5 & -> & H5 & Hc5 & _).
  cbn [mbind option_bind].
  destruct (block_ok _ _ H5 Hc5) as (s6 & -> & H6 & _). exact H6.
Qed.

Lemma wake_at_most_fifo_witness :
  exists q' s', wake_at_most None [9; 2; 2; 1; 3] 2 demo_asleep = Some (q', 2, s') /\
    ready s' = [2; 1] /\ 3 ∈ q'.
Proof.
  destruct (wake_at_most_fifo demo_asleep [9; 2; 2; 1; 3] 2 (proj1 demo_asleep_ok))
    as (q' & s' & Hrun & _ & _ & Hr & Hst & Hin); [lia | vm_compute; reflexivity |].
  exists q', s'. split_and!; [exact Hrun | rewrite Hr; by vm_compute |].
  apply Hin; [do 4 right; left |]. rewrite Hst, decide_False; [by vm_compute |].
  change (take (Z.to_nat 2) (waiting demo_asleep [9; 2; 2; 1; 3])) with [2; 1].
  rewrite !not_elem_of_cons. split_and!; [done | done | apply not_elem_of_nil].
Defined.

Definition demo_timed : Sys :=
  wait_with_timeout (wait_with_timeout demo_asleep 2 (mkTS 5 0)) 1 (mkTS 3 0).

Lemma wake_expired_exact_witness :
  exists s', do_wake_expired pop_min (4 * CLOCK_FREQ) demo_timed = Some s' /\
    status_of s' 1 = Some Ready /\ mkWaiter 2 (mkTS 5 0) ∈ timeouts s'.
Proof.
  assert (Hok : sched_ok demo_timed) by (do 2 apply set_timeouts_ok; apply demo_asleep_ok).
  destruct (wake_expired_exact pop_min demo_timed (4 * CLOCK_FREQ) pop_min_ok Hok)
    as (s' & woken & Hrun & _ & Hleft & _ & Hwoken & _ & _ & Hst).
  exists s'. split_and!; [exact Hrun | |].
  - rewrite Hst, decide_True; [reflexivity |]. apply Hwoken. split; [by vm_compute |].
    exists (mkWaiter 1 (mkTS 3 0)). split_and!; [left | done | by vm_compute].
  - apply Hleft. split; [right; left | by vm_compute].
Defined.

(** ** The tracker is a set of process numbers *)

Lemma bit_word k : 0 <= k < 64 -> 1 <<w k = 2 ^ k.
Proof.
  intros Hk. rewrite Z.shiftl_1_l. apply wrap64_small. split; [lia |].
  apply Z.pow_lt_mono_r; lia.
Qed.

Lemma land_bit w k : 0 <= k -> (Z.land w (2 ^ k) =? 0) = negb (Z.testbit w k).
Proof.
  intros Hk. destruct (Z.eqb_spec (Z.land w (2 ^ k)) 0) as [H0 | H0].
  - pose proof (f_equal (fun z => Z.testbit z k) H0) as H1. cbv beta in H1.
    rewrite Z.land_spec, Z.pow2_bits_true, andb_true_r, Z.bits_0 in H1 by lia. by rewrite H1.
  - destruct (Z.testbit w k) eqn:E; [done |]. destruct H0. bitwise i.
    rewrite Z.land_spec, testbit_pow2, Z.bits_0 by lia.
    destruct (Z.eqb_spec i k) as [-> |]; [by rewrite E | by rewrite andb_false_r].
Qed.

Definition tracked (b : ActiveTracker) (p : Z) : bool :=
  match b !! Z.to_nat (p / 64) with None => false | Some w => Z.testbit w (p mod 64) end.

Lemma check_active_tracked b p : check_active b p = tracked b p.
Proof.
  unfold check_active, tracked. destruct (b !! _); [| done].
  rewrite bit_word, land_bit by lia. by rewrite negb_involutive.
Qed.

Lemma check_inactive_tracked b p : check_inactive b p = negb (tracked b p).
Proof.
  unfold check_inactive, tracked. destruct (b !! _); [| done]. by rewrite bit_word, land_bit by lia.
Qed.

Lemma tracked_ensure b p q : 0 <= q -> tracked (ensure_capacity b p) q = tracked b q.
Proof.
  intros Hq. unfold tracked, ensure_capacity. destruct (vlen b <? p / 64 + 1) eqn:E; [| done].
  apply Z.ltb_lt in E. unfold vec_resize, vlen in *.
  destruct (decide (Z.to_nat (q / 64) < length b)%nat) as [Hl | Hl].
  - by rewrite lookup_resize by lia.
  - rewrite (lookup_ge_None_2 b) by lia.
    destruct (decide (Z.to_nat (q / 64) < Z.to_nat (p / 64 + 1))%nat) as [Hn | Hn].
    + rewrite lookup_resize_new by lia. apply Z.bits_0.
    + by rewrite lookup_resize_old by lia.
Qed.

Lemma ensure_capacity_lookup b p :
  0 <= p -> exists w, ensure_capacity b p !! Z.to_nat (p / 64) = Some w.
Proof.
  intros Hp. apply lookup_lt_is_Some_2. unfold ensure_capacity, vec_resize, vlen.
  destruct (Z.ltb_spec (Z.of_nat (length b)) (p / 64 + 1)); [rewrite length_resize |]; lia.
Qed.

(** Changing bit [p mod 64] of the word of [p] changes the membership of [p]
    only. *)
Lemma tracked_alter b p q f v :
  0 <= p -> 0 <= q -> (forall w i, 0 <= i < 64 -> Z.testbit (f w) i =
    if decide (i = p mod 64) then v else Z.testbit w i) ->
  tracked (alter f (Z.to_nat (p / 64)) (ensure_capacity b p)) q =
  if decide (q = p) then v else tracked b q.
Proof.
  intros Hp Hq Hf. rewrite <- (tracked_ensure b p q) by done.
  destruct (ensure_capacity_lookup b p Hp) as [w Hw]. revert Hw.
  generalize (ensure_capacity b p). intros b' Hw. unfold tracked.
  destruct (decide (q / 64 = p / 64)) as [He | Hne].
  - rewrite He, list_lookup_alter_eq, Hw. cbn [fmap option_fmap option_map].
    rewrite Hf by lia. destruct (decide (q = p)) as [-> | Hqp].
    + by rewrite decide_True by done.
    + rewrite decide_False by lia. done.
  - rewrite list_lookup_alter_ne by lia. rewrite decide_False by congruence. done.
Qed.

Lemma active_tracker_is_set b p q :
  0 <= p -> 0 <= q ->
  check_active (mark_active b p) q = (bool_decide (q = p) || check_active b q) /\
  check_active (mark_inactive b p) q = (negb (bool_decide (q = p)) && check_active b q) /\
  check_inactive b q = negb (check_active b q).
Proof.
  intros Hp Hq. rewrite !check_active_tracked, check_inactive_tracked.
  unfold mark_active, mark_inactive. rewrite bit_word by lia.
  rewrite (tracked_alter b p q _ true), (tracked_alter b p q _ false); try done.
  - destruct (decide (q = p)); [rewrite bool_decide_true by done | rewrite bool_decide_false by done];
      done.
  - intros w i Hi. rewrite Z.land_spec, not64_spec, testbit_pow2 by lia.
    rewrite (proj2 (Z.ltb_lt i 64)) by lia.
    destruct (Z.eqb_spec i (p mod 64)), (decide (i = p mod 64)), (Z.testbit w i); done.
  - intros w i Hi. rewrite Z.lor_spec, testbit_pow2 by lia.
    destruct (Z.eqb_spec i (p mod 64)), (decide (i = p mod 64)), (Z.testbit w i); done.
Qed.
