(* ===== verification/Futex.v ===== *)
(** * Futexes

    [task/threads.rs] and [sys_futex] ([syscall/process.rs]): the queues of
    tasks that wait for a word of memory, under the physical address of the
    word. A wait has two halves: up to the switch to another task, and after
    the task runs again. *)

From S2P Require Import Prelude Address Phys FrameAlloc PageTable.
From S2P Require Import FileTrait UserBuf UserCopy Timer Sched.
#[local] Open Scope kernel_scope.

Definition EINTR : Z := -4.
Definition EAGAIN : Z := -11.
Definition ENOSYS : Z := -38.

Inductive FutexCmd :=
| FutexWait | FutexWake | FutexFd | FutexRequeue | FutexCmpRequeue | FutexWakeOp
| FutexLockPi | FutexUnlockPi | FutexTrylockPi | FutexWaitBitset | FutexInvalid.

(** [FutexCmd::from_primitive]. *)
Definition futex_cmd (n : Z) : FutexCmd :=
  default FutexInvalid
    ([FutexWait; FutexWake; FutexFd; FutexRequeue; FutexCmpRequeue; FutexWakeOp; FutexLockPi;
      FutexUnlockPi; FutexTrylockPi; FutexWaitBitset] !! Z.to_nat n).

Definition futex_of (s : Sys) (fx : Z) : Futex := default ∅ (futexes s !! fx).
Definition set_futex (s : Sys) (fx : Z) (f : Futex) : Sys :=
  set_futexes s (<[fx := f]> (futexes s)).

(** [insert] of a queue that has somebody in it. *)
Definition put_queue (f : Futex) (addr : Z) (q : WaitQueue) : Futex :=
  match q with [] => f | _ => <[addr := q]> f end.

(** [Futex::wake]; [held] is as for [wake_at_most]. *)
Definition futex_wake (held : option Z) (fx addr val : Z) (s : Sys) : option (Z * Sys) :=
  match futex_of s fx !! addr with
  | None => Some (0, s)
  | Some q =>
      let s := set_futex s fx (delete addr (futex_of s fx)) in
      '(q', n, s) ← wake_at_most held q val s;
      Some (to_signed64 n, set_futex s fx (put_queue (futex_of s fx) addr q'))
  end.

(** The [while let] of [requeue]: up to [val2] tasks move, at least one. *)
Fixpoint requeue_loop (q q2 : WaitQueue) (cnt val2 : Z) : WaitQueue * WaitQueue * Z :=
  match q with
  | [] => ([], q2, cnt)
  | p :: q =>
      let q2 := q2 ++ [p] in
      let cnt := cnt + 1 in
      if cnt =? val2 then (q, q2, cnt) else requeue_loop q q2 cnt val2
  end.

Definition futex_requeue (fx addr addr2 val val2 : Z) (s : Sys) : option (Z * Sys) :=
  '(wake_cnt, s) ← if negb (val =? 0) then futex_wake None fx addr val s else Some (0, s);
  let f := futex_of s fx in
  match f !! addr with
  | None => Some (wake_cnt, s)
  | Some q =>
      let f := delete addr f in
      let q2 := default [] (f !! addr2) in
      let f := delete addr2 f in
      let '(q, q2, requeue_cnt) :=
        if negb (val2 =? 0) then requeue_loop q q2 0 val2 else (q, q2, 0) in
      Some (wake_cnt + requeue_cnt,
            set_futex s fx (put_queue (put_queue f addr q) addr2 q2))
  end.

Definition futex_wake_op (fx addr addr2 val : Z) (do_wake2 : bool) (s : Sys) : option (Z * Sys) :=
  let nr_wake := Z.land val 0x7fffffff in
  '(ret, s) ← futex_wake None fx addr nr_wake s;
  if do_wake2 then
    let nr_wake2 := Z.land (Z.shiftr val 16) 0xffff in
    '(ret2, s) ← futex_wake None fx addr2 nr_wake2 s;
    Some (ret + ret2, s)
  else Some (ret, s).

(** [Futex::clear], at [exec]. *)
Definition futex_clear (fx : Z) (s : Sys) : Sys := set_futex s fx ∅.

(** What a call has come to: it returned, or its task sleeps in it. *)
Inductive progress := Done (ret : Z) | Sleeping.

(** [do_futex_wait] up to [block_current_and_run_next]. *)
Definition futex_wait (addr word val : Z) (timeout : option TimeSpec) (tick : Z) (s : Sys)
    : option (progress * Sys) :=
  let timeout := (fun t => ts_add t (ts_now tick)) <$> timeout in
  if negb (word =? val) then Some (Done EAGAIN, s)
  else
    p ← current s;
    t ← tcbs s !! p;
    let f := futex_of s (futex t) in
    let q := default [] (f !! addr) in
    let s := set_futex s (futex t) (<[addr := q ++ [p]]> (delete addr f)) in
    let s := match timeout with Some t => wait_with_timeout s p t | None => s end in
    s ← block_current s;
    Some (Sleeping, s).

(** [do_futex_wait] from there. *)
Definition futex_wait_resumed (s : Sys) : option Z :=
  p ← current s;
  t ← tcbs s !! p;
  Some (if negb (Z.land (sigpending (inner t)) (not64 (sigmask (inner t))) =? 0)
        then EINTR else 0).

(** ** [sys_futex] *)

Definition read32 (m : memory) (a : Z) : Z := le_combine (read_bytes m a 4).
Definition write32 (m : memory) (a v : Z) : memory := write_bytes m a (le_split 4 v).

(** A [TimeSpec] in memory. *)
Definition timespec_of_bytes (bs : list Z) : TimeSpec :=
  mkTS (le_combine (take 8 bs)) (le_combine (take 8 (drop 8 bs))).

(** The new value and the condition of [FUTEX_WAKE_OP]. *)
Definition wake_op_newval (op oldval cmparg : Z) : option Z :=
  match op with
  | 0 => Some cmparg
  | 1 => Some (wrap32 (oldval + cmparg))
  | 2 => Some (Z.lor oldval cmparg)
  | 3 => Some (Z.land oldval (Z.lxor cmparg (Z.ones 32)))
  | 4 => Some (Z.lxor oldval cmparg)
  | _ => None
  end.
Definition wake_op_cond (cmp oldval cmparg : Z) : bool :=
  match cmp with
  | 0 => oldval =? cmparg
  | 1 => negb (oldval =? cmparg)
  | 2 => oldval <? cmparg
  | 3 => oldval <=? cmparg
  | 4 => cmparg <? oldval
  | 5 => cmparg <=? oldval
  | _ => true
  end.

Section sys_futex.
Context {T : Type} `{!PageTable T}.
Context (check_page_fault : VirtAddr -> KM Phys Z PhysAddr).

(** A call over user memory and the scheduler; the early return of an error
    number is the [Err] of [KM]. *)
Definition Call : Type := KM (Phys * Sys) Z progress.

Definition on_mem {A} (m : KM Phys Z A) : KM (Phys * Sys) Z A := fun '(w, s) =>
  match m w with
  | Some (r, w) => Some (r, (w, s))
  | None => None
  end.
Definition on_sys {A} (f : Sys -> option (A * Sys)) : KM (Phys * Sys) Z A := fun '(w, s) =>
  match f s with
  | Some (a, s) => Some (Ok a, (w, s))
  | None => None
  end.

(** [uaddr.is_null() || uaddr.align_offset(4) != 0]. *)
Definition bad_uaddr (a : Z) : bool := (a =? 0) || negb (a mod 4 =? 0).

Definition load_word (pa : Z) : KM (Phys * Sys) Z Z :=
  on_mem (w ← km_get; mret (read32 (pmem w) pa)).
Definition store_word (pa v : Z) : KM (Phys * Sys) Z unit :=
  on_mem (w ← km_get; km_put (with_mem (fun m => write32 m pa v) w)).

Definition sys_futex_wait (token pa val timeout tick : Z) : Call :=
  bs ← on_mem (try_get_from_user check_page_fault token timeout 16);
  word ← load_word pa;
  on_sys (futex_wait pa word val (timespec_of_bytes <$> bs) tick).

Definition sys_futex (token fx uaddr futex_op val timeout uaddr2 val3 tick : Z) : Call :=
  if bad_uaddr uaddr then mret (Done EINVAL)
  else
    pa ← on_mem (translated_refmut check_page_fault token uaddr);
    match futex_cmd (Z.land futex_op 0x7f) with
    | FutexWait => sys_futex_wait token pa val timeout tick
    | FutexWaitBitset =>
        if val3 =? 0 then mret (Done EINVAL) else sys_futex_wait token pa val timeout tick
    | FutexWake => n ← on_sys (futex_wake None fx pa val); mret (Done n)
    | FutexRequeue =>
        if bad_uaddr uaddr2 then mret (Done EINVAL)
        else
          pa2 ← on_mem (translated_refmut check_page_fault token uaddr2);
          n ← on_sys (futex_requeue fx pa pa2 val (wrap32 timeout)); mret (Done n)
    | FutexWakeOp =>
        if bad_uaddr uaddr2 then mret (Done EINVAL)
        else
          pa2 ← on_mem (translated_refmut check_page_fault token uaddr2);
          let op := Z.land (Z.shiftr val3 28) 0xf in
          let cmp := Z.land (Z.shiftr val3 24) 0xf in
          let cmparg := Z.land val3 0xfff in
          oldval ← load_word pa2;
          match wake_op_newval op oldval cmparg with
          | None => mret (Done EINVAL)
          | Some newval =>
              _ ← store_word pa2 newval;
              n ← on_sys (futex_wake_op fx pa pa2 val (wake_op_cond cmp oldval cmparg));
              mret (Done n)
          end
    | FutexInvalid => mret (Done EINVAL)
    | _ => mret (Done ENOSYS)
    end.
End sys_futex.

(** ** Waking *)

Definition queue_at (s : Sys) (fx addr : Z) : WaitQueue := default [] (futex_of s fx !! addr).

Lemma set_futex_ok s fx f : sched_ok s -> sched_ok (set_futex s fx f).
Proof. intros H. by apply (sched_ok_ext s). Qed.

Lemma futex_of_set s fx f fx' :
  futex_of (set_futex s fx f) fx' = if decide (fx' = fx) then f else futex_of s fx'.
Proof.
  unfold futex_of, set_futex. cbn [futexes set_futexes]. destruct (decide (fx' = fx)) as [-> |].
  - by rewrite lookup_insert_eq.
  - by rewrite lookup_insert_ne by done.
Qed.

Lemma put_queue_lookup (f : Futex) addr q a :
  f !! addr = None ->
  default [] (put_queue f addr q !! a) = if decide (a = addr) then q else default [] (f !! a).
Proof.
  intros Hf. unfold put_queue. destruct (decide (a = addr)) as [-> | Hne].
  - destruct q; [by rewrite Hf | by rewrite lookup_insert_eq].
  - destruct q; [done | by rewrite lookup_insert_ne by done].
Qed.

Lemma waiting_set_futex s fx f q : waiting (set_futex s fx f) q = waiting s q.
Proof. induction q as [| p q IH]; [done |]. cbn [waiting]. by rewrite IH. Qed.

Lemma awaken_all_futexes s ps : futexes (awaken_all s ps) = futexes s.
Proof. revert s. induction ps as [| p ps IH]; intros s; [done |]. apply (IH (awaken s p)). Qed.

Lemma awaken_all_timeouts s ps : timeouts (awaken_all s ps) = timeouts s.
Proof. revert s. induction ps as [| p ps IH]; intros s; [done |]. apply (IH (awaken s p)). Qed.

Lemma awaken_all_set_futex s fx f ps :
  awaken_all (set_futex s fx f) ps = set_futex (awaken_all s ps) fx f.
Proof.
  revert s. induction ps as [| p ps IH]; intros s; [done |]. apply (IH (awaken s p)).
Qed.

(** [Futex::wake] wakes the first [n] sleeping tasks of the queue, and the
    queue keeps every task that still sleeps. *)
Lemma futex_wake_ok s fx addr n :
  sched_ok s -> 0 <= n -> vlen (queue_at s fx addr) < 2 ^ 63 ->
  let ps := take (Z.to_nat n) (waiting s (queue_at s fx addr)) in
  exists s', futex_wake None fx addr n s = Some (vlen ps, s') /\ sched_ok s' /\
    ready s' = ready s ++ ps /\ current s' = current s /\ timeouts s' = timeouts s /\
    (forall p, status_of s' p = if decide (p ∈ ps) then Some Ready else status_of s p) /\
    (forall a, a <> addr -> queue_at s' fx a = queue_at s fx a) /\
    (forall p, p ∈ queue_at s fx addr -> status_of s' p = Some Interruptible ->
       p ∈ queue_at s' fx addr).
Proof.
  intros H Hn Hq. cbv zeta. unfold futex_wake, queue_at in *.
  destruct (futex_of s fx !! addr) as [q |] eqn:Hf.
  2: { exists s. cbn [from_option waiting]. rewrite take_nil, app_nil_r. split_and!; try done.
       by intros p ?%elem_of_nil. }
  cbn [from_option id] in *. set (s0 := set_futex s fx _).
  destruct (wake_at_most_run q n s0) as (q1 & q2 & -> & Hw & _ & Hrun & Hok);
    [by apply set_futex_ok | done | lia |].
  rewrite Hrun. cbn [mbind option_bind]. unfold s0 in *. rewrite !waiting_set_futex in *.
  set (ps := take _ _) in *. rewrite awaken_all_set_futex in *.
  assert (Hst : forall p, status_of (awaken_all s ps) p =
                  if decide (p ∈ ps) then Some Ready else status_of s p).
  { intros p. apply status_awaken_all. intros x Hx. rewrite <- Hw in Hx.
    apply elem_of_waiting in Hx as [_ ->]. eauto. }
  destruct (awaken_all_queues s ps) as (Hr & _ & Hc).
  assert (Hlen : vlen ps < 2 ^ 63).
  { pose proof (waiting_length s (q1 ++ q2)). unfold ps, vlen in *. rewrite length_take. lia. }
  eexists. split; [unfold to_signed64; by rewrite (proj2 (Z.ltb_lt _ _) Hlen) |].
  split; [by apply (sched_ok_ext _ _ Hok) |].
  rewrite !futex_of_set, decide_True by done. split_and!; try done.
  - apply (awaken_all_timeouts s ps).
  - intros a Ha. rewrite decide_True by done.
    rewrite put_queue_lookup by apply lookup_delete_eq.
    by rewrite decide_False, lookup_delete_ne by done.
  - intros p Hp Hi. rewrite decide_True by done.
    rewrite put_queue_lookup, decide_True by (done || apply lookup_delete_eq).
    change (status_of (awaken_all s ps) p = Some Interruptible) in Hi. rewrite Hst in Hi.
    destruct (decide (p ∈ ps)) as [| Hnp]; [done |].
    apply elem_of_app in Hp as [Hp | Hp]; [| done]. destruct Hnp. rewrite <- Hw.
    by apply elem_of_waiting.
Qed.

(** A wait: the task sleeps and is at the end of the queue of the word. *)
Lemma futex_wait_ok s p t addr word timeout tick :
  sched_ok s -> current s = Some p -> tcbs s !! p = Some t ->
  exists s', futex_wait addr word word timeout tick s = Some (Sleeping, s') /\ sched_ok s' /\
    current s' = None /\ status_of s' p = Some Interruptible /\
    queue_at s' (futex t) addr = queue_at s (futex t) addr ++ [p] /\
    timeouts s' = match timeout with
                  | Some d => mkWaiter p (ts_add d (ts_now tick)) :: timeouts s
                  | None => timeouts s
                  end.
Proof.
  intros H Hc Ht. unfold futex_wait. rewrite Z.eqb_refl. cbn [negb]. rewrite Hc.
  cbn [mbind option_bind]. rewrite Ht. cbn [mbind option_bind].
  set (s1 := set_futex s _ _). set (s2 := match _ <$> timeout with Some _ => _ | None => _ end).
  assert (Hok2 : sched_ok s2).
  { unfold s2. destruct timeout; cbn [fmap option_fmap option_map];
      [apply set_timeouts_ok |]; by apply set_futex_ok. }
  assert (Hc2 : current s2 = Some p) by (unfold s2; by destruct timeout).
  destruct (block_ok s2 p Hok2 Hc2) as (s' & -> & Hok & Hcur & _ & Hi & Hto & Hfx).
  exists s'. split_and!; [done | done | done | | |].
  - apply (ok_interruptible s' Hok). rewrite Hi, elem_of_app, list_elem_of_singleton. by right.
  - unfold queue_at, futex_of. rewrite Hfx.
    replace (futexes s2) with (futexes s1) by (unfold s2; by destruct timeout).
    unfold s1, set_futex. cbn [futexes set_futexes]. rewrite lookup_insert_eq. cbn [from_option id].
    by rewrite lookup_insert_eq.
  - rewrite Hto. unfold s2. by destruct timeout.
Qed.

(** C11: No wake-up is lost. A task that waits for a word with the value it
    holds goes to sleep in the queue of the word, the scheduler stays
    consistent; and from every later consistent state in which the task still
    sleeps in that queue, a wake of the word for at least as many tasks as
    sleep there makes it ready, and returns how many it woke. A wait for
    another value returns [EAGAIN] and changes nothing. *)
Theorem futex_no_lost_wakeup (s : Sys) (p : Z) (t : TaskControlBlock) (addr word val : Z)
    (timeout : option TimeSpec) (tick : Z)
    (Hok : sched_ok s) (Hc : current s = Some p) (Ht : tcbs s !! p = Some t) :
  (word <> val -> futex_wait addr word val timeout tick s = Some (Done EAGAIN, s)) /\
  exists s1, futex_wait addr word word timeout tick s = Some (Sleeping, s1) /\ sched_ok s1 /\
    p ∈ queue_at s1 (futex t) addr /\ status_of s1 p = Some Interruptible /\
    forall s2 n, sched_ok s2 -> p ∈ queue_at s2 (futex t) addr ->
      status_of s2 p = Some Interruptible -> vlen (queue_at s2 (futex t) addr) < 2 ^ 63 ->
      vlen (waiting s2 (queue_at s2 (futex t) addr)) <= n ->
      exists s3, futex_wake None (futex t) addr n s2 =
                   Some (vlen (waiting s2 (queue_at s2 (futex t) addr)), s3) /\
        sched_ok s3 /\ status_of s3 p = Some Ready.
Proof.
  split.
  { intros Hne. unfold futex_wait. by destruct (Z.eqb_spec word val). }
  destruct (futex_wait_ok s p t addr word timeout tick Hok Hc Ht)
    as (s1 & Hrun & Hok1 & _ & Hst & Hq & _).
  exists s1. split_and!; [done | done | | done |].
  { rewrite Hq, elem_of_app, list_elem_of_singleton. by right. }
  intros s2 n Hok2 Hp2 Hst2 Hl Hn.
  destruct (futex_wake_ok s2 (futex t) addr n Hok2) as (s3 & Hw & Hok3 & _ & _ & _ & Hst3 & _);
    [pose proof (vlen_nonneg (waiting s2 (queue_at s2 (futex t) addr))); lia | done |].
  rewrite take_ge in Hw, Hst3 by (unfold vlen in Hn; lia).
  exists s3. split_and!; [done | done |]. rewrite Hst3, decide_True; [done |].
  by apply elem_of_waiting.
Qed.

(** The task that runs first waits for word 64; then a wake is sent. *)
Definition demo_waiting : Sys :=
  match futex_wait 64 5 5 None 0 demo_running with Some (_, s) => s | None => demo_running end.

Lemma futex_no_lost_wakeup_witness :
  exists s3, futex_wake None 7 64 1 demo_waiting = Some (1, s3) /\ status_of s3 1 = Some Ready.
Proof.
  destruct demo_running_ok as [Hok Hc].
  destruct (tcbs demo_running !! 1) as [t |] eqn:Ht; [| by vm_compute in Ht].
  assert (futex t = 7) as Hf by (vm_compute in Ht; by injection Ht as <-).
  destruct (futex_no_lost_wakeup demo_running 1 t 64 5 6 None 0 Hok Hc Ht)
    as [_ (s1 & Hrun & Hok1 & Hp & Hst & Hwake)].
  assert (Hs1 : demo_waiting = s1) by (unfold demo_waiting; by rewrite Hrun).
  rewrite Hf in *. rewrite <- Hs1 in *.
  destruct (Hwake demo_waiting 1 Hok1 Hp Hst) as (s3 & Hw & _ & Hr);
    [by vm_compute | by vm_compute |].
  exists s3. split; [exact Hw | exact Hr].
Defined.

(** ** Moving waiters *)

(** The loop moves [val2] tasks, or all of them. *)
Lemma requeue_loop_eq q q2 cnt val2 :
  0 <= cnt < val2 ->
  let k := Z.to_nat (val2 - cnt) in
  requeue_loop q q2 cnt val2 =
    (drop k q, q2 ++ take k q, cnt + vlen (take k q)).
Proof.
  revert q2 cnt. induction q as [| p q IH]; intros q2 cnt Hc; cbv zeta.
  { cbn [requeue_loop]. rewrite drop_nil, take_nil, app_nil_r. by rewrite Z.add_0_r. }
  replace (Z.to_nat (val2 - cnt)) with (S (Z.to_nat (val2 - (cnt + 1)))) by lia.
  cbn [requeue_loop drop take]. destruct (Z.eqb_spec (cnt + 1) val2) as [He | Hne].
  - rewrite <- He, Z.sub_diag. done.
  - rewrite IH by lia. rewrite <- app_assoc. unfold vlen. cbn [length app]. f_equal. lia.
Qed.

(** Without waking anybody first, [requeue] of a queue that is there. *)
Lemma futex_requeue_eq s fx addr addr2 val2 q :
  futex_of s fx !! addr = Some q -> 0 < val2 ->
  let q2 := default [] (delete addr (futex_of s fx) !! addr2) in
  let k := Z.to_nat val2 in
  futex_requeue fx addr addr2 0 val2 s =
  Some (vlen (take k q),
        set_futex s fx (put_queue (put_queue (delete addr2 (delete addr (futex_of s fx)))
          addr (drop k q)) addr2 (q2 ++ take k q))).
Proof.
  intros Hq Hv. cbv zeta. unfold futex_requeue. cbn [negb Z.eqb mbind option_bind]. rewrite Hq.
  destruct (Z.eqb_spec val2 0); [lia |]. cbn [negb].
  rewrite requeue_loop_eq by lia. rewrite Z.sub_0_r. done.
Qed.

(** [FUTEX_REQUEUE] to another word moves the first [val2] waiters, in order,
    behind those already there, and leaves the rest. *)
Lemma requeue_moves s fx addr addr2 val2 q :
  futex_of s fx !! addr = Some q -> 0 < val2 -> addr <> addr2 ->
  exists s', futex_requeue fx addr addr2 0 val2 s = Some (Z.min val2 (vlen q), s') /\
    queue_at s' fx addr = drop (Z.to_nat val2) q /\
    queue_at s' fx addr2 = queue_at s fx addr2 ++ take (Z.to_nat val2) q.
Proof.
  intros Hq Hv Hne. rewrite (futex_requeue_eq s fx addr addr2 val2 q Hq Hv).
  set (f := delete addr2 (delete addr (futex_of s fx))).
  assert (Hf1 : f !! addr = None) by (unfold f; by rewrite lookup_delete_ne, lookup_delete_eq).
  assert (Hf2 : put_queue f addr (drop (Z.to_nat val2) q) !! addr2 = None).
  { unfold put_queue. destruct (drop _ _); [| rewrite lookup_insert_ne by done];
      apply lookup_delete_eq. }
  eexists. split; [f_equal; f_equal; unfold vlen; rewrite length_take; lia |].
  unfold queue_at. rewrite futex_of_set, decide_True by done. split.
  - by rewrite put_queue_lookup, decide_False, put_queue_lookup, decide_True by done.
  - rewrite put_queue_lookup, decide_True by done. by rewrite lookup_delete_ne by done.
Qed.

(** [FUTEX_REQUEUE] from a word to itself loses waiters: with [q] waiting
    there, it keeps the first [val2] and drops the others, which sleep on in no
    queue. [sys_futex] does not refuse the call, and it returns [val2] as if the
    tasks had been moved. *)
Theorem requeue_to_same_word_loses_waiters (s : Sys) (fx addr val2 : Z) (q : WaitQueue)
    (Hq : futex_of s fx !! addr = Some q) (Hv : 0 < val2 < vlen q) :
  exists s', futex_requeue fx addr addr 0 val2 s = Some (val2, s') /\
    queue_at s' fx addr = take (Z.to_nat val2) q /\
    (forall a, a <> addr -> queue_at s' fx a = queue_at s fx a) /\
    (forall p, status_of s' p = status_of s p) /\
    (NoDup q -> forall p, p ∈ drop (Z.to_nat val2) q -> p ∉ queue_at s' fx addr).
Proof.
  rewrite (futex_requeue_eq s fx addr addr val2 q Hq) by lia.
  rewrite lookup_delete_eq. cbn [from_option id app]. rewrite delete_delete_eq.
  set (f := delete addr (futex_of s fx)).
  assert (Hk : take (Z.to_nat val2) q <> []).
  { intros H%(f_equal length). rewrite length_take in H. unfold vlen in *. cbn in H. lia. }
  assert (Hq' : forall a, default [] (put_queue (put_queue f addr (drop (Z.to_nat val2) q)) addr
      (take (Z.to_nat val2) q) !! a) = if decide (a = addr) then take (Z.to_nat val2) q
      else queue_at s fx a).
  { intros a. unfold put_queue at 1. destruct (take _ q) as [| x l]; [done |].
    destruct (decide (a = addr)) as [-> |]; [by rewrite lookup_insert_eq |].
    rewrite lookup_insert_ne, put_queue_lookup, decide_False by (done || apply lookup_delete_eq).
    unfold f. by rewrite lookup_delete_ne. }
  eexists. split; [f_equal; f_equal; unfold vlen in *; rewrite length_take; lia |].
  unfold queue_at at 1 2 4. rewrite futex_of_set, decide_True by done.
  split_and!; [by rewrite Hq', decide_True by done | | done |].
  - intros a Ha. by rewrite Hq', decide_False by done.
  - intros Hnd p Hp. rewrite Hq', decide_True by done.
    rewrite <- (take_drop (Z.to_nat val2) q) in Hnd.
    apply NoDup_app in Hnd as (_ & Hdisj & _). intros Hp'. by apply (Hdisj p).
Qed.

Definition demo_three : Sys := set_futex demo_asleep 7 {[ 64 := [1; 2; 3] ]}.

Lemma requeue_to_same_word_loses_waiters_witness :
  exists s', futex_requeue 7 64 64 0 1 demo_three = Some (1, s') /\
    queue_at s' 7 64 = [1] /\ status_of s' 3 = Some Interruptible.
Proof.
  assert (Hv : 0 < 1 < vlen [1; 2; 3]) by (unfold vlen; cbn; lia).
  destruct (requeue_to_same_word_loses_waiters demo_three 7 64 1 [1; 2; 3] eq_refl Hv)
    as (s' & Hrun & Hq & _ & Hst & _).
  exists s'. split_and!; [exact Hrun | exact Hq | rewrite Hst; by vm_compute].
Defined.

(** ** Waits that end by their timeout *)

(** Timed waits that are over leave the futex queues as they are. *)
Lemma expiry_keeps_entries pop tick s fx addr :
  pop_ok pop -> sched_ok s ->
  exists s', do_wake_expired pop tick s = Some s' /\ queue_at s' fx addr = queue_at s fx addr.
Proof.
  intros Hpop H.
  destruct (do_wake_expired_ok pop Hpop tick s H) as (s' & Hrun & _ & ps & h & -> & _).
  eexists. split; [done |]. unfold queue_at, futex_of. cbn [futexes set_timeouts].
  by rewrite awaken_all_futexes.
Qed.

(** A wait that timed out takes a later wake-up. The entry of [p] stays in the
    queue of its word when the wait ends by its timeout; wherever [p] sleeps
    again, for whatever reason, with that entry first in the queue, a wake of
    one waiter of the word is spent on it, and no other task is woken. *)
Lemma stale_waiter_takes_wakeup pop s p t addr word d tick tick' :
  pop_ok pop -> sched_ok s -> current s = Some p -> tcbs s !! p = Some t ->
  ts_gt (ts_add d (ts_now tick)) (ts_now tick') = false ->
  (exists s1 s2, futex_wait addr word word (Some d) tick s = Some (Sleeping, s1) /\
     do_wake_expired pop tick' s1 = Some s2 /\ status_of s2 p = Some Ready /\
     queue_at s2 (futex t) addr = queue_at s (futex t) addr ++ [p]) /\
  (forall s3 q, sched_ok s3 -> status_of s3 p = Some Interruptible ->
     queue_at s3 (futex t) addr = p :: q -> vlen (p :: q) < 2 ^ 63 ->
     exists s4, futex_wake None (futex t) addr 1 s3 = Some (1, s4) /\ status_of s4 p = Some Ready /\
       (forall r, r <> p -> status_of s4 r = status_of s3 r) /\
       (forall a, a <> addr -> queue_at s4 (futex t) a = queue_at s3 (futex t) a)).
Proof.
  intros Hpop H Hc Ht He. split.
  - destruct (futex_wait_ok s p t addr word (Some d) tick H Hc Ht) as (s1 & E1 & H1 & _ & Hst & Hq & Hto).
    destruct (do_wake_expired_ok pop Hpop tick' s1 H1) as (s2 & E2 & _ & ps & h & -> & _ & Hps & _).
    exists s1. eexists. split; [done |]. split; [done |]. split.
    + etrans; [apply (status_awaken_all s1 ps p); intros x [Hx _]%Hps; by exists Interruptible |].
      rewrite decide_True; [done |]. apply Hps. split; [done |].
      exists (mkWaiter p (ts_add d (ts_now tick))). rewrite Hto. split_and!; [left | done | done].
    + unfold queue_at, futex_of in *. cbn [futexes set_timeouts]. by rewrite awaken_all_futexes.
  - intros s3 q H3 Hst Hq Hl. assert (Hps : take (Z.to_nat 1) (waiting s3 (queue_at s3 (futex t) addr)) = [p]).
    { rewrite Hq. cbn [waiting]. by rewrite decide_True by done. }
    destruct (futex_wake_ok s3 (futex t) addr 1 H3 ltac:(lia)) as (s4 & E & _ & _ & _ & _ & Hs4 & Hqa & _); [by rewrite Hq |].
    rewrite Hps in *. exists s4. split; [done |]. split; [rewrite Hs4, decide_True; [done | left] |]. split; [| done].
    intros r Hr. rewrite Hs4, decide_False; [done |]. by rewrite list_elem_of_singleton.
Qed.

(** [FUTEX_WAKE_OP] takes the count for the second word from the upper half of
    the count for the first: a program that asks for fewer than 65536 tasks
    wakes nobody on the second word. *)
Lemma wake_op_second_word s fx addr addr2 val :
  0 <= val < 2 ^ 16 ->
  futex_wake_op fx addr addr2 val true s =
  '(n, s) ← futex_wake None fx addr val s;
  '(m, s) ← futex_wake None fx addr2 0 s; Some (n + m, s).
Proof.
  intros Hv. unfold futex_wake_op.
  change 0x7fffffff with (Z.ones 31). change 0xffff with (Z.ones 16).
  rewrite !Z.land_ones, Z.shiftr_div_pow2 by lia.
  rewrite (Z.mod_small val) by lia. rewrite Z.div_small by lia. done.
Qed.

Lemma futex_wake_zero s fx addr :
  exists s', futex_wake None fx addr 0 s = Some (0, s') /\ forall p, status_of s' p = status_of s p.
Proof.
  unfold futex_wake. destruct (futex_of s fx !! addr) as [q |]; [| by exists s].
  unfold wake_at_most. cbn [Z.eqb mbind option_bind]. eexists. split; [done |]. done.
Qed.

(** ** Errors of [sys_futex] *)

Section sys_futex_errors.
Context {T : Type} `{!PageTable T}.
Context (check_page_fault : VirtAddr -> KM Phys Z PhysAddr).

(** A null or unaligned word, and a command of no known number, are refused
    without a change of state. *)
Lemma sys_futex_bad_uaddr token fx uaddr op val timeout uaddr2 val3 tick w s :
  bad_uaddr uaddr = true ->
  sys_futex check_page_fault token fx uaddr op val timeout uaddr2 val3 tick (w, s) =
    Some (Ok (Done EINVAL), (w, s)).
Proof. intros H. unfold sys_futex. by rewrite H. Qed.

Lemma sys_futex_wake_runs token fx uaddr op val timeout uaddr2 val3 tick w s pa :
  bad_uaddr uaddr = false -> Z.land op 0x7f = 1 ->
  translated_refmut check_page_fault token uaddr w = Some (Ok pa, w) ->
  sys_futex check_page_fault token fx uaddr op val timeout uaddr2 val3 tick (w, s) =
  match futex_wake None fx pa val s with
  | Some (n, s) => Some (Ok (Done n), (w, s))
  | None => None
  end.
Proof.
  intros Hb Hop Htr. unfold sys_futex. rewrite Hb, Hop.
  unfold mbind, KM_bind, on_mem, on_sys. rewrite Htr.
  change (futex_cmd 1) with FutexWake. cbv beta iota.
  by destruct (futex_wake None fx pa val s) as [[n s'] |].
Qed.
End sys_futex_errors.
