(* ===== verification/Process.v ===== *)
(** * Processes

    The tree of tasks: [clone] ([task/task.rs], [syscall/process.rs]), exit of a
    task and of a thread group ([task/mod.rs]), the threads [exec] drops
    ([task/task.rs], [load_elf]) and [wait4] ([syscall/process.rs]), over the
    scheduler. The address space of a task is reached through an interface,
    [TaskVm].

    A control block dies with its last strong reference: those of the queues, of
    the processor, of the lists of children and of a kernel stack that keeps one
    across a switch ([referenced]), and the static one of [INITPROC]. Locking the
    inner state of a task whose lock is held never returns; it is [None], like a
    panic. *)

From S2P Require Import Prelude FileTrait Timer Sched Futex.
#[local] Open Scope kernel_scope.

Definition ECHILD : Z := -10.

(** What exit, [clone] and [wait4] need of an address space: to store a word
    through a user pointer, which gives its physical address or an error
    number; to free the stack and trap context of a thread; to free all its
    pages. *)
Class TaskVm (W : Type) := {
  vm_store_word : Z -> Z -> Z -> W -> option (result Z Z * W);
  vm_dealloc_user_res : Z -> Z -> W -> option W;
  vm_recycle_data_pages : Z -> W -> option W
}.

Definition set_exited (code : Z) (t : TaskControlBlock) : TaskControlBlock :=
  let i := inner t in
  set_inner t (mkInner (sigmask i) (sigpending i) Zombie (parent i) (children i) code
                 (clear_child_tid i)).
Definition set_parent (p : option Z) (t : TaskControlBlock) : TaskControlBlock :=
  let i := inner t in
  set_inner t (mkInner (sigmask i) (sigpending i) (task_status i) p (children i) (exit_code i)
                 (clear_child_tid i)).
Definition set_children (f : list Z -> list Z) (t : TaskControlBlock) : TaskControlBlock :=
  let i := inner t in
  set_inner t (mkInner (sigmask i) (sigpending i) (task_status i) (parent i) (f (children i))
                 (exit_code i) (clear_child_tid i)).
Definition set_clear_child_tid (a : Z) (t : TaskControlBlock) : TaskControlBlock :=
  let i := inner t in
  set_inner t (mkInner (sigmask i) (sigpending i) (task_status i) (parent i) (children i)
                 (exit_code i) a).

Section process.
Context {W : Type} `{!TaskVm W}.
Context (initproc : Z).

(** The task is referenced by a queue, the processor, a parent, or its own kernel
    stack. *)
Definition referenced (s : Sys) (p : Z) : Prop :=
  p ∈ ready s \/ p ∈ interruptible s \/ current s = Some p \/
  map_Exists (fun _ t => p ∈ children (inner t)) (tcbs s) \/ p ∈ handles s.
#[export] Instance referenced_dec s p : Decision (referenced s p).
Proof. unfold referenced. apply _. Defined.

(** A system call keeps its [Arc] of the current task over a switch, and drops it
    when it returns. *)
Definition keep_handle (s : Sys) (p : Z) : Sys := set_handles s ({[p]} ∪ handles s).
Definition drop_handle (s : Sys) (p : Z) : Sys := set_handles s (handles s ∖ {[p]}).

(** The end of the life of a local [Arc]. *)
Definition drop_arc (s : Sys) (p : Z) : Sys :=
  if decide (p = initproc \/ referenced s p) then s else set_tcbs s (delete p (tcbs s)).

(** [Arc::strong_count(&task.vm)]: the control blocks that share the space. *)
Definition vm_count (s : Sys) (v : Z) : nat :=
  size (filter (fun kt : Z * TaskControlBlock => vm kt.2 = v) (tcbs s)).

(** ** Exit *)

(** A task that sleeps is set [Ready] and moved to the ready queue. *)
Definition wake_if_asleep (s : Sys) (p : Z) : Sys :=
  if decide (status_of s p = Some Interruptible)
  then wake_interruptible (update_task s p (set_task_status Ready)) p else s.

(** The parent gets the exit signal, and is woken. *)
Definition notify_parent (s : Sys) (p : Z) (t : TaskControlBlock) : option Sys :=
  if exit_signal t =? 0 then Some s
  else match parent (inner t) with
       | None => Some s
       | Some pp =>
           if decide (pp = p) then None
           else
             _ ← tcbs s !! pp;
             Some (wake_if_asleep (update_task s pp (add_signal (exit_signal t))) pp)
       end.

(** [while let Some(child) = inner.children.pop()], the children from the last
    to the first. *)
Fixpoint adopt_loop (cs : list Z) (p : Z) (s : Sys) : option Sys :=
  match cs with
  | [] => Some s
  | c :: cs =>
      if decide (c = initproc \/ c = p) then None
      else
        let s := update_task s c (set_parent (Some initproc)) in
        adopt_loop cs p (update_task s initproc (set_children (fun l => l ++ [c])))
  end.
Definition move_children (s : Sys) (p : Z) (t : TaskControlBlock) : option Sys :=
  if decide (children (inner t) = []) then Some s
  else if decide (p = initproc) then None
  else
    s ← adopt_loop (reverse (children (inner t))) p s;
    Some (wake_if_asleep s initproc).

(** The futex wake on [clear_child_tid]; the lock of [p] is held. *)
Definition clear_tid (s : Sys) (p : Z) (t : TaskControlBlock) (w : W) : option (Sys * W) :=
  let a := clear_child_tid (inner t) in
  if a =? 0 then Some (s, w)
  else
    '(r, w) ← vm_store_word (vm t) a 0 w;
    match r with
    | Ok pa => '(_, s) ← futex_wake (Some p) (futex t) pa 1 s; Some (s, w)
    | Err _ => Some (s, w)
    end.

Definition do_exit (p code : Z) (s : Sys) (w : W) : option (Sys * W) :=
  t ← tcbs s !! p;
  s ← notify_parent s p t;
  let s := update_task s p (set_exited code) in
  s ← move_children s p t;
  let s := update_task s p (set_children (fun _ => [])) in
  '(s, w) ← clear_tid s p t w;
  w ← vm_dealloc_user_res (vm t) (tid t) w;
  w ← (if decide (vm_count s (vm t) = 1%nat) then vm_recycle_data_pages (vm t) w else Some w);
  Some (drop_arc s p, w).

(** [exit_current_and_run_next], up to the switch. *)
Definition exit_current (code : Z) (s : Sys) (w : W) : option (Sys * W) :=
  '(p, s) ← take_current s;
  do_exit p code s w.

(** The [while let] that goes once round a queue: [remain] counts down from its
    length. *)
Fixpoint split_group (remain : nat) (in_group : Z -> bool) (q out : list Z) : list Z * list Z :=
  match remain, q with
  | S remain, p :: q =>
      if in_group p then split_group remain in_group q (out ++ [p])
      else split_group remain in_group (q ++ [p]) out
  | _, _ => (q, out)
  end.

Fixpoint exit_all (ps : list Z) (code : Z) (s : Sys) (w : W) : option (Sys * W) :=
  match ps with
  | [] => Some (s, w)
  | p :: ps => '(s, w) ← do_exit p code s w; exit_all ps code s w
  end.

(** [exit_group_and_run_next], up to the switch. *)
Definition exit_group (code : Z) (s : Sys) (w : W) : option (Sys * W) :=
  '(p, s) ← take_current s;
  t ← tcbs s !! p;
  '(s, w) ← do_exit p code s w;
  let in_group q := bool_decide (tgid_of s q = Some (tgid t)) in
  let '(r, out) := split_group (length (ready s)) in_group (ready s) [] in
  let '(i, out) := split_group (length (interruptible s)) in_group (interruptible s) out in
  exit_all out code (set_manager s (mkTM r i (active_tracker (manager s)))) w.

(** The end of [load_elf]: [threads] says whether the process has more than
    one. *)
Definition exec_drop_threads (threads : bool) (s : Sys) : option Sys :=
  p ← current s;
  t ← tcbs s !! p;
  if threads then
    let keep q := tgid_of s q <> Some (tgid t) in
    let dropped := filter (fun q => ~ keep q) (ready s ++ interruptible s) in
    let s := set_manager s (mkTM (filter keep (ready s)) (filter keep (interruptible s))
               (active_tracker (manager s))) in
    Some (foldl drop_arc s dropped)
  else Some s.

(** ** Clone *)

Definition CLONE_PARENT : Z := 0x00008000.
Definition CLONE_THREAD : Z := 0x00010000.
Definition CLONE_PARENT_SETTID : Z := 0x00100000.
Definition CLONE_CHILD_CLEARTID : Z := 0x00200000.
Definition CLONE_CHILD_SETTID : Z := 0x01000000.
Definition has (flags f : Z) : bool := Z.land flags f =? f.

(** [TaskControlBlock::sys_clone]: the new block and its place in the tree.
    [id] is the identity of the block, [n] and [k] its process and thread
    numbers, [v] and [f] the space and futex table it gets. *)
Definition clone_task (s : Sys) (p flags exit_sig id n k v f : Z) : option Sys :=
  t ← tcbs s !! p;
  let sibling := has flags CLONE_PARENT || has flags CLONE_THREAD in
  let child := mkTask n k (if has flags CLONE_THREAD then tgid t else n) exit_sig v f
    (mkInner 0 (sigpending (inner t)) Ready
       (if sibling then parent (inner t) else Some p) [] 0 0) in
  let s := set_tcbs s (<[id := child]> (tcbs s)) in
  if sibling then
    match parent (inner t) with
    | None => Some s
    | Some g =>
        if decide (g = p) then None
        else _ ← tcbs s !! g; Some (update_task s g (set_children (fun l => l ++ [id])))
    end
  else Some (update_task s p (set_children (fun l => l ++ [id]))).

(** The system call: the early return leaves the child where it is, in no
    queue. *)
Definition sys_clone (flags exit_sig ptid ctid id n k v f : Z) (s : Sys) (w : W)
    : option (Z * Sys * W) :=
  p ← current s;
  t ← tcbs s !! p;
  s ← clone_task s p flags exit_sig id n k v f;
  '(r, w) ← (if has flags CLONE_PARENT_SETTID
             then vm_store_word (vm t) ptid (wrap32 n) w else Some (Ok 0, w));
  match r with
  | Err e => Some (e, s, w)
  | Ok _ =>
      '(_, w) ← (if has flags CLONE_CHILD_SETTID && negb (ctid =? 0)
                 then vm_store_word v ctid (wrap32 n) w else Some (Ok 0, w));
      let s := if has flags CLONE_CHILD_CLEARTID && negb (ctid =? 0)
               then update_task s id (set_clear_child_tid ctid) else s in
      Some (to_signed64 n, add_task s id, w)
  end.

(** ** Wait *)

Definition WNOHANG : Z := 1.
(** The bits [WaitOption::from_bits] accepts. *)
Definition WAIT_OPTIONS : Z := 0x100000f.

Definition wait_matches (s : Sys) (n c : Z) : bool :=
  (n =? -1) || bool_decide (pid_of s c = Some (wrap64 n)).
Definition is_zombie (s : Sys) (c : Z) : bool := bool_decide (status_of s c = Some Zombie).

(** The body of the [loop], which goes round when it has removed a thread that
    is not its group's first; [None] of the fuel is not reached, every round
    removes a child. *)
Fixpoint wait4_loop (fuel : nat) (n status option_ p : Z) (s : Sys) (w : W)
    : option (progress * Sys * W) :=
  match fuel with
  | O => None
  | S fuel =>
      t ← tcbs s !! p;
      let cs := children (inner t) in
      if decide (filter (fun c => wait_matches s n c = true) cs = []) then Some (Done ECHILD, s, w)
      else
        match list_find (fun c => is_zombie s c && wait_matches s n c = true) cs with
        | Some (i, c) =>
            ct ← tcbs s !! c;
            let s := update_task s p (set_children (fun l => take i l ++ drop (S i) l)) in
            if decide (referenced s c) then None
            else
              let s := drop_arc s c in
              if pid ct =? tgid ct then
                if negb (status =? 0) then
                  '(r, w) ← vm_store_word (vm t) status (exit_code (inner ct)) w;
                  match r with
                  | Ok _ => Some (Done (to_signed64 (pid ct)), s, w)
                  | Err e => Some (Done e, s, w)
                  end
                else Some (Done (to_signed64 (pid ct)), s, w)
              else wait4_loop fuel n status option_ p s w
        | None =>
            if has option_ WNOHANG then Some (Done 0, s, w)
            else s ← block_current (keep_handle s p); Some (Sleeping, s, w)
        end
  end.

(** [sys_wait4] up to its return or to the switch to another task, after which
    its loop runs again; its [task] lives on the kernel stack until it returns. *)
Definition sys_wait4 (n status option_ : Z) (s : Sys) (w : W) : option (progress * Sys * W) :=
  _ ← assert_ (Z.land option_ WAIT_OPTIONS =? option_);
  p ← current s;
  t ← tcbs s !! p;
  '(r, s, w) ← wait4_loop (S (length (children (inner t)))) n status option_ p s w;
  Some (r, match r with Done _ => drop_handle s p | Sleeping => s end, w).
End process.
