(* ===== verification/Handles.v ===== *)
(** * Handles on kernel stacks

    A system call that keeps its [Arc] of the current task over a switch
    ([sys_wait4], and [sys_read] and [sys_write] on a pipe) leaves a reference on
    the kernel stack of the sleeping task. No other operation changes which
    stacks hold one, and only the exit of the task itself makes a zombie of it.
    A task that exits of its own has returned from such calls; one that is ended
    by [exit_group] has not. *)

From S2P Require Import Prelude FileTrait Timer Sched Futex Process.
#[local] Open Scope kernel_scope.

(** Whether the task is a zombie; nothing when its block is gone. *)
Definition zombie_of (s : Sys) (q : Z) : option bool :=
  (fun t => bool_decide (task_status (inner t) = Zombie)) <$> tcbs s !! q.

(** The tasks that hold a handle are alive and no zombies. *)
Definition handles_ok (s : Sys) : Prop := forall q, q ∈ handles s -> zombie_of s q = Some false.

(** [s'] has the handles of [s], and their tasks are as they were, but for [X]. *)
Definition keeps (X : Z -> Prop) (s s' : Sys) : Prop :=
  handles s' = handles s /\ forall q, q ∈ handles s -> ~ X q -> zombie_of s' q = zombie_of s q.

#[export] Instance keeps_refl X : Reflexive (keeps X).
Proof. by intros s. Qed.
#[export] Instance keeps_trans X : Transitive (keeps X).
Proof.
  intros s1 s2 s3 [H1 Z1] [H2 Z2]. split; [congruence |]. intros q Hq Hx.
  rewrite Z2 by (congruence || done). by apply Z1.
Qed.

Lemma keeps_weaken (X Y : Z -> Prop) s s' : (forall q, X q -> Y q) -> keeps X s s' -> keeps Y s s'.
Proof. intros Hw [H Hz]. split; [done |]. intros q Hq Hy. apply Hz; [done |]. auto. Qed.

Lemma handles_ok_keeps s s' : keeps (fun _ => False) s s' -> handles_ok s -> handles_ok s'.
Proof. intros [H Hz] Hok q Hq. rewrite H in Hq. rewrite Hz by (done || tauto). by apply Hok. Qed.

Lemma keeps_same X s s' : tcbs s' = tcbs s -> handles s' = handles s -> keeps X s s'.
Proof. intros H1 H2. split; [done |]. intros q _ _. unfold zombie_of. by rewrite H1. Qed.

Lemma zombie_update s p f q :
  zombie_of (update_task s p f) q =
  if decide (q = p) then (fun t => bool_decide (task_status (inner (f t)) = Zombie)) <$> tcbs s !! p
  else zombie_of s q.
Proof.
  unfold zombie_of, update_task, set_tcbs. cbn [tcbs].
  destruct (decide (q = p)) as [-> |]; [rewrite lookup_alter_eq | by rewrite lookup_alter_ne].
  by destruct (tcbs s !! p).
Qed.

Lemma keeps_update (X : Z -> Prop) s p f :
  X p \/ (forall t, tcbs s !! p = Some t -> (task_status (inner (f t)) = Zombie <-> task_status (inner t) = Zombie)) ->
  keeps X s (update_task s p f).
Proof.
  intros Hf. split; [done |]. intros q _ Hx. rewrite zombie_update. destruct (decide (q = p)) as [-> |]; [| done].
  destruct Hf as [Hf | Hf]; [done |]. unfold zombie_of. destruct (tcbs s !! p) as [t |]; [| done]. cbn. f_equal.
  apply bool_decide_ext. by apply Hf.
Qed.

Lemma keeps_set_asleep X s p :
  status_of s p = Some Interruptible -> keeps X s (update_task s p (set_task_status Ready)).
Proof.
  intros Hst. apply keeps_update. right. intros t Ht. unfold status_of in Hst. rewrite Ht in Hst. injection Hst as Hst.
  cbn. by rewrite Hst.
Qed.

Lemma keeps_try_wake X s p : keeps X s (try_wake_interruptible s p).2.
Proof. unfold try_wake_interruptible. destruct (_ ≫= _); by apply keeps_same. Qed.

Lemma keeps_wake_if_asleep X s p : keeps X s (wake_if_asleep s p).
Proof.
  unfold wake_if_asleep, wake_interruptible. destruct (decide _) as [Hs |]; [| reflexivity].
  transitivity (update_task s p (set_task_status Ready)); [by apply keeps_set_asleep | apply keeps_try_wake].
Qed.

Lemma keeps_wake_loop X held q limit cnt s q' n s' :
  wake_loop held q limit cnt s = Some (q', n, s') -> keeps X s s'.
Proof.
  revert cnt s. induction q as [| p q IH]; intros cnt s; cbn [wake_loop]; [by intros [= <- <- <-] |].
  destruct (status_of s p) as [st |] eqn:Est; [| by apply IH]. destruct (decide _); [done |].
  destruct (decide _) as [-> |]; [| by apply IH].
  pose proof (keeps_try_wake X (update_task s p (set_task_status Ready)) p) as Hg.
  destruct (try_wake_interruptible _ p) as [r s1]. cbn [snd] in Hg.
  assert (keeps X s s1) by (etrans; [by apply keeps_set_asleep | done]).
  destruct (_ =? limit); [by intros [= <- <- <-] |]. intros Hrun%IH. by transitivity s1.
Qed.

Lemma keeps_futex_wake X held fx addr n s r s' : futex_wake held fx addr n s = Some (r, s') -> keeps X s s'.
Proof.
  unfold futex_wake. destruct (futex_of s fx !! addr) as [q |]; [| by intros [= <- <-]].
  unfold wake_at_most. destruct (n =? 0); [intros [= <- <-]; by apply keeps_same |].
  destruct (wake_loop _ _ _ _ _) as [[[q' m] s1] |] eqn:E; [| done]. cbn [mbind option_bind].
  intros [= <- <-]. apply (keeps_wake_loop X) in E. etrans; [by apply (keeps_same X) |].
  etrans; [exact E |]. by apply keeps_same.
Qed.

Section exits.
Context {W : Type} `{!TaskVm W}.
Context (initproc : Z).

Lemma keeps_notify_parent X s p t s' : notify_parent s p t = Some s' -> keeps X s s'.
Proof.
  unfold notify_parent. destruct (_ =? 0); [by intros [= <-] |].
  destruct (parent _) as [pp |]; [| by intros [= <-]]. destruct (decide _); [done |].
  destruct (tcbs s !! pp); [| done]. intros [= <-].
  transitivity (update_task s pp (add_signal (exit_signal t))); [by apply keeps_update; right |].
  apply keeps_wake_if_asleep.
Qed.

Lemma keeps_adopt X cs p s s' : adopt_loop initproc cs p s = Some s' -> keeps X s s'.
Proof.
  revert s. induction cs as [| c cs IH]; intros s; cbn [adopt_loop]; [by intros [= <-] |].
  destruct (decide _); [done |]. intros Hrun%IH. etrans; [| exact Hrun].
  etrans; [by apply (keeps_update X _ c (set_parent (Some initproc))); right |]. by apply keeps_update; right.
Qed.

Lemma keeps_move_children X s p t s' : move_children initproc s p t = Some s' -> keeps X s s'.
Proof.
  unfold move_children. destruct (decide _); [by intros [= <-] |]. destruct (decide _); [done |].
  destruct (adopt_loop _ _ _ _) as [s1 |] eqn:E; [| done]. cbn [mbind option_bind].
  intros [= <-]. etrans; [by eapply keeps_adopt | apply keeps_wake_if_asleep].
Qed.

Lemma keeps_clear_tid X s p t w s' w' : clear_tid s p t w = Some (s', w') -> keeps X s s'.
Proof.
  unfold clear_tid. destruct (_ =? 0); [by intros [= <- <-] |].
  destruct (vm_store_word _ _ _ w) as [[[pa | e] w1] |]; [| | done]; cbn [mbind option_bind].
  - destruct (futex_wake _ _ _ _ _) as [[k s5] |] eqn:E5; [| done]. cbn [mbind option_bind].
    intros [= <- <-]. by eapply keeps_futex_wake.
  - by intros [= <- <-].
Qed.

(** A block with a handle outlives its other references. *)
Lemma keeps_drop_arc X s p : keeps X s (drop_arc initproc s p).
Proof.
  unfold drop_arc. destruct (decide _) as [| Hn]; [reflexivity |]. split; [done |]. intros q Hq _.
  unfold zombie_of. cbn [tcbs set_tcbs]. rewrite lookup_delete_ne; [done |]. intros ->. apply Hn. right. unfold referenced. tauto.
Qed.

(** An exit marks its own task and no other. *)
Lemma keeps_do_exit p code s w s' w' :
  do_exit initproc p code s w = Some (s', w') ->
  keeps (eq p) s s' /\ (p ∈ handles s -> zombie_of s' p = Some true).
Proof.
  unfold do_exit. destruct (tcbs s !! p) as [t |] eqn:Ht; [| done]. cbn [mbind option_bind].
  destruct (notify_parent s p t) as [s1 |] eqn:E1; [| done]. cbn [mbind option_bind].
  destruct (move_children _ _ _ _) as [s2 |] eqn:E2; [| done]. cbn [mbind option_bind].
  destruct (clear_tid _ _ _ _) as [[s4 w4] |] eqn:E4; [| done]. cbn [mbind option_bind].
  destruct (vm_dealloc_user_res _ _ w4) as [w5 |]; [| done]. cbn [mbind option_bind].
  destruct (if decide _ then _ else _) as [w6 |]; [| done]. intros [= <- <-].
  pose proof (keeps_notify_parent (fun _ => False) _ _ _ _ E1) as K1.
  assert (K2 : keeps (fun _ => False) (update_task s1 p (set_exited code)) (drop_arc initproc s4 p)).
  { etrans; [by eapply keeps_move_children |]. etrans; [by apply (keeps_update _ s2 p (set_children (fun _ => []))); right |].
    etrans; [by eapply keeps_clear_tid | apply keeps_drop_arc]. }
  split.
  - transitivity s1; [by apply (keeps_weaken (fun _ => False)) |].
    etrans; [by apply (keeps_update (eq p) s1 p (set_exited code)); left | by apply (keeps_weaken (fun _ => False))].
  - intros Hp. destruct K1 as [H1 Z1]. specialize (Z1 p Hp ltac:(tauto)).
    assert (Hp1 : p ∈ handles s1) by (by rewrite H1).
    rewrite (proj2 K2 p Hp1 ltac:(tauto)). rewrite zombie_update, decide_True by done.
    unfold zombie_of in Z1. rewrite Ht in Z1. destruct (tcbs s1 !! p); done.
Qed.

Lemma keeps_exit_all ps code s w s' w' :
  exit_all initproc ps code s w = Some (s', w') ->
  keeps (fun q => q ∈ ps) s s' /\ (forall p, p ∈ ps -> p ∈ handles s -> zombie_of s' p = Some true).
Proof.
  revert s w. induction ps as [| p ps IH]; intros s w; cbn [exit_all].
  - intros [= <- <-]. split; [reflexivity |]. by intros p ?%elem_of_nil.
  - destruct (do_exit initproc p code s w) as [[s1 w1] |] eqn:E; [| done]. cbn [mbind option_bind]. intros Hrun.
    destruct (keeps_do_exit _ _ _ _ _ _ E) as [K1 Z1]. destruct (IH s1 w1 Hrun) as [K2 Z2]. split.
    + etrans; [eapply keeps_weaken, K1 | eapply keeps_weaken, K2]; intros q; rewrite elem_of_cons; naive_solver.
    + intros q Hq Hh. destruct K1 as [H1 _]. destruct (decide (q ∈ ps)) as [Hin | Hin]; [apply Z2; [done | by rewrite H1] |].
      apply elem_of_cons in Hq as [-> | Hq]; [| done]. rewrite (proj2 K2) by (done || by rewrite H1). by apply Z1.
Qed.

(** A new task holds no handle. *)
Lemma keeps_sys_clone flags exit_sig ptid ctid id n k v f s w r s' w' :
  id ∉ handles s -> sys_clone flags exit_sig ptid ctid id n k v f s w = Some (r, s', w') ->
  keeps (fun _ => False) s s'.
Proof.
  intros Hid. unfold sys_clone. destruct (current s) as [p |]; [| done]. cbn [mbind option_bind].
  destruct (tcbs s !! p) as [t |]; [| done]. cbn [mbind option_bind].
  destruct (clone_task s p flags exit_sig id n k v f) as [s1 |] eqn:E; [| done]. cbn [mbind option_bind].
  assert (K1 : keeps (fun _ => False) s s1).
  { unfold clone_task in E. destruct (tcbs s !! p) as [t' |]; [| done]. cbn [mbind option_bind] in E.
    set (s0 := set_tcbs s _) in E. assert (K0 : keeps (fun _ => False) s s0).
    { split; [done |]. intros q Hq _. unfold zombie_of, s0. cbn [tcbs set_tcbs].
      rewrite lookup_insert_ne; [done |]. by intros ->. }
    assert (Ku : forall g, keeps (fun _ => False) s (update_task s0 g (set_children (fun l => l ++ [id])))).
    { intros g. etrans; [exact K0 |]. by apply keeps_update; right. }
    destruct (_ || _); [| by injection E as <-]. destruct (parent (inner t')) as [g |]; [| by injection E as <-].
    destruct (decide _); [done |]. destruct (tcbs s0 !! g); [| done]. by injection E as <-. }
  destruct (if has flags CLONE_PARENT_SETTID then _ else _) as [[[? | e] w1] |]; [| | done];
    cbn [mbind option_bind]; [| by intros [= <- <- <-]].
  destruct (if has flags CLONE_CHILD_SETTID && _ then _ else _) as [[? w2] |]; [| done].
  cbn [mbind option_bind]. intros [= <- <- <-]. etrans; [exact K1 |].
  destruct (has flags CLONE_CHILD_CLEARTID && _); [| by apply keeps_same].
  etrans; [by apply (keeps_update _ s1 id (set_clear_child_tid ctid)); right | by apply keeps_same].
Qed.
End exits.

(** ** Groups

    No operation of an exit adds a control block, moves one to another group,
    takes back the end of one or makes one run. *)

Definition ages (s s' : Sys) : Prop :=
  forall q t', tcbs s' !! q = Some t' -> exists t, tcbs s !! q = Some t /\ tgid t' = tgid t /\
    (task_status (inner t) = Zombie -> task_status (inner t') = Zombie) /\
    (task_status (inner t') = Running -> task_status (inner t) = Running).

#[export] Instance ages_refl : Reflexive ages.
Proof. intros s q t Ht. by exists t. Qed.
#[export] Instance ages_trans : Transitive ages.
Proof.
  intros s1 s2 s3 H1 H2 q t3 Ht3. destruct (H2 q t3 Ht3) as (t2 & Ht2 & Hg2 & Hz2 & Hr2).
  destruct (H1 q t2 Ht2) as (t1 & Ht1 & Hg1 & Hz1 & Hr1). exists t1. split; [done |]. split; [congruence | auto].
Qed.

Lemma ages_same s s' : tcbs s' = tcbs s -> ages s s'.
Proof. intros H q t Ht. rewrite H in Ht. by exists t. Qed.

Lemma ages_update s p f :
  (forall t, tcbs s !! p = Some t -> tgid (f t) = tgid t /\
     (task_status (inner t) = Zombie -> task_status (inner (f t)) = Zombie) /\
     (task_status (inner (f t)) = Running -> task_status (inner t) = Running)) ->
  ages s (update_task s p f).
Proof.
  intros Hf q t'. unfold update_task, set_tcbs. cbn [tcbs]. destruct (decide (q = p)) as [-> |].
  - rewrite lookup_alter_eq. destruct (tcbs s !! p) as [t |]; [| done]. intros [= <-]. exists t. split; [done |]. by apply Hf.
  - rewrite lookup_alter_ne by done. intros Ht. by exists t'.
Qed.

Lemma ages_set_asleep s p :
  status_of s p = Some Interruptible -> ages s (update_task s p (set_task_status Ready)).
Proof.
  intros Hst. apply ages_update. intros t Ht. unfold status_of in Hst. rewrite Ht in Hst. injection Hst as Hst.
  split; [done |]. by rewrite Hst.
Qed.

Lemma ages_try_wake s p : ages s (try_wake_interruptible s p).2.
Proof. unfold try_wake_interruptible. destruct (_ ≫= _); by apply ages_same. Qed.

Lemma ages_wake_if_asleep s p : ages s (wake_if_asleep s p).
Proof.
  unfold wake_if_asleep, wake_interruptible. destruct (decide _) as [Hs |]; [| reflexivity].
  transitivity (update_task s p (set_task_status Ready)); [by apply ages_set_asleep | apply ages_try_wake].
Qed.

Lemma ages_wake_loop held q limit cnt s q' n s' :
  wake_loop held q limit cnt s = Some (q', n, s') -> ages s s'.
Proof.
  revert cnt s. induction q as [| p q IH]; intros cnt s; cbn [wake_loop]; [by intros [= <- <- <-] |].
  destruct (status_of s p) as [st |] eqn:Est; [| by apply IH]. destruct (decide _); [done |].
  destruct (decide _) as [-> |]; [| by apply IH].
  pose proof (ages_try_wake (update_task s p (set_task_status Ready)) p) as Hg.
  destruct (try_wake_interruptible _ p) as [r s1]. cbn [snd] in Hg.
  assert (ages s s1) by (etrans; [by apply ages_set_asleep | done]).
  destruct (_ =? limit); [by intros [= <- <- <-] |]. intros Hrun%IH. by transitivity s1.
Qed.

Lemma ages_futex_wake held fx addr n s r s' : futex_wake held fx addr n s = Some (r, s') -> ages s s'.
Proof.
  unfold futex_wake. destruct (futex_of s fx !! addr) as [q |]; [| by intros [= <- <-]].
  unfold wake_at_most. destruct (n =? 0); [intros [= <- <-]; by apply ages_same |].
  destruct (wake_loop _ _ _ _ _) as [[[q' m] s1] |] eqn:E; [| done]. cbn [mbind option_bind].
  intros [= <- <-]. exact (ages_wake_loop _ _ _ _ _ _ _ _ E).
Qed.

Section ends.
Context {W : Type} `{!TaskVm W}.
Context (initproc : Z).

Lemma ages_notify_parent s p t s' : notify_parent s p t = Some s' -> ages s s'.
Proof.
  unfold notify_parent. destruct (_ =? 0); [by intros [= <-] |].
  destruct (parent _) as [pp |]; [| by intros [= <-]]. destruct (decide _); [done |].
  destruct (tcbs s !! pp); [| done]. intros [= <-].
  transitivity (update_task s pp (add_signal (exit_signal t))); [by apply ages_update | apply ages_wake_if_asleep].
Qed.

Lemma ages_move_children s p t s' : move_children initproc s p t = Some s' -> ages s s'.
Proof.
  unfold move_children. destruct (decide _); [by intros [= <-] |]. destruct (decide _); [done |].
  destruct (adopt_loop _ _ _ _) as [s1 |] eqn:E; [| done]. cbn [mbind option_bind].
  intros [= <-]. transitivity s1; [| apply ages_wake_if_asleep]. revert s E.
  induction (reverse (children (inner t))) as [| c cs IH]; intros s; cbn [adopt_loop]; [by intros [= <-] |].
  destruct (decide _); [done |]. intros Hrun%IH. etrans; [| exact Hrun].
  etrans; [by apply (ages_update s c (set_parent (Some initproc))) | by apply ages_update].
Qed.

Lemma ages_clear_tid s p t w s' w' : clear_tid s p t w = Some (s', w') -> ages s s'.
Proof.
  unfold clear_tid. destruct (_ =? 0); [by intros [= <- <-] |].
  destruct (vm_store_word _ _ _ w) as [[[pa | e] w1] |]; [| | done]; cbn [mbind option_bind].
  - destruct (futex_wake _ _ _ _ _) as [[k s5] |] eqn:E5; [| done]. cbn [mbind option_bind].
    intros [= <- <-]. by eapply ages_futex_wake.
  - by intros [= <- <-].
Qed.

Lemma ages_do_exit p code s w s' w' :
  do_exit initproc p code s w = Some (s', w') ->
  ages s s' /\ forall t', tcbs s' !! p = Some t' -> task_status (inner t') = Zombie.
Proof.
  unfold do_exit. destruct (tcbs s !! p) as [t |] eqn:Ht; [| done]. cbn [mbind option_bind].
  destruct (notify_parent s p t) as [s1 |] eqn:E1; [| done]. cbn [mbind option_bind].
  destruct (move_children _ _ _ _) as [s2 |] eqn:E2; [| done]. cbn [mbind option_bind].
  destruct (clear_tid _ _ _ _) as [[s4 w4] |] eqn:E4; [| done]. cbn [mbind option_bind].
  destruct (vm_dealloc_user_res _ _ w4) as [w5 |]; [| done]. cbn [mbind option_bind].
  destruct (if decide _ then _ else _) as [w6 |]; [| done]. intros [= <- <-].
  pose proof (ages_notify_parent _ _ _ _ E1) as A1.
  assert (A2 : ages (update_task s1 p (set_exited code)) (drop_arc initproc s4 p)).
  { etrans; [by eapply ages_move_children |]. etrans; [by apply (ages_update s2 p (set_children (fun _ => []))) |].
    etrans; [by eapply ages_clear_tid |]. unfold drop_arc. destruct (decide _); [reflexivity |].
    intros q t'. cbn [tcbs set_tcbs]. intros [_ Hq]%lookup_delete_Some. by exists t'. }
  split.
  - transitivity s1; [done |]. etrans; [by apply (ages_update s1 p (set_exited code)) | exact A2].
  - intros t' Ht'. destruct (A2 p t' Ht') as (t2 & Ht2 & _ & Hz & _). apply Hz.
    unfold update_task, set_tcbs in Ht2. cbn [tcbs] in Ht2. rewrite lookup_alter_eq in Ht2.
    destruct (tcbs s1 !! p); [| done]. by injection Ht2 as <-.
Qed.
End ends.
