(* ===== verification/Family.v ===== *)
(** * The tree of tasks

    The invariant of the process tree, and that the operations of the
    scheduler, of futexes and of [Process] keep it together with the invariant
    of the queues. *)

From S2P Require Import Prelude FileTrait Timer Sched Futex Process Handles.
#[local] Open Scope kernel_scope.

(** ** Steps that only wake and signal

    [sim_task]: nothing but the status and the pending signals differ, and a
    zombie stays one. *)
Definition sim_task (t t' : TaskControlBlock) : Prop :=
  pid t' = pid t /\ tid t' = tid t /\ tgid t' = tgid t /\ exit_signal t' = exit_signal t /\
  vm t' = vm t /\ futex t' = futex t /\ parent (inner t') = parent (inner t) /\
  children (inner t') = children (inner t) /\ exit_code (inner t') = exit_code (inner t) /\
  clear_child_tid (inner t') = clear_child_tid (inner t) /\
  (task_status (inner t') = Zombie <-> task_status (inner t) = Zombie).

Definition sim (s s' : Sys) : Prop :=
  forall p, option_Forall2 sim_task (tcbs s !! p) (tcbs s' !! p).

#[export] Instance sim_refl : Reflexive sim.
Proof. intros s p. destruct (tcbs s !! p); constructor. by split_and!. Qed.

#[export] Instance sim_trans : Transitive sim.
Proof.
  intros s1 s2 s3 H12 H23 p. specialize (H12 p). specialize (H23 p).
  destruct H12 as [t1 t2 H12 |].
  - inversion H23 as [? t3 H23' |]; subst. constructor. unfold sim_task in *.
    destruct_and!. split_and!; (congruence || tauto).
  - inversion H23. constructor.
Qed.

Lemma sim_update s p f :
  (forall t, tcbs s !! p = Some t -> sim_task t (f t)) -> sim s (update_task s p f).
Proof.
  intros Hf q. unfold update_task, set_tcbs. cbn [tcbs].
  destruct (decide (q = p)) as [-> | Hne].
  - rewrite lookup_alter_eq. destruct (tcbs s !! p) eqn:E; constructor. by apply Hf.
  - rewrite lookup_alter_ne by done. apply sim_refl.
Qed.

Lemma sim_add_signal s p sig : sim s (update_task s p (add_signal sig)).
Proof. apply sim_update. intros t _. by split_and!. Qed.

Lemma sim_set_status s p st0 st :
  status_of s p = Some st0 -> st0 <> Zombie -> st <> Zombie ->
  sim s (update_task s p (set_task_status st)).
Proof.
  intros H0 Hz0 Hz. apply sim_update. intros t Ht. unfold status_of in H0. rewrite Ht in H0.
  injection H0 as Hst. split_and!; try done. cbn. rewrite Hst. tauto.
Qed.

Lemma sim_awaken s p : status_of s p = Some Interruptible -> sim s (awaken s p).
Proof. intros H. by apply (sim_set_status s p Interruptible Ready). Qed.

Lemma sim_awaken_all s ps :
  NoDup ps -> (forall p, p ∈ ps -> status_of s p = Some Interruptible) -> sim s (awaken_all s ps).
Proof.
  revert s. induction ps as [| p ps IH]; intros s Hnd Hps; [reflexivity |].
  apply NoDup_cons in Hnd as [Hp Hnd].
  transitivity (awaken s p); [apply sim_awaken, Hps; left |]. apply IH; [done |].
  intros q Hq. rewrite status_awaken, decide_False by congruence. apply Hps. by right.
Qed.

(** The same tasks: what is below [manager], [current] and the rest. *)
Lemma sim_same_tcbs s s' : tcbs s' = tcbs s -> sim s s'.
Proof. intros H p. rewrite H. apply sim_refl. Qed.

(** Waking keeps the queues exact and the tree. *)
Lemma wake_loop_inv held q limit cnt s q' n s' :
  sched_ok s -> wake_loop held q limit cnt s = Some (q', n, s') -> sched_ok s' /\ sim s s'.
Proof.
  revert cnt s. induction q as [| p q IH]; intros cnt s H; cbn [wake_loop].
  { intros [= <- <- <-]. by split. }
  destruct (status_of s p) as [st |] eqn:Hp; [| by apply IH].
  destruct (decide (held = Some p)); [done |].
  destruct (decide (st = Interruptible)) as [-> |]; [| by apply IH].
  rewrite wake_one by done. cbv beta iota.
  pose proof (awaken_ok s p H Hp) as Hok. pose proof (sim_awaken s p Hp) as Hsim.
  destruct (_ =? limit).
  - intros [= <- <- <-]. by split.
  - intros Hrun. destruct (IH _ _ Hok Hrun). split; [done |]. by transitivity (awaken s p).
Qed.

Lemma futex_wake_inv held fx addr n s r s' :
  sched_ok s -> futex_wake held fx addr n s = Some (r, s') -> sched_ok s' /\ sim s s'.
Proof.
  intros H. unfold futex_wake. destruct (futex_of s fx !! addr) as [q |].
  2: { intros [= <- <-]. by split. }
  set (s0 := set_futex s fx _). unfold wake_at_most. destruct (n =? 0).
  - cbn [mbind option_bind]. intros [= <- <-]. split; [by do 2 apply set_futex_ok |].
    by apply sim_same_tcbs.
  - destruct (wake_loop held q n 0 s0) as [[[q' m] s1] |] eqn:E; [| done].
    cbn [mbind option_bind]. intros [= <- <-].
    apply wake_loop_inv in E as [Hok Hsim]; [| by apply set_futex_ok].
    split; [by apply set_futex_ok |]. transitivity s0; [by apply sim_same_tcbs |].
    transitivity s1; [done | by apply sim_same_tcbs].
Qed.

Lemma futex_requeue_inv fx addr addr2 val val2 s r s' :
  sched_ok s -> futex_requeue fx addr addr2 val val2 s = Some (r, s') -> sched_ok s' /\ sim s s'.
Proof.
  intros H. unfold futex_requeue.
  destruct (if negb (val =? 0) then _ else _) as [[m s1] |] eqn:E; [| done].
  assert (sched_ok s1 /\ sim s s1) as [H1 Hs1].
  { destruct (negb (val =? 0)); [by eapply futex_wake_inv |]. injection E as <- <-. by split. }
  cbn [mbind option_bind]. destruct (futex_of s1 fx !! addr) as [q |].
  2: { intros [= <- <-]. by split. }
  destruct (if negb (val2 =? 0) then _ else _) as [[q1 q2] k]. intros [= <- <-].
  split; [by apply set_futex_ok |]. transitivity s1; [done | by apply sim_same_tcbs].
Qed.

Lemma wake_if_asleep_eq s p :
  sched_ok s ->
  wake_if_asleep s p = if decide (status_of s p = Some Interruptible) then awaken s p else s.
Proof.
  intros H. unfold wake_if_asleep. destruct (decide _) as [Hp |]; [| done].
  unfold wake_interruptible. by rewrite wake_one.
Qed.

Lemma wake_if_asleep_inv s p : sched_ok s -> sched_ok (wake_if_asleep s p) /\ sim s (wake_if_asleep s p).
Proof.
  intros H. rewrite wake_if_asleep_eq by done. destruct (decide _) as [Hp |]; [| by split].
  split; [by apply awaken_ok | by apply sim_awaken].
Qed.

(** A signal posted to a task. *)
Definition post_signal (s : Sys) (p sig : Z) : Sys :=
  wake_if_asleep (update_task s p (add_signal sig)) p.

Lemma post_signal_inv s p sig :
  sched_ok s -> sched_ok (post_signal s p sig) /\ sim s (post_signal s p sig).
Proof.
  intros H. destruct (wake_if_asleep_inv (update_task s p (add_signal sig)) p) as [Hok Hsim].
  { by apply sched_ok_update. }
  split; [done |]. transitivity (update_task s p (add_signal sig)); [apply sim_add_signal | done].
Qed.

Lemma run_tasks_turn_inv pop tick s s' :
  pop_ok pop -> sched_ok s -> current s = None -> run_tasks_turn pop tick s = Some s' ->
  sched_ok s' /\ sim s s'.
Proof.
  intros Hpop H Hc Hrun. destruct (ready s) as [| p rest] eqn:Hr.
  - unfold run_tasks_turn, fetch in Hrun. fold (ready s) in Hrun. rewrite Hr in Hrun.
    destruct (do_wake_expired_ok pop Hpop tick s H) as (s1 & E & Hok & ps & h & -> & Hnd & Hps & _).
    rewrite E in Hrun. injection Hrun as <-. split; [done |].
    transitivity (awaken_all s ps); [| by apply sim_same_tcbs].
    apply sim_awaken_all; [done |]. by intros p [? _]%Hps.
  - destruct (dispatch_ok pop tick s p rest H Hc Hr) as (s1 & E & Hok & _).
    rewrite E in Hrun. injection Hrun as <-. split; [done |].
    assert (Hst : status_of s p = Some Ready) by (apply (ok_ready s H); rewrite Hr; left).
    revert E. unfold run_tasks_turn, fetch. fold (ready s). rewrite Hr. intros [= <-].
    intros q. apply (sim_set_status s p Ready Running Hst); done.
Qed.

(** ** Handles *)

Lemma keeps_sim s s' : handles s' = handles s -> sim s s' -> keeps (fun _ => False) s s'.
Proof.
  intros Hh Hs. split; [done |]. intros q _ _. unfold zombie_of. destruct (Hs q) as [t t' Ht |]; [| done].
  cbn. f_equal. apply bool_decide_ext, Ht.
Qed.

Lemma keep_handle_ok s p : sched_ok s -> current s = Some p -> handles_ok s -> handles_ok (keep_handle s p).
Proof.
  intros H Hc%(ok_current s H) Hh q [->%elem_of_singleton | Hq]%elem_of_union; [| by apply Hh].
  unfold zombie_of, status_of in *. cbn [tcbs keep_handle set_handles].
  destruct (tcbs s !! p) as [t |]; [| done]. injection Hc as Hc. cbn. by rewrite Hc.
Qed.

Lemma drop_handle_ok s p : handles_ok s -> handles_ok (drop_handle s p).
Proof. intros Hh q [Hq _]%elem_of_difference. by apply Hh. Qed.

Lemma block_handles s s' : block_current s = Some s' -> handles s' = handles s.
Proof. unfold block_current, take_current. destruct (current s); [| done]. by intros [= <-]. Qed.
Lemma suspend_handles s s' : suspend_current s = Some s' -> handles s' = handles s.
Proof. unfold suspend_current, take_current. destruct (current s); [| done]. by intros [= <-]. Qed.
Lemma wake_expired_handles pop fuel now s s' : wake_expired_loop pop fuel now s = Some s' -> handles s' = handles s.
Proof.
  revert s. induction fuel as [| fuel IH]; intros s; cbn [wake_expired_loop]; [done |].
  destruct (pop (timeouts s)) as [[x h] |]; [| by intros [= <-]]. destruct (ts_gt _ _); [by intros [= <-] |].
  destruct (decide _); intros Hrun%IH; [| done]. rewrite Hrun.
  exact (proj1 (keeps_try_wake (fun _ => False) (update_task (set_timeouts s h) (w_task x) (set_task_status Ready)) (w_task x))).
Qed.
Lemma turn_handles pop tick s s' : run_tasks_turn pop tick s = Some s' -> handles s' = handles s.
Proof.
  unfold run_tasks_turn, fetch. destruct (ready_queue (manager s)); [apply wake_expired_handles | by intros [= <-]].
Qed.
Lemma futex_wait_handles addr word val timeout tick s r s' :
  futex_wait addr word val timeout tick s = Some (r, s') -> handles s' = handles s.
Proof.
  unfold futex_wait. destruct (negb (word =? val)); [by intros [= <- <-] |].
  destruct (current s) as [p |]; [| done]. cbn [mbind option_bind].
  destruct (tcbs s !! p) as [t |]; [| done]. cbn [mbind option_bind].
  destruct (block_current _) as [s3 |] eqn:E; [| done]. cbn [mbind option_bind].
  intros [= <- <-]. apply block_handles in E. rewrite E. by destruct timeout.
Qed.
Lemma futex_requeue_handles fx addr addr2 n m s r s' :
  futex_requeue fx addr addr2 n m s = Some (r, s') -> handles s' = handles s.
Proof.
  unfold futex_requeue. destruct (if negb (n =? 0) then _ else _) as [[k s1] |] eqn:E; [| done].
  assert (H1 : handles s1 = handles s).
  { destruct (negb (n =? 0)); [by apply (keeps_futex_wake (fun _ => False)) in E as [? _] |]. by injection E as <- <-. }
  cbn [mbind option_bind]. destruct (futex_of s1 fx !! addr) as [q |]; [| by intros [= <- <-]].
  destruct (if negb (m =? 0) then _ else _) as [[q1 q2] c]. by intros [= <- <-].
Qed.
Lemma futex_wake_op_inv fx addr addr2 val b s r s' :
  sched_ok s -> futex_wake_op fx addr addr2 val b s = Some (r, s') ->
  sched_ok s' /\ sim s s' /\ handles s' = handles s.
Proof.
  intros H. unfold futex_wake_op. destruct (futex_wake None fx addr _ s) as [[n1 s1] |] eqn:E1; [| done]. cbn [mbind option_bind].
  destruct (futex_wake_inv _ _ _ _ _ _ _ H E1) as [H1 Hs1]. apply (keeps_futex_wake (fun _ => False)) in E1 as [Hh1 _].
  destruct b; [| intros [= <- <-]; by split_and!].
  destruct (futex_wake None fx addr2 _ s1) as [[n2 s2] |] eqn:E2; [| done]. cbn [mbind option_bind]. intros [= <- <-].
  destruct (futex_wake_inv _ _ _ _ _ _ _ H1 E2) as [H2 Hs2]. apply (keeps_futex_wake (fun _ => False)) in E2 as [Hh2 _].
  split_and!; [done | by transitivity s1 | congruence].
Qed.

Lemma suspend_inv s s' : sched_ok s -> suspend_current s = Some s' -> sched_ok s' /\ sim s s'.
Proof.
  intros H Hrun. destruct (current s) as [p |] eqn:Hc.
  2: { unfold suspend_current, take_current in Hrun. by rewrite Hc in Hrun. }
  destruct (suspend_ok s p H Hc) as (s1 & E & Hok & _). rewrite E in Hrun. injection Hrun as <-.
  split; [done |]. apply (ok_current s H) in Hc as Hst.
  revert E. unfold suspend_current, take_current. rewrite Hc. intros [= <-].
  intros q. apply (sim_set_status s p Running Ready Hst); done.
Qed.

Lemma block_inv s s' : sched_ok s -> block_current s = Some s' -> sched_ok s' /\ sim s s'.
Proof.
  intros H Hrun. destruct (current s) as [p |] eqn:Hc.
  2: { unfold block_current, take_current in Hrun. by rewrite Hc in Hrun. }
  destruct (block_ok s p H Hc) as (s1 & E & Hok & _). rewrite E in Hrun. injection Hrun as <-.
  split; [done |]. apply (ok_current s H) in Hc as Hst.
  revert E. unfold block_current, take_current. rewrite Hc. intros [= <-].
  intros q. apply (sim_set_status s p Running Interruptible Hst); done.
Qed.

Lemma futex_wait_inv addr word val timeout tick s r s' :
  sched_ok s -> futex_wait addr word val timeout tick s = Some (r, s') -> sched_ok s' /\ sim s s'.
Proof.
  intros H. unfold futex_wait. destruct (negb (word =? val)); [intros [= <- <-]; by split |].
  destruct (current s) as [p |]; [| done]. cbn [mbind option_bind].
  destruct (tcbs s !! p) as [t |]; [| done]. cbn [mbind option_bind].
  set (s1 := set_futex s _ _). set (s2 := match _ <$> timeout with Some _ => _ | None => _ end).
  destruct (block_current s2) as [s3 |] eqn:E; [| done]. cbn [mbind option_bind].
  intros [= <- <-]. apply block_inv in E as [Hok Hsim].
  - split; [done |]. transitivity s2; [| done]. apply sim_same_tcbs. by destruct timeout.
  - unfold s2. destruct timeout; cbn; [apply set_timeouts_ok |]; by apply set_futex_ok.
Qed.

(** ** The invariant of the tree *)

Definition children_of (s : Sys) (p : Z) : list Z :=
  default [] ((fun t => children (inner t)) <$> tcbs s !! p).
Definition parent_of (s : Sys) (p : Z) : option Z := tcbs s !! p ≫= fun t => parent (inner t).

Section family.
Context (initproc : Z).

(** Parents and lists of children agree, each child is listed once, nobody is
    its own parent, and [INITPROC] is alive and has no parent. *)
Record tree_ok (s : Sys) : Prop := {
  tree_child p c : c ∈ children_of s p <-> parent_of s c = Some p;
  tree_once p : NoDup (children_of s p);
  tree_self p : parent_of s p <> Some p;
  tree_root : is_Some (tcbs s !! initproc) /\ parent_of s initproc = None
}.

(** Zombies have no children left, those of [X] excepted, and [INITPROC] is no
    zombie. *)
Definition childless (X : Z -> Prop) (s : Sys) : Prop :=
  status_of s initproc <> Some Zombie /\
  forall p, ~ X p -> status_of s p = Some Zombie -> children_of s p = [].

Definition family_ok (s : Sys) : Prop := tree_ok s /\ childless (fun _ => False) s.

Lemma sim_children s s' p : sim s s' -> children_of s' p = children_of s p.
Proof.
  intros H. unfold children_of. destruct (H p) as [t t' Ht |]; [| done]. cbn. apply Ht.
Qed.

Lemma sim_parent s s' p : sim s s' -> parent_of s' p = parent_of s p.
Proof. intros H. unfold parent_of. destruct (H p) as [t t' Ht |]; [| done]. cbn. apply Ht. Qed.

Lemma sim_alive s s' p : sim s s' -> is_Some (tcbs s !! p) -> is_Some (tcbs s' !! p).
Proof. intros H. destruct (H p); intros [? ?]; [eauto | done]. Qed.

Lemma sim_zombie s s' p :
  sim s s' -> status_of s' p = Some Zombie <-> status_of s p = Some Zombie.
Proof.
  intros H. unfold status_of. destruct (H p) as [t t' Ht |]; [| done]. cbn.
  destruct Ht as (_ & _ & _ & _ & _ & _ & _ & _ & _ & _ & Hz).
  split; intros [= ?]; f_equal; tauto.
Qed.

(** Agreement on parents and children is enough. *)
Lemma tree_ok_ext s s' :
  tree_ok s -> (forall p, children_of s' p = children_of s p) ->
  (forall p, parent_of s' p = parent_of s p) -> is_Some (tcbs s' !! initproc) -> tree_ok s'.
Proof.
  intros [H1 H2 H3 [H4 H5]] Hc Hp Hr. split.
  - intros p c. rewrite Hc, Hp. apply H1.
  - intros p. rewrite Hc. apply H2.
  - intros p. rewrite Hp. apply H3.
  - by rewrite Hp.
Qed.

Lemma tree_ok_sim s s' : sim s s' -> tree_ok s -> tree_ok s'.
Proof.
  intros Hs H. apply (tree_ok_ext s); [done | | |].
  - intros p. by apply sim_children.
  - intros p. by apply sim_parent.
  - eapply sim_alive; [done | apply H].
Qed.

Lemma childless_sim X s s' : sim s s' -> childless X s -> childless X s'.
Proof.
  intros Hs [HI H]. split; [by rewrite (sim_zombie s s') |].
  intros p HX Hz. rewrite (sim_children s s') by done. apply H; [done |].
  by apply (sim_zombie s s').
Qed.

Lemma family_ok_sim s s' : sim s s' -> family_ok s -> family_ok s'.
Proof. intros Hs [H1 H2]. split; [by eapply tree_ok_sim | by eapply childless_sim]. Qed.

(** A parent is alive and no zombie. *)
Lemma parent_alive s c p :
  tree_ok s -> parent_of s c = Some p -> is_Some (tcbs s !! p).
Proof.
  intros H Hp. apply (tree_child s H) in Hp. unfold children_of in Hp.
  destruct (tcbs s !! p); [eauto |]. by apply elem_of_nil in Hp.
Qed.

(** ** Exit

    The steps of [do_exit] are followed on the states in which the task is
    already marked: [exited code p s]. *)
Definition exited (code p : Z) (s : Sys) : Sys := update_task s p (set_exited code).

Lemma children_update s p f q :
  (forall t, children (inner (f t)) = children (inner t)) ->
  children_of (update_task s p f) q = children_of s q.
Proof.
  intros Hf. unfold children_of, update_task, set_tcbs. cbn [tcbs].
  destruct (decide (q = p)) as [-> |]; [rewrite lookup_alter_eq | by rewrite lookup_alter_ne].
  destruct (tcbs s !! p); cbn; [apply Hf | done].
Qed.

Lemma parent_update s p f q :
  (forall t, parent (inner (f t)) = parent (inner t)) ->
  parent_of (update_task s p f) q = parent_of s q.
Proof.
  intros Hf. unfold parent_of, update_task, set_tcbs. cbn [tcbs].
  destruct (decide (q = p)) as [-> |]; [rewrite lookup_alter_eq | by rewrite lookup_alter_ne].
  destruct (tcbs s !! p); cbn; [apply Hf | done].
Qed.

Lemma alive_update s p f q : is_Some (tcbs (update_task s p f) !! q) <-> is_Some (tcbs s !! q).
Proof.
  unfold update_task, set_tcbs. cbn [tcbs].
  destruct (decide (q = p)) as [-> |]; [rewrite lookup_alter_eq | by rewrite lookup_alter_ne].
  apply fmap_is_Some.
Qed.

Lemma update_comm s p q f g :
  p <> q -> update_task (update_task s p f) q g = update_task (update_task s q g) p f.
Proof.
  intros Hne. unfold update_task, set_tcbs. cbn. f_equal. by apply alter_alter_ne.
Qed.

Lemma status_exited code p s q :
  status_of (exited code p s) q =
  if decide (q = p) then (fun _ => Zombie) <$> status_of s p else status_of s q.
Proof.
  unfold exited, status_of, update_task, set_tcbs. cbn [tcbs].
  destruct (decide (q = p)) as [-> |]; [rewrite lookup_alter_eq | by rewrite lookup_alter_ne].
  by destruct (tcbs s !! p).
Qed.

Lemma exited_awaken code p s q : p <> q -> exited code p (awaken s q) = awaken (exited code p s) q.
Proof.
  intros Hne. unfold exited, awaken, update_task, set_tcbs. cbn. f_equal. by apply alter_alter_ne.
Qed.

(** Waking another task before or after the mark is the same. *)
Lemma exited_wake code p s q :
  sched_ok (exited code p s) -> p <> q ->
  exited code p (wake_if_asleep s q) = wake_if_asleep (exited code p s) q.
Proof.
  intros H Hne. rewrite (wake_if_asleep_eq (exited code p s)) by done. unfold wake_if_asleep.
  rewrite status_exited, (decide_False (P := q = p)) by done.
  destruct (decide (status_of s q = Some Interruptible)) as [Hq |]; [| done].
  rewrite <- exited_awaken by done. f_equal.
  destruct (status_pid s q _ Hq) as [n Hn]. unfold wake_interruptible, try_wake_interruptible.
  set (s1 := drop_interruptible _ _).
  assert (Hpid : forall r, pid_of s1 r = pid_of s r) by (intros r; exact (pid_set s q Ready r)).
  assert (Hpid' : forall r, pid_of (exited code p s) r = pid_of s r) by (intros r; by apply pid_update).
  assert (HN : pid_of s1 q ≫= find_by_pid s1 = None).
  { rewrite Hpid, Hn. cbn [mbind option_bind]. apply find_by_pid_None. intros r Hr Hrn.
    rewrite Hpid in Hrn. assert (r = q) as ->.
    { apply (ok_pids _ H r q n); by rewrite Hpid'. }
    destruct Hr as [Hr | Hr].
    - apply (ok_ready _ H) in Hr. rewrite status_exited, decide_False in Hr by done. congruence.
    - apply list_elem_of_filter in Hr as [? _]. done. }
  by rewrite HN.
Qed.

Lemma notify_parent_inv code p t s s1 :
  tcbs s !! p = Some t -> sched_ok (exited code p s) -> notify_parent s p t = Some s1 ->
  sched_ok (exited code p s1) /\ sim (exited code p s) (exited code p s1).
Proof.
  intros Ht H. unfold notify_parent. destruct (exit_signal t =? 0); [by intros [= <-] |].
  destruct (parent (inner t)) as [pp |]; [| by intros [= <-]].
  destruct (decide (pp = p)) as [| Hne]; [done |].
  destruct (tcbs s !! pp); [| done]. cbn [mbind option_bind]. intros [= <-].
  set (s2 := update_task s pp _).
  assert (E : exited code p s2 = update_task (exited code p s) pp (add_signal (exit_signal t))).
  { unfold s2, exited. by rewrite update_comm. }
  assert (H2 : sched_ok (exited code p s2)) by (rewrite E; by apply sched_ok_update).
  rewrite exited_wake by done. destruct (wake_if_asleep_inv _ pp H2) as [Hok Hsim].
  split; [done |]. transitivity (exited code p s2); [| done]. rewrite E. apply sim_add_signal.
Qed.

Lemma children_set s p f q :
  is_Some (tcbs s !! p) ->
  children_of (update_task s p (set_children f)) q =
  if decide (q = p) then f (children_of s p) else children_of s q.
Proof.
  intros [t Ht]. unfold children_of, update_task, set_tcbs. cbn [tcbs].
  destruct (decide (q = p)) as [-> |]; [| by rewrite lookup_alter_ne].
  by rewrite lookup_alter_eq, Ht.
Qed.

Lemma parent_set s p o q :
  is_Some (tcbs s !! p) ->
  parent_of (update_task s p (set_parent o)) q = if decide (q = p) then o else parent_of s q.
Proof.
  intros [t Ht]. unfold parent_of, update_task, set_tcbs. cbn [tcbs].
  destruct (decide (q = p)) as [-> |]; [| by rewrite lookup_alter_ne].
  by rewrite lookup_alter_eq, Ht.
Qed.

(** Children change hands: the queues, statuses and process numbers do not. *)
Record same_queues (s s' : Sys) : Prop := {
  sq_ready : ready s' = ready s;
  sq_interruptible : interruptible s' = interruptible s;
  sq_current : current s' = current s;
  sq_status p : status_of s' p = status_of s p;
  sq_pid p : pid_of s' p = pid_of s p;
  sq_alive p : is_Some (tcbs s' !! p) <-> is_Some (tcbs s !! p)
}.

Lemma sched_ok_same s s' : same_queues s s' -> sched_ok s -> sched_ok s'.
Proof. intros [? ? ? ? ? ?] H. by apply (sched_ok_ext s). Qed.

Lemma same_queues_update s p f :
  (forall t, pid (f t) = pid t) ->
  (forall t, task_status (inner (f t)) = task_status (inner t)) ->
  same_queues s (update_task s p f).
Proof.
  intros Hp Hst. split; try done; intros q.
  - by apply status_update.
  - by apply pid_update.
  - apply alive_update.
Qed.

#[local] Instance same_queues_trans : Transitive same_queues.
Proof.
  intros s1 s2 s3 [] []. split; intros; try congruence.
  etrans; eauto.
Qed.

#[local] Instance same_queues_refl : Reflexive same_queues.
Proof. by split. Qed.

Lemma adopt_loop_ok cs p s :
  is_Some (tcbs s !! initproc) ->
  (forall c, c ∈ cs -> is_Some (tcbs s !! c) /\ c <> initproc /\ c <> p) ->
  exists s', adopt_loop initproc cs p s = Some s' /\ same_queues s s' /\
    (forall q, parent_of s' q = if decide (q ∈ cs) then Some initproc else parent_of s q) /\
    (forall q, children_of s' q =
       if decide (q = initproc) then children_of s q ++ cs else children_of s q).
Proof.
  revert s. induction cs as [| c cs IH]; intros s Hr Hcs; cbn [adopt_loop].
  { exists s. split_and!; [done | reflexivity | |]; intros q.
    - by rewrite decide_False by apply not_elem_of_nil.
    - destruct (decide _); [by rewrite app_nil_r | done]. }
  destruct (Hcs c ltac:(left)) as (Hc & Hci & Hcp). rewrite decide_False by tauto.
  set (s1 := update_task s c _). set (s2 := update_task s1 initproc _).
  assert (Hq1 : same_queues s s1) by (by apply same_queues_update).
  assert (Hq2 : same_queues s s2).
  { transitivity s1; [done |]. by apply same_queues_update. }
  destruct (IH s2) as (s' & Hrun & Hq & Hp & Hch).
  { by apply (sq_alive _ _ Hq2). }
  { intros x Hx. destruct (Hcs x ltac:(by right)) as (Hx1 & Hx2 & Hx3). split_and!; try done.
    by apply (sq_alive _ _ Hq2). }
  exists s'. split_and!; [done | by transitivity s2 | |]; intros q.
  - rewrite Hp. unfold s2. rewrite parent_update by done. unfold s1. rewrite parent_set by done.
    destruct (decide (q ∈ cs)); [by rewrite decide_True by (by right) |].
    destruct (decide (q = c)) as [-> |]; [by rewrite decide_True by left |].
    rewrite decide_False; [done |]. by rewrite not_elem_of_cons.
  - rewrite Hch. unfold s2. rewrite children_set by (by apply (sq_alive _ _ Hq1)).
    unfold s1. rewrite !children_update by done.
    destruct (decide (q = initproc)) as [-> |]; [| done]. by rewrite <- app_assoc.
Qed.

Definition cleared (p : Z) (s : Sys) : Sys := update_task s p (set_children (fun _ => [])).

(** Handing the children of [p] to [INITPROC] keeps the tree. *)
Lemma adopted_tree p s s' :
  tree_ok s -> p <> initproc -> is_Some (tcbs s !! p) -> same_queues s s' ->
  (forall q, parent_of s' q =
     if decide (q ∈ reverse (children_of s p)) then Some initproc else parent_of s q) ->
  (forall q, children_of s' q = if decide (q = initproc)
     then children_of s q ++ reverse (children_of s p) else children_of s q) ->
  tree_ok (cleared p s').
Proof.
  intros H Hp Hal Hq Hpar Hch.
  assert (Hal' : is_Some (tcbs s' !! p)) by (by apply (sq_alive _ _ Hq)).
  assert (Hpar' : forall q, parent_of (cleared p s') q =
      if decide (parent_of s q = Some p) then Some initproc else parent_of s q).
  { intros q. unfold cleared. rewrite parent_update by done. rewrite Hpar.
    apply decide_ext. by rewrite elem_of_reverse, (tree_child s H). }
  split.
  - intros x c. unfold cleared at 1. rewrite children_set by done. rewrite Hpar', Hch.
    destruct (decide (x = p)) as [-> | Hxp].
    + rewrite elem_of_nil. destruct (decide (parent_of s c = Some p)); naive_solver.
    + destruct (decide (x = initproc)) as [-> |].
      * rewrite elem_of_app, elem_of_reverse, !(tree_child s H).
        destruct (decide (parent_of s c = Some p)); naive_solver.
      * rewrite (tree_child s H). destruct (decide (parent_of s c = Some p)); naive_solver.
  - intros x. unfold cleared. rewrite children_set, Hch by done.
    destruct (decide (x = p)); [constructor |].
    destruct (decide (x = initproc)) as [-> |]; [| apply H].
    apply NoDup_app. split_and!; [apply H | | rewrite reverse_Permutation; apply H].
    intros c. rewrite elem_of_reverse, !(tree_child s H). congruence.
  - intros x. rewrite Hpar'. destruct (decide (parent_of s x = Some p)) as [Hx |]; [| apply H].
    intros [= <-]. destruct (tree_root s H) as [_ Hr]. congruence.
  - destruct (tree_root s H) as [Hr1 Hr2]. split.
    + unfold cleared. rewrite alive_update. by apply (sq_alive _ _ Hq).
    + rewrite Hpar', decide_False; [done | congruence].
Qed.

Lemma cleared_sched p s : sched_ok s -> sched_ok (cleared p s).
Proof. by apply sched_ok_update. Qed.

Lemma move_children_inv p t s s' :
  p <> initproc -> sched_ok s -> tree_ok s -> childless (fun q => q = p) s ->
  tcbs s !! p = Some t -> task_status (inner t) = Zombie ->
  move_children initproc s p t = Some s' ->
  sched_ok (cleared p s') /\ family_ok (cleared p s') /\
  status_of (cleared p s') p = Some Zombie.
Proof.
  intros Hp H HT [HI HC] Ht Hz. unfold move_children.
  assert (Hcs : children_of s p = children (inner t)) by (unfold children_of; by rewrite Ht).
  assert (Hst : status_of s p = Some Zombie) by (unfold status_of; rewrite Ht; cbn; congruence).
  assert (Hal : is_Some (tcbs s !! p)) by eauto.
  destruct (decide (children (inner t) = [])) as [Hnil | Hne].
  - intros [= <-]. split; [by apply cleared_sched |].
    assert (Hch : forall q, children_of (cleared p s) q = children_of s q).
    { intros q. unfold cleared. rewrite children_set by done.
      destruct (decide (q = p)) as [-> |]; [congruence | done]. }
    assert (Hstq : forall q, status_of (cleared p s) q = status_of s q).
    { intros q. by apply status_update. }
    split; [| by rewrite Hstq]. split.
    + apply (tree_ok_ext s); [done | done | |].
      * intros q. by apply parent_update.
      * apply alive_update, HT.
    + split; [by rewrite Hstq |]. intros q _. rewrite Hstq, Hch.
      destruct (decide (q = p)) as [-> | Hq]; [congruence |]. by apply HC.
  - rewrite decide_False by done.
    destruct (adopt_loop_ok (reverse (children (inner t))) p s) as (s1 & -> & Hq & Hpar & Hch).
    { apply HT. }
    { intros c Hc. rewrite elem_of_reverse, <- Hcs, (tree_child s HT) in Hc. split_and!.
      - unfold parent_of in Hc. destruct (tcbs s !! c); [eauto | done].
      - intros ->. destruct (tree_root s HT). congruence.
      - intros ->. by apply (tree_self s HT) in Hc. }
    cbn [mbind option_bind]. intros [= <-]. rewrite <- Hcs in Hpar, Hch.
    assert (H1 : sched_ok s1) by (by eapply sched_ok_same).
    pose proof (adopted_tree p s s1 HT Hp Hal Hq Hpar Hch) as HT1.
    assert (Hsim : sim (cleared p s1) (cleared p (wake_if_asleep s1 initproc))).
    { rewrite wake_if_asleep_eq by done. destruct (decide _) as [Hi |]; [| done].
      assert (cleared p (awaken s1 initproc) = awaken (cleared p s1) initproc) as ->.
      { unfold cleared, awaken, update_task, set_tcbs. cbn. f_equal. by apply alter_alter_ne. }
      apply sim_awaken. etrans; [by apply status_update | done]. }
    assert (Hst1 : status_of (cleared p s1) p = Some Zombie).
    { etrans; [by apply status_update |]. by rewrite (sq_status _ _ Hq). }
    split; [| split].
    + by apply cleared_sched, wake_if_asleep_inv.
    + assert (Hstq : forall q, status_of (cleared p s1) q = status_of s q).
      { intros q. etrans; [by apply status_update |]. by rewrite (sq_status _ _ Hq). }
      apply (family_ok_sim _ _ Hsim). split; [done |]. split; [by rewrite Hstq |].
      intros q _. rewrite Hstq. intros Hzq.
      unfold cleared. rewrite children_set by (by apply (sq_alive _ _ Hq)).
      destruct (decide (q = p)) as [-> | Hqp]; [done |]. rewrite Hch.
      rewrite decide_False by congruence. by apply HC.
    + by rewrite (sim_zombie _ _ p Hsim).
Qed.

(** ** Freeing a control block *)

Definition freed (p : Z) (s : Sys) : Sys := set_tcbs s (delete p (tcbs s)).

Lemma status_freed p s q :
  status_of (freed p s) q = if decide (q = p) then None else status_of s q.
Proof.
  unfold freed, status_of. cbn [tcbs set_tcbs].
  destruct (decide (q = p)) as [-> |]; [by rewrite lookup_delete_eq | by rewrite lookup_delete_ne].
Qed.

Lemma parent_freed p s q :
  parent_of (freed p s) q = if decide (q = p) then None else parent_of s q.
Proof.
  unfold freed, parent_of. cbn [tcbs set_tcbs].
  destruct (decide (q = p)) as [-> |]; [by rewrite lookup_delete_eq | by rewrite lookup_delete_ne].
Qed.

Lemma children_freed p s q :
  children_of s p = [] -> children_of (freed p s) q = children_of s q.
Proof.
  intros Hp. unfold freed, children_of at 1. cbn [tcbs set_tcbs].
  destruct (decide (q = p)) as [-> |]; [by rewrite lookup_delete_eq, Hp | by rewrite lookup_delete_ne].
Qed.

Lemma freed_sched p s : sched_ok s -> status_of s p = Some Zombie -> sched_ok (freed p s).
Proof.
  intros H Hz. split; try apply H.
  - intros q. rewrite status_freed. change (ready (freed p s)) with (ready s).
    rewrite (ok_ready s H). destruct (decide (q = p)) as [-> |]; [rewrite Hz; naive_solver | done].
  - intros q. rewrite status_freed. change (interruptible (freed p s)) with (interruptible s).
    rewrite (ok_interruptible s H).
    destruct (decide (q = p)) as [-> |]; [rewrite Hz; naive_solver | done].
  - intros q. rewrite status_freed. change (current (freed p s)) with (current s).
    rewrite (ok_current s H). destruct (decide (q = p)) as [-> |]; [rewrite Hz; naive_solver | done].
  - intros q r n Hq Hr. apply (ok_pids s H q r n); [revert Hq | revert Hr];
      unfold freed, pid_of; cbn [tcbs set_tcbs];
      [destruct (decide (q = p)) as [-> |] | destruct (decide (r = p)) as [-> |]];
      by rewrite ?lookup_delete_eq, ?lookup_delete_ne by done.
Qed.

(** A zombie that [s'] lists no more can go: [s'] is [s] but for the lists of
    children, from which [p] is gone. *)
Lemma freed_family p s s' :
  family_ok s -> p <> initproc -> status_of s p = Some Zombie ->
  (forall q, parent_of s' q = parent_of s q) -> (forall q, status_of s' q = status_of s q) ->
  is_Some (tcbs s' !! initproc) ->
  (forall q x, x ∈ children_of s' q <-> x ∈ children_of s q /\ x <> p) ->
  (forall q, NoDup (children_of s' q)) -> family_ok (freed p s').
Proof.
  intros [HT [HI HC]] Hne Hz Hpar Hst Hal Hch Hnd.
  assert (Hnil : forall q, status_of s q = Some Zombie -> children_of s' q = []).
  { intros q Hq. destruct (children_of s' q) as [| x l] eqn:El; [done |].
    destruct (proj1 (Hch q x)) as [Hx _]; [rewrite El; left |].
    rewrite (HC q ltac:(tauto) Hq) in Hx. by apply elem_of_nil in Hx. }
  split; [split | split].
  - intros q x. rewrite children_freed, Hch, parent_freed, Hpar, (tree_child s HT) by auto.
    destruct (decide (x = p)); naive_solver.
  - intros q. rewrite children_freed by auto. apply Hnd.
  - intros q. rewrite parent_freed, Hpar. destruct (decide (q = p)); [done | apply HT].
  - rewrite parent_freed, Hpar, decide_False by done. split; [| apply HT].
    unfold freed. cbn [tcbs set_tcbs]. by rewrite lookup_delete_ne.
  - by rewrite status_freed, decide_False, Hst.
  - intros q _. rewrite status_freed, children_freed, Hst by auto.
    destruct (decide (q = p)); [done |]. apply Hnil.
Qed.

(** The end of an [Arc]: an unreferenced zombie leaves the tree. *)
Lemma drop_arc_inv s p :
  sched_ok s -> family_ok s -> status_of s p = Some Zombie ->
  sched_ok (drop_arc initproc s p) /\ family_ok (drop_arc initproc s p).
Proof.
  intros H HF Hz. unfold drop_arc. destruct (decide _) as [| Hn]; [done |].
  assert (Hno : forall q, p ∉ children_of s q).
  { intros q Hp. destruct Hn. right. unfold referenced. do 3 right. left. unfold children_of in Hp.
    destruct (tcbs s !! q) as [t |] eqn:Eq; [| by apply elem_of_nil in Hp].
    exists q, t. done. }
  split; [by apply freed_sched |]. apply (freed_family p s s); try (done || tauto || apply HF).
  intros q x. split; [| tauto]. intros Hx. split; [done |]. intros ->. by apply Hno in Hx.
Qed.

Section exit.
Context {W : Type} `{!TaskVm W}.

Lemma clear_tid_inv s p t w s' w' :
  sched_ok s -> clear_tid s p t w = Some (s', w') -> sched_ok s' /\ sim s s'.
Proof.
  intros H. unfold clear_tid. destruct (_ =? 0); [intros [= <- <-]; by split |].
  destruct (vm_store_word _ _ _ w) as [[[pa | e] w1] |]; [| | done]; cbn [mbind option_bind].
  - destruct (futex_wake _ _ _ _ s) as [[n s1] |] eqn:E; [| done]. cbn [mbind option_bind].
    intros [= <- <-]. by eapply futex_wake_inv.
  - intros [= <- <-]. by split.
Qed.

Lemma queue_at_ext s s' fx addr : futexes s' = futexes s -> queue_at s' fx addr = queue_at s fx addr.
Proof. intros H. unfold queue_at, futex_of. by rewrite H. Qed.

Lemma wake_if_asleep_futexes s p : futexes (wake_if_asleep s p) = futexes s.
Proof.
  unfold wake_if_asleep, wake_interruptible, try_wake_interruptible.
  destruct (decide _); [| done]. by destruct (_ ≫= _).
Qed.

Lemma adopt_loop_futexes cs p s s' : adopt_loop initproc cs p s = Some s' -> futexes s' = futexes s.
Proof.
  revert s. induction cs as [| c cs IH]; intros s; cbn [adopt_loop]; [by intros [= <-] |].
  destruct (decide _); [done |]. by intros ->%IH.
Qed.

Lemma notify_parent_returns s p t :
  tree_ok s -> tcbs s !! p = Some t ->
  exists s1, notify_parent s p t = Some s1 /\ futexes s1 = futexes s.
Proof.
  intros HT Ht. unfold notify_parent. destruct (exit_signal t =? 0); [eauto |].
  destruct (parent (inner t)) as [pp |] eqn:Hpp; [| eauto].
  assert (Hpar : parent_of s p = Some pp) by (unfold parent_of; by rewrite Ht).
  rewrite decide_False by (intros ->; by apply (tree_self s HT) in Hpar).
  destruct (parent_alive s p pp HT Hpar) as [pt ->]. cbn [mbind option_bind].
  eexists. split; [done |]. by rewrite wake_if_asleep_futexes.
Qed.

Lemma move_children_returns s p t :
  p <> initproc -> tree_ok s -> children_of s p = children (inner t) ->
  exists s2, move_children initproc s p t = Some s2 /\ futexes s2 = futexes s.
Proof.
  intros Hp HT Hcs. unfold move_children. destruct (decide _); [eauto |].
  rewrite decide_False by done.
  destruct (adopt_loop_ok (reverse (children (inner t))) p s) as (s1 & E & _).
  { apply HT. }
  { intros c Hc. rewrite elem_of_reverse, <- Hcs, (tree_child s HT) in Hc. split_and!.
    - unfold parent_of in Hc. destruct (tcbs s !! c); [eauto | done].
    - intros ->. destruct (tree_root s HT). congruence.
    - intros ->. by apply (tree_self s HT) in Hc. }
  rewrite E. cbn [mbind option_bind]. eexists. split; [done |].
  rewrite wake_if_asleep_futexes. by apply adopt_loop_futexes in E.
Qed.

(** [do_exit] up to the futex, on a task that is in no queue. *)
Lemma do_exit_prefix p code s t :
  p <> initproc -> sched_ok (exited code p s) -> family_ok s -> tcbs s !! p = Some t ->
  exists s1 s2, notify_parent s p t = Some s1 /\
    move_children initproc (exited code p s1) p t = Some s2 /\
    sched_ok (cleared p s2) /\ family_ok (cleared p s2) /\
    status_of (cleared p s2) p = Some Zombie /\ futexes s2 = futexes s.
Proof.
  intros Hp H [HT [HI HC]] Ht.
  destruct (notify_parent_returns s p t HT Ht) as (s1 & E1 & Hf1).
  destruct (notify_parent_inv code p t s s1 Ht H E1) as [H1 Hsim1].
  assert (HT1 : tree_ok (exited code p s1)).
  { apply (tree_ok_sim _ _ Hsim1), (tree_ok_ext s); [done | | |].
    - intros q. by apply children_update.
    - intros q. by apply parent_update.
    - apply alive_update, HT. }
  assert (HC1 : childless (fun q => q = p) (exited code p s1)).
  { apply (childless_sim _ _ _ Hsim1). split.
    - by rewrite status_exited, decide_False.
    - intros q Hq. rewrite status_exited, decide_False by done. intros Hz.
      unfold exited. rewrite children_update by done. apply HC; [tauto | done]. }
  assert (exists t1, tcbs (exited code p s1) !! p = Some t1 /\
      task_status (inner t1) = Zombie /\ children (inner t1) = children (inner t))
    as (t1 & Ht1 & Hz1 & Hc1).
  { assert (Ht' : tcbs (exited code p s) !! p = Some (set_exited code t)).
    { unfold exited, update_task, set_tcbs. cbn. by rewrite lookup_alter_eq, Ht. }
    pose proof (Hsim1 p) as Hs. rewrite Ht' in Hs. inversion Hs as [? t1 Hst Ha Hb |]; subst.
    exists t1. split; [done |]. destruct Hst as (_ & _ & _ & _ & _ & _ & _ & Hch & _ & _ & Hz).
    split; [by apply Hz | done]. }
  assert (E : move_children initproc (exited code p s1) p t =
              move_children initproc (exited code p s1) p t1).
  { unfold move_children. by rewrite Hc1. }
  destruct (move_children_returns (exited code p s1) p t1 Hp HT1) as (s2 & E2 & Hf2).
  { unfold children_of. by rewrite Ht1. }
  destruct (move_children_inv p t1 _ s2 Hp H1 HT1 HC1 Ht1 Hz1 E2) as (H3 & HF3 & Hz3).
  exists s1, s2. rewrite E. split_and!; try done. by rewrite Hf2.
Qed.

(** The whole of [do_exit]. *)
Lemma do_exit_inv p code s w s' w' :
  p <> initproc -> sched_ok (exited code p s) -> family_ok s ->
  do_exit initproc p code s w = Some (s', w') -> sched_ok s' /\ family_ok s'.
Proof.
  intros Hp H HF. unfold do_exit.
  destruct (tcbs s !! p) as [t |] eqn:Ht; [| done]. cbn [mbind option_bind].
  destruct (do_exit_prefix p code s t Hp H HF Ht) as (s1 & s2 & -> & E2 & H3 & HF3 & Hz3 & _).
  cbn [mbind option_bind]. fold (exited code p s1). rewrite E2. cbn [mbind option_bind].
  fold (cleared p s2).
  destruct (clear_tid (cleared p s2) p t w) as [[s4 w4] |] eqn:E4; [| done].
  cbn [mbind option_bind]. destruct (clear_tid_inv _ _ _ _ _ _ H3 E4) as [H4 Hsim4].
  destruct (vm_dealloc_user_res _ _ w4) as [w5 |]; [| done]. cbn [mbind option_bind].
  destruct (if decide _ then _ else _) as [w6 |]; [| done]. cbn [mbind option_bind].
  intros [= <- <-]. apply drop_arc_inv; [done | by eapply family_ok_sim |].
  by rewrite (sim_zombie _ _ p Hsim4).
Qed.

(** The current task, taken from the processor, can be marked. *)
Lemma exited_current_ok code s p :
  sched_ok s -> current s = Some p -> sched_ok (exited code p (set_current s None)).
Proof.
  intros H Hc. apply (sched_ok_ext (mkSys (alter (set_task_status Zombie) p (tcbs s))
    (manager s) None (timeouts s) (futexes s) (handles s))); try done.
  - destruct (current_not_queued s p H Hc) as [Hr Hi].
    destruct (manager s) as [r i tr] eqn:Em.
    assert (Hrq : ready s = r) by (unfold ready; by rewrite Em).
    assert (Hiq : interruptible s = i) by (unfold interruptible; by rewrite Em).
    apply (switch_ok s p Zombie r i None tr); try done.
    + apply (ok_current s H) in Hc as ->. eauto.
    + intros q Hq. rewrite Hrq, Hiq, Hc. split_and!; naive_solver.
    + rewrite <- Hrq. naive_solver.
    + rewrite <- Hiq. naive_solver.
    + rewrite <- Hrq. apply H.
    + rewrite <- Hiq. apply H.
  - intros q. rewrite status_exited. symmetry. apply (status_set s p Zombie q).
  - intros q. etrans; [by apply pid_update |]. symmetry. apply (pid_set s p Zombie q).
Qed.

Lemma exit_current_inv code s w s' w' :
  sched_ok s -> family_ok s -> current s <> Some initproc ->
  exit_current initproc code s w = Some (s', w') -> sched_ok s' /\ family_ok s'.
Proof.
  intros H HF Hni. unfold exit_current, take_current.
  destruct (current s) as [p |] eqn:Hc; [| done]. cbn [fmap option_fmap option_map mbind option_bind].
  apply do_exit_inv; [congruence | by apply exited_current_ok |].
  apply (family_ok_sim s); [by apply sim_same_tcbs | done].
Qed.

(** ** Clone *)

Lemma lookup_clone s p flags exit_sig id n k v f s' :
  tcbs s !! id = None -> clone_task s p flags exit_sig id n k v f = Some s' ->
  exists t child par,
    tcbs s !! p = Some t /\
    par = (if has flags CLONE_PARENT || has flags CLONE_THREAD then parent (inner t) else Some p) /\
    child = mkTask n k (if has flags CLONE_THREAD then tgid t else n) exit_sig v f
      (mkInner 0 (sigpending (inner t)) Ready par [] 0 0) /\
    manager s' = manager s /\ current s' = current s /\
    match par with
    | None => s' = set_tcbs s (<[id := child]> (tcbs s))
    | Some g => is_Some (tcbs (set_tcbs s (<[id := child]> (tcbs s))) !! g) /\
        s' = update_task (set_tcbs s (<[id := child]> (tcbs s))) g (set_children (fun l => l ++ [id]))
    end.
Proof.
  intros Hid. unfold clone_task. destruct (tcbs s !! p) as [t |] eqn:Ht; [| done].
  cbn [mbind option_bind]. set (sib := has flags CLONE_PARENT || has flags CLONE_THREAD).
  intros Hrun. exists t. eexists. eexists. split; [done |]. split; [done |]. split; [done |].
  destruct sib.
  - destruct (parent (inner t)) as [g |].
    + destruct (decide (g = p)); [done |].
      destruct (tcbs (set_tcbs s _) !! g) eqn:Eg; [| done]. cbn [mbind option_bind] in Hrun.
      injection Hrun as <-. split_and!; eauto.
    + injection Hrun as <-. done.
  - injection Hrun as <-. split_and!; [done | done | | done].
    cbn [tcbs set_tcbs]. rewrite lookup_insert_ne by congruence. eauto.
Qed.

(** A fresh block with parent [par], listed by that parent, keeps the tree. *)
Lemma graft_inv s id child par s' :
  family_ok s -> tcbs s !! id = None ->
  parent (inner child) = par -> children (inner child) = [] -> task_status (inner child) = Ready ->
  (forall g, par = Some g -> is_Some (tcbs s !! g) /\ status_of s g <> Some Zombie) ->
  s' = match par with
       | None => set_tcbs s (<[id := child]> (tcbs s))
       | Some g => update_task (set_tcbs s (<[id := child]> (tcbs s))) g
                     (set_children (fun l => l ++ [id]))
       end ->
  family_ok s' /\
  (forall q, status_of s' q = if decide (q = id) then Some Ready else status_of s q) /\
  (forall q, pid_of s' q = if decide (q = id) then Some (pid child) else pid_of s q).
Proof.
  intros [HT [HI HC]] Hid Hpar Hch Hst Hg Hs'. set (s1 := set_tcbs s _) in *.
  assert (Hroot : id <> initproc).
  { intros ->. destruct (tree_root s HT) as [[? ?] _]. congruence. }
  assert (Hp1 : forall q, parent_of s' q = if decide (q = id) then par else parent_of s q).
  { intros q. transitivity (parent_of s1 q).
    { rewrite Hs'. destruct par; [by apply parent_update | done]. }
    unfold s1, parent_of. cbn. destruct (decide (q = id)) as [-> |].
    - by rewrite lookup_insert_eq.
    - by rewrite lookup_insert_ne. }
  assert (Hc0 : children_of s id = []) by (unfold children_of; by rewrite Hid).
  assert (Hc1 : forall q, children_of s1 q = children_of s q).
  { intros q. unfold s1, children_of. cbn. destruct (decide (q = id)) as [-> |].
    - by rewrite lookup_insert_eq, Hid.
    - by rewrite lookup_insert_ne. }
  assert (Hc2 : forall q, children_of s' q =
      if decide (par = Some q) then children_of s q ++ [id] else children_of s q).
  { intros q. rewrite Hs'. destruct par as [g |]; [| by rewrite decide_False, Hc1].
    destruct (Hg g eq_refl) as [Hal _]. rewrite children_set.
    - rewrite !Hc1. destruct (decide (q = g)) as [-> |]; [by rewrite decide_True |].
      by rewrite decide_False by congruence.
    - unfold s1. cbn. destruct (decide (g = id)) as [-> |]; [by rewrite lookup_insert_eq |].
      by rewrite lookup_insert_ne. }
  assert (Hs1 : forall q, status_of s' q = if decide (q = id) then Some Ready else status_of s q).
  { intros q. transitivity (status_of s1 q).
    { rewrite Hs'. destruct par; [by apply status_update | done]. }
    unfold s1, status_of. cbn. destruct (decide (q = id)) as [-> |].
    - rewrite lookup_insert_eq. cbn. congruence.
    - by rewrite lookup_insert_ne. }
  assert (Hnp : parent_of s id = None) by (unfold parent_of; by rewrite Hid).
  split_and!; [| done |].
  - split; [split | split].
    + intros q c. rewrite Hc2, Hp1. destruct (decide (c = id)) as [-> | Hc].
      * destruct (decide (par = Some q)).
        -- rewrite elem_of_app, list_elem_of_singleton. naive_solver.
        -- rewrite (tree_child s HT), Hnp. naive_solver.
      * destruct (decide (par = Some q)); [rewrite elem_of_app, list_elem_of_singleton |];
          rewrite (tree_child s HT); naive_solver.
    + intros q. rewrite Hc2. destruct (decide _); [| apply HT].
      apply NoDup_snoc; [apply HT |]. rewrite (tree_child s HT), Hnp. done.
    + intros q. rewrite Hp1. destruct (decide (q = id)) as [-> |]; [| apply HT].
      intros He. destruct (Hg id He) as [[? ?] _]. congruence.
    + rewrite Hp1, decide_False by done. split; [| apply HT].
      destruct (tree_root s HT) as [Hal _]. rewrite Hs'.
      destruct par; [apply alive_update |]; unfold s1; cbn; by rewrite lookup_insert_ne.
    + by rewrite Hs1, decide_False.
    + intros q _. rewrite Hs1, Hc2. destruct (decide (q = id)) as [-> | Hq]; [done |]. intros Hz.
      rewrite decide_False; [apply HC; [tauto | done] |].
      intros He. destruct (Hg q He) as [_ Hnz]. done.
  - intros q. transitivity (pid_of s1 q).
    { rewrite Hs'. destruct par; [by apply pid_update | done]. }
    unfold s1, pid_of. cbn. destruct (decide (q = id)) as [-> |].
    + by rewrite lookup_insert_eq.
    + by rewrite lookup_insert_ne.
Qed.

Lemma clone_task_inv s p flags exit_sig id n k v f s' :
  sched_ok s -> family_ok s -> current s = Some p -> tcbs s !! id = None ->
  clone_task s p flags exit_sig id n k v f = Some s' ->
  family_ok s' /\ manager s' = manager s /\ current s' = current s /\
  (forall q, status_of s' q = if decide (q = id) then Some Ready else status_of s q) /\
  (forall q, pid_of s' q = if decide (q = id) then Some n else pid_of s q).
Proof.
  intros H HF Hc Hid Hrun.
  destruct (lookup_clone s p flags exit_sig id n k v f s' Hid Hrun)
    as (t & child & par & Ht & Hpar & Hchild & Hm & Hcu & Hs').
  assert (Hg : forall g, par = Some g -> is_Some (tcbs s !! g) /\ status_of s g <> Some Zombie).
  { intros g Hg. assert (g = p \/ parent_of s p = Some g) as [-> | Hpg].
    { rewrite Hpar in Hg. destruct (_ || _); [right | left; congruence].
      unfold parent_of. by rewrite Ht. }
    - split; [eauto |]. apply (ok_current s H) in Hc. congruence.
    - destruct HF as [HT [HI HC]]. split; [by eapply parent_alive |].
      intros Hz%HC; [| tauto]. apply (tree_child s HT) in Hpg. rewrite Hz in Hpg.
      by apply elem_of_nil in Hpg. }
  assert (Heq : s' = match par with
       | None => set_tcbs s (<[id := child]> (tcbs s))
       | Some g => update_task (set_tcbs s (<[id := child]> (tcbs s))) g
                     (set_children (fun l => l ++ [id]))
       end) by (destruct par; [by destruct Hs' | done]).
  destruct (graft_inv s id child par s') as (HF' & Hst & Hpid); try (done || by rewrite Hchild).
  rewrite Hchild in Hpid. by split_and!.
Qed.

Lemma sys_clone_inv flags exit_sig ptid ctid id n k v f s w r s' w' :
  sched_ok s -> family_ok s -> tcbs s !! id = None -> (forall q, pid_of s q <> Some n) ->
  sys_clone flags exit_sig ptid ctid id n k v f s w = Some (r, s', w') ->
  family_ok s' /\ (status_of s' id = Some Ready) /\
  (id ∈ ready s' -> sched_ok s').
Proof.
  intros H HF Hid Hn. unfold sys_clone. destruct (current s) as [p |] eqn:Hc; [| done].
  cbn [mbind option_bind]. destruct (tcbs s !! p) as [t |] eqn:Ht; [| done].
  cbn [mbind option_bind].
  destruct (clone_task s p flags exit_sig id n k v f) as [s1 |] eqn:E; [| done].
  cbn [mbind option_bind].
  destruct (clone_task_inv _ _ _ _ _ _ _ _ _ _ H HF Hc Hid E) as (HF1 & Hm & Hcu & Hst & Hpid).
  destruct (if has flags CLONE_PARENT_SETTID then _ else _) as [[[? | e] w1] |]; [| | done];
    cbn [mbind option_bind].
  2: { intros [= <- <- <-]. split_and!; [done | by rewrite Hst, decide_True |].
       unfold ready. rewrite Hm. fold (ready s). intros Hr%(ok_ready s H).
       unfold status_of in Hr. by rewrite Hid in Hr. }
  destruct (if has flags CLONE_CHILD_SETTID && _ then _ else _) as [[? w2] |]; [| done]. cbn [mbind option_bind].
  intros [= <- <- <-]. set (s2 := if has flags CLONE_CHILD_CLEARTID && _ then _ else s1).
  assert (same_queues s1 s2 /\ family_ok s2) as [Hsq HF2].
  { unfold s2. destruct (_ && _); [| split; [reflexivity | done]].
    split; [by apply same_queues_update |].
    destruct HF1 as [HT1 [HI1 HC1]]. split; [| split].
    - apply (tree_ok_ext s1); [done | | |].
      + intros q. by apply children_update.
      + intros q. by apply parent_update.
      + apply alive_update, HT1.
    - by rewrite status_update by done.
    - intros q Hq. rewrite status_update, children_update by done. by apply HC1. }
  assert (Hst2 : forall q, status_of (add_task s2 id) q =
            if decide (q = id) then Some Ready else status_of s q).
  { intros q. rewrite <- Hst. apply (sq_status _ _ Hsq). }
  split; [apply (family_ok_sim s2); [by apply sim_same_tcbs | done] |].
  split; [by rewrite Hst2, decide_True |]. intros _.
  assert (Hr : ready s2 = ready s) by (rewrite (sq_ready _ _ Hsq); unfold ready; by rewrite Hm).
  assert (Hi : interruptible s2 = interruptible s).
  { rewrite (sq_interruptible _ _ Hsq). unfold interruptible. by rewrite Hm. }
  apply (sched_ok_ext (spawn s id (mkTask n k 0 0 0 0 (mkInner 0 0 Ready None [] 0 0)))).
  - by apply spawn_ok.
  - change (ready s2 ++ [id] = ready s ++ [id]). by rewrite Hr.
  - exact Hi.
  - change (current s2 = current s). rewrite (sq_current _ _ Hsq). congruence.
  - intros q. by rewrite Hst2, status_spawn.
  - intros q. rewrite pid_spawn. cbn [pid]. rewrite <- Hpid. apply (sq_pid _ _ Hsq).
Qed.

(** ** Wait *)

Lemma elem_of_removed (l : list Z) i c x :
  NoDup l -> l !! i = Some c -> x ∈ take i l ++ drop (S i) l <-> x ∈ l /\ x <> c.
Proof.
  intros Hnd Hi. pose proof (take_drop_middle l i c Hi) as Hl. rewrite <- Hl in Hnd.
  apply NoDup_app in Hnd as (_ & Hd & Hnd). apply NoDup_cons in Hnd as [Hc _].
  rewrite <- Hl at 3. rewrite !elem_of_app, elem_of_cons. split.
  - intros [Hx | Hx]; (split; [tauto |]); intros ->; [| done].
    apply (Hd c Hx). left.
  - naive_solver.
Qed.

(** A zombie child taken off the list of its parent has no reference left, and
    is freed. *)
Lemma reap_inv s p c i :
  sched_ok s -> family_ok s -> handles_ok s ->
  children_of s p !! i = Some c -> status_of s c = Some Zombie ->
  let s1 := update_task s p (set_children (fun l => take i l ++ drop (S i) l)) in
  ~ referenced s1 c /\ sched_ok (drop_arc initproc s1 c) /\ family_ok (drop_arc initproc s1 c) /\
  handles_ok (drop_arc initproc s1 c) /\
  current (drop_arc initproc s1 c) = current s /\
  length (children_of (drop_arc initproc s1 c) p) = pred (length (children_of s p)).
Proof.
  intros H [HT [HI HC]] Hh Hi Hz s1.
  assert (Hcp : parent_of s c = Some p) by (apply (tree_child s HT); by eapply list_elem_of_lookup_2).
  assert (Hal : is_Some (tcbs s !! p)) by (by eapply parent_alive).
  assert (Hne : c <> initproc) by (intros ->; destruct (tree_root s HT); congruence).
  assert (Hpc : p <> c) by (intros ->; by apply (tree_self s HT) in Hcp).
  assert (Hch1 : forall q x, x ∈ children_of s1 q <-> x ∈ children_of s q /\ x <> c).
  { intros q x. unfold s1. rewrite children_set by done. destruct (decide (q = p)) as [-> | Hq].
    - apply elem_of_removed; [apply HT | done].
    - rewrite (tree_child s HT). split; [| tauto]. intros Hx. split; [done |]. intros ->. congruence. }
  assert (H1 : sched_ok s1) by (by apply sched_ok_update).
  assert (Hst1 : forall q, status_of s1 q = status_of s q) by (intros q; by apply status_update).
  assert (Href : ~ referenced s1 c).
  { intros [Hr | [Hr | [Hr | [(q & t & Hq & Hx) | Hr]]]].
    - apply (ok_ready s1 H1) in Hr. rewrite Hst1 in Hr. congruence.
    - apply (ok_interruptible s1 H1) in Hr. rewrite Hst1 in Hr. congruence.
    - apply (ok_current s1 H1) in Hr. rewrite Hst1 in Hr. congruence.
    - assert (Hx' : c ∈ children_of s1 q) by (unfold children_of; by rewrite Hq).
      apply Hch1 in Hx'. tauto.
    - apply (Hh c) in Hr. unfold zombie_of, status_of in *. destruct (tcbs s !! c); [| done].
      injection Hz as Hz. cbn in Hr. rewrite bool_decide_eq_true_2 in Hr by done. done. }
  assert (Hk : handles_ok (drop_arc initproc s1 c)).
  { apply (handles_ok_keeps s); [| done]. etrans; [by apply (keeps_update _ s p (set_children (fun l => take i l ++ drop (S i) l))); right | apply keeps_drop_arc]. }
  split; [done |]. revert Hk. unfold drop_arc. rewrite decide_False by tauto. fold (freed c s1). intros Hk.
  split_and!; [by apply freed_sched; [| rewrite Hst1] | | done | done |].
  - apply (freed_family c s s1); try done.
    + intros q. by apply parent_update.
    + apply alive_update, HT.
    + intros q. unfold s1. rewrite children_set by done.
      destruct (decide (q = p)) as [-> |]; [| apply HT]. rewrite <- delete_take_drop.
      eapply sublist_NoDup; [apply (tree_once s HT p) | apply sublist_delete].
  - rewrite children_freed.
    + unfold s1. rewrite children_set, decide_True by done. rewrite <- delete_take_drop.
      rewrite length_delete by eauto. lia.
    + unfold s1. rewrite children_set, decide_False by done. apply HC; [tauto | done].
Qed.

Lemma drop_arc_gone s c :
  ~ referenced s c -> c <> initproc -> tcbs (drop_arc initproc s c) !! c = None.
Proof.
  intros Hr Hc. unfold drop_arc. rewrite decide_False by tauto. cbn [tcbs set_tcbs].
  apply lookup_delete_eq.
Qed.

(** [wait4] returns or goes to sleep and keeps both invariants, unless the store
    through the user's pointer panics. *)
Lemma wait4_loop_ok fuel n status option_ p s w :
  sched_ok s -> family_ok s -> handles_ok s -> current s = Some p ->
  (length (children_of s p) < fuel)%nat ->
  (exists r s' w', wait4_loop initproc fuel n status option_ p s w = Some (r, s', w') /\
     sched_ok s' /\ family_ok s' /\ handles_ok s' /\ ready s' = ready s) \/
  (wait4_loop initproc fuel n status option_ p s w = None /\
   exists v a x w, vm_store_word v a x w = None).
Proof.
  revert s w. induction fuel as [| fuel IH]; intros s w H HF Hh Hc Hf; [lia |].
  cbn [wait4_loop]. assert (exists t, tcbs s !! p = Some t) as [t Ht].
  { apply (ok_current s H) in Hc. unfold status_of in Hc. destruct (tcbs s !! p); eauto. done. }
  assert (Hcs : children_of s p = children (inner t)) by (unfold children_of; by rewrite Ht).
  rewrite Ht. cbn [mbind option_bind]. destruct (decide (filter _ _ = [])); [eauto 10 |].
  destruct (list_find _ (children (inner t))) as [[i c] |] eqn:Ef.
  - apply list_find_Some in Ef as (Hi & Hm & _). apply andb_true_iff in Hm as [Hz _].
    apply bool_decide_eq_true in Hz. rewrite <- Hcs in Hi.
    destruct (reap_inv s p c i H HF Hh Hi Hz) as (Href & H1 & HF1 & Hh1 & Hc1 & Hl1).
    assert (exists ct, tcbs s !! c = Some ct) as [ct Hct].
    { unfold status_of in Hz. destruct (tcbs s !! c); eauto. done. }
    rewrite Hct. cbn [mbind option_bind]. rewrite decide_False by done.
    set (s1 := drop_arc _ _ c) in *.
    assert (Hr : ready s1 = ready s) by (unfold s1, drop_arc; by destruct (decide _)).
    destruct (pid ct =? tgid ct).
    + destruct (negb (status =? 0)); [| left; eauto 10].
      destruct (vm_store_word (vm t) status (exit_code (inner ct)) w) as [[[pa | e] w1] |] eqn:Ew;
        cbn [mbind option_bind]; [left; eauto 10 | left; eauto 10 | right; eauto 10].
    + destruct (IH s1 w H1 HF1 Hh1) as [(r & s' & w' & E & ? & ? & ? & ?) | ?]; [congruence | | | by right].
      * apply lookup_lt_Some in Hi. lia.
      * left. exists r, s', w'. split_and!; [done | done | done | done | congruence].
  - destruct (has option_ WNOHANG); [left; eauto 10 |].
    assert (Hk : sched_ok (keep_handle s p)) by (by apply (sched_ok_ext s)).
    destruct (block_ok (keep_handle s p) p Hk Hc) as (s' & E & H' & _ & Hr & Hst & _). rewrite E. cbn [mbind option_bind].
    destruct (block_inv (keep_handle s p) s' Hk E) as [_ Hsim].
    left. do 3 eexists. split_and!; [done | done | | | done].
    2: { apply (handles_ok_keeps (keep_handle s p)); [| by apply keep_handle_ok].
         apply keeps_sim; [by eapply block_handles | done]. }
    eapply family_ok_sim; [exact Hsim |]. apply (family_ok_sim s); [by apply sim_same_tcbs | done].
Qed.

(** What an exit needs so as to return: an address space whose operations do,
    and no stale entry of the task itself under its own [clear_child_tid]. *)
Definition no_own_entry (s : Sys) (p : Z) : Prop :=
  forall fx addr, p ∉ queue_at s fx addr.

Lemma wake_loop_returns held q limit cnt s :
  (forall p, held = Some p -> p ∉ q) -> is_Some (wake_loop held q limit cnt s).
Proof.
  revert cnt s. induction q as [| p q IH]; intros cnt s Hq; cbn [wake_loop]; [eauto |].
  assert (Hq' : forall x, held = Some x -> x ∉ q).
  { intros x Hx Hxq. by apply (Hq x Hx); right. }
  destruct (status_of s p) as [st |]; [| by apply IH].
  rewrite decide_False. 2: { intros Hp. apply (Hq p Hp). left. }
  destruct (decide (st = Interruptible)); [| by apply IH].
  destruct (try_wake_interruptible _ p) as [r s1]. destruct (_ =? limit); [eauto | by apply IH].
Qed.

Lemma futex_wake_returns p fx addr n s :
  p ∉ queue_at s fx addr -> is_Some (futex_wake (Some p) fx addr n s).
Proof.
  unfold queue_at, futex_wake. destruct (futex_of s fx !! addr) as [q |]; [| eauto].
  cbn [from_option id]. intros Hp. unfold wake_at_most. destruct (n =? 0); [cbn; eauto |].
  destruct (wake_loop_returns (Some p) q n 0 (set_futex s fx (delete addr (futex_of s fx))))
    as [[[q' m] s'] ->]; [congruence |]. cbn. eauto.
Qed.

Lemma do_exit_returns p code s w t :
  (forall v a x w, is_Some (vm_store_word v a x w)) ->
  (forall v k w, is_Some (vm_dealloc_user_res v k w)) ->
  (forall v w, is_Some (vm_recycle_data_pages v w)) ->
  p <> initproc -> sched_ok (exited code p s) -> family_ok s -> tcbs s !! p = Some t ->
  no_own_entry s p -> is_Some (do_exit initproc p code s w).
Proof.
  intros Hst Hde Hre Hp H HF Ht Hno. unfold do_exit. rewrite Ht. cbn [mbind option_bind].
  destruct (do_exit_prefix p code s t Hp H HF Ht) as (s1 & s2 & -> & E2 & _ & _ & _ & Hf).
  cbn [mbind option_bind]. fold (exited code p s1). rewrite E2. cbn [mbind option_bind].
  assert (is_Some (clear_tid (cleared p s2) p t w)) as [[s4 w4] E4].
  { unfold clear_tid. destruct (_ =? 0); [eauto |].
    destruct (Hst (vm t) (clear_child_tid (inner t)) 0 w) as [[[pa | e] w1] ->];
      cbn [mbind option_bind]; [| eauto].
    destruct (futex_wake_returns p (futex t) pa 1 (cleared p s2)) as [[n s4] ->]; [| cbn; eauto].
    rewrite (queue_at_ext s) by done. apply Hno. }
  fold (cleared p s2). rewrite E4. cbn [mbind option_bind].
  destruct (Hde (vm t) (tid t) w4) as [w5 ->]. cbn [mbind option_bind].
  destruct (decide _); [destruct (Hre (vm t) w5) as [w6 ->] |]; cbn; eauto.
Qed.
End exit.
End family.
