(* ===== verification/Tasks.v ===== *)
(** * Runs of the task system

    The operations of [Sched], [Futex] and [Process] as the steps of a machine:
    every run keeps the queues exact and the tree of tasks whole, exits and waits
    return, and a ready task is switched to at the latest in the turn after those
    of the tasks before it. Then the ways in which the code goes wrong. *)

From S2P Require Import Prelude FileTrait Timer Sched Futex Process Handles Family.
#[local] Open Scope kernel_scope.

(** ** Going round a queue

    [exit_group] takes the members of the group out of a queue, and the rest
    keep their order. *)
Lemma split_group_filter n f q out :
  length q = n ->
  split_group n f q out =
    (filter (fun p => f p = false) q, out ++ filter (fun p => f p = true) q).
Proof.
  assert (Hgen : forall n q rest out, length q = n ->
    split_group n f (q ++ rest) out =
      (rest ++ filter (fun p => f p = false) q, out ++ filter (fun p => f p = true) q)).
  { clear. intros n. induction n as [| n IH]; intros q rest out Hl.
    - destruct q; [| done]. cbn. by rewrite !app_nil_r.
    - destruct q as [| p q]; [done |]. cbn [split_group app]. destruct (f p) eqn:Hp.
      + rewrite IH by (cbn in Hl; lia). rewrite filter_cons_False by congruence.
        rewrite filter_cons_True by done. by rewrite <- app_assoc.
      + rewrite <- app_assoc. rewrite IH by (cbn in Hl; lia).
        rewrite filter_cons_True by done. rewrite filter_cons_False by congruence.
        by rewrite <- app_assoc. }
  intros Hl. pose proof (Hgen n q [] out Hl) as H. by rewrite app_nil_r in H.
Qed.

(** The threads of the group of [p] other than [p] have exited. *)
Definition last_thread (s : Sys) (p : Z) : Prop :=
  forall t q tq, tcbs s !! p = Some t -> tcbs s !! q = Some tq -> tgid tq = tgid t ->
    q = p \/ task_status (inner tq) = Zombie.

(** A queue without a thread of the group stays as it is. *)
Lemma split_group_none f q out : (forall p, p ∈ q -> f p = false) -> split_group (length q) f q out = (q, out).
Proof.
  intros H. rewrite split_group_filter by done. rewrite filter_all by done.
  rewrite filter_none, app_nil_r; [done |]. intros x Hx. rewrite (H x Hx). done.
Qed.

Lemma set_manager_same s : set_manager s (mkTM (ready s) (interruptible s) (active_tracker (manager s))) = s.
Proof. unfold ready, interruptible. by destruct s as [m [r i tr] c h f hs]. Qed.

Section machine.
Context (pop : list TimeoutWaiter -> option (TimeoutWaiter * list TimeoutWaiter)).
Context {W : Type} `{!TaskVm W}.
Context (initproc : Z).

(** The call that gives up the processor keeps its handle or not. *)
Definition keep_if (keep : bool) (s : Sys) (p : Z) : Sys := if keep then keep_handle s p else s.

(** One step. The flag marks a turn of the idle loop. [INITPROC] does not exit;
    new tasks get fresh control blocks and process numbers, and a [clone] gets as
    far as the ready queue; an exit is made by a task that has returned from the
    calls that keep a handle; [exit_group] and [exec] are made by the last
    thread of its group. *)
Inductive task_step : bool -> Sys * W -> Sys * W -> Prop :=
| step_turn tick s s' w :
    current s = None -> run_tasks_turn pop tick s = Some s' -> task_step true (s, w) (s', w)
| step_suspend keep s p s' w :
    current s = Some p -> suspend_current (keep_if keep s p) = Some s' -> task_step false (s, w) (s', w)
| step_block keep s p s' w :
    current s = Some p -> block_current (keep_if keep s p) = Some s' -> task_step false (s, w) (s', w)
| step_return s p w : current s = Some p -> task_step false (s, w) (drop_handle s p, w)
| step_timed s w p d : current s = Some p -> task_step false (s, w) (wait_with_timeout s p d, w)
| step_futex_wait addr word val timeout tick s r s' w :
    futex_wait addr word val timeout tick s = Some (r, s') -> task_step false (s, w) (s', w)
| step_futex_wake fx addr n s r s' w :
    futex_wake None fx addr n s = Some (r, s') -> task_step false (s, w) (s', w)
| step_futex_requeue fx addr addr2 n m s r s' w :
    futex_requeue fx addr addr2 n m s = Some (r, s') -> task_step false (s, w) (s', w)
| step_futex_wake_op fx addr addr2 n b s r s' w :
    futex_wake_op fx addr addr2 n b s = Some (r, s') -> task_step false (s, w) (s', w)
| step_signal s w p sig : task_step false (s, w) (post_signal s p sig, w)
| step_clone flags exit_sig ptid ctid id n k v f s w r s' w' :
    tcbs s !! id = None -> (forall q, pid_of s q <> Some n) ->
    sys_clone flags exit_sig ptid ctid id n k v f s w = Some (r, s', w') -> id ∈ ready s' ->
    task_step false (s, w) (s', w')
| step_exec threads s p s' w :
    current s = Some p -> last_thread s p -> exec_drop_threads initproc threads s = Some s' ->
    task_step false (s, w) (s', w)
| step_exit code s p w s' w' :
    current s = Some p -> p <> initproc -> p ∉ handles s ->
    exit_current initproc code s w = Some (s', w') -> task_step false (s, w) (s', w')
| step_exit_group code s p w s' w' :
    current s = Some p -> p <> initproc -> p ∉ handles s -> last_thread s p ->
    exit_group initproc code s w = Some (s', w') -> task_step false (s, w) (s', w')
| step_wait4 n status option_ s w r s' w' :
    sys_wait4 initproc n status option_ s w = Some (r, s', w') -> task_step false (s, w) (s', w').

(** Runs, with the number of turns of the idle loop. *)
Inductive task_steps : nat -> Sys * W -> Sys * W -> Prop :=
| steps_refl x : task_steps 0 x x
| steps_turn n x y z : task_step true x y -> task_steps n y z -> task_steps (S n) x z
| steps_other n x y z : task_step false x y -> task_steps n y z -> task_steps n x z.

Definition consistent (x : Sys * W) : Prop := sched_ok x.1 /\ family_ok initproc x.1 /\ handles_ok x.1.

Context (Hpop : pop_ok pop).

Lemma sys_wait4_ok n status option_ s w p :
  sched_ok s -> family_ok initproc s -> handles_ok s -> current s = Some p ->
  Z.land option_ WAIT_OPTIONS = option_ ->
  (exists r s' w', sys_wait4 initproc n status option_ s w = Some (r, s', w') /\
     sched_ok s' /\ family_ok initproc s' /\ handles_ok s' /\ ready s' = ready s) \/
  (sys_wait4 initproc n status option_ s w = None /\ exists v a x w, vm_store_word v a x w = None).
Proof.
  intros H HF Hh Hc Ho. unfold sys_wait4. rewrite Ho, Z.eqb_refl, Hc. cbn [assert_ mbind option_bind].
  assert (exists t, tcbs s !! p = Some t) as [t Ht].
  { apply (ok_current s H) in Hc. unfold status_of in Hc. destruct (tcbs s !! p); eauto. done. }
  rewrite Ht. cbn [mbind option_bind].
  destruct (wait4_loop_ok initproc (S (length (children (inner t)))) n status option_ p s w)
    as [(r & s' & w' & -> & H1 & H2 & H3 & H4) | [-> Hn]]; [done | done | done | done | | |].
  - unfold children_of. rewrite Ht. cbn. lia.
  - left. cbn [mbind option_bind]. do 3 eexists. split; [reflexivity |]. destruct r; [| done].
    split; [by apply (sched_ok_ext s') |]. split; [apply (family_ok_sim initproc s'); [by apply sim_same_tcbs | done] |].
    split; [by apply drop_handle_ok | done].
  - by right.
Qed.

Lemma sys_wait4_inv n status option_ s w r s' w' :
  sched_ok s -> family_ok initproc s -> handles_ok s ->
  sys_wait4 initproc n status option_ s w = Some (r, s', w') ->
  sched_ok s' /\ family_ok initproc s' /\ handles_ok s' /\ ready s' = ready s.
Proof.
  intros H HF Hh Hrun. destruct (decide (Z.land option_ WAIT_OPTIONS = option_)) as [Ho | Ho].
  2: { unfold sys_wait4 in Hrun. apply Z.eqb_neq in Ho. by rewrite Ho in Hrun. }
  destruct (current s) as [p |] eqn:Hc.
  2: { unfold sys_wait4 in Hrun. rewrite Hc in Hrun. by destruct (assert_ _). }
  destruct (sys_wait4_ok n status option_ s w p H HF Hh Hc Ho) as [(? & ? & ? & E & ?) | [E _]];
    rewrite E in Hrun; [| done]. by injection Hrun as <- <- <-.
Qed.

(** The last thread of a group exits with the group as it exits alone. *)
Lemma exit_group_alone code s p w s' w' :
  sched_ok s -> family_ok initproc s -> current s = Some p -> p <> initproc -> last_thread s p ->
  exit_group initproc code s w = Some (s', w') -> exit_current initproc code s w = Some (s', w').
Proof.
  intros H HF Hc Hp Hl. pose proof (exit_current_inv initproc code s w) as Hinv.
  unfold exit_group, exit_current, take_current in *. rewrite Hc in *.
  cbn [fmap option_fmap option_map mbind option_bind] in *.
  change (tcbs (set_current s None)) with (tcbs s). destruct (tcbs s !! p) as [t |] eqn:Ht; [| done].
  cbn [mbind option_bind]. destruct (do_exit initproc p code _ w) as [[s1 w1] |] eqn:E; [| done]. cbn [mbind option_bind].
  destruct (Hinv s1 w1 H HF ltac:(congruence) eq_refl) as [H1 _].
  destruct (ages_do_exit initproc p code _ w s1 w1 E) as [Ha Hz].
  assert (Hno : forall q, q ∈ ready s1 \/ q ∈ interruptible s1 -> bool_decide (tgid_of s1 q = Some (tgid t)) = false).
  { intros q Hq. apply bool_decide_eq_false. intros Hg. unfold tgid_of in Hg.
    destruct (tcbs s1 !! q) as [tq' |] eqn:Eq; [| done]. injection Hg as Hg.
    assert (Hnz : task_status (inner tq') <> Zombie).
    { intros Hzq. rewrite (ok_ready s1 H1), (ok_interruptible s1 H1) in Hq. unfold status_of in Hq. rewrite Eq in Hq.
      cbn in Hq. rewrite Hzq in Hq. by destruct Hq. }
    destruct (Ha q tq' Eq) as (tq & Htq & Hgq & Hzq & _). destruct (Hl t q tq Ht Htq ltac:(congruence)) as [-> | Hz'].
    - by apply Hnz, Hz.
    - by apply Hnz, Hzq. }
  rewrite split_group_none by (intros q Hq; apply Hno; by left).
  rewrite split_group_none by (intros q Hq; apply Hno; by right). cbn [exit_all].
  by rewrite set_manager_same.
Qed.

Lemma exec_alone threads s p s' :
  sched_ok s -> current s = Some p -> last_thread s p -> exec_drop_threads initproc threads s = Some s' -> s' = s.
Proof.
  intros H Hc Hl. unfold exec_drop_threads. rewrite Hc. cbn [mbind option_bind].
  destruct (tcbs s !! p) as [t |] eqn:Ht; [| done]. cbn [mbind option_bind]. destruct threads; [| by intros [= <-]].
  assert (Hkeep : forall q, q ∈ ready s \/ q ∈ interruptible s -> tgid_of s q <> Some (tgid t)).
  { intros q Hq Hg. unfold tgid_of in Hg. destruct (tcbs s !! q) as [tq |] eqn:Eq; [| done]. injection Hg as Hg.
    rewrite (ok_ready s H), (ok_interruptible s H) in Hq.
    destruct (Hl t q tq Ht Eq Hg) as [-> | Hz].
    - apply (ok_current s H) in Hc. rewrite Hc in Hq. by destruct Hq.
    - unfold status_of in Hq. rewrite Eq in Hq. cbn in Hq. rewrite Hz in Hq. by destruct Hq. }
  rewrite (filter_all _ (ready s)) by (intros q Hq; apply Hkeep; by left).
  rewrite (filter_all _ (interruptible s)) by (intros q Hq; apply Hkeep; by right).
  rewrite filter_none; [cbn [foldl]; rewrite set_manager_same; by intros [= <-] |].
  intros q [Hq | Hq]%elem_of_app Hn; apply Hn, Hkeep; tauto.
Qed.

Lemma keep_if_ok keep s p :
  sched_ok s -> family_ok initproc s -> handles_ok s -> current s = Some p ->
  let s' := keep_if keep s p in sched_ok s' /\ family_ok initproc s' /\ handles_ok s'.
Proof.
  intros H HF Hh Hc. destruct keep; [| done]. cbn. split; [by apply (sched_ok_ext s) |].
  split; [apply (family_ok_sim initproc s); [by apply sim_same_tcbs | done] | by apply keep_handle_ok].
Qed.

(** A step that changes neither handles nor the tree. *)
Lemma consistent_sim s s' w w' :
  consistent (s, w) -> sched_ok s' -> sim s s' -> handles s' = handles s -> consistent (s', w').
Proof.
  intros (H & HF & Hh) H' Hs Hhs. split; [done |]. split; [by apply (family_ok_sim initproc s) |].
  apply (handles_ok_keeps s); [by apply keeps_sim | done].
Qed.

Lemma exit_consistent code s p w s' w' :
  consistent (s, w) -> current s = Some p -> p <> initproc -> p ∉ handles s ->
  exit_current initproc code s w = Some (s', w') -> consistent (s', w').
Proof.
  intros (H & HF & Hh) Hc Hp Hn E. destruct (exit_current_inv initproc code s w s' w' H HF) as [H1 HF1]; [cbn in *; congruence | done |].
  split; [done |]. split; [done |]. cbn [fst] in *. unfold exit_current, take_current in E. rewrite Hc in E.
  cbn [fmap option_fmap option_map mbind option_bind] in E. destruct (keeps_do_exit initproc _ _ _ _ _ _ E) as [[Hhs Hz] _].
  intros q Hq. rewrite Hhs in Hq. rewrite Hz; [by apply Hh | done |]. intros <-. by apply Hn.
Qed.

Lemma step_consistent b x y : task_step b x y -> consistent x -> consistent y.
Proof.
  intros Hs Hx. pose proof Hx as (H & HF & Hh). destruct Hs; cbn [fst] in *.
  - destruct (run_tasks_turn_inv pop tick s s' Hpop H) as [? ?]; [done | done |].
    by apply (consistent_sim s s' w); [| | | eapply turn_handles].
  - destruct (keep_if_ok keep s p H HF Hh) as (Hk & HFk & Hhk); [done |].
    destruct (suspend_inv _ s' Hk) as [? ?]; [done |].
    by apply (consistent_sim (keep_if keep s p) s' w); [| | | eapply suspend_handles].
  - destruct (keep_if_ok keep s p H HF Hh) as (Hk & HFk & Hhk); [done |].
    destruct (block_inv _ s' Hk) as [? ?]; [done |].
    by apply (consistent_sim (keep_if keep s p) s' w); [| | | eapply block_handles].
  - split; [by apply (sched_ok_ext s) |]. split; [| by apply drop_handle_ok].
    apply (family_ok_sim initproc s); [by apply sim_same_tcbs | done].
  - apply (consistent_sim s _ w); [done | by apply set_timeouts_ok | by apply sim_same_tcbs | done].
  - destruct (futex_wait_inv addr word val timeout tick s r s' H) as [? ?]; [done |].
    by apply (consistent_sim s s' w); [| | | eapply futex_wait_handles].
  - destruct (futex_wake_inv None fx addr n s r s' H) as [? ?]; [done |].
    apply (consistent_sim s s' w); [done | done | done |].
    match goal with E : futex_wake _ _ _ _ _ = _ |- _ =>
      exact (proj1 (keeps_futex_wake (fun _ => False) _ _ _ _ _ _ _ E)) end.
  - destruct (futex_requeue_inv fx addr addr2 n m s r s' H) as [? ?]; [done |].
    by apply (consistent_sim s s' w); [| | | eapply futex_requeue_handles].
  - destruct (futex_wake_op_inv fx addr addr2 n b s r s' H) as (? & ? & ?); [done |]. by apply (consistent_sim s s' w).
  - destruct (post_signal_inv s p sig H) as [? ?]. apply (consistent_sim s _ w); [done | done | done |].
    exact (proj1 (keeps_wake_if_asleep (fun _ => False) (update_task s p (add_signal sig)) p)).
  - destruct (sys_clone_inv initproc flags exit_sig ptid ctid id n k v f s w r s' w') as (HF' & _ & H'); [done.. |].
    split; [by apply H' |]. split; [done |]. apply (handles_ok_keeps s); [| done].
    eapply keeps_sys_clone; [| done]. intros Hid%Hh. unfold zombie_of in Hid. by rewrite H0 in Hid.
  - by rewrite (exec_alone threads s p s').
  - by eapply exit_consistent.
  - eapply exit_consistent; try done. by eapply exit_group_alone.
  - destruct (sys_wait4_inv n status option_ s w r s' w') as (? & ? & ? & _); done.
Qed.

Lemma steps_consistent n x y : task_steps n x y -> consistent x -> consistent y.
Proof. induction 1; eauto using step_consistent. Qed.

(** ** Fairness *)

(** Every step but a turn adds to the ready queue at its end only. *)
Definition grows (s s' : Sys) : Prop := exists ps, ready s' = ready s ++ ps.

#[local] Instance grows_refl : Reflexive grows.
Proof. intros s. exists []. by rewrite app_nil_r. Qed.
#[local] Instance grows_trans : Transitive grows.
Proof. intros s1 s2 s3 [p1 H1] [p2 H2]. exists (p1 ++ p2). by rewrite H2, H1, app_assoc. Qed.

Lemma grows_eq s s' : ready s' = ready s -> grows s s'.
Proof. intros H. exists []. by rewrite app_nil_r. Qed.

Lemma grows_try_wake s p : grows s (try_wake_interruptible s p).2.
Proof.
  unfold try_wake_interruptible. destruct (_ ≫= _); cbn [snd]; [by apply grows_eq |].
  by exists [p].
Qed.

Lemma grows_wake_if_asleep s p : grows s (wake_if_asleep s p).
Proof.
  unfold wake_if_asleep, wake_interruptible. destruct (decide _); [| reflexivity].
  transitivity (update_task s p (set_task_status Ready)); [by apply grows_eq | apply grows_try_wake].
Qed.

Lemma grows_wake_loop held q limit cnt s q' n s' :
  wake_loop held q limit cnt s = Some (q', n, s') -> grows s s'.
Proof.
  revert cnt s. induction q as [| p q IH]; intros cnt s; cbn [wake_loop]; [by intros [= <- <- <-] |].
  destruct (status_of s p) as [st |]; [| by apply IH]. destruct (decide _); [done |].
  destruct (decide _); [| by apply IH].
  pose proof (grows_try_wake (update_task s p (set_task_status Ready)) p) as Hg.
  destruct (try_wake_interruptible _ p) as [r s1]. cbn [snd] in Hg.
  assert (grows s s1) by done.
  destruct (_ =? limit); [by intros [= <- <- <-] |]. intros Hrun%IH. by transitivity s1.
Qed.

Lemma grows_futex_wake held fx addr n s r s' :
  futex_wake held fx addr n s = Some (r, s') -> grows s s'.
Proof.
  unfold futex_wake. destruct (futex_of s fx !! addr) as [q |]; [| by intros [= <- <-]].
  unfold wake_at_most. destruct (n =? 0); [by intros [= <- <-]; apply grows_eq |].
  destruct (wake_loop _ _ _ _ _) as [[[q' m] s1] |] eqn:E; [| done]. cbn [mbind option_bind].
  intros [= <- <-]. by apply grows_wake_loop in E.
Qed.

Lemma grows_futex_requeue fx addr addr2 n m s r s' :
  futex_requeue fx addr addr2 n m s = Some (r, s') -> grows s s'.
Proof.
  unfold futex_requeue.
  destruct (if negb (n =? 0) then _ else _) as [[k s1] |] eqn:E; [| done].
  assert (grows s s1).
  { destruct (negb (n =? 0)); [by eapply grows_futex_wake |]. by injection E as <- <-. }
  cbn [mbind option_bind]. destruct (futex_of s1 fx !! addr) as [q |]; [| by intros [= <- <-]].
  destruct (if negb (m =? 0) then _ else _) as [[q1 q2] c]. by intros [= <- <-].
Qed.

Lemma futex_wait_ready addr word val timeout tick s r s' :
  sched_ok s -> futex_wait addr word val timeout tick s = Some (r, s') -> ready s' = ready s.
Proof.
  intros H. unfold futex_wait. destruct (negb (word =? val)); [by intros [= <- <-] |].
  destruct (current s) as [p |]; [| done]. cbn [mbind option_bind].
  destruct (tcbs s !! p) as [t |]; [| done]. cbn [mbind option_bind].
  unfold block_current, take_current. destruct timeout; cbn [fmap option_fmap option_map];
    (destruct (current _) as [q |]; [| done]); cbn [fmap option_fmap option_map mbind option_bind];
    by intros [= <- <-].
Qed.

Lemma grows_notify_parent s p t s' : notify_parent s p t = Some s' -> grows s s'.
Proof.
  unfold notify_parent. destruct (_ =? 0); [by intros [= <-] |].
  destruct (parent _) as [pp |]; [| by intros [= <-]]. destruct (decide _); [done |].
  destruct (tcbs s !! pp); [| done]. intros [= <-].
  transitivity (update_task s pp (add_signal (exit_signal t))); [by apply grows_eq |].
  apply grows_wake_if_asleep.
Qed.

Lemma grows_move_children s p t s' : move_children initproc s p t = Some s' -> grows s s'.
Proof.
  unfold move_children. destruct (decide _); [by intros [= <-] |]. destruct (decide _); [done |].
  destruct (adopt_loop _ _ _ _) as [s1 |] eqn:E; [| done]. cbn [mbind option_bind].
  intros [= <-]. transitivity s1; [| apply grows_wake_if_asleep]. apply grows_eq.
  revert s E. induction (reverse (children (inner t))) as [| c cs IH]; intros s; cbn [adopt_loop].
  - by intros [= <-].
  - destruct (decide _); [done |]. by intros ->%IH.
Qed.

Lemma grows_clear_tid s p t w s' w' : clear_tid s p t w = Some (s', w') -> grows s s'.
Proof.
  unfold clear_tid. destruct (_ =? 0); [by intros [= <- <-] |].
  destruct (vm_store_word _ _ _ w) as [[[pa | e] w1] |]; [| | done]; cbn [mbind option_bind].
  - destruct (futex_wake _ _ _ _ _) as [[k s5] |] eqn:E5; [| done]. cbn [mbind option_bind].
    intros [= <- <-]. by apply grows_futex_wake in E5.
  - by intros [= <- <-].
Qed.

Lemma grows_do_exit p code s w s' w' :
  do_exit initproc p code s w = Some (s', w') -> grows s s'.
Proof.
  unfold do_exit. destruct (tcbs s !! p) as [t |]; [| done]. cbn [mbind option_bind].
  destruct (notify_parent s p t) as [s1 |] eqn:E1; [| done]. cbn [mbind option_bind].
  apply grows_notify_parent in E1 as H1.
  destruct (move_children _ _ _ _) as [s2 |] eqn:E2; [| done]. cbn [mbind option_bind].
  apply grows_move_children in E2 as H2.
  destruct (clear_tid _ _ _ _) as [[s4 w4] |] eqn:E4; [| done]. cbn [mbind option_bind].
  apply grows_clear_tid in E4 as H4.
  destruct (vm_dealloc_user_res _ _ w4) as [w5 |]; [| done]. cbn [mbind option_bind].
  destruct (if decide _ then _ else _) as [w6 |]; [| done]. intros [= <- <-].
  transitivity s1; [done |]. transitivity s2; [done |]. transitivity s4; [done |].
  unfold drop_arc. destruct (decide _); [done | by apply grows_eq].
Qed.

Lemma grows_sys_clone flags exit_sig ptid ctid id n k v f s w r s' w' :
  sched_ok s -> family_ok initproc s -> tcbs s !! id = None ->
  sys_clone flags exit_sig ptid ctid id n k v f s w = Some (r, s', w') -> grows s s'.
Proof.
  intros H HF Hid. unfold sys_clone. destruct (current s) as [p |] eqn:Hc; [| done].
  cbn [mbind option_bind]. destruct (tcbs s !! p); [| done]. cbn [mbind option_bind].
  destruct (clone_task s p flags exit_sig id n k v f) as [s1 |] eqn:E; [| done].
  cbn [mbind option_bind].
  destruct (clone_task_inv initproc _ _ _ _ _ _ _ _ _ _ H HF Hc Hid E) as (_ & Hm & _).
  assert (Hr : ready s1 = ready s) by (unfold ready; by rewrite Hm).
  destruct (if has flags CLONE_PARENT_SETTID then _ else _) as [[[? | e] w1] |]; [| | done];
    cbn [mbind option_bind]; [| intros [= <- <- <-]; by apply grows_eq].
  destruct (if has flags CLONE_CHILD_SETTID && _ then _ else _) as [[? w2] |]; [| done].
  cbn [mbind option_bind]. intros [= <- <- <-]. exists [id]. rewrite <- Hr.
  by destruct (has flags CLONE_CHILD_CLEARTID && _).
Qed.

Lemma grows_suspend s p s' : current s = Some p -> suspend_current s = Some s' -> ready s' = ready s ++ [p].
Proof. intros Hc. unfold suspend_current, take_current. rewrite Hc. by intros [= <-]. Qed.
Lemma grows_block s s' : block_current s = Some s' -> grows s s'.
Proof. unfold block_current, take_current. destruct (current s); [| done]. intros [= <-]. by apply grows_eq. Qed.

Lemma grows_exit code s w s' w' : exit_current initproc code s w = Some (s', w') -> grows s s'.
Proof.
  unfold exit_current, take_current. destruct (current s) as [p |]; [| done].
  cbn [fmap option_fmap option_map mbind option_bind]. intros E%grows_do_exit. exact E.
Qed.

Lemma grows_futex_wake_op fx addr addr2 n b s r s' :
  futex_wake_op fx addr addr2 n b s = Some (r, s') -> grows s s'.
Proof.
  unfold futex_wake_op. destruct (futex_wake None fx addr _ s) as [[n1 s1] |] eqn:E1; [| done]. cbn [mbind option_bind].
  apply grows_futex_wake in E1. destruct b; [| by intros [= <- <-]].
  destruct (futex_wake None fx addr2 _ s1) as [[n2 s2] |] eqn:E2; [| done]. cbn [mbind option_bind]. intros [= <- <-].
  apply grows_futex_wake in E2. by transitivity s1.
Qed.

Lemma step_grows b x y : task_step b x y -> b = false -> consistent x -> grows x.1 y.1.
Proof.
  intros Hs. destruct Hs as [tick s s' w Hc E | keep s p s' w Hc E | keep s p s' w Hc E | s p w Hc | s w p d Hc | addr word val timeout tick s r s' w E
    | fx addr n s r s' w E | fx addr addr2 n m s r s' w E | fx addr addr2 n b s r s' w E | s w p sig
    | flags exit_sig ptid ctid id n k v f s w r s' w' Hid Hn E Hr | threads s p s' w Hc Hl E | code s p w s' w' Hc Hp Hn E
    | code s p w s' w' Hc Hp Hn Hl E | n status option_ s w r s' w' E]; intros Hb (H & HF & Hh); cbn [fst] in *; try done.
  - exists [p]. replace (ready s) with (ready (keep_if keep s p)) by (by destruct keep).
    apply grows_suspend; [| done]. by destruct keep.
  - apply grows_block in E. by destruct keep.
  - by apply grows_eq.
  - by apply grows_eq.
  - apply grows_eq. by eapply futex_wait_ready.
  - by eapply grows_futex_wake.
  - by eapply grows_futex_requeue.
  - by eapply grows_futex_wake_op.
  - transitivity (update_task s p (add_signal sig)); [by apply grows_eq | apply grows_wake_if_asleep].
  - by eapply grows_sys_clone.
  - rewrite (exec_alone threads s p s'); [reflexivity | done..].
  - by eapply grows_exit.
  - eapply grows_exit. by eapply exit_group_alone.
  - apply grows_eq. destruct (sys_wait4_inv n status option_ s w r s' w') as (_ & _ & _ & ?); done.
Qed.

(** A turn moves every task of the ready queue one place forward, the first one
    to the processor. *)
Lemma turn_advances x y l1 p l2 :
  task_step true x y -> consistent x -> ready x.1 = l1 ++ p :: l2 ->
  match l1 with
  | [] => current y.1 = Some p
  | _ :: l1' => ready y.1 = l1' ++ p :: l2
  end.
Proof.
  intros Hs (H & HF & Hh) Hr. inversion Hs; subst. cbn [fst] in *.
  destruct l1 as [| q l1]; cbn [app] in Hr;
    destruct (dispatch_ok pop tick s _ _ H ltac:(assumption) Hr)
      as (s1 & E & _ & Hcur & Hr' & _); congruence.
Qed.

Lemma steps_run n x y l1 p l2 :
  task_steps n x y -> consistent x -> ready x.1 = l1 ++ p :: l2 -> (length l1 < n)%nat ->
  exists k z, (k <= S (length l1))%nat /\ (k <= n)%nat /\ task_steps k x z /\ task_steps (n - k) z y /\
    current z.1 = Some p.
Proof.
  intros Hst. revert l1 l2. induction Hst as [x | n x y z Hs Hrest IH | n x y z Hs Hrest IH];
    intros l1 l2 Hx Hr Hn; [lia | |].
  - pose proof (turn_advances x y l1 p l2 Hs Hx Hr) as Hadv.
    pose proof (step_consistent _ _ _ Hs Hx) as Hy. destruct l1 as [| q l1].
    + exists 1%nat, y. split_and!; [cbn; lia | lia | | | done].
      * apply (steps_turn 0 x y y); [done | apply steps_refl].
      * by replace (S n - 1)%nat with n by lia.
    + destruct (IH l1 l2 Hy Hadv) as (k & u & Hk' & Hk & H1 & H2 & Hcur); [cbn in Hn; lia |].
      exists (S k), u. split_and!; [cbn; lia | lia | by eapply steps_turn | | done].
      by replace (S n - S k)%nat with (n - k)%nat by lia.
  - destruct (step_grows false x y Hs eq_refl Hx) as [ps Hps]. rewrite Hr, <- app_assoc in Hps.
    destruct (IH l1 (l2 ++ ps)) as (k & u & Hk' & Hk & H1 & H2 & Hcur).
    { by eapply step_consistent. }
    { by rewrite Hps. }
    { done. }
    exists k, u. split_and!; [done | done | by eapply steps_other | done | done].
Qed.
End machine.

(** C4: The task system stays consistent. From a consistent state, every
    sequence of turns of the idle loop, switches (with or without a handle kept
    on the kernel stack), timed waits, futex operations, signals, clones that
    reach the ready queue, exits of a thread other than [INITPROC], exits of a
    group and [exec]s by the last thread of the group, and waits, leads to a
    consistent state: a task is in exactly the queue its status says, once;
    process numbers are unique; parents and lists of children agree and parents
    are alive; zombies have no children; and no zombie is held by a kernel
    stack. *)
Theorem tasks_stay_consistent
    (pop : list TimeoutWaiter -> option (TimeoutWaiter * list TimeoutWaiter))
    {W : Type} {HV : TaskVm W} (initproc : Z) (n : nat) (s s' : Sys) (w w' : W)
    (Hpop : pop_ok pop) (Hs : sched_ok s) (Hf : family_ok initproc s) (Hh : handles_ok s)
    (Hrun : task_steps pop initproc n (s, w) (s', w')) :
  sched_ok s' /\ family_ok initproc s' /\ handles_ok s'.
Proof. by apply (steps_consistent pop initproc Hpop n (s, w) (s', w')). Qed.

(** C12: A ready task is switched to. In every run of [task_step]s from a
    consistent state that has more turns of the idle loop than there are tasks
    before [p] in the ready queue, the processor has switched to [p]: it comes
    to the processor at the latest in the turn after those of the tasks before
    it. *)
Theorem ready_task_runs
    (pop : list TimeoutWaiter -> option (TimeoutWaiter * list TimeoutWaiter))
    {W : Type} {HV : TaskVm W} (initproc : Z) (n : nat) (s s' : Sys) (w w' : W)
    (l1 l2 : list Z) (p : Z)
    (Hpop : pop_ok pop) (Hs : sched_ok s) (Hf : family_ok initproc s) (Hh : handles_ok s)
    (Hr : ready s = l1 ++ p :: l2) (Hn : (length l1 < n)%nat)
    (Hrun : task_steps pop initproc n (s, w) (s', w')) :
  exists k s1 w1, (k <= S (length l1))%nat /\ (k <= n)%nat /\
    task_steps pop initproc k (s, w) (s1, w1) /\
    task_steps pop initproc (n - k) (s1, w1) (s', w') /\ current s1 = Some p.
Proof.
  destruct (steps_run pop initproc Hpop n (s, w) (s', w') l1 p l2 Hrun (conj Hs (conj Hf Hh)) Hr Hn)
    as (k & [s1 w1] & ? & ? & ? & ? & ?). by exists k, s1, w1.
Qed.

(** C13: Exit and wait return. In a consistent state with task [p] running, if
    the operations of the address space return, then [wait4] with valid options
    returns or puts the task to sleep, so that its check of the reference count,
    which counts the handles on kernel stacks, and its locks never fail; and the
    exit of [p] returns when [p] is not [INITPROC] and has no entry of its own
    left in a futex queue, so that it finds its parent alive and its lock free.
    Both keep the state consistent, the exit when [p] has returned from the
    calls that keep a handle. *)
Theorem exit_and_wait_return {W : Type} {HV : TaskVm W} (initproc : Z) (s : Sys) (w : W) (p : Z)
    (Hs : sched_ok s) (Hf : family_ok initproc s) (Hh : handles_ok s) (Hc : current s = Some p)
    (Hst : forall v a x w, is_Some (vm_store_word v a x w))
    (Hde : forall v k w, is_Some (vm_dealloc_user_res v k w))
    (Hre : forall v w, is_Some (vm_recycle_data_pages v w)) :
  (forall n status option_, Z.land option_ WAIT_OPTIONS = option_ ->
     exists r s' w', sys_wait4 initproc n status option_ s w = Some (r, s', w') /\
       sched_ok s' /\ family_ok initproc s' /\ handles_ok s') /\
  (forall code, p <> initproc -> no_own_entry s p ->
     exists s' w', exit_current initproc code s w = Some (s', w') /\
       sched_ok s' /\ family_ok initproc s' /\ (p ∉ handles s -> handles_ok s')).
Proof.
  split.
  - intros n status option_ Ho.
    destruct (sys_wait4_ok initproc n status option_ s w p Hs Hf Hh Hc Ho)
      as [(r & s' & w' & E & ? & ? & ? & _) | [_ (v & a & x & w0 & E)]]; [eauto 10 |].
    destruct (Hst v a x w0). congruence.
  - intros code Hp Hno. assert (exists t, tcbs s !! p = Some t) as [t Ht].
    { apply (ok_current s Hs) in Hc. unfold status_of in Hc. destruct (tcbs s !! p); eauto. done. }
    assert (is_Some (exit_current initproc code s w)) as [[s' w'] E].
    { unfold exit_current, take_current. rewrite Hc. cbn [fmap option_fmap option_map mbind option_bind].
      apply (do_exit_returns initproc p code (set_current s None) w t); try done.
      - by apply exited_current_ok.
      - apply (family_ok_sim initproc s); [by apply sim_same_tcbs | done]. }
    exists s', w'. split; [done |].
    destruct (exit_current_inv initproc code s w s' w' Hs Hf) as [H1 H2]; [congruence | done |].
    split; [done |]. split; [done |]. intros Hn.
    by apply (exit_consistent initproc code s p w s' w' (conj Hs (conj Hf Hh))).
Qed.

(** ** A life

    [INITPROC] (task 1) forks task 2, gives up the processor, task 2 exits with
    code 5, and [INITPROC] waits for it. The memory of the run is the list of what
    was done to it. *)
Inductive vm_event := Stored (v a x : Z) | Freed (v k : Z) | Recycled (v : Z).
#[export] Instance demo_vm : TaskVm (list vm_event) := {|
  vm_store_word v a x w := Some (Ok a, Stored v a x :: w);
  vm_dealloc_user_res v k w := Some (Freed v k :: w);
  vm_recycle_data_pages v w := Some (Recycled v :: w)
|}.

Definition demo_root : Sys :=
  spawn sys_empty 1 (mkTask 1 0 1 0 0 7 (mkInner 0 0 Ready None [] 0 0)).
Definition demo_dispatch (s : Sys) : Sys := default s (run_tasks_turn pop_min 0 s).
Definition demo_fork (s : Sys) : Sys :=
  match sys_clone 0 (Z.shiftl 1 16) 0 0 2 12 0 3 9 s (@nil vm_event) with
  | Some (_, s, _) => s
  | None => s
  end.
Definition demo_yielded (s : Sys) : Sys := default s (suspend_current s).
Definition demo_exited (s : Sys) : Sys * list vm_event :=
  default (s, []) (exit_current 1 5 s []).

Definition life_1 : Sys := demo_dispatch demo_root.
Definition life_2 : Sys := demo_fork life_1.
Definition life_3 : Sys := demo_yielded life_2.
Definition life_4 : Sys := demo_dispatch life_3.
Definition life_5 : Sys := (demo_exited life_4).1.
Definition life_6 : Sys := demo_dispatch life_5.
Definition life_7 : Sys * list vm_event :=
  match sys_wait4 1 (-1) 64 0 life_6 (demo_exited life_4).2 with
  | Some (_, s, w) => (s, w)
  | None => (life_6, [])
  end.

Lemma demo_root_ok : consistent 1 (demo_root, @nil vm_event).
Proof.
  split; [| split].
  - apply spawn_ok; [apply sys_empty_ok | done | done |].
    intros q. unfold pid_of. cbn. by rewrite lookup_empty.
  - assert (Hl : forall q, tcbs demo_root !! q = None \/
      tcbs demo_root !! q = Some (mkTask 1 0 1 0 0 7 (mkInner 0 0 Ready None [] 0 0))).
    { intros q. unfold demo_root, spawn. cbn [tcbs add_task set_manager set_tcbs].
      destruct (decide (q = 1)) as [-> |]; [right; by rewrite lookup_insert_eq |].
      left. rewrite lookup_insert_ne by done. apply lookup_empty. }
    assert (Hc : forall q, children_of demo_root q = []).
    { intros q. unfold children_of. by destruct (Hl q) as [-> | ->]. }
    assert (Hp : forall q, parent_of demo_root q = None).
    { intros q. unfold parent_of. by destruct (Hl q) as [-> | ->]. }
    split; [split | split].
    + intros p c. rewrite Hc, Hp. split; [by intros ?%elem_of_nil | done].
    + intros p. rewrite Hc. constructor.
    + intros p. by rewrite Hp.
    + split; [exact (mk_is_Some _ _ eq_refl) | apply Hp].
    + done.
    + intros p _ _. apply Hc.
  - intros q Hq. by apply elem_of_empty in Hq.
Qed.

Lemma life_to_3 : task_steps pop_min 1 1 (demo_root, @nil vm_event) (life_3, []).
Proof.
  eapply steps_turn; [apply (step_turn pop_min 1 0 _ life_1); by vm_compute |].
  eapply steps_other.
  { apply (step_clone pop_min 1 0 (Z.shiftl 1 16) 0 0 2 12 0 3 9 life_1 [] 12 life_2 []);
      [by vm_compute | | by vm_compute |].
    - intros q. unfold pid_of, life_1, demo_dispatch, demo_root. cbn.
      destruct (decide (q = 1)) as [-> |]; [by vm_compute |].
      by rewrite !lookup_alter_ne, lookup_insert_ne, lookup_empty by done.
    - assert (E : ready life_2 = [2]) by (by vm_compute). rewrite E. left. }
  eapply steps_other; [apply (step_suspend pop_min 1 false _ 1 life_3); by vm_compute |].
  apply steps_refl.
Qed.

Lemma life_3_to_6 : task_steps pop_min 1 2 (life_3, @nil vm_event) (life_6, (demo_exited life_4).2).
Proof.
  eapply steps_turn; [apply (step_turn pop_min 1 0 _ life_4); by vm_compute |].
  eapply steps_other; [apply (step_exit pop_min 1 5 _ 2 _ life_5 (demo_exited life_4).2); [by vm_compute | done | apply not_elem_of_empty | by vm_compute] |].
  eapply steps_turn; [apply (step_turn pop_min 1 0 _ life_6); by vm_compute |].
  apply steps_refl.
Qed.

Lemma steps_app {W} `{!TaskVm W} pop initproc n m (x y z : Sys * W) :
  task_steps pop initproc n x y -> task_steps pop initproc m y z -> task_steps pop initproc (n + m) x z.
Proof.
  induction 1; intros Hz; cbn [Nat.add]; [done | |].
  - eapply steps_turn; eauto.
  - eapply steps_other; eauto.
Qed.

Lemma tasks_stay_consistent_witness :
  sched_ok life_7.1 /\ tcbs life_7.1 !! 2 = None /\
  life_7.2 = [Stored 0 64 5; Recycled 3; Freed 3 0].
Proof.
  destruct demo_root_ok as (H & HF & Hh).
  assert (Hrun : task_steps pop_min 1 3 (demo_root, @nil vm_event) (life_7.1, life_7.2)).
  { apply (steps_app pop_min 1 3 0 _ (life_6, (demo_exited life_4).2)).
    - apply (steps_app pop_min 1 1 2 _ (life_3, [])); [apply life_to_3 | apply life_3_to_6].
    - eapply steps_other; [| apply steps_refl].
      apply (step_wait4 pop_min 1 (-1) 64 0 life_6 _ (Done 12)). by vm_compute. }
  destruct (tasks_stay_consistent pop_min 1 3 demo_root life_7.1 [] life_7.2 pop_min_ok H HF Hh Hrun)
    as [Hok _].
  split_and!; [exact Hok | by vm_compute | by vm_compute].
Defined.

Lemma life_3_ok : consistent 1 (life_3, @nil vm_event).
Proof. exact (steps_consistent pop_min 1 pop_min_ok 1 _ _ life_to_3 demo_root_ok). Qed.

Lemma ready_task_runs_witness :
  ready life_3 = [2; 1] /\
  exists k s1 w1, task_steps pop_min 1 k (life_3, @nil vm_event) (s1, w1) /\ current s1 = Some 1.
Proof.
  split; [by vm_compute |]. destruct life_3_ok as (H & HF & Hh).
  destruct (ready_task_runs pop_min 1 2 life_3 life_6 (@nil vm_event) _ [2] [] 1 pop_min_ok H HF Hh
    eq_refl (le_n 2) life_3_to_6) as (k & s1 & w1 & _ & _ & Hs & _ & Hc).
  exists k, s1, w1. split; [exact Hs | exact Hc].
Defined.

Lemma life_4_ok : consistent 1 (life_4, @nil vm_event).
Proof.
  apply (step_consistent pop_min 1 pop_min_ok true (life_3, @nil vm_event) (life_4, []));
    [apply (step_turn pop_min 1 0); by vm_compute | apply life_3_ok].
Qed.

Lemma exit_and_wait_return_witness :
  current life_4 = Some 2 /\
  exists s' w', exit_current 1 5 life_4 (@nil vm_event) = Some (s', w') /\ sched_ok s'.
Proof.
  split; [by vm_compute |]. destruct life_4_ok as (H & HF & Hh).
  destruct (exit_and_wait_return 1 life_4 (@nil vm_event) 2 H HF Hh eq_refl) as [_ Hexit];
    [intros; cbn; eauto | intros; cbn; eauto | intros; cbn; eauto |].
  destruct (Hexit 5) as (s' & w' & E & Hok & _); [done | |].
  - intros fx addr. unfold queue_at, futex_of.
    change (futexes life_4) with (∅ : gmap Z Futex). rewrite lookup_empty. cbn.
    rewrite lookup_empty. apply not_elem_of_nil.
  - exists s', w'. split; [exact E | exact Hok].
Defined.

(** ** Runs that go wrong *)

(** A zombie that a kernel stack holds fails the check of [wait4]. *)
Lemma wait4_held {W} `{!TaskVm W} initproc n status option_ s (w : W) p i c :
  current s = Some p -> c ∈ handles s ->
  list_find (fun c => is_zombie s c && wait_matches s n c = true) (children_of s p) = Some (i, c) ->
  sys_wait4 initproc n status option_ s w = None.
Proof.
  intros Hc Hh Hf. unfold sys_wait4. destruct (assert_ _); [| done]. cbn [mbind option_bind]. rewrite Hc. cbn [mbind option_bind].
  unfold children_of in Hf. destruct (tcbs s !! p) as [t |] eqn:Ht; [| done]. cbn [mbind option_bind fmap option_fmap option_map from_option id] in *.
  cbn [wait4_loop]. rewrite Ht. cbn [mbind option_bind].
  destruct (decide (filter _ _ = [])) as [Hnil |].
  - exfalso. apply list_find_Some in Hf as (Hi & Hm & _). apply andb_true_iff in Hm as [_ Hm].
    assert (Hin : c ∈ filter (fun c => wait_matches s n c = true) (children (inner t))).
    { apply list_elem_of_filter. split; [done | by eapply list_elem_of_lookup_2]. }
    rewrite Hnil in Hin. by apply elem_of_nil in Hin.
  - rewrite Hf. destruct (tcbs s !! c) as [ct |]; [| done]. cbn [mbind option_bind].
    rewrite decide_True; [done |]. unfold referenced. do 4 right. done.
Qed.

Section errors.
Context {W : Type} `{!TaskVm W}.
Context (initproc : Z).

(** Dropping other references leaves a listed child and its parent alone. *)
Lemma drop_arcs_keep ps s g q t tq :
  tcbs s !! g = Some t -> q ∈ children (inner t) -> g ∉ ps -> tcbs s !! q = Some tq ->
  let s' := foldl (drop_arc initproc) s ps in
  tcbs s' !! g = Some t /\ tcbs s' !! q = Some tq /\ manager s' = manager s.
Proof.
  revert s. induction ps as [| p ps IH]; intros s Hg Hq Hps Htq; [done |]. cbn [foldl].
  apply not_elem_of_cons in Hps as [Hgp Hps].
  assert (tcbs (drop_arc initproc s p) !! g = Some t /\
               tcbs (drop_arc initproc s p) !! q = Some tq /\
               manager (drop_arc initproc s p) = manager s) as (H1 & H2 & H3).
  { unfold drop_arc. destruct (decide _) as [| Hn]; [done |]. cbn [tcbs set_tcbs manager].
    split_and!; [by rewrite lookup_delete_ne | | done]. rewrite lookup_delete_ne; [done |].
    intros ->. destruct Hn. right. do 3 right. left. by exists g, t. }
  destruct (IH _ H1 Hq Hps H2) as (? & ? & ?). split_and!; [done | done | congruence].
Qed.

(** The group of [p], when [p] exits with it: a thread that holds a handle is
    still in a queue once [p] has exited, and is in the list of those to exit. *)
Lemma held_thread_listed code s p q w t tq s1 w1 :
  consistent initproc (s, w) -> current s = Some p -> p <> initproc -> q <> p -> q ∈ handles s ->
  tcbs s !! p = Some t -> tcbs s !! q = Some tq -> tgid tq = tgid t ->
  do_exit initproc p code (set_current s None) w = Some (s1, w1) ->
  (q ∈ ready s1 \/ q ∈ interruptible s1) /\ tgid_of s1 q = Some (tgid t) /\ handles s1 = handles s.
Proof.
  intros (H & HF & Hh) Hc Hp Hqp Hq Ht Htq Hg E. cbn [fst] in *.
  destruct (exit_current_inv initproc code s w s1 w1 H HF) as [H1 _]; [congruence | |].
  { unfold exit_current, take_current. rewrite Hc. exact E. }
  destruct (keeps_do_exit initproc _ _ _ _ _ _ E) as [[Hhs Hz] _]. specialize (Hz q Hq ltac:(congruence)).
  change (zombie_of (set_current s None) q) with (zombie_of s q) in Hz. rewrite (Hh q Hq) in Hz.
  destruct (ages_do_exit initproc _ _ _ _ _ _ E) as [Ha Hpz]. unfold zombie_of in Hz.
  destruct (tcbs s1 !! q) as [tq1 |] eqn:Eq; [| done]. injection Hz as Hz%bool_decide_eq_false.
  destruct (Ha q tq1 Eq) as (t0 & Ht0 & Hg0 & _ & Hrun). cbn [tcbs set_current] in Ht0. rewrite Htq in Ht0. injection Ht0 as <-.
  split; [| split; [unfold tgid_of; rewrite Eq; cbn; congruence | done]].
  rewrite (ok_ready s1 H1), (ok_interruptible s1 H1). unfold status_of. rewrite Eq. cbn.
  destruct (task_status (inner tq1)) eqn:Est; [by left | | done | by right].
  exfalso. apply Hqp. specialize (Hrun eq_refl). assert (Hcur : current s = Some q); [| congruence].
  apply (ok_current s H). unfold status_of. rewrite Htq. cbn. congruence.
Qed.

(** C33: A thread that [exit_group] ends inside a system call that keeps a handle,
    as [wait4] does while it sleeps, cannot be collected. The handle stays on its
    kernel stack for ever: when the running task [p] exits with its group, every
    other thread [q] of the group that holds a handle ends as a zombie that is
    still held; and wherever such a zombie is the first child a [wait4] finds,
    the check of its reference count panics the kernel. *)
Theorem killed_in_wait_panics (code : Z) (s : Sys) (p q : Z) (w : W) (t tq : TaskControlBlock) (s' : Sys) (w' : W)
    (Hok : consistent initproc (s, w)) (Hc : current s = Some p) (Hp : p <> initproc)
    (Hqp : q <> p) (Hq : q ∈ handles s)
    (Ht : tcbs s !! p = Some t) (Htq : tcbs s !! q = Some tq) (Hg : tgid tq = tgid t)
    (Hrun : exit_group initproc code s w = Some (s', w')) :
  status_of s' q = Some Zombie /\ q ∈ handles s' /\
  (forall n status option_ s2 w2 pp i,
     current s2 = Some pp -> q ∈ handles s2 ->
     list_find (fun c => is_zombie s2 c && wait_matches s2 n c = true) (children_of s2 pp) = Some (i, q) ->
     sys_wait4 initproc n status option_ s2 w2 = None).
Proof.
  split; [| split].
  3: { intros n status option_ s2 w2 pp i Hcur Hh2 Hf. by apply (wait4_held initproc n status option_ s2 w2 pp i q). }
  all: unfold exit_group, take_current in Hrun; rewrite Hc in Hrun; cbn [fmap option_fmap option_map mbind option_bind] in Hrun;
    change (tcbs (set_current s None)) with (tcbs s) in Hrun; rewrite Ht in Hrun; cbn [mbind option_bind] in Hrun;
    destruct (do_exit initproc p code _ w) as [[s1 w1] |] eqn:E; [| done]; cbn [mbind option_bind] in Hrun;
    destruct (held_thread_listed code s p q w t tq s1 w1 Hok Hc Hp Hqp Hq Ht Htq Hg E) as (Hin & Hg1 & Hh1);
    rewrite !split_group_filter in Hrun by done; destruct (keeps_exit_all initproc _ _ _ _ _ _ Hrun) as [[Hhs _] Hz].
  - assert (Hzq : zombie_of s' q = Some true).
    { apply Hz; [| cbn; by rewrite Hh1]. rewrite !elem_of_app, !list_elem_of_filter.
      rewrite bool_decide_eq_true_2 by done. tauto. }
    unfold zombie_of, status_of in *. destruct (tcbs s' !! q) as [t' |]; [| done]. injection Hzq as Hzq%bool_decide_eq_true.
    cbn. by rewrite Hzq.
  - rewrite Hhs. cbn. by rewrite Hh1.
Qed.

(** [exec] strands the other threads of the process. They are taken out of
    the queues without an exit: such a thread stays in the list of its parent
    with the status it had, in no queue, so that it never becomes a zombie and
    the parent can never collect it. *)
Theorem exec_strands_threads (s : Sys) (p g q : Z) (t tg tq : TaskControlBlock)
    (Hs : sched_ok s) (Hc : current s = Some p) (Hp : tcbs s !! p = Some t)
    (Hg : tcbs s !! g = Some tg) (Hq : tcbs s !! q = Some tq)
    (Hchild : q ∈ children (inner tg)) (Htg : tgid tg <> tgid t) (Htq : tgid tq = tgid t)
    (Hrun : q ∈ ready s \/ q ∈ interruptible s) :
  exists s', exec_drop_threads initproc true s = Some s' /\
    q ∉ ready s' /\ q ∉ interruptible s' /\
    status_of s' q = status_of s q /\ status_of s q <> Some Zombie /\ q ∈ children_of s' g.
Proof.
  unfold exec_drop_threads. rewrite Hc. cbn [mbind option_bind]. rewrite Hp. cbn [mbind option_bind].
  set (ps := filter _ (ready s ++ interruptible s)). set (s1 := set_manager s _).
  assert (Hgps : g ∉ ps).
  { intros [Hn _]%list_elem_of_filter. destruct Hn. unfold tgid_of. rewrite Hg. cbn. congruence. }
  destruct (drop_arcs_keep ps s1 g q tg tq Hg Hchild Hgps Hq) as (H1 & H2 & H3).
  assert (Hqt : tgid_of s q = Some (tgid t)) by (unfold tgid_of; rewrite Hq; cbn; congruence).
  eexists. split; [done |]. unfold ready, interruptible. rewrite H3. split_and!.
  - intros [Hn _]%list_elem_of_filter. done.
  - intros [Hn _]%list_elem_of_filter. done.
  - unfold status_of. by rewrite H2, Hq.
  - destruct Hrun as [Hr%(ok_ready s Hs) | Hr%(ok_interruptible s Hs)]; congruence.
  - unfold children_of. by rewrite H1.
Qed.

(** [clone] that cannot store the number of the child for the parent returns the
    error and leaves the child behind: listed, ready, and in no queue. *)
Lemma clone_strands_child flags exit_sig ptid ctid id n k v f s w p t e w' :
  sched_ok s -> family_ok initproc s -> current s = Some p -> tcbs s !! p = Some t ->
  tcbs s !! id = None -> has flags CLONE_PARENT_SETTID = true ->
  has flags CLONE_PARENT = false -> has flags CLONE_THREAD = false ->
  vm_store_word (vm t) ptid (wrap32 n) w = Some (Err e, w') ->
  exists s', sys_clone flags exit_sig ptid ctid id n k v f s w = Some (e, s', w') /\
    status_of s' id = Some Ready /\ id ∉ ready s' /\ id ∈ children_of s' p.
Proof.
  intros H HF Hc Ht Hid Hf1 Hf2 Hf3 Hst. unfold sys_clone. rewrite Hc. cbn [mbind option_bind].
  rewrite Ht. cbn [mbind option_bind].
  destruct (clone_task s p flags exit_sig id n k v f) as [s1 |] eqn:E.
  2: { unfold clone_task in E. by rewrite Ht, Hf2, Hf3 in E. }
  destruct (clone_task_inv initproc _ _ _ _ _ _ _ _ _ _ H HF Hc Hid E) as (_ & Hm & _ & Hs1 & _).
  cbn [mbind option_bind]. rewrite Hf1, Hst. cbn [mbind option_bind].
  exists s1. split_and!; [done | by rewrite Hs1, decide_True | |].
  - unfold ready. rewrite Hm. fold (ready s). intros Hr%(ok_ready s H).
    unfold status_of in Hr. by rewrite Hid in Hr.
  - unfold clone_task in E. rewrite Ht, Hf2, Hf3 in E. cbn in E. injection E as <-.
    rewrite children_set, decide_True by (done ||
      (cbn [tcbs set_tcbs]; rewrite lookup_insert_ne by congruence; eauto)).
    rewrite elem_of_app, list_elem_of_singleton. by right.
Qed.

(** An option bit that [WaitOption] does not know, as [__WALL], panics. *)
Lemma wait4_unknown_option_panics n status option_ s w :
  Z.land option_ WAIT_OPTIONS <> option_ -> sys_wait4 initproc n status option_ s w = None.
Proof. intros H%Z.eqb_neq. unfold sys_wait4. by rewrite H. Qed.
End errors.

(** A task whose own stale entry is first under its [clear_child_tid] locks
    itself out when it exits. *)
Lemma own_entry_deadlocks s p fx addr q :
  is_Some (tcbs s !! p) -> futex_of s fx !! addr = Some (p :: q) ->
  futex_wake (Some p) fx addr 1 s = None.
Proof.
  intros [t Ht] Hq. unfold futex_wake. rewrite Hq. cbn [wake_at_most Z.eqb wake_loop].
  unfold wake_at_most. cbn [Z.eqb wake_loop]. unfold status_of, set_futex.
  cbn [tcbs set_futexes]. rewrite Ht. cbn. by rewrite decide_True.
Qed.

(** Task 2 of the run above, with its thread 3 ready. *)
Definition exec_state : Sys :=
  default life_3 (s ← run_tasks_turn pop_min 0 life_3;
                  '(_, s, _) ← sys_clone CLONE_THREAD 0 0 0 3 13 1 3 9 s (@nil vm_event); Some s).

Lemma fresh_pid s n :
  bool_decide (map_Forall (fun _ t => pid t <> n) (tcbs s)) = true -> forall q, pid_of s q <> Some n.
Proof.
  intros Hb%bool_decide_eq_true q. unfold pid_of. destruct (tcbs s !! q) as [t |] eqn:E; [| done].
  intros [= Hn]. by apply (Hb q t E).
Qed.

Lemma exec_state_steps : task_steps pop_min 1 0 (life_4, @nil vm_event) (exec_state, []).
Proof.
  eapply steps_other; [| apply steps_refl].
  apply (step_clone pop_min 1 CLONE_THREAD 0 0 0 3 13 1 3 9 life_4 [] 13 exec_state []);
    [by vm_compute | apply fresh_pid; by vm_compute | by vm_compute |].
  assert (Hr : ready exec_state = [1; 3]) by (by vm_compute). rewrite Hr. right. left.
Qed.

Lemma exec_state_ok : consistent 1 (exec_state, @nil vm_event).
Proof. exact (steps_consistent pop_min 1 pop_min_ok 0 _ _ exec_state_steps life_4_ok). Qed.

Lemma exec_strands_threads_witness :
  exists s', exec_drop_threads 1 true exec_state = Some s' /\ 3 ∉ ready s' /\ 3 ∈ children_of s' 1.
Proof.
  destruct (tcbs exec_state !! 2) as [t |] eqn:Ht; [| by vm_compute in Ht].
  destruct (tcbs exec_state !! 1) as [tg |] eqn:Hg; [| by vm_compute in Hg].
  destruct (tcbs exec_state !! 3) as [tq |] eqn:Hq; [| by vm_compute in Hq].
  assert (Hx : 3 ∈ children (inner tg) /\ tgid tg <> tgid t /\ tgid tq = tgid t).
  { vm_compute in Ht, Hg, Hq. injection Ht as <-. injection Hg as <-. injection Hq as <-.
    cbn. split_and!; [right; left | done | done]. }
  destruct Hx as (Hx1 & Hx2 & Hx3).
  assert (Hr : 3 ∈ ready exec_state).
  { assert (Hr : ready exec_state = [1; 3]) by (by vm_compute). rewrite Hr. right. left. }
  destruct (exec_strands_threads 1 exec_state 2 1 3 t tg tq (proj1 exec_state_ok) eq_refl Ht Hg Hq Hx1 Hx2
    Hx3 (or_introl Hr)) as (s' & E & Hn & _ & _ & _ & Hin).
  exists s'. split; [exact E |]. split; [exact Hn | exact Hin].
Defined.

(** Task 2 and its thread 3 as above; [INITPROC] sleeps, thread 3 forks task 5
    and waits for it, and task 2 runs again. *)
Definition held_fork : Sys :=
  default life_3 (s ← suspend_current exec_state; s ← run_tasks_turn pop_min 0 s;
                  s ← block_current s; s ← run_tasks_turn pop_min 0 s;
                  '(_, s, _) ← sys_clone 0 (Z.shiftl 1 16) 0 0 5 15 0 4 9 s (@nil vm_event); Some s).
Definition held_state : Sys :=
  default life_3 ('(_, s, _) ← sys_wait4 1 (-1) 0 0 held_fork (@nil vm_event); run_tasks_turn pop_min 0 s).

Definition held_yield : Sys := default life_3 (suspend_current exec_state).
Definition held_init : Sys := default life_3 (run_tasks_turn pop_min 0 held_yield).
Definition held_sleep : Sys := default life_3 (block_current held_init).
Definition held_thread : Sys := default life_3 (run_tasks_turn pop_min 0 held_sleep).

Lemma held_fork_steps : task_steps pop_min 1 2 (exec_state, @nil vm_event) (held_fork, []).
Proof.
  eapply steps_other; [apply (step_suspend pop_min 1 false exec_state 2 held_yield); by vm_compute |].
  eapply steps_turn; [apply (step_turn pop_min 1 0 _ held_init); by vm_compute |].
  eapply steps_other; [apply (step_block pop_min 1 false held_init 1 held_sleep); by vm_compute |].
  eapply steps_turn; [apply (step_turn pop_min 1 0 _ held_thread); by vm_compute |].
  eapply steps_other; [| apply steps_refl].
  apply (step_clone pop_min 1 0 (Z.shiftl 1 16) 0 0 5 15 0 4 9 held_thread [] 15 held_fork []);
    [by vm_compute | apply fresh_pid; by vm_compute | by vm_compute |].
  assert (Hr : ready held_fork = [2; 5]) by (by vm_compute). rewrite Hr. right. left.
Qed.

Lemma held_state_ok : consistent 1 (held_state, @nil vm_event).
Proof.
  apply (steps_consistent pop_min 1 pop_min_ok 3 (exec_state, [])); [| apply exec_state_ok].
  apply (steps_app pop_min 1 2 1 _ (held_fork, [])); [apply held_fork_steps |].
  destruct (sys_wait4 1 (-1) 0 0 held_fork (@nil vm_event)) as [[[r s] w] |] eqn:E; [| by vm_compute in E].
  assert (Ew : w = []) by (vm_compute in E; by injection E). subst w.
  eapply steps_other; [by apply (step_wait4 pop_min 1 (-1) 0 0 held_fork [] r s []) |].
  eapply steps_turn; [| apply steps_refl].
  apply (step_turn pop_min 1 0 s held_state); vm_compute in E; injection E as <- <-; by vm_compute.
Qed.

Lemma killed_in_wait_panics_witness :
  exists s' w', exit_group 1 7 held_state (@nil vm_event) = Some (s', w') /\
    status_of s' 3 = Some Zombie /\ 3 ∈ handles s'.
Proof.
  destruct (tcbs held_state !! 2) as [t |] eqn:Ht; [| by vm_compute in Ht].
  destruct (tcbs held_state !! 3) as [tq |] eqn:Hq; [| by vm_compute in Hq].
  destruct (exit_group 1 7 held_state (@nil vm_event)) as [[s' w'] |] eqn:E; [| by vm_compute in E].
  assert (Hg : tgid tq = tgid t).
  { vm_compute in Ht, Hq. injection Ht as <-. injection Hq as <-. reflexivity. }
  assert (Hh : 3 ∈ handles held_state).
  { apply (bool_decide_eq_true_1 (3 ∈ handles held_state)). by vm_compute. }
  destruct (killed_in_wait_panics 1 7 held_state 2 3 [] t tq s' w' held_state_ok) as (Hz & Hin & _);
    [by vm_compute | done | done | exact Hh | exact Ht | exact Hq | exact Hg | exact E |].
  exists s', w'. split; [reflexivity |]. split; [exact Hz | exact Hin].
Defined.
