(* ===== verification/Signal.v ===== *)
(** * Signals

    [task/signal.rs], and the system calls of [syscall/process.rs] that post
    signals, return from a handler or sleep: the set of signals, the table of
    actions, the delivery of a signal on the way back to user mode, with its
    frame on the user's stack, and the return from the handler. *)

From S2P Require Import Prelude Address Phys FrameAlloc PageTable.
From S2P Require Import FileTrait MemorySet UserBuf UserCopy.
From S2P Require Import Timer Sched Futex Process Family.
#[local] Open Scope kernel_scope.

Definition ESRCH : Z := -3.
Definition ERESTART : Z := -85.

(** ** Sets of signals *)

Definition bit (n : Z) : Z := Z.shiftl 1 n.
Definition SIGILL : Z := bit 3.
Definition SIGKILL : Z := bit 8.
Definition SIGSEGV : Z := bit 10.
Definition SIGCHLD : Z := bit 16.
Definition SIGCONT : Z := bit 17.
Definition SIGSTOP : Z := bit 18.
Definition SIGTSTP : Z := bit 19.
Definition SIGTTIN : Z := bit 20.
Definition SIGTTOU : Z := bit 21.
Definition SIGURG : Z := bit 22.
Definition SIGWINCH : Z := bit 27.

(** SIGILL, SIGKILL, SIGSEGV and SIGSTOP. *)
Definition CAN_NOT_BE_MASKED : Z := Z.lor (Z.lor (bit 3) (bit 8)) (Z.lor (bit 10) (bit 18)).

(** [a - b], [difference] and [remove]. *)
Definition minus (a b : Z) : Z := Z.land a (not64 b).

Definition from_signum (n : Z) : result Z unit :=
  if n =? 0 then Ok 0
  else if (1 <=? n) && (n <=? 64) then Ok (1 <<w (n - 1))
  else Err tt.

Definition count_ones (z : Z) : Z :=
  foldr (fun i n => Z.b2z (Z.testbit z i) + n) 0 (seqZ 0 64).
Definition trailing_zeros (z : Z) : Z :=
  match list_find (fun i => Z.testbit z i = true) (seqZ 0 64) with
  | Some (_, i) => i
  | None => 64
  end.

Definition to_signum (z : Z) : result Z unit :=
  if count_ones z =? 1 then Ok (trailing_zeros z + 1) else Err tt.
Definition peek_front (z : Z) : option Z :=
  if z =? 0 then None else Some (trailing_zeros z + 1).

(** ** Actions *)

Record SigAction := mkAct { handler : Z; sa_flags : Z; restorer : Z; sa_mask : Z }.
#[export] Instance SigAction_eq_dec : EqDecision SigAction.
Proof. solve_decision. Defined.
Definition sigaction_new : SigAction := mkAct 0 0 0 0.

Definition SIG_DFL : Z := 0.
Definition SIG_IGN : Z := 1.
Definition SA_SIGINFO : Z := 4.
Definition SA_RESTORER : Z := 0x04000000.
Definition SA_RESTART : Z := 0x10000000.
Definition SA_NODEFER : Z := 0x40000000.
Definition SA_RESETHAND : Z := 0x80000000.

(** [SigHandler::addr]. *)
Definition handler_addr (h : Z) : option Z :=
  if (h =? SIG_DFL) || (h =? SIG_IGN) then None else Some h.

(** In memory: four words. *)
Definition act_bytes (a : SigAction) : list Z :=
  le_split 8 (handler a) ++ le_split 8 (sa_flags a) ++ le_split 8 (restorer a) ++
  le_split 8 (sa_mask a).
Definition act_of_bytes (bs : list Z) : SigAction :=
  mkAct (le_combine (take 8 bs)) (le_combine (take 8 (drop 8 bs)))
    (le_combine (take 8 (drop 16 bs))) (le_combine (take 8 (drop 24 bs))).

Abbreviation SigHand := (list (option SigAction)).

(** ** The frame of a handler ([hal/arch/riscv/trap/context.rs]) *)

(** The registers of user mode, in the order of [GeneralRegs]; the bytes of
    [FloatRegs]. *)
Record TrapCx := mkCx { gp : list Z; fp : list Z; origin_a0 : Z }.
Definition R_PC : nat := 0.
Definition R_RA : nat := 1.
Definition R_SP : nat := 2.
Definition R_A0 : nat := 10.
Definition R_A1 : nat := 11.
Definition R_A2 : nat := 12.
Definition reg (cx : TrapCx) (i : nat) : Z := default 0 (gp cx !! i).
Definition set_reg (i : nat) (v : Z) (cx : TrapCx) : TrapCx :=
  mkCx (<[i := v]> (gp cx)) (fp cx) (origin_a0 cx).

(** The sizes of [MachineContext], [UserContext] and [SigInfo], and where the
    mask and the registers are in a [UserContext]. *)
Definition MCONTEXT_SIZE : Z := 520.
Definition UCONTEXT_SIZE : Z := 696.
Definition SIGINFO_SIZE : Z := 128.
Definition UC_SIGMASK : Z := 2 * 8 + 24.
Definition UC_MCONTEXT : Z := 2 * 8 + 24 + 8 + 128.

Definition words_bytes (ws : list Z) : list Z := mjoin (le_split 8 <$> ws).
Definition mcontext_bytes (cx : TrapCx) : list Z := words_bytes (gp cx) ++ fp cx.

Fixpoint words_of_bytes (n : nat) (bs : list Z) : list Z :=
  match n with
  | O => []
  | S n => le_combine (take 8 bs) :: words_of_bytes n (drop 8 bs)
  end.
Definition restore_mcontext (bs : list Z) (cx : TrapCx) : TrapCx :=
  mkCx (words_of_bytes 32 bs) (drop 256 bs) (origin_a0 cx).

(** [UserContext]; the padding of the C layout is zero. *)
Definition ucontext_bytes (cx : TrapCx) (mask sp size : Z) : list Z :=
  le_split 8 0 ++ le_split 8 0 ++ (le_split 8 sp ++ le_split 8 2 ++ le_split 8 size) ++
  le_split 8 mask ++ replicate 128 0 ++ mcontext_bytes cx.
Definition siginfo_bytes (signo : Z) : list Z :=
  le_split 4 signo ++ le_split 4 0 ++ le_split 4 0 ++ replicate 116 0.

(** What the signal code sees of a task. *)
Record SigTask := mkST {
  st_pending : Z; st_mask : Z; st_hand : SigHand; st_cx : TrapCx; st_ustack_base : Z
}.

(** How [do_signal] ends: on the way to user mode, or not. *)
Inductive sig_outcome := SigUser | SigExit (code : Z) | SigExitGroup (code : Z) | SigStop.

Section signals.
Context {T : Type} `{!PageTable T}.
Context (check_page_fault : VirtAddr -> KM Phys Z PhysAddr).
Context (token : Z).

(** [.unwrap()] of a call into user memory. *)
Definition must {A} (m : KM Phys Z A) (w : Phys) : option (A * Phys) :=
  '(r, w) ← m w; a ← unwrap r; Some (a, w).

(** [*translated_refmut(token, ptr)? = v] and [*translated_ref(token, ptr)?] of
    a word. *)
Definition store64 (ptr v : Z) : KM Phys Z unit :=
  pa ← translated_refmut check_page_fault token ptr; copy_out pa (le_split 8 v).
Definition load64 (ptr : Z) : KM Phys Z Z :=
  pa ← translated_ref check_page_fault token ptr; bs ← copy_in pa 8; mret (le_combine bs).

(** The restart of an interrupted system call. *)
Definition restart_syscall (is_syscall : bool) (act : SigAction) (cx : TrapCx) : TrapCx :=
  if is_syscall && (reg cx R_A0 =? wrap64 ERESTART) then
    if has (sa_flags act) SA_RESTART
    then set_reg R_A0 (origin_a0 cx) (set_reg R_PC (reg cx R_PC -w 4) cx)
    else set_reg R_A0 (wrap64 EINTR) cx
  else cx.

Definition align8 (z : Z) : Z := Z.land z (not64 7).

(** The frame is pushed: with [SA_SIGINFO] all of it, else what the return
    needs. *)
Definition push_frame (act : SigAction) (signum mask ucontext siginfo size : Z) (cx : TrapCx)
    (w : Phys) : option (TrapCx * Phys) :=
  if has (sa_flags act) SA_SIGINFO then
    '(_, w) ← must (copy_to_user check_page_fault token (ucontext_bytes cx mask siginfo size)
                      ucontext) w;
    let cx := set_reg R_A2 ucontext cx in
    '(_, w) ← must (copy_to_user check_page_fault token (siginfo_bytes (wrap32 signum)) siginfo) w;
    Some (set_reg R_A1 siginfo cx, w)
  else
    '(_, w) ← must (store64 (ucontext +w UC_SIGMASK) mask) w;
    '(_, w) ← must (copy_to_user check_page_fault token (mcontext_bytes cx)
                      (ucontext +w UC_MCONTEXT)) w;
    Some (cx, w).

(** A signal with a handler. *)
Definition deliver (is_syscall : bool) (signum : Z) (act : SigAction) (st : SigTask) (w : Phys)
    : option (sig_outcome * SigTask * Phys) :=
  let cx := restart_syscall is_syscall act (st_cx st) in
  let ucontext := align8 (reg cx R_SP -w UCONTEXT_SIZE) in
  let siginfo := align8 (ucontext -w SIGINFO_SIZE) in
  let floor := st_ustack_base st -w USER_STACK_SIZE in
  if siginfo <? floor then
    Some (SigExit 11, mkST (st_pending st) (st_mask st) (st_hand st) cx (st_ustack_base st), w)
  else
    '(cx, w) ← push_frame act signum (st_mask st) ucontext siginfo (siginfo - floor) cx w;
    let cx := set_reg R_SP siginfo (set_reg R_A0 signum cx) in
    let cx := set_reg R_RA (if has (sa_flags act) SA_RESTORER then restorer act
                            else SIGNAL_TRAMPOLINE) cx in
    pc ← handler_addr (handler act);
    let cx := set_reg R_PC pc cx in
    let signal := 1 <<w (signum - 1) in
    let mask := Z.lor (st_mask st)
      (minus (if has (sa_flags act) SA_NODEFER then sa_mask act else Z.lor signal (sa_mask act))
         CAN_NOT_BE_MASKED) in
    let hand := if has (sa_flags act) SA_RESETHAND
                then <[Z.to_nat (signum - 1) := None]> (st_hand st) else st_hand st in
    Some (SigUser, mkST (st_pending st) mask hand cx (st_ustack_base st), w).

(** The [while let] of [do_signal]: every round takes a signal off the pending
    set, so 65 rounds are enough. *)
Fixpoint do_signal_loop (fuel : nat) (is_syscall : bool) (st : SigTask) (w : Phys)
    : option (sig_outcome * SigTask * Phys) :=
  match fuel with
  | O => None
  | S fuel =>
      match peek_front (minus (st_pending st) (st_mask st)) with
      | None => Some (SigUser, st, w)
      | Some signum =>
          let signal := 1 <<w (signum - 1) in
          let st := mkST (minus (st_pending st) signal) (st_mask st) (st_hand st) (st_cx st)
                      (st_ustack_base st) in
          entry ← vec_get (st_hand st) (signum - 1);
          match entry with
          | Some act => deliver is_syscall signum act st w
          | None =>
              if bool_decide (signal ∈ [SIGILL; SIGSEGV])
              then n ← unwrap (to_signum signal); Some (SigExitGroup n, st, w)
              else if bool_decide (signal ∈ [SIGCHLD; SIGCONT; SIGURG; SIGWINCH])
              then do_signal_loop fuel is_syscall st w
              else if bool_decide (signal ∈ [SIGTSTP; SIGTTIN; SIGTTOU])
              then Some (SigStop, st, w)
              else n ← unwrap (to_signum signal); Some (SigExitGroup n, st, w)
          end
      end
  end.
Definition do_signal := do_signal_loop 65.

(** [sys_sigreturn]. *)
Definition sys_sigreturn (st : SigTask) (w : Phys) : option (Z * SigTask * Phys) :=
  let ucontext := align8 (reg (st_cx st) R_SP +w SIGINFO_SIZE +w 7) in
  '(mask, w) ← must (load64 (ucontext +w UC_SIGMASK)) w;
  '(bs, w) ← must (copy_from_user check_page_fault token (ucontext +w UC_MCONTEXT)
                     MCONTEXT_SIZE) w;
  let cx := restore_mcontext bs (st_cx st) in
  Some (to_signed64 (reg cx R_A0),
        mkST (st_pending st) mask (st_hand st) cx (st_ustack_base st), w).

(** [sigaction]; the errors of the copies become [EFAULT]. *)
Definition sigaction (signum act oldact : Z) (hand : SigHand) (w : Phys)
    : option (Z * SigHand * Phys) :=
  if (signum =? 0) || (signum =? 9) || (signum =? 19) || (65 <=? signum)
  then Some (EINVAL, hand, w)
  else
    entry ← vec_get hand (signum - 1);
    '(r, w) ← (if negb (oldact =? 0)
               then copy_to_user check_page_fault token
                      (act_bytes (default sigaction_new entry)) oldact w
               else Some (Ok tt, w));
    if is_err r then Some (EFAULT, hand, w)
    else if negb (act =? 0) then
      '(r, w) ← copy_from_user check_page_fault token act 32 w;
      match r with
      | Err _ => Some (EFAULT, hand, w)
      | Ok bs =>
          let a := act_of_bytes bs in
          let a := mkAct (handler a) (sa_flags a) (restorer a) (minus (sa_mask a) CAN_NOT_BE_MASKED) in
          let entry := if negb ((handler a =? SIG_DFL) || (handler a =? SIG_IGN))
                       then Some a else None in
          hand ← vec_set hand (signum - 1) entry;
          Some (0, hand, w)
      end
    else Some (0, hand, w).

(** [sigprocmask] on the mask of the task. *)
Definition sigprocmask (how set oldset mask : Z) (w : Phys) : option (Z * Z * Phys) :=
  '(r, w) ← (if negb (oldset =? 0) then store64 oldset mask w else Some (Ok tt, w));
  match r with
  | Err e => Some (e, mask, w)
  | Ok _ =>
      if negb (set =? 0) then
        '(r, w) ← load64 set w;
        match r with
        | Err e => Some (e, mask, w)
        | Ok signal_set =>
            match how with
            | 0 => Some (0, minus (Z.lor mask signal_set) CAN_NOT_BE_MASKED, w)
            | 1 => Some (0, minus (minus mask signal_set) CAN_NOT_BE_MASKED, w)
            | 2 => Some (0, minus signal_set CAN_NOT_BE_MASKED, w)
            | _ => Some (EINVAL, mask, w)
            end
        end
      else Some (0, mask, w)
  end.
End signals.

(** ** Posting signals *)

(** A signal that is not empty is added, and the task woken. *)
Definition send_signal (s : Sys) (p sig : Z) : Sys :=
  if sig =? 0 then s else post_signal s p sig.

Definition sys_kill (n sig : Z) (s : Sys) : option (Z * Sys) :=
  match from_signum sig with
  | Err _ => Some (EINVAL, s)
  | Ok signal =>
      if 0 <? n then
        found ← find_task_by_tgid s n;
        match found with
        | Some p => Some (0, send_signal s p signal)
        | None => Some (ESRCH, s)
        end
      else Some (0, s)
  end.

Definition sys_tkill (k sig : Z) (s : Sys) : option (Z * Sys) :=
  match from_signum sig with
  | Err _ => Some (EINVAL, s)
  | Ok signal =>
      if 0 <? k then
        found ← find_task_by_pid s k;
        match found with
        | Some p => Some (0, send_signal s p signal)
        | None => Some (ESRCH, s)
        end
      else Some (EINVAL, s)
  end.

Definition sys_tgkill (n k sig : Z) (s : Sys) : option (Z * Sys) :=
  match from_signum sig with
  | Err _ => Some (EINVAL, s)
  | Ok signal =>
      found ← find_task_by_tgid s n;
      match found with
      | Some p =>
          Some (0, if decide (pid_of s p = Some k) then send_signal s p signal else s)
      | None => Some (ESRCH, s)
      end
  end.

(** ** Sleeping: each call up to the switch, and from there *)

(** [wait_with_timeout] and [block_current_and_run_next]. *)
Definition sleep_until (end_ : TimeSpec) (s : Sys) : option Sys :=
  p ← current s;
  block_current (wait_with_timeout s p end_).

Definition pending_of (s : Sys) : option Z :=
  p ← current s;
  t ← tcbs s !! p;
  Some (sigpending (inner t)).

Definition timespec_bytes (t : TimeSpec) : list Z :=
  le_split 8 (tv_sec t) ++ le_split 8 (tv_nsec t).

Section sleeping.
Context {T : Type} `{!PageTable T}.
Context (check_page_fault : VirtAddr -> KM Phys Z PhysAddr).
Context (token : Z).

(** The time the sleep ends is kept for the second half. *)
Definition sys_nanosleep (req tick : Z) (s : Sys) (w : Phys)
    : option (progress * TimeSpec * Sys * Phys) :=
  if req =? 0 then Some (Done EINVAL, ts_new, s, w)
  else
    '(r, w) ← get_from_user check_page_fault token req 16 w;
    match r with
    | Err e => Some (Done e, ts_new, s, w)
    | Ok bs =>
        let end_ := ts_add (ts_now tick) (timespec_of_bytes bs) in
        s ← sleep_until end_ s;
        Some (Sleeping, end_, s, w)
    end.

Definition store_rem (rem : Z) (t : TimeSpec) (w : Phys) : option Phys :=
  if negb (rem =? 0)
  then '(_, w) ← must (copy_to_user check_page_fault token (timespec_bytes t) rem) w; Some w
  else Some w.

Definition nanosleep_resumed (end_ : TimeSpec) (rem tick : Z) (s : Sys) (w : Phys)
    : option (Z * Phys) :=
  pending ← pending_of s;
  let now := ts_now tick in
  if pending =? 0 then
    _ ← assert_ (ts_le end_ now);
    w ← store_rem rem ts_new w;
    Some (0, w)
  else
    w ← store_rem rem (ts_sub end_ now) w;
    Some (EINTR, w).

Definition sigtimedwait (set timeout tick : Z) (s : Sys) (w : Phys)
    : option (progress * (Z * TimeSpec) * Sys * Phys) :=
  '(r, w) ← load64 check_page_fault token set w;
  match r with
  | Err e => Some (Done e, (0, ts_new), s, w)
  | Ok set =>
      '(r, w) ← try_get_from_user check_page_fault token timeout 16 w;
      match r with
      | Err e => Some (Done e, (0, ts_new), s, w)
      | Ok None => Some (Done EINVAL, (0, ts_new), s, w)
      | Ok (Some bs) =>
          let end_ := ts_add (ts_now tick) (timespec_of_bytes bs) in
          s ← sleep_until end_ s;
          Some (Sleeping, (set, end_), s, w)
      end
  end.

Definition sigtimedwait_resumed (set : Z) (end_ : TimeSpec) (info tick : Z) (s : Sys) (w : Phys)
    : option (Z * Phys) :=
  pending ← pending_of s;
  if negb (pending =? 0) then
    match peek_front (Z.land pending set) with
    | Some signum =>
        '(r, w) ← (if negb (info =? 0)
                   then copy_to_user check_page_fault token (siginfo_bytes (wrap32 signum)) info w
                   else Some (Ok tt, w));
        Some (if is_err r then EFAULT else signum, w)
    | None => Some (EINTR, w)
    end
  else
    _ ← assert_ (ts_le end_ (ts_now tick));
    Some (EAGAIN, w).
End sleeping.
