(* ===== verification/SignalFrame.v ===== *)
(** * Signal frames: what a handler returns to

    [do_signal] writes the registers and the mask of the task to its user
    stack, [sys_sigreturn] reads them back ([task/signal.rs],
    [syscall/process.rs]).  The proofs go through the copies to and from user
    space of [UserCopy]. *)

From S2P Require Import Prelude Address Phys FrameAlloc PageTable Sv39 Sv39Tree.
From S2P Require Import FileTrait MemorySet UserBuf UserCopy.
From S2P Require Import Timer Sched Futex Process Family Signal SignalOk.
#[local] Open Scope kernel_scope.

(** ** Frames on the user's stack *)

Section frames.
Context {T : Type} `{!PageTable T, !PageTableSpec T}.

(** A range the process can use as memory: mapped, to different frames, none
    of them the table's. *)
Definition frame_ok (t : T) (w : Phys) (va n : Z) : Prop :=
  range_mapped t w va n /\ range_injective t w va n /\ range_private t w va n.

Lemma frame_sub t w va n a k :
  frame_ok t w va n -> va <= a -> 0 <= k -> a + k <= va + n -> frame_ok t w a k.
Proof.
  intros ((H0 & H1 & H2 & Hm) & Hj & Hp) Ha Hk Hak. split_and!.
  - split_and!; [lia | lia | lia |]. intros x Hx. apply Hm. lia.
  - intros x y ex ey Hx Hy. apply Hj; lia.
  - intros x e Hx. apply Hp. lia.
Qed.

Lemma frame_view t w w' va n :
  (forall k, pt_view t w' k = pt_view t w k) -> frame_ok t w va n -> frame_ok t w' va n.
Proof.
  intros Hv ((H0 & H1 & H2 & Hm) & Hj & Hp). split_and!.
  - split_and!; try done. intros x Hx. rewrite Hv. by apply Hm.
  - intros x y ex ey Hx Hy. rewrite !Hv. by apply Hj.
  - intros x e Hx. rewrite Hv. by apply Hp.
Qed.

Lemma user_bytes_app t w va n m :
  0 <= n -> 0 <= m -> user_bytes t w va (n + m) = user_bytes t w va n ++ user_bytes t w (va + n) m.
Proof. intros. rewrite !user_bytes_addrs, user_addrs_app, fmap_app by done. done. Qed.

Lemma length_user_bytes t w va n : length (user_bytes t w va n) = Z.to_nat n.
Proof. by rewrite user_bytes_addrs, length_fmap, length_user_addrs. Qed.

(** A part of a range. *)
Lemma user_bytes_part t w va n a k :
  va <= a -> 0 <= k -> a + k <= va + n ->
  user_bytes t w a k = take (Z.to_nat k) (drop (Z.to_nat (a - va)) (user_bytes t w va n)).
Proof.
  intros Ha Hk Hn. replace n with ((a - va) + (k + (va + n - a - k))) by lia.
  rewrite user_bytes_app by lia. replace (va + (a - va)) with a by lia.
  rewrite drop_app_length' by (rewrite length_user_bytes; lia).
  rewrite user_bytes_app by lia. by rewrite take_app_length' by (rewrite length_user_bytes; lia).
Qed.

(** Disjoint parts of a usable range have disjoint physical addresses. *)
Lemma user_addrs_disjoint base raw t w va n a k b m x :
  pt_inv base raw t w -> frame_ok t w va n ->
  va <= a -> 0 <= k -> a + k <= va + n -> va <= b -> 0 <= m -> b + m <= va + n ->
  a + k <= b \/ b + m <= a ->
  x ∈ user_addrs t w a k -> x ∉ user_addrs t w b m.
Proof.
  intros Hi Hf Ha Hk Hak Hb Hm Hbm Hd Hx Hy.
  destruct (frame_sub t w va n a k Hf) as [Hma _]; [lia.. |].
  destruct (frame_sub t w va n b m Hf) as [Hmb _]; [lia.. |].
  destruct (user_addrs_elem base raw t w a k x Hi Hma Hx) as (c & ec & Hc & Hec & Hpc & Ec).
  destruct (user_addrs_elem base raw t w b m x Hi Hmb Hy) as (d & ed & Hdd & Hed & Hpd & Ed).
  destruct Hf as (_ & Hj & _). assert (Heq : ec.1 = ed.1) by lia.
  pose proof (Hj c d ec ed ltac:(lia) ltac:(lia) Hec Hed Heq) as Hfl.
  unfold va_floor, PAGE_SIZE in Hfl. lia.
Qed.

Context (check_page_fault : VirtAddr -> KM Phys Z PhysAddr).

(** A copy out to a part of a usable range. *)
Lemma put_ok base raw t w va n bs a :
  pt_inv base raw t w -> frame_ok t w va n -> bytes bs -> 0 < vlen bs < 2 ^ 62 ->
  va <= a -> a + vlen bs <= va + n ->
  exists w', copy_to_user check_page_fault (pt_token t) bs a w = Some (Ok tt, w') /\
    pt_inv base raw t w' /\ frame_ok t w' va n /\ user_bytes t w' a (vlen bs) = bs /\
    forall b k, va <= b -> 0 <= k -> b + k <= va + n -> b + k <= a \/ a + vlen bs <= b ->
      user_bytes t w' b k = user_bytes t w b k.
Proof.
  intros Hi Hf Hb Hl Ha Han.
  destruct (frame_sub t w va n a (vlen bs) Hf) as (Hm & Hj & Hp); [lia.. |].
  eexists. split; [by apply (copy_to_user_ok _ base raw) |].
  destruct (scatter_user_bytes base raw t w a bs Hi Hb Hm Hj Hp) as (Hi' & Hv' & _ & Hu).
  split; [exact Hi' |]. split; [by apply (frame_view t w) |]. split; [exact Hu |].
  intros b k Hvb Hk Hbk Hd. unfold user_bytes. apply list_fmap_ext. intros i x Hx.
  apply lookup_seqZ in Hx as [-> Hik].
  destruct Hf as ((H0 & H1 & H2 & Hmap) & Hjj & Hpp). unfold TRAMPOLINE, usize_max, PAGE_SIZE in H2.
  rewrite (user_pa_stable base raw t w) by (done || lia). cbn [pmem with_mem].
  apply mem_get_scatter_out.
  eapply (user_addrs_disjoint base raw t w va n b k a (vlen bs)); try done; try lia.
  unfold user_addrs. apply list_elem_of_fmap. exists (b + Z.of_nat i). split; [done |].
  apply elem_of_seqZ. lia.
Qed.

(** A word at an address that is a multiple of 8 lies in one page. *)
Lemma store64_copy token ptr v w :
  0 <= ptr -> ptr + 8 < 2 ^ 64 -> ptr mod 8 = 0 ->
  store64 check_page_fault token ptr v w = copy_to_user check_page_fault token (le_split 8 v) ptr w.
Proof.
  intros H0 H1 H8. unfold copy_to_user, vlen. rewrite length_le_split.
  rewrite same_page_spec by lia. by rewrite (proj2 (Z.leb_le _ _)) by lia.
Qed.

Lemma load64_copy token ptr w bs w' :
  0 <= ptr -> ptr + 8 < 2 ^ 64 -> ptr mod 8 = 0 ->
  copy_from_user check_page_fault token ptr 8 w = Some (Ok bs, w') ->
  load64 check_page_fault token ptr w = Some (Ok (le_combine bs), w').
Proof.
  intros H0 H1 H8. unfold copy_from_user. rewrite same_page_spec by lia.
  rewrite (proj2 (Z.leb_le _ _)) by lia. unfold load64.
  intros [(pa & w1 & Ht & Hc) | (e & w1 & _ & Hc)]%km_bind_inv; [| done].
  unfold mbind, KM_bind. by rewrite Ht, Hc.
Qed.
End frames.

(** ** Registers in memory *)

Definition cx_ok (cx : TrapCx) : Prop :=
  length (gp cx) = 32%nat /\ Forall u64 (gp cx) /\ u64 (origin_a0 cx) /\
  length (fp cx) = 264%nat /\ bytes (fp cx).

Lemma words_bytes_length ws : length (words_bytes ws) = (8 * length ws)%nat.
Proof.
  induction ws as [| v ws IH]; [done |].
  change (words_bytes (v :: ws)) with (le_split 8 v ++ words_bytes ws).
  rewrite length_app, length_le_split, IH. cbn [length]. lia.
Qed.

Lemma words_bytes_bytes ws : bytes (words_bytes ws).
Proof.
  induction ws as [| v ws IH]; [constructor |].
  apply Forall_app. split; [apply le_split_bytes | exact IH].
Qed.

Lemma words_of_words_bytes ws rest :
  Forall u64 ws -> words_of_bytes (length ws) (words_bytes ws ++ rest) = ws.
Proof.
  induction 1 as [| v ws Hv _ IH]; [done |]. cbn [length words_of_bytes].
  change (words_bytes (v :: ws)) with (le_split 8 v ++ words_bytes ws). rewrite <- app_assoc.
  rewrite take_app_length' by (by rewrite length_le_split).
  rewrite drop_app_length' by (by rewrite length_le_split). f_equal; [| exact IH].
  apply le_combine_split. unfold fits in Hv. change (256 ^ Z.of_nat 8) with (2 ^ 64). lia.
Qed.

Lemma mcontext_length cx : cx_ok cx -> vlen (mcontext_bytes cx) = MCONTEXT_SIZE.
Proof.
  intros (Hg & _ & _ & Hf & _). unfold vlen, mcontext_bytes.
  rewrite length_app, words_bytes_length, Hg, Hf. done.
Qed.

Lemma mcontext_is_bytes cx : cx_ok cx -> bytes (mcontext_bytes cx).
Proof.
  intros (_ & _ & _ & _ & Hf). apply Forall_app. split; [apply words_bytes_bytes | done].
Qed.

Lemma restore_mcontext_ok cx cx0 :
  cx_ok cx -> gp (restore_mcontext (mcontext_bytes cx) cx0) = gp cx /\
    fp (restore_mcontext (mcontext_bytes cx) cx0) = fp cx.
Proof.
  intros (Hg & Hu & _ & Hf & _). unfold restore_mcontext, mcontext_bytes. cbn [gp fp]. split.
  - rewrite <- Hg at 1. by apply words_of_words_bytes.
  - apply drop_app_length'. rewrite words_bytes_length. lia.
Qed.

Lemma set_reg_ok i v cx : cx_ok cx -> u64 v -> cx_ok (set_reg i v cx).
Proof.
  intros (Hg & Hu & Ho & Hf & Hb) Hv. unfold cx_ok, set_reg. cbn [gp fp origin_a0].
  rewrite length_insert. split_and!; [done | by apply Forall_insert | done | done | done].
Qed.

Lemma set_reg_length i v cx : length (gp (set_reg i v cx)) = length (gp cx).
Proof. apply length_insert. Qed.

Lemma reg_set_ne i j v cx : i <> j -> reg (set_reg i v cx) j = reg cx j.
Proof. intros H. unfold reg, set_reg. cbn [gp]. by rewrite list_lookup_insert_ne. Qed.

Lemma reg_set_eq i v cx : (i < length (gp cx))%nat -> reg (set_reg i v cx) i = v.
Proof. intros H. unfold reg, set_reg. cbn [gp]. by rewrite list_lookup_insert_eq. Qed.

Lemma restart_ok is_syscall act cx :
  cx_ok cx -> cx_ok (restart_syscall is_syscall act cx) /\
    reg (restart_syscall is_syscall act cx) R_SP = reg cx R_SP.
Proof.
  intros H. unfold restart_syscall. destruct (is_syscall && _); [| done].
  destruct (has _ _).
  - split; [| by rewrite !reg_set_ne].
    apply set_reg_ok; [| apply H]. apply set_reg_ok; [done | apply wrap64_bound].
  - split; [apply set_reg_ok; [done | apply wrap64_bound] | by rewrite reg_set_ne].
Qed.

(** ** The frame *)

Lemma align8_spec z : u64 z -> align8 z = z - z mod 8.
Proof.
  intros Hz. assert (H : align8 z = Z.ldiff z (Z.ones 3)).
  { apply Z.bits_inj'. intros i Hi. unfold align8.
    rewrite Z.land_spec, not64_spec, Z.ldiff_spec by done. change 7 with (Z.ones 3).
    destruct (Z.ltb_spec i 64); [by rewrite xorb_true_r |].
    rewrite (fits_testbit_high 64 z) by (done || lia). done. }
  rewrite H, Z.ldiff_ones_r, Z.shiftr_div_pow2, Z.shiftl_mul_pow2 by lia.
  change (2 ^ 3) with 8. lia.
Qed.

(** Where the frame of a handler starts, for a stack pointer. *)
Definition frame_base (sp : Z) : Z := align8 (align8 (sp -w UCONTEXT_SIZE) -w SIGINFO_SIZE).

Lemma frame_base_spec sp :
  1024 <= sp < 2 ^ 63 ->
  align8 (sp -w UCONTEXT_SIZE) = frame_base sp + 128 /\ frame_base sp mod 8 = 0 /\
  0 < frame_base sp /\ frame_base sp + 824 <= sp.
Proof.
  intros H. unfold frame_base, UCONTEXT_SIZE, SIGINFO_SIZE.
  rewrite (wrap64_small (sp - 696)) by lia. rewrite (align8_spec (sp - 696)) by (unfold fits; lia).
  rewrite wrap64_small by lia. rewrite align8_spec by (unfold fits; lia). lia.
Qed.

Lemma ucontext_parts cx mask sp size :
  take 8 (drop 40 (ucontext_bytes cx mask sp size)) = le_split 8 mask /\
  drop 176 (ucontext_bytes cx mask sp size) = mcontext_bytes cx.
Proof. done. Qed.

Lemma ucontext_length cx mask sp size :
  cx_ok cx -> vlen (ucontext_bytes cx mask sp size) = UCONTEXT_SIZE.
Proof.
  intros H. pose proof (mcontext_length cx H) as Hl. unfold vlen, ucontext_bytes in *.
  rewrite !length_app, !length_le_split, length_replicate. unfold MCONTEXT_SIZE in Hl.
  unfold UCONTEXT_SIZE. lia.
Qed.

Lemma ucontext_is_bytes cx mask sp size : cx_ok cx -> bytes (ucontext_bytes cx mask sp size).
Proof.
  intros H. unfold ucontext_bytes, bytes. rewrite !Forall_app.
  split_and!; try apply le_split_bytes; [by apply Forall_replicate | by apply mcontext_is_bytes].
Qed.

Lemma siginfo_is_bytes n : bytes (siginfo_bytes n).
Proof.
  unfold siginfo_bytes, bytes. rewrite !Forall_app.
  split_and!; try apply le_split_bytes. by apply Forall_replicate.
Qed.

Section roundtrip.
Context {T : Type} `{!PageTable T, !PageTableSpec T}.
Context (check_page_fault : VirtAddr -> KM Phys Z PhysAddr).
Context (base : Z) (raw : gset Z) (t : T).

Lemma must_ok {A} (m : KM Phys Z A) w a w' : m w = Some (Ok a, w') -> must m w = Some (a, w').
Proof. intros H. unfold must, mbind, option_bind. by rewrite H. Qed.

(** What the return needs is in the frame. *)
Definition frame_holds (w : Phys) (uc mask : Z) (cx : TrapCx) : Prop :=
  user_bytes t w (uc + 40) 8 = le_split 8 mask /\
  user_bytes t w (uc + 176) 520 = mcontext_bytes cx.

(** With [SA_SIGINFO] the whole [UserContext] is written, then the [SigInfo]. *)
Lemma push_siginfo signum mask uc size cx w :
  pt_inv base raw t w -> cx_ok cx -> frame_ok t w (uc - 128) 824 ->
  exists w1 w2,
    copy_to_user check_page_fault (pt_token t) (ucontext_bytes cx mask (uc - 128) size) uc w =
      Some (Ok tt, w1) /\
    copy_to_user check_page_fault (pt_token t) (siginfo_bytes (wrap32 signum)) (uc - 128) w1 =
      Some (Ok tt, w2) /\
    pt_inv base raw t w2 /\ frame_ok t w2 (uc - 128) 824 /\ frame_holds w2 uc mask cx.
Proof.
  intros Hi Hcx Hf. pose proof (ucontext_length cx mask (uc - 128) size Hcx) as Hl.
  unfold UCONTEXT_SIZE in Hl.
  destruct (put_ok check_page_fault base raw t w (uc - 128) 824 _ uc Hi Hf
              (ucontext_is_bytes cx mask (uc - 128) size Hcx)) as (w1 & E1 & Hi1 & Hf1 & Hb1 & _);
    [lia.. |].
  destruct (put_ok check_page_fault base raw t w1 (uc - 128) 824 _ (uc - 128) Hi1 Hf1
              (siginfo_is_bytes (wrap32 signum))) as (w2 & E2 & Hi2 & Hf2 & _ & Hk);
    [by vm_compute | lia | change (vlen _) with 128; lia |].
  exists w1, w2. unfold frame_holds. split_and!; [done | done | done | done | ..];
    change (vlen (siginfo_bytes (wrap32 signum))) with 128 in Hk; rewrite Hl in Hb1;
    rewrite Hk by lia; destruct (ucontext_parts cx mask (uc - 128) size) as [P1 P2].
  - rewrite (user_bytes_part _ w1 uc 696 (uc + 40)), Hb1 by lia.
    replace (uc + 40 - uc) with 40 by lia. exact P1.
  - rewrite (user_bytes_part _ w1 uc 696 (uc + 176)), Hb1 by lia.
    replace (uc + 176 - uc) with 176 by lia. change (Z.to_nat 176) with 176%nat. rewrite P2.
    apply take_ge. pose proof (mcontext_length cx Hcx) as Hm. unfold vlen, MCONTEXT_SIZE in Hm. lia.
Qed.

(** Without it the mask and the registers only. *)
Lemma push_plain mask uc cx w :
  pt_inv base raw t w -> cx_ok cx -> frame_ok t w (uc - 128) 824 -> uc mod 8 = 0 ->
  exists w1 w2,
    store64 check_page_fault (pt_token t) (uc + 40) mask w = Some (Ok tt, w1) /\
    copy_to_user check_page_fault (pt_token t) (mcontext_bytes cx) (uc + 176) w1 =
      Some (Ok tt, w2) /\
    pt_inv base raw t w2 /\ frame_ok t w2 (uc - 128) 824 /\ frame_holds w2 uc mask cx.
Proof.
  intros Hi Hcx Hf Hu. pose proof Hf as ((H0 & H1 & H2 & _) & _).
  unfold TRAMPOLINE, usize_max, PAGE_SIZE in H2.
  destruct (put_ok check_page_fault base raw t w (uc - 128) 824 _ (uc + 40) Hi Hf
              (le_split_bytes 8 mask)) as (w1 & E1 & Hi1 & Hf1 & Hb1 & _);
    [unfold vlen; rewrite ?length_le_split; lia .. |].
  rewrite <- store64_copy in E1 by lia.
  pose proof (mcontext_length cx Hcx) as Hm. unfold MCONTEXT_SIZE in Hm.
  destruct (put_ok check_page_fault base raw t w1 (uc - 128) 824 _ (uc + 176) Hi1 Hf1
              (mcontext_is_bytes cx Hcx)) as (w2 & E2 & Hi2 & Hf2 & Hb2 & Hk); [lia.. |].
  exists w1, w2. unfold vlen in Hb1. rewrite length_le_split in Hb1. rewrite Hm in Hb2.
  unfold frame_holds.
  split_and!; [done | done | done | done | rewrite Hk by lia; exact Hb1 | exact Hb2].
Qed.

Lemma push_frame_ok act signum mask uc size cx w :
  pt_inv base raw t w -> cx_ok cx -> frame_ok t w (uc - 128) 824 -> uc mod 8 = 0 ->
  exists cx' w', push_frame check_page_fault (pt_token t) act signum mask uc (uc - 128) size cx w =
      Some (cx', w') /\ length (gp cx') = 32%nat /\
    pt_inv base raw t w' /\ frame_ok t w' (uc - 128) 824 /\ frame_holds w' uc mask cx.
Proof.
  intros Hi Hcx Hf Hu. pose proof Hf as ((H0 & H1 & H2 & _) & _).
  unfold TRAMPOLINE, usize_max, PAGE_SIZE in H2. unfold push_frame, mbind, option_bind.
  destruct (has _ _).
  - destruct (push_siginfo signum mask uc size cx w Hi Hcx Hf) as (w1 & w2 & E1 & E2 & Hr).
    eexists _, w2. rewrite (must_ok _ _ _ _ E1). cbv beta iota zeta.
    rewrite (must_ok _ _ _ _ E2). split; [done |]. split; [| done].
    cbn. rewrite !length_insert. apply Hcx.
  - change UC_SIGMASK with 40. change UC_MCONTEXT with 176. rewrite !wrap64_small by lia.
    destruct (push_plain mask uc cx w Hi Hcx Hf Hu) as (w1 & w2 & E1 & E2 & Hr).
    exists cx, w2. rewrite (must_ok _ _ _ _ E1). cbv beta iota zeta.
    rewrite (must_ok _ _ _ _ E2). split; [done |]. split; [apply Hcx | done].
Qed.

Lemma sigreturn_reads st w uc mask cx :
  pt_inv base raw t w -> frame_ok t w (uc - 128) 824 -> uc mod 8 = 0 ->
  frame_holds w uc mask cx -> cx_ok cx -> u64 mask -> reg (st_cx st) R_SP = uc - 128 ->
  exists cx', sys_sigreturn check_page_fault (pt_token t) st w =
      Some (to_signed64 (reg cx R_A0),
            mkST (st_pending st) mask (st_hand st) cx' (st_ustack_base st), w) /\
    gp cx' = gp cx /\ fp cx' = fp cx.
Proof.
  intros Hi Hf Hu [Hm Hc] Hcx Hmask Hsp. pose proof Hf as ((H0 & H1 & H2 & _) & _).
  unfold TRAMPOLINE, usize_max, PAGE_SIZE in H2.
  destruct (frame_sub t w _ _ (uc + 40) 8 Hf) as (Hm1 & _); [lia.. |].
  destruct (frame_sub t w _ _ (uc + 176) 520 Hf) as (Hm2 & _); [lia.. |].
  pose proof (copy_from_user_ok check_page_fault base raw t w _ 8 Hi Hm1 ltac:(lia)) as E1.
  pose proof (copy_from_user_ok check_page_fault base raw t w _ 520 Hi Hm2 ltac:(lia)) as E2.
  apply load64_copy in E1; [| lia..]. rewrite Hm in E1. rewrite Hc in E2.
  rewrite le_combine_split in E1 by (unfold fits in Hmask; change (256 ^ Z.of_nat 8) with (2 ^ 64); lia).
  destruct (restore_mcontext_ok cx (st_cx st) Hcx) as [Hg Hp].
  exists (restore_mcontext (mcontext_bytes cx) (st_cx st)). split; [| done].
  unfold sys_sigreturn, SIGINFO_SIZE, MCONTEXT_SIZE. rewrite Hsp.
  change UC_SIGMASK with 40. change UC_MCONTEXT with 176.
  rewrite (wrap64_small (uc - 128 + 128)), (wrap64_small (uc - 128 + 128 + 7)) by lia.
  rewrite align8_spec by (unfold fits; lia).
  replace (uc - 128 + 128 + 7 - (uc - 128 + 128 + 7) mod 8) with uc by lia.
  rewrite !wrap64_small by lia. unfold mbind, option_bind.
  rewrite (must_ok _ _ _ _ E1). cbv beta iota zeta. rewrite (must_ok _ _ _ _ E2).
  cbv beta iota zeta. unfold reg at 1. by rewrite Hg.
Qed.

(** A frame whose pages the process has not mapped, and the fault handler
    refuses, cannot be pushed. *)
Lemma push_frame_fault act signum mask uc size cx w e w' :
  pt_inv base raw t w -> cx_ok cx -> 0 <= uc -> uc + UCONTEXT_SIZE <= TRAMPOLINE -> uc mod 8 = 0 ->
  (forall a, uc <= a < uc + UCONTEXT_SIZE -> pt_view t w (pt_slot (va_floor a)) = None) ->
  (forall a, check_page_fault a w = Some (Err e, w')) ->
  push_frame check_page_fault (pt_token t) act signum mask uc (uc - 128) size cx w = None.
Proof.
  intros Hi Hcx H0 H1 Hu Hn Hc. unfold UCONTEXT_SIZE in *. pose proof H1 as H2.
  unfold TRAMPOLINE, usize_max, PAGE_SIZE in H2.
  unfold push_frame, mbind, option_bind. destruct (has _ _).
  - pose proof (ucontext_length cx mask (uc - 128) size Hcx) as Hl. unfold UCONTEXT_SIZE in Hl.
    destruct (copy_fault_is_error check_page_fault base raw t w uc
                (ucontext_bytes cx mask (uc - 128) size) e w') as [_ E];
      [done | done | lia | lia | apply Hn; lia | apply Hc | apply Hc |].
    unfold must, mbind, option_bind. by rewrite E.
  - change UC_SIGMASK with 40. rewrite (wrap64_small (uc + 40)) by lia.
    assert (E : store64 check_page_fault (pt_token t) (uc + 40) mask w = Some (Err e, w')).
    { rewrite store64_copy by lia.
      assert (Hl : vlen (le_split 8 mask) = 8) by (unfold vlen; by rewrite length_le_split).
      apply (copy_fault_is_error check_page_fault base raw); rewrite ?Hl; [done | lia | lia | lia | | |];
        [apply Hn; lia | apply Hc | apply Hc]. }
    unfold must, mbind, option_bind. by rewrite E.
Qed.
End roundtrip.

Lemma frame_top sp :
  1024 <= sp < 2 ^ 63 -> (frame_base sp + 128) mod 8 = 0 /\ frame_base sp + 128 - 128 = frame_base sp.
Proof. intros H. pose proof (frame_base_spec sp H). lia. Qed.

(** C8: A handler returns to what it interrupted: when the frame below the stack
    pointer is usable memory of the process and above the end of its stack,
    delivering a signal with a handler starts the handler at its address with
    the signal number in [a0] and the frame as its stack, and a [sigreturn] with
    that stack pointer, whatever the handler did to the other registers, brings
    back all 32 general registers (the program counter first), the
    floating-point state and the mask the program was interrupted with. *)
Theorem handler_returns_to_interrupted {T : Type} {HP : PageTable T} {HS : PageTableSpec T}
    check_page_fault base raw (t : T) w is_syscall n act st :
  let sp := reg (st_cx st) R_SP in
  let cx := restart_syscall is_syscall act (st_cx st) in
  pt_inv base raw t w -> cx_ok (st_cx st) -> u64 (st_mask st) -> 1024 <= sp < 2 ^ 63 ->
  handler act <> SIG_DFL -> handler act <> SIG_IGN ->
  frame_ok t w (frame_base sp) 824 -> st_ustack_base st -w USER_STACK_SIZE <= frame_base sp ->
  exists st' w',
    deliver check_page_fault (pt_token t) is_syscall n act st w = Some (SigUser, st', w') /\
    reg (st_cx st') R_PC = handler act /\ reg (st_cx st') R_A0 = n /\
    reg (st_cx st') R_SP = frame_base sp /\
    forall st2, reg (st_cx st2) R_SP = frame_base sp ->
      exists cx3, sys_sigreturn check_page_fault (pt_token t) st2 w' =
        Some (to_signed64 (reg cx R_A0),
              mkST (st_pending st2) (st_mask st) (st_hand st2) cx3 (st_ustack_base st2), w') /\
        gp cx3 = gp cx /\ fp cx3 = fp cx.
Proof.
  intros sp cx Hi Hcx Hm Hsp Hh1 Hh2 Hf Hfl.
  destruct (restart_ok is_syscall act (st_cx st) Hcx) as [Hcx1 Hrs].
  destruct (frame_base_spec sp Hsp) as (Huc & Hal & Hpos & Htop).
  destruct (frame_top sp Hsp) as [Hal' Hsub].
  assert (Hf' : frame_ok t w (frame_base sp + 128 - 128) 824) by (by rewrite Hsub).
  destruct (push_frame_ok check_page_fault base raw t act n (st_mask st) (frame_base sp + 128)
              (frame_base sp - (st_ustack_base st -w USER_STACK_SIZE)) cx w Hi Hcx1 Hf' Hal')
    as (cx' & w' & Ep & Hlen & Hi' & Hf'' & Hh). rewrite Hsub in Ep.
  eexists _, w'. unfold deliver. rewrite Hrs. fold sp. fold cx. fold (frame_base sp). rewrite Huc.
  rewrite (proj2 (Z.ltb_ge _ _)) by lia. unfold mbind, option_bind. rewrite Ep. cbv beta iota zeta.
  unfold handler_addr. rewrite (proj2 (Z.eqb_neq _ _) Hh1), (proj2 (Z.eqb_neq _ _) Hh2).
  cbn [orb]. split; [done |]. cbn [st_cx].
  split; [apply reg_set_eq; rewrite !set_reg_length, Hlen; unfold R_PC; lia |].
  split; [rewrite !reg_set_ne by done; apply reg_set_eq; rewrite Hlen; unfold R_A0; lia |].
  split; [rewrite !reg_set_ne by done; apply reg_set_eq; rewrite set_reg_length, Hlen; unfold R_SP; lia |].
  intros st2 Hs2. apply (sigreturn_reads check_page_fault base raw t _ w' (frame_base sp + 128)); try done.
  by rewrite Hsub.
Qed.

(** C35: A process brings the kernel down with its stack pointer: when the pages
    below it are not mapped and cannot be faulted in, pushing the frame of a
    handler is an [unwrap] of an error in the kernel. *)
Theorem bad_stack_panics {T : Type} {HP : PageTable T} {HS : PageTableSpec T}
    check_page_fault base raw (t : T) w is_syscall n act st e w' :
  let sp := reg (st_cx st) R_SP in
  pt_inv base raw t w -> cx_ok (st_cx st) -> 1024 <= sp < 2 ^ 63 ->
  st_ustack_base st -w USER_STACK_SIZE <= frame_base sp ->
  (forall a, frame_base sp <= a < sp -> pt_view t w (pt_slot (va_floor a)) = None) ->
  (forall a, check_page_fault a w = Some (Err e, w')) ->
  deliver check_page_fault (pt_token t) is_syscall n act st w = None.
Proof.
  intros sp Hi Hcx Hsp Hfl Hn Hc.
  destruct (restart_ok is_syscall act (st_cx st) Hcx) as [Hcx1 Hrs].
  destruct (frame_base_spec sp Hsp) as (Huc & Hal & Hpos & Htop).
  destruct (frame_top sp Hsp) as [Hal' Hsub].
  assert (Ht : frame_base sp + 128 + UCONTEXT_SIZE <= TRAMPOLINE).
  { unfold UCONTEXT_SIZE, TRAMPOLINE, usize_max, PAGE_SIZE. lia. }
  pose proof (push_frame_fault check_page_fault base raw t act n (st_mask st) (frame_base sp + 128)
    (frame_base sp - (st_ustack_base st -w USER_STACK_SIZE))
    (restart_syscall is_syscall act (st_cx st)) w e w' Hi Hcx1 ltac:(lia) Ht Hal') as Hp.
  rewrite Hsub in Hp. unfold deliver. rewrite Hrs. fold sp. fold (frame_base sp). rewrite Huc.
  rewrite (proj2 (Z.ltb_ge _ _)) by lia. unfold mbind, option_bind. rewrite Hp; [done | | done].
  intros a Ha. apply Hn. unfold UCONTEXT_SIZE in Ha. lia.
Qed.

(** C34: To ignore a signal is to die of it: [sigaction] with [SIG_IGN] succeeds
    and stores no action, as for [SIG_DFL], so the signal next takes its default
    action and terminates the process it should not have reached. *)
Theorem ignored_signal_kills {T : Type} {HP : PageTable T}
    check_page_fault token n act hand w bs w' :
  1 <= n <= 64 -> n <> 9 -> n <> 19 -> length hand = 64%nat -> act <> 0 ->
  copy_from_user check_page_fault token act 32 w = Some (Ok bs, w') ->
  handler (act_of_bytes bs) = SIG_IGN -> ~ ignorable n -> ~ stopping n ->
  exists hand', sigaction check_page_fault token n act 0 hand w = Some (0, hand', w') /\
    forall is_syscall cx base w2, exists st',
      do_signal check_page_fault token is_syscall (mkST (bit (n - 1)) 0 hand' cx base) w2 =
      Some (SigExitGroup n, st', w2).
Proof.
  intros Hn H9 H19 Hl Ha Hc Hh Hi Hs. exists (<[Z.to_nat (n - 1) := None]> hand). split.
  - unfold sigaction. rewrite (proj2 (Z.eqb_neq n 0)), (proj2 (Z.eqb_neq n 9) H9),
      (proj2 (Z.eqb_neq n 19) H19), (proj2 (Z.leb_gt 65 n)), (proj2 (Z.eqb_neq act 0) Ha) by lia.
    destruct (vec_get_is_Some hand (n - 1)) as [e ->]; [unfold vlen; lia |].
    cbn [orb negb Z.eqb mbind option_bind is_err]. rewrite Hc. cbn [mbind option_bind handler].
    rewrite Hh. cbn [Z.eqb Pos.eqb orb negb SIG_IGN SIG_DFL].
    assert (E : vec_set hand (n - 1) None = Some (<[Z.to_nat (n - 1) := None]> hand)).
    { apply vec_set_Some. unfold vlen. split; [lia | done]. }
    by rewrite E.
  - intros is_syscall cx base w2. set (st := mkST _ _ _ _ _).
    assert (Hlk : st_hand st !! Z.to_nat (n - 1) = Some None).
    { apply list_lookup_insert_eq. lia. }
    assert (Hok : sig_ok st).
    { split; cbn; [| done | by rewrite length_insert]. unfold bit. rewrite Z.shiftl_1_l.
      split; [lia | apply Z.pow_lt_mono_r; lia]. }
    assert (Hd : forall k, 1 <= k -> deliverable st k <-> k = n).
    { intros k Hk. unfold deliverable. cbn. rewrite testbit_bit, Z.bits_0, Z.eqb_eq by lia. lia. }
    destruct (do_signal_loop_first check_page_fault token 65 0 is_syscall st w2 Hok)
      as [(k & Hk & [Hdk _] & _ & E) | [Hno _]]; [lia | lia | lia | |].
    + apply Hd in Hdk as ->; [| lia]. eexists. unfold do_signal. rewrite E. unfold act_on.
      change (st_hand (set_pending _ st)) with (st_hand st). rewrite Hlk.
      by rewrite decide_False by done.
    + exfalso. apply (Hno n Hn). split; [by apply Hd; [lia |] |]. by intros [_ ?].
Qed.

(** ** Witnesses *)

(** A handler with [SA_SIGINFO], and memory below the stack pointer. *)
Definition demo_act : SigAction := mkAct 0x4000 SA_SIGINFO 0 0.
Definition no_fault_in : VirtAddr -> KM Phys Z PhysAddr := fun _ => km_err (-14).

Lemma demo_cx_ok : cx_ok demo_cx.
Proof. split_and!; [done | | done | done |]; apply (bool_decide_unpack _); by vm_compute. Qed.

Lemma demo_frame pt w :
  (forall k, sv_view pt w k =
     if decide (k = indexes 3 0x11) then Some (0x3000, 0x16)
     else if decide (k = indexes 3 0x10) then Some (0x1000, 0x16) else None) ->
  (forall f, f ∈ sv_frame_set pt -> 0x80400 <= f) ->
  @frame_ok _ demo_pt demo_spec pt w (frame_base (reg demo_cx R_SP)) 824.
Proof.
  intros Hv Hf. change (frame_base (reg demo_cx R_SP)) with 0x11bc8.
  apply (@frame_sub _ demo_pt demo_spec pt w 0x10ffe 0x1000); [| lia..].
  by apply demo_range.
Qed.

Lemma handler_returns_to_interrupted_witness :
  exists pt w st' w', st_mask sig_task = bit 9 /\
    @deliver _ demo_pt no_fault_in (sv_token pt) false 10 demo_act sig_task w = Some (SigUser, st', w') /\
    exists st3, @sys_sigreturn _ demo_pt no_fault_in (sv_token pt) st' w' = Some (7, st3, w') /\
      st_mask st3 = bit 9 /\ gp (st_cx st3) = gp demo_cx.
Proof.
  destruct demo_space_ok as (pt & w & Hi & Hv & Hf). pose proof (demo_frame pt w Hv Hf) as Hfr.
  destruct (@handler_returns_to_interrupted _ demo_pt demo_spec no_fault_in (pa_ceil 0x80400000) ∅ pt w
              false 10 demo_act sig_task) as (st' & w' & E & _ & _ & Hsp & Hret);
    [exact Hi | exact demo_cx_ok | done | done | done | done | exact Hfr | done |].
  destruct (Hret st' Hsp) as (cx3 & E3 & Hg & _).
  exists pt, w, st', w'. split; [done |]. split; [exact E |].
  eexists. split; [exact E3 |]. split; [done | exact Hg].
Defined.

(** The stack of [sig_task], moved to pages that are not mapped. *)
Definition lost_task : SigTask :=
  mkST 0 0 (replicate 64 None) (set_reg R_SP 0x28f00 demo_cx) USER_STACK_SIZE.

Lemma bad_stack_panics_witness :
  exists pt w, cx_ok (st_cx lost_task) /\
    @deliver _ demo_pt no_fault_in (sv_token pt) false 10 demo_act lost_task w = None.
Proof.
  destruct demo_space_ok as (pt & w & Hi & Hv & Hf). exists pt, w.
  assert (Hcx : cx_ok (st_cx lost_task)) by (apply set_reg_ok; [exact demo_cx_ok | done]).
  split; [exact Hcx |].
  apply (@bad_stack_panics _ demo_pt demo_spec no_fault_in (pa_ceil 0x80400000) ∅ pt w
           false 10 demo_act lost_task (-14) w); [exact Hi | exact Hcx | done | done | | done].
  change (frame_base _) with 0x28bc8. change (reg _ _) with 0x28f00. intros a Ha.
  assert (E : va_floor a = 0x28) by (unfold va_floor, PAGE_SIZE; lia). rewrite E.
  etransitivity; [apply Hv | by vm_compute].
Defined.

(** [SIGUSR1] ignored. *)
Definition ign_bytes : list Z := act_bytes (mkAct SIG_IGN 0 0 0).

Lemma ignored_signal_kills_witness :
  exists pt w w' hand', @copy_to_user _ demo_pt no_fault_in (sv_token pt) ign_bytes 0x10ffe w =
      Some (Ok tt, w') /\
    @sigaction _ demo_pt no_fault_in (sv_token pt) 10 0x10ffe 0 (replicate 64 None) w' =
      Some (0, hand', w') /\
    exists st', @do_signal _ demo_pt no_fault_in (sv_token pt) false (mkST (bit 9) 0 hand' demo_cx 0) w' =
      Some (SigExitGroup 10, st', w').
Proof.
  destruct demo_space_ok as (pt & w & Hi & Hv & Hf).
  assert (Hfr : @frame_ok _ demo_pt demo_spec pt w 0x10ffe 32) by (by apply demo_range).
  destruct (@put_ok _ demo_pt demo_spec no_fault_in (pa_ceil 0x80400000) ∅ pt w 0x10ffe 32 ign_bytes 0x10ffe)
    as (w' & E1 & Hi' & [Hm' _] & Hb & _);
    [exact Hi | exact Hfr | by repeat constructor | done | done | done |].
  pose proof (@copy_from_user_ok _ demo_pt demo_spec no_fault_in _ _ pt w' 0x10ffe 32 Hi' Hm'
                ltac:(lia)) as E2.
  change (vlen ign_bytes) with 32 in Hb. rewrite Hb in E2.
  destruct (@ignored_signal_kills _ demo_pt no_fault_in (sv_token pt) 10 0x10ffe (replicate 64 None) w'
              ign_bytes w') as (hand' & E3 & Hd);
    [lia | done | done | done | done | exact E2 | done | by apply (bool_decide_unpack _) |
     by apply (bool_decide_unpack _) |].
  exists pt, w, w', hand'. split; [exact E1 |]. split; [exact E3 |]. exact (Hd false demo_cx 0 w').
Defined.

(** ** Signals and sleepers handled wrongly *)

(** The mask a frame holds is taken as it is, also one with [SIGKILL]. *)
Lemma sigreturn_mask_unchecked {T : Type} {HP : PageTable T} check_page_fault token st w m w1 r st' w' :
  must (load64 check_page_fault token
          (align8 (reg (st_cx st) R_SP +w SIGINFO_SIZE +w 7) +w UC_SIGMASK)) w = Some (m, w1) ->
  sys_sigreturn check_page_fault token st w = Some (r, st', w') -> st_mask st' = m.
Proof.
  intros E. unfold sys_sigreturn, mbind, option_bind. rewrite E. cbv beta iota zeta.
  destruct (must _ w1) as [[bs w2] |]; [| done]. by intros [= <- <- <-].
Qed.

(** The default action of [SIGSTOP] terminates. *)
Lemma sigstop_terminates {T : Type} {HP : PageTable T} check_page_fault token is_syscall cx base w :
  do_signal check_page_fault token is_syscall (mkST SIGSTOP 0 (replicate 64 None) cx base) w =
  Some (SigExitGroup 19, mkST 0 0 (replicate 64 None) cx base, w).
Proof. done. Qed.

(** [tgkill] looks the group up, not the thread: a signal for a thread other
    than the one the look-up finds is dropped, with success. *)
Lemma tgkill_drops_signal s n k sig signal p :
  from_signum sig = Ok signal -> find_task_by_tgid s n = Some (Some p) -> pid_of s p <> Some k ->
  sys_tgkill n k sig s = Some (0, s).
Proof.
  intros Hs Hf Hp. unfold sys_tgkill. rewrite Hs, Hf. cbn [mbind option_bind].
  by rewrite decide_False by done.
Qed.

(** A sleeper woken early brings the kernel down: [nanosleep] and [sigtimedwait],
    when no signal is pending, assert that the time is up. The entry a timed-out
    [FUTEX_WAIT] left behind lets another task wake such a sleeper
    ([stale_waiter_takes_wakeup]). *)
Lemma woken_sleeper_panics {T : Type} {HP : PageTable T} check_page_fault token set end_ rem info tick s w :
  pending_of s = Some 0 -> ts_le end_ (ts_now tick) = false ->
  nanosleep_resumed check_page_fault token end_ rem tick s w = None /\
  sigtimedwait_resumed check_page_fault token set end_ info tick s w = None.
Proof.
  intros Hp He. unfold nanosleep_resumed, sigtimedwait_resumed. rewrite Hp. cbn [mbind option_bind Z.eqb negb].
  by rewrite He.
Qed.
