(* ===== verification/Ext4Bitmap.v ===== *)
(** * ext4: bitmaps and checksums

    [fs/ext4/bitmap.rs] and [fs/ext4/crc.rs]: the bitmaps of used blocks and
    inodes, and the table-driven CRC32C that seals every piece of metadata.
    The search for a free bit is the first free bit where its callers use it;
    the table-driven checksum is polynomial division, bit by bit, and tells
    any two buffers apart that differ in one byte. *)

From S2P Require Import Prelude Address Phys.
#[local] Open Scope kernel_scope.

Abbreviation u32 := (fits 32).

(** ** Bitmaps *)

Definition ext4_bmap_is_bit_set (bmap : list Z) (bit : Z) : option bool :=
  b ← vec_get bmap (Z.shiftr bit 3);
  Some (negb (Z.land b (Z.shiftl 1 (Z.land bit 7)) =? 0)).
Definition ext4_bmap_is_bit_clr (bmap : list Z) (bit : Z) : option bool :=
  s ← ext4_bmap_is_bit_set bmap bit; Some (negb s).

Definition ext4_bmap_bit_set (bmap : list Z) (bit : Z) : option (list Z) :=
  b ← vec_get bmap (Z.shiftr bit 3);
  vec_set bmap (Z.shiftr bit 3) (Z.lor b (Z.shiftl 1 (Z.land bit 7))).
Definition ext4_bmap_bit_clr (bmap : list Z) (bit : Z) : option (list Z) :=
  b ← vec_get bmap (Z.shiftr bit 3);
  vec_set bmap (Z.shiftr bit 3) (Z.land b (Z.lxor (Z.shiftl 1 (Z.land bit 7)) 255)).

(** The loop up to a byte boundary: it ends with an answer (the [bit_id] of the
    caller, none for [false]), or goes on at a bit with a number of bits
    left. *)
Inductive head_end := HeadDone (r : option Z) | HeadGo (i bcnt : Z).

Fixpoint find_clr_head (fuel : nat) (bmap : list Z) (sbit i bcnt : Z) : option head_end :=
  match fuel with
  | O => None
  | S fuel =>
      if Z.land i 7 =? 0 then Some (HeadGo i bcnt)
      else if bcnt =? 0 then Some (HeadDone None)
      else
        c ← ext4_bmap_is_bit_clr bmap i;
        if (c : bool) then Some (HeadDone (Some sbit))
        else find_clr_head fuel bmap sbit (wrap32 (i + 1)) (bcnt - 1)
  end.

(** [for i in i..i + n]: the first clear one of [n] bits. *)
Fixpoint find_clr_scan (n : nat) (bmap : list Z) (sbit i : Z) : option (option Z) :=
  match n with
  | O => Some None
  | S n =>
      c ← ext4_bmap_is_bit_clr bmap i;
      if (c : bool) then Some (Some (wrap32 (sbit + i))) else find_clr_scan n bmap sbit (i + 1)
  end.

(** The loop over whole bytes, and the bits after them. *)
Fixpoint find_clr_bytes (bmap : list Z) (sbit bcnt : Z) : option (option Z) :=
  if 8 <=? bcnt then
    match bmap with
    | [] => None
    | b :: bmap' =>
        r ← (if negb (b =? 0xff) then find_clr_scan 8 bmap sbit 0 else Some None);
        match r with
        | Some k => Some (Some k)
        | None => find_clr_bytes bmap' (wrap32 (sbit + 8)) (bcnt - 8)
        end
    end
  else find_clr_scan (Z.to_nat bcnt) bmap sbit 0.

(** [Some k] is [true] with [bit_id] set to [k]. The loop to a byte boundary
    takes at most 7 rounds. *)
Definition ext4_bmap_bit_find_clr (bmap : list Z) (sbit ebit : Z) : option (option Z) :=
  h ← find_clr_head 9 bmap sbit sbit (wrap32 (ebit - sbit));
  match h with
  | HeadDone r => Some r
  | HeadGo i bcnt =>
      bmap ← slice bmap (Z.shiftr i 3) (vlen bmap);
      find_clr_bytes bmap i bcnt
  end.

(** [for bit in start_bit..=end_bit]. *)
Fixpoint bits_free_loop (n : nat) (bmap : list Z) (bit : Z) : option (list Z) :=
  match n with
  | O => Some bmap
  | S n => bmap ← ext4_bmap_bit_clr bmap bit; bits_free_loop n bmap (bit + 1)
  end.
Definition ext4_bmap_bits_free (bmap : list Z) (start_bit end_bit : Z) : option (list Z) :=
  bits_free_loop (Z.to_nat (end_bit - start_bit + 1)) bmap start_bit.

(** ** CRC32C *)

Definition CRC32C_TAB : list Z := [
   0x00000000; 0xF26B8303; 0xE13B70F7; 0x1350F3F4; 0xC79A971F; 0x35F1141C; 0x26A1E7E8; 0xD4CA64EB;
   0x8AD958CF; 0x78B2DBCC; 0x6BE22838; 0x9989AB3B; 0x4D43CFD0; 0xBF284CD3; 0xAC78BF27; 0x5E133C24;
   0x105EC76F; 0xE235446C; 0xF165B798; 0x030E349B; 0xD7C45070; 0x25AFD373; 0x36FF2087; 0xC494A384;
   0x9A879FA0; 0x68EC1CA3; 0x7BBCEF57; 0x89D76C54; 0x5D1D08BF; 0xAF768BBC; 0xBC267848; 0x4E4DFB4B;
   0x20BD8EDE; 0xD2D60DDD; 0xC186FE29; 0x33ED7D2A; 0xE72719C1; 0x154C9AC2; 0x061C6936; 0xF477EA35;
   0xAA64D611; 0x580F5512; 0x4B5FA6E6; 0xB93425E5; 0x6DFE410E; 0x9F95C20D; 0x8CC531F9; 0x7EAEB2FA;
   0x30E349B1; 0xC288CAB2; 0xD1D83946; 0x23B3BA45; 0xF779DEAE; 0x05125DAD; 0x1642AE59; 0xE4292D5A;
   0xBA3A117E; 0x4851927D; 0x5B016189; 0xA96AE28A; 0x7DA08661; 0x8FCB0562; 0x9C9BF696; 0x6EF07595;
   0x417B1DBC; 0xB3109EBF; 0xA0406D4B; 0x522BEE48; 0x86E18AA3; 0x748A09A0; 0x67DAFA54; 0x95B17957;
   0xCBA24573; 0x39C9C670; 0x2A993584; 0xD8F2B687; 0x0C38D26C; 0xFE53516F; 0xED03A29B; 0x1F682198;
   0x5125DAD3; 0xA34E59D0; 0xB01EAA24; 0x42752927; 0x96BF4DCC; 0x64D4CECF; 0x77843D3B; 0x85EFBE38;
   0xDBFC821C; 0x2997011F; 0x3AC7F2EB; 0xC8AC71E8; 0x1C661503; 0xEE0D9600; 0xFD5D65F4; 0x0F36E6F7;
   0x61C69362; 0x93AD1061; 0x80FDE395; 0x72966096; 0xA65C047D; 0x5437877E; 0x4767748A; 0xB50CF789;
   0xEB1FCBAD; 0x197448AE; 0x0A24BB5A; 0xF84F3859; 0x2C855CB2; 0xDEEEDFB1; 0xCDBE2C45; 0x3FD5AF46;
   0x7198540D; 0x83F3D70E; 0x90A324FA; 0x62C8A7F9; 0xB602C312; 0x44694011; 0x5739B3E5; 0xA55230E6;
   0xFB410CC2; 0x092A8FC1; 0x1A7A7C35; 0xE811FF36; 0x3CDB9BDD; 0xCEB018DE; 0xDDE0EB2A; 0x2F8B6829;
   0x82F63B78; 0x709DB87B; 0x63CD4B8F; 0x91A6C88C; 0x456CAC67; 0xB7072F64; 0xA457DC90; 0x563C5F93;
   0x082F63B7; 0xFA44E0B4; 0xE9141340; 0x1B7F9043; 0xCFB5F4A8; 0x3DDE77AB; 0x2E8E845F; 0xDCE5075C;
   0x92A8FC17; 0x60C37F14; 0x73938CE0; 0x81F80FE3; 0x55326B08; 0xA759E80B; 0xB4091BFF; 0x466298FC;
   0x1871A4D8; 0xEA1A27DB; 0xF94AD42F; 0x0B21572C; 0xDFEB33C7; 0x2D80B0C4; 0x3ED04330; 0xCCBBC033;
   0xA24BB5A6; 0x502036A5; 0x4370C551; 0xB11B4652; 0x65D122B9; 0x97BAA1BA; 0x84EA524E; 0x7681D14D;
   0x2892ED69; 0xDAF96E6A; 0xC9A99D9E; 0x3BC21E9D; 0xEF087A76; 0x1D63F975; 0x0E330A81; 0xFC588982;
   0xB21572C9; 0x407EF1CA; 0x532E023E; 0xA145813D; 0x758FE5D6; 0x87E466D5; 0x94B49521; 0x66DF1622;
   0x38CC2A06; 0xCAA7A905; 0xD9F75AF1; 0x2B9CD9F2; 0xFF56BD19; 0x0D3D3E1A; 0x1E6DCDEE; 0xEC064EED;
   0xC38D26C4; 0x31E6A5C7; 0x22B65633; 0xD0DDD530; 0x0417B1DB; 0xF67C32D8; 0xE52CC12C; 0x1747422F;
   0x49547E0B; 0xBB3FFD08; 0xA86F0EFC; 0x5A048DFF; 0x8ECEE914; 0x7CA56A17; 0x6FF599E3; 0x9D9E1AE0;
   0xD3D3E1AB; 0x21B862A8; 0x32E8915C; 0xC083125F; 0x144976B4; 0xE622F5B7; 0xF5720643; 0x07198540;
   0x590AB964; 0xAB613A67; 0xB831C993; 0x4A5A4A90; 0x9E902E7B; 0x6CFBAD78; 0x7FAB5E8C; 0x8DC0DD8F;
   0xE330A81A; 0x115B2B19; 0x020BD8ED; 0xF0605BEE; 0x24AA3F05; 0xD6C1BC06; 0xC5914FF2; 0x37FACCF1;
   0x69E9F0D5; 0x9B8273D6; 0x88D28022; 0x7AB90321; 0xAE7367CA; 0x5C18E4C9; 0x4F48173D; 0xBD23943E;
   0xF36E6F75; 0x0105EC76; 0x12551F82; 0xE03E9C81; 0x34F4F86A; 0xC69F7B69; 0xD5CF889D; 0x27A40B9E;
   0x79B737BA; 0x8BDCB4B9; 0x988C474D; 0x6AE7C44E; 0xBE2DA0A5; 0x4C4623A6; 0x5F16D052; 0xAD7D5351
].
Definition EXT4_CRC32_INIT : Z := 0xFFFFFFFF.

(** [crc32]: the buffer has to have [size] bytes. *)
Fixpoint crc32 (size : nat) (crc : Z) (buf tab : list Z) : option Z :=
  match size with
  | O => Some crc
  | S size =>
      b ← vec_get buf 0;
      t ← vec_get tab (Z.lxor (wrap8 crc) b);
      crc32 size (Z.lxor t (Z.shiftr crc 8)) (drop 1 buf) tab
  end.
Definition ext4_crc32c (crc : Z) (buf : list Z) (size : Z) : option Z :=
  crc32 (Z.to_nat size) crc buf CRC32C_TAB.

(** ** Bitmaps as sets *)

Implicit Types (bmap bs buf : list Z).

(** Bit [i] of a bitmap. *)
Definition bit_of (bmap : list Z) (i : Z) : bool :=
  Z.testbit (default 0 (bmap !! Z.to_nat (i / 8))) (i mod 8).

Lemma bit_index i : 0 <= i -> Z.shiftr i 3 = i / 8 /\ Z.land i 7 = i mod 8.
Proof.
  intros H. rewrite shiftr_div by lia. change 7 with (Z.ones 3). by rewrite land_ones_mod by lia.
Qed.

Lemma bit_byte bmap i :
  0 <= i < 8 * vlen bmap -> exists b, vec_get bmap (i / 8) = Some b /\ bmap !! Z.to_nat (i / 8) = Some b.
Proof.
  intros H. destruct (vec_get_is_Some bmap (i / 8)) as [b Hb]; [lia |].
  exists b. split; [done |]. by apply vec_get_Some in Hb as [_ ?].
Qed.

Lemma land_bit_zero b k : 0 <= k -> negb (Z.land b (Z.shiftl 1 k) =? 0) = Z.testbit b k.
Proof.
  intros Hk. rewrite Z.shiftl_1_l. destruct (Z.testbit b k) eqn:E.
  - apply negb_true_iff, Z.eqb_neq. intros H. apply (f_equal (fun z => Z.testbit z k)) in H.
    rewrite Z.land_spec, testbit_pow2, Z.eqb_refl, E, Z.bits_0 in H by done. done.
  - apply negb_false_iff, Z.eqb_eq. apply Z.bits_inj'. intros j Hj.
    rewrite Z.land_spec, testbit_pow2, Z.bits_0 by done.
    destruct (Z.eqb_spec j k) as [-> |]; [by rewrite E | apply andb_false_r].
Qed.

Lemma is_bit_set_ok bmap i :
  0 <= i < 8 * vlen bmap -> ext4_bmap_is_bit_set bmap i = Some (bit_of bmap i).
Proof.
  intros H. destruct (bit_index i) as [E1 E2]; [lia |]. destruct (bit_byte bmap i H) as (b & Hb & Hl).
  unfold ext4_bmap_is_bit_set, bit_of. rewrite E1, E2, Hb, Hl. cbn [mbind option_bind from_option id].
  by rewrite land_bit_zero by lia.
Qed.

Lemma is_bit_clr_ok bmap i :
  0 <= i < 8 * vlen bmap -> ext4_bmap_is_bit_clr bmap i = Some (negb (bit_of bmap i)).
Proof. intros H. unfold ext4_bmap_is_bit_clr. by rewrite is_bit_set_ok. Qed.

Lemma bytes_insert bs i b : bytes bs -> u8 b -> bytes (<[i := b]> bs).
Proof. intros. by apply Forall_insert. Qed.

Lemma bytes_lookup bs i b : bytes bs -> bs !! i = Some b -> u8 b.
Proof. intros H. by apply Forall_lookup_1. Qed.

(** Setting and clearing a bit change that bit only. *)
Lemma bit_set_ok bmap i :
  bytes bmap -> 0 <= i < 8 * vlen bmap ->
  exists bmap', ext4_bmap_bit_set bmap i = Some bmap' /\ bytes bmap' /\ length bmap' = length bmap /\
    forall j, 0 <= j -> bit_of bmap' j = (j =? i) || bit_of bmap j.
Proof.
  intros Hb H. destruct (bit_index i) as [E1 E2]; [lia |]. destruct (bit_byte bmap i H) as (b & Hg & Hl).
  unfold ext4_bmap_bit_set. rewrite E1, E2, Hg. cbn [mbind option_bind].
  eexists. split; [apply vec_set_Some; split; [lia | done] |].
  assert (Hu : u8 (Z.lor b (Z.shiftl 1 (i mod 8)))).
  { apply fits_lor; [done | by eapply bytes_lookup |]. rewrite Z.shiftl_1_l. split; [lia |].
    apply Z.pow_lt_mono_r; lia. }
  split; [by apply bytes_insert |]. split; [apply length_insert |]. intros j Hj.
  unfold bit_of. destruct (decide (j / 8 = i / 8)) as [E | E].
  - rewrite E, list_lookup_insert_eq by (unfold vlen in H; lia). rewrite Hl.
    cbn [from_option id]. rewrite Z.lor_spec, Z.shiftl_1_l, testbit_pow2 by lia.
    rewrite orb_comm. f_equal. destruct (Z.eqb_spec j i), (Z.eqb_spec (j mod 8) (i mod 8)); try done; lia.
  - rewrite list_lookup_insert_ne by lia. destruct (Z.eqb_spec j i); [subst; done | done].
Qed.

Lemma bit_clr_ok bmap i :
  bytes bmap -> 0 <= i < 8 * vlen bmap ->
  exists bmap', ext4_bmap_bit_clr bmap i = Some bmap' /\ bytes bmap' /\ length bmap' = length bmap /\
    forall j, 0 <= j -> bit_of bmap' j = negb (j =? i) && bit_of bmap j.
Proof.
  intros Hb H. destruct (bit_index i) as [E1 E2]; [lia |]. destruct (bit_byte bmap i H) as (b & Hg & Hl).
  unfold ext4_bmap_bit_clr. rewrite E1, E2, Hg. cbn [mbind option_bind].
  eexists. split; [apply vec_set_Some; split; [lia | done] |].
  split; [apply bytes_insert; [done |]; apply fits_land_l; [done |]; by eapply bytes_lookup |].
  split; [apply length_insert |]. intros j Hj.
  unfold bit_of. destruct (decide (j / 8 = i / 8)) as [E | E].
  - rewrite E, list_lookup_insert_eq by (unfold vlen in H; lia). rewrite Hl.
    cbn [from_option id]. rewrite Z.land_spec, Z.lxor_spec, Z.shiftl_1_l, testbit_pow2 by lia.
    change 255 with (Z.ones 8). rewrite testbit_ones by lia. rewrite (proj2 (Z.ltb_lt (j mod 8) 8)) by lia.
    rewrite andb_comm. f_equal.
    destruct (Z.eqb_spec j i), (Z.eqb_spec (j mod 8) (i mod 8)); try done; lia.
  - rewrite list_lookup_insert_ne by lia. destruct (Z.eqb_spec j i); [subst; done | done].
Qed.

(** ** The first free bit *)

(** [r] is the first [k] below [n] with [f k] false. *)
Definition first_clear (f : Z -> bool) (n : Z) (r : option Z) : Prop :=
  match r with
  | Some k => 0 <= k < n /\ f k = false /\ forall j, 0 <= j < k -> f j = true
  | None => forall j, 0 <= j < n -> f j = true
  end.

Lemma scan_ok n bmap sbit i :
  0 <= i -> 0 <= sbit -> i + Z.of_nat n <= 8 * vlen bmap -> sbit + i + Z.of_nat n < 2 ^ 32 ->
  exists r, find_clr_scan n bmap sbit i = Some ((fun k => sbit + (i + k)) <$> r) /\
    first_clear (fun k => bit_of bmap (i + k)) (Z.of_nat n) r.
Proof.
  revert i. induction n as [| n IH]; intros i Hi Hs Hl Hw.
  - exists None. split; [done |]. intros j Hj. lia.
  - cbn [find_clr_scan]. rewrite is_bit_clr_ok by lia. cbn [mbind option_bind].
    destruct (bit_of bmap i) eqn:E; cbn [negb].
    + destruct (IH (i + 1)) as (r & -> & Hr); [lia.. |]. exists ((fun k => 1 + k) <$> r).
      split; [destruct r as [k |]; [cbn; do 2 f_equal; lia | done] |].
      assert (Hj : forall j, 0 < j -> bit_of bmap (i + j) = bit_of bmap (i + 1 + (j - 1)))
        by (intros; f_equal; lia).
      destruct r as [k |]; cbn in *.
      * destruct Hr as (H1 & H2 & H3). split; [lia |].
        split; [rewrite Hj by lia; rewrite <- H2; f_equal; lia |].
        intros j Hjk. destruct (decide (j = 0)) as [-> |]; [by rewrite Z.add_0_r |].
        rewrite Hj by lia. apply H3. lia.
      * intros j Hjk. destruct (decide (j = 0)) as [-> |]; [by rewrite Z.add_0_r |].
        rewrite Hj by lia. apply Hr. lia.
    + exists (Some 0). split; [cbn; do 2 f_equal; rewrite wrapn_small by (unfold fits; lia); lia |].
      split; [lia |]. rewrite Z.add_0_r. split; [done | intros j Hj; lia].
Qed.

Lemma bit_of_cons b bmap j :
  0 <= j -> bit_of (b :: bmap) j = if j <? 8 then Z.testbit b j else bit_of bmap (j - 8).
Proof.
  intros Hj. unfold bit_of. destruct (Z.ltb_spec j 8).
  - rewrite Z.div_small, Z.mod_small by lia. done.
  - replace (Z.to_nat (j / 8)) with (S (Z.to_nat ((j - 8) / 8))) by lia. cbn [lookup list_lookup].
    f_equal. lia.
Qed.

Lemma byte_full j : 0 <= j < 8 -> Z.testbit 255 j = true.
Proof. intros H. change 255 with (Z.ones 8). rewrite testbit_ones by lia. apply Z.ltb_lt. lia. Qed.

(** The search over whole bytes. *)
Lemma find_bytes_ok bmap sbit bcnt :
  0 <= bcnt -> 0 <= sbit -> bcnt <= 8 * vlen bmap -> sbit + bcnt < 2 ^ 32 - 8 ->
  exists r, find_clr_bytes bmap sbit bcnt = Some ((fun k => sbit + k) <$> r) /\
    first_clear (bit_of bmap) bcnt r.
Proof.
  revert sbit bcnt. induction bmap as [| b bmap IH]; intros sbit bcnt H0 Hs Hl Hw.
  { unfold vlen in Hl. cbn [length] in Hl. assert (bcnt = 0) as -> by lia. exists None. split; [done |]. intros j Hj. lia. }
  cbn [find_clr_bytes]. destruct (Z.leb_spec 8 bcnt) as [H8 | H8].
  - assert (Hlen : vlen (b :: bmap) = 1 + vlen bmap) by (unfold vlen; cbn [length]; lia).
    assert (Hrest : (forall j, 0 <= j < 8 -> bit_of (b :: bmap) j = true) ->
      exists r, find_clr_bytes bmap (wrap32 (sbit + 8)) (bcnt - 8) = Some ((fun k => sbit + k) <$> r) /\
        first_clear (bit_of (b :: bmap)) bcnt r).
    { intros Hall. rewrite wrapn_small by (unfold fits; lia).
      destruct (IH (sbit + 8) (bcnt - 8)) as (r & -> & Hr); [lia.. |].
      exists ((fun k => 8 + k) <$> r). split; [destruct r as [k |]; [cbn; do 2 f_equal; lia | done] |].
      assert (Hj : forall j, 8 <= j -> bit_of (b :: bmap) j = bit_of bmap (j - 8)).
      { intros j Hj. rewrite bit_of_cons by lia. by rewrite (proj2 (Z.ltb_ge _ _)) by lia. }
      assert (Hlow : forall j, 0 <= j -> (8 <= j -> bit_of bmap (j - 8) = true) -> bit_of (b :: bmap) j = true).
      { intros j Hj0 Hb. destruct (decide (j < 8)); [apply Hall; lia | rewrite Hj by lia; apply Hb; lia]. }
      destruct r as [k |]; cbn in *.
      - destruct Hr as (H1 & H2 & H3). split; [lia |].
        split; [rewrite Hj by lia; rewrite <- H2; f_equal; lia |].
        intros j Hjk. apply Hlow; [lia |]. intros. apply H3. lia.
      - intros j Hjk. apply Hlow; [lia |]. intros. apply Hr. lia. }
    destruct (Z.eqb_spec b 255) as [-> | Hb]; cbn [negb mbind option_bind].
    + apply Hrest. intros j Hj. rewrite bit_of_cons by lia.
      rewrite (proj2 (Z.ltb_lt _ _)) by lia. by apply byte_full.
    + destruct (scan_ok 8 (b :: bmap) sbit 0) as (r & -> & Hr); [lia.. |].
      destruct r as [k |]; cbn [fmap option_fmap option_map mbind option_bind].
      * exists (Some k). split; [done |]. destruct Hr as (H1 & H2 & H3).
        split; [lia |]. split; [exact H2 | exact H3].
      * apply Hrest. intros j Hj. exact (Hr j ltac:(lia)).
  - destruct (scan_ok (Z.to_nat bcnt) (b :: bmap) sbit 0) as (r & -> & Hr); [lia.. |].
    rewrite Z2Nat.id in Hr by lia. exists r. split; [done | exact Hr].
Qed.

Definition ceil8 (i : Z) : Z := (i + 7) / 8 * 8.

(** The loop to the byte boundary, over bits that are set. *)
Lemma head_ok fuel bmap sbit i bcnt :
  0 <= i <= 2 ^ 32 - 8 -> 0 <= bcnt -> i + bcnt <= 8 * vlen bmap -> ceil8 i - i < Z.of_nat fuel ->
  (forall j, i <= j < Z.min (i + bcnt) (ceil8 i) -> bit_of bmap j = true) ->
  find_clr_head fuel bmap sbit i bcnt =
  Some (if ceil8 i - i <=? bcnt then HeadGo (ceil8 i) (bcnt - (ceil8 i - i)) else HeadDone None).
Proof.
  unfold ceil8. revert i bcnt. induction fuel as [| fuel IH]; intros i bcnt Hi Hb Hl Hf Hset; [lia |].
  cbn [find_clr_head]. destruct (bit_index i) as [_ ->]; [lia |].
  destruct (Z.eqb_spec (i mod 8) 0) as [H0 | H0].
  - rewrite (proj2 (Z.leb_le _ _)) by lia. do 2 f_equal; lia.
  - destruct (Z.eqb_spec bcnt 0) as [-> | Hn].
    + by rewrite (proj2 (Z.leb_gt _ _)) by lia.
    + rewrite is_bit_clr_ok by lia. rewrite Hset by lia. cbn [negb mbind option_bind].
      rewrite wrapn_small by (unfold fits; lia). rewrite IH; [| lia.. |].
      * replace ((i + 1 + 7) / 8 * 8) with ((i + 7) / 8 * 8) by lia.
        destruct (Z.leb_spec ((i + 7) / 8 * 8 - (i + 1)) (bcnt - 1)),
          (Z.leb_spec ((i + 7) / 8 * 8 - i) bcnt); try lia; [do 2 f_equal; lia | done].
      * intros j Hj. apply Hset. lia.
Qed.

Lemma bit_of_drop bmap i j :
  0 <= i -> 0 <= j -> i mod 8 = 0 -> bit_of (drop (Z.to_nat (i / 8)) bmap) j = bit_of bmap (i + j).
Proof.
  intros Hi Hj Hm. unfold bit_of. rewrite lookup_drop.
  replace (Z.to_nat (i / 8) + Z.to_nat (j / 8))%nat with (Z.to_nat ((i + j) / 8)) by lia.
  f_equal. lia.
Qed.

(** The search finds the first free bit of [sbit, ebit), when the bits before
    the next byte boundary are all taken. *)
Lemma find_clr_ok bmap sbit ebit :
  0 <= sbit <= ebit -> ebit <= 8 * vlen bmap -> ebit < 2 ^ 32 - 16 ->
  (forall j, sbit <= j < Z.min ebit (ceil8 sbit) -> bit_of bmap j = true) ->
  exists r, ext4_bmap_bit_find_clr bmap sbit ebit = Some ((fun k => sbit + k) <$> r) /\
    first_clear (fun k => bit_of bmap (sbit + k)) (ebit - sbit) r.
Proof.
  intros Hs Hl Hw Hset. unfold ext4_bmap_bit_find_clr.
  rewrite (wrapn_small 32 (ebit - sbit)) by (unfold fits; lia).
  rewrite head_ok; [| lia | lia | lia | unfold ceil8; lia |
    intros j Hj; apply Hset; lia]. cbn [mbind option_bind].
  destruct (Z.leb_spec (ceil8 sbit - sbit) (ebit - sbit)) as [Hc | Hc].
  - assert (H8 : ceil8 sbit mod 8 = 0) by (unfold ceil8; lia).
    assert (Hge : sbit <= ceil8 sbit <= ebit) by (unfold ceil8 in *; lia).
    destruct (bit_index (ceil8 sbit)) as [-> _]; [lia |].
    rewrite (proj2 (slice_Some bmap (ceil8 sbit / 8) (vlen bmap) (drop (Z.to_nat (ceil8 sbit / 8)) bmap)));
      [| split_and!; [lia | lia | lia |]; symmetry; apply take_ge; rewrite length_drop; unfold vlen; lia].
    cbn [mbind option_bind].
    destruct (find_bytes_ok (drop (Z.to_nat (ceil8 sbit / 8)) bmap) (ceil8 sbit)
                (ebit - sbit - (ceil8 sbit - sbit))) as (r & -> & Hr);
      [lia | lia | unfold vlen in *; rewrite length_drop; lia | lia |].
    exists ((fun k => ceil8 sbit - sbit + k) <$> r).
    split; [destruct r; [cbn; do 2 f_equal; lia | done] |].
    assert (Hj : forall j, 0 <= j -> bit_of (drop (Z.to_nat (ceil8 sbit / 8)) bmap) j =
                                     bit_of bmap (ceil8 sbit + j)) by (intros; apply bit_of_drop; lia).
    assert (Hlow : forall j, 0 <= j < ebit - sbit ->
        (ceil8 sbit <= sbit + j -> bit_of (drop (Z.to_nat (ceil8 sbit / 8)) bmap) (sbit + j - ceil8 sbit) = true) ->
        bit_of bmap (sbit + j) = true).
    { intros j Hj0 Hb. destruct (decide (sbit + j < ceil8 sbit)); [apply Hset; lia |].
      rewrite <- Hb, Hj by lia. f_equal. lia. }
    destruct r as [k |]; cbn in *.
    + destruct Hr as (H1 & H2 & H3). split; [lia |].
      split; [rewrite <- H2, Hj by lia; f_equal; lia |].
      intros j Hjk. apply Hlow; [lia |]. intros. apply H3. lia.
    + intros j Hjk. apply Hlow; [lia |]. intros. apply Hr. lia.
  - exists None. split; [done |]. intros j Hj. apply Hset. lia.
Qed.

(** Where one of them is free, the search answers with its start, taken or
    not: of the bits 1 to 7 of this byte only bit 3 is free. *)
Lemma find_clr_returns_taken_bit :
  ext4_bmap_bit_find_clr [0xf7] 1 8 = Some (Some 1) /\ bit_of [0xf7] 1 = true /\ bit_of [0xf7] 3 = false.
Proof. done. Qed.

(** ** CRC32C as polynomial division *)

(** One bit of the division by the reflected polynomial 0x1EDC6F41, and a
    byte. *)
Definition crc_bit (c : Z) : Z :=
  if Z.testbit c 0 then Z.lxor (Z.shiftr c 1) 0x82F63B78 else Z.shiftr c 1.
Definition crc_byte (c b : Z) : Z := Nat.iter 8 crc_bit (Z.lxor c b).

Lemma crc_bit_lxor a b : crc_bit (Z.lxor a b) = Z.lxor (crc_bit a) (crc_bit b).
Proof.
  unfold crc_bit. rewrite Z.lxor_spec, Z.shiftr_lxor.
  destruct (Z.testbit a 0), (Z.testbit b 0); cbn [xorb]; apply Z.bits_inj'; intros i Hi;
    rewrite ?Z.lxor_spec; repeat (destruct (Z.testbit _ i)); done.
Qed.

Lemma crc_bits_lxor n a b :
  Nat.iter n crc_bit (Z.lxor a b) = Z.lxor (Nat.iter n crc_bit a) (Nat.iter n crc_bit b).
Proof. induction n as [| n IH]; [done |]. cbn [Nat.iter nat_rect]. unfold Nat.iter in IH. by rewrite IH, crc_bit_lxor. Qed.

(** Eight steps on a multiple of 256 only shift. *)
Lemma crc_bits_shift n a :
  0 <= a -> Nat.iter n crc_bit (Z.shiftl a (Z.of_nat n)) = a.
Proof.
  revert a. induction n as [| n IH]; intros a Ha; [apply Z.shiftl_0_r |].
  rewrite Nat.iter_succ_r. assert (E : crc_bit (Z.shiftl a (Z.of_nat (S n))) = Z.shiftl a (Z.of_nat n)).
  { unfold crc_bit. rewrite Z.shiftl_spec by lia. rewrite Z.testbit_neg_r by lia.
    rewrite Z.shiftr_shiftl_l by lia. f_equal. lia. }
  rewrite E. by apply IH.
Qed.

Lemma tab_entry k : 0 <= k < 256 -> vec_get CRC32C_TAB k = Some (Nat.iter 8 crc_bit k).
Proof.
  assert (H : forallb (fun k => bool_decide (vec_get CRC32C_TAB k = Some (Nat.iter 8 crc_bit k)))
                (seqZ 0 256) = true) by (vm_compute; reflexivity).
  intros Hk. rewrite forallb_forall in H. specialize (H k).
  apply bool_decide_eq_true in H; [done |]. apply list_elem_of_In, elem_of_seqZ. lia.
Qed.

Lemma low_byte_split c : 0 <= c -> c = Z.lxor (c mod 256) (Z.shiftl (Z.shiftr c 8) 8).
Proof.
  intros Hc. apply Z.bits_inj'. intros i Hi. rewrite Z.lxor_spec, Z.shiftl_spec by done.
  change 256 with (2 ^ 8). destruct (decide (i < 8)).
  - rewrite Z.mod_pow2_bits_low, (Z.testbit_neg_r _ (i - 8)) by lia. by rewrite xorb_false_r.
  - rewrite Z.mod_pow2_bits_high, Z.shiftr_spec by lia. rewrite xorb_false_l. f_equal. lia.
Qed.

Lemma lxor_byte a b : u8 a -> u8 b -> 0 <= Z.lxor a b < 256.
Proof. intros. apply (fits_lxor 8); done. Qed.

(** A look-up in the table is a byte of the division. *)
Lemma crc_step c b :
  0 <= c -> u8 b ->
  exists t, vec_get CRC32C_TAB (Z.lxor (wrap8 c) b) = Some t /\
    Z.lxor t (Z.shiftr c 8) = crc_byte c b.
Proof.
  intros Hc Hb. assert (Hlow : u8 (wrap8 c)) by (by apply wrapn_bound).
  exists (Nat.iter 8 crc_bit (Z.lxor (wrap8 c) b)).
  split; [by apply tab_entry, lxor_byte |]. unfold crc_byte.
  assert (Hs : 0 <= Z.shiftr c 8) by (by apply Z.shiftr_nonneg).
  rewrite <- (crc_bits_shift 8 (Z.shiftr c 8) Hs) at 1. rewrite <- crc_bits_lxor.
  f_equal. rewrite (low_byte_split c Hc) at 3. change (Z.of_nat 8) with 8. unfold wrapn.
  change (2 ^ 8) with 256. apply Z.bits_inj'. intros i Hi. rewrite !Z.lxor_spec.
  destruct (Z.testbit _ i), (Z.testbit b i), (Z.testbit _ i); done.
Qed.

Lemma crc_bit_u32 c : u32 c -> u32 (crc_bit c).
Proof.
  intros Hc. unfold crc_bit. assert (u32 (Z.shiftr c 1)).
  { rewrite shiftr_div by lia. unfold fits in *. change (2 ^ 1) with 2. lia. }
  destruct (Z.testbit c 0); [| done]. by apply fits_lxor.
Qed.

Lemma crc_bits_u32 n c : u32 c -> u32 (Nat.iter n crc_bit c).
Proof. intros H. induction n as [| n IH]; [done |]. by apply crc_bit_u32. Qed.

Lemma u8_u32 b : u8 b -> u32 b.
Proof. unfold fits. lia. Qed.

Lemma crc_byte_u32 c b : u32 c -> u8 b -> u32 (crc_byte c b).
Proof. intros Hc Hb. apply crc_bits_u32, fits_lxor; [done | done | by apply u8_u32]. Qed.

Lemma crc32c_ok buf c size :
  u32 c -> bytes buf -> 0 <= size <= vlen buf ->
  ext4_crc32c c buf size = Some (foldl crc_byte c (take (Z.to_nat size) buf)) /\
  u32 (foldl crc_byte c (take (Z.to_nat size) buf)).
Proof.
  intros Hc Hb Hs. unfold ext4_crc32c. assert (Hn : (Z.to_nat size <= length buf)%nat) by (unfold vlen in Hs; lia).
  clear Hs. revert buf c Hc Hb Hn. induction (Z.to_nat size) as [| n IH]; intros buf c Hc Hb Hn; [done |].
  destruct buf as [| b buf]; [cbn in Hn; lia |]. inversion Hb as [| ? ? Hb0 Hb']; subst.
  destruct (crc_step c b) as (t & Ht & E); [apply Hc | done |].
  cbn [crc32]. change (vec_get (b :: buf) 0) with (Some b). cbn [mbind option_bind].
  rewrite Ht. cbn [mbind option_bind drop take foldl]. rewrite E.
  apply IH; [by apply crc_byte_u32 | done | cbn in Hn; lia].
Qed.

(** The steps lose nothing. *)
Lemma crc_bit_inj a b : u32 a -> u32 b -> crc_bit a = crc_bit b -> a = b.
Proof.
  intros Ha Hb H. assert (Htop : forall c, u32 c -> Z.testbit (crc_bit c) 31 = Z.testbit c 0).
  { intros c Hc. unfold crc_bit. assert (Hz : Z.testbit (Z.shiftr c 1) 31 = false).
    { rewrite Z.shiftr_spec by lia. apply (fits_testbit_high 32); [done | done | lia]. }
    destruct (Z.testbit c 0); [| done]. rewrite Z.lxor_spec, Hz. done. }
  assert (H0 : Z.testbit a 0 = Z.testbit b 0) by (rewrite <- !Htop, H by done; done).
  assert (Hs : Z.shiftr a 1 = Z.shiftr b 1).
  { unfold crc_bit in H. rewrite H0 in H. destruct (Z.testbit b 0); [| done].
    apply (f_equal (fun z => Z.lxor z 0x82F63B78)) in H.
    by rewrite !Z.lxor_assoc, Z.lxor_nilpotent, !Z.lxor_0_r in H. }
  rewrite !shiftr_div in Hs by lia.
  rewrite !Z.bit0_odd in H0. change (2 ^ 1) with 2 in Hs.
  destruct (Z.odd a) eqn:Oa; symmetry in H0.
  - apply Z.odd_spec in Oa as [m ->]. apply Z.odd_spec in H0 as [m' ->]. lia.
  - rewrite <- Z.negb_even in Oa, H0. apply negb_false_iff, Z.even_spec in Oa as [m ->].
    apply negb_false_iff, Z.even_spec in H0 as [m' ->]. lia.
Qed.

Lemma crc_bits_inj n a b :
  u32 a -> u32 b -> Nat.iter n crc_bit a = Nat.iter n crc_bit b -> a = b.
Proof.
  intros Ha Hb. induction n as [| n IH]; [done |]. cbn [Nat.iter nat_rect]. intros H.
  apply IH. apply crc_bit_inj; [by apply (crc_bits_u32 n) | by apply (crc_bits_u32 n) | exact H].
Qed.

Lemma lxor_cancel a b c : Z.lxor a c = Z.lxor b c -> a = b.
Proof.
  intros H. apply (f_equal (fun z => Z.lxor z c)) in H.
  by rewrite !Z.lxor_assoc, Z.lxor_nilpotent, !Z.lxor_0_r in H.
Qed.

Lemma crc_byte_inj_l a c b : u32 a -> u32 c -> u8 b -> crc_byte a b = crc_byte c b -> a = c.
Proof.
  intros Ha Hc Hb H. apply (lxor_cancel _ _ b). apply crc_bits_inj in H; [done | |];
    apply fits_lxor; try done; by apply u8_u32.
Qed.

Lemma crc_byte_inj_r c a b : u32 c -> u8 a -> u8 b -> crc_byte c a = crc_byte c b -> a = b.
Proof.
  intros Hc Ha Hb H. apply (lxor_cancel _ _ c). rewrite !(Z.lxor_comm _ c).
  apply crc_bits_inj in H; [done | |]; apply fits_lxor; try done; by apply u8_u32.
Qed.

Lemma crc_foldl_u32 bs c : u32 c -> bytes bs -> u32 (foldl crc_byte c bs).
Proof.
  revert c. induction bs as [| b bs IH]; intros c Hc Hb; [done |]. inversion Hb; subst.
  cbn [foldl]. apply IH; [by apply crc_byte_u32 | done].
Qed.

Lemma crc_foldl_inj bs a c :
  u32 a -> u32 c -> bytes bs -> foldl crc_byte a bs = foldl crc_byte c bs -> a = c.
Proof.
  revert a c. induction bs as [| b bs IH]; intros a c Ha Hc Hb H; [done |]. inversion Hb; subst.
  cbn [foldl] in H. apply IH in H; [| by apply crc_byte_u32 | by apply crc_byte_u32 | done].
  by apply crc_byte_inj_l in H.
Qed.

(** The checksum is CRC32C. For every buffer the table-driven [ext4_crc32c]
    returns, with no look-up out of range, what the division of the buffer by
    the reflected Castagnoli polynomial leaves, bit by bit; so a checksum
    computed in pieces is that of the pieces put together; and two buffers that
    differ in exactly one byte never have the same checksum. *)
Theorem crc32c_divides_and_detects crc buf (Hc : u32 crc) (Hb : bytes buf) :
  ext4_crc32c crc buf (vlen buf) = Some (foldl crc_byte crc buf) /\
  (forall n, 0 <= n <= vlen buf ->
     (c ← ext4_crc32c crc (take (Z.to_nat n) buf) n;
      ext4_crc32c c (drop (Z.to_nat n) buf) (vlen buf - n)) = ext4_crc32c crc buf (vlen buf)) /\
  (forall i b b', buf !! i = Some b -> u8 b' -> b' <> b ->
     ext4_crc32c crc (<[i := b']> buf) (vlen buf) <> ext4_crc32c crc buf (vlen buf)).
Proof.
  assert (Hall : forall buf c, u32 c -> bytes buf ->
      ext4_crc32c c buf (vlen buf) = Some (foldl crc_byte c buf)).
  { intros bs c Hc' Hb'. rewrite (proj1 (crc32c_ok bs c (vlen bs) Hc' Hb' ltac:(unfold vlen; lia))).
    by rewrite take_ge by (unfold vlen; lia). }
  split; [by apply Hall |]. split.
  - intros n Hn. destruct (crc32c_ok (take (Z.to_nat n) buf) crc n) as [E Hu];
      [done | by apply Forall_take | unfold vlen in *; rewrite length_take; lia |].
    rewrite take_take, Nat.min_id in E, Hu. rewrite E. cbn [mbind option_bind].
    replace (vlen buf - n) with (vlen (drop (Z.to_nat n) buf)) by (unfold vlen in *; rewrite length_drop; lia).
    rewrite Hall by (done || by apply Forall_drop). rewrite Hall by done. f_equal.
    rewrite <- foldl_app. by rewrite take_drop.
  - intros i b b' Hi Hb' Hne. pose proof (Forall_lookup_1 _ _ _ _ Hb Hi) as Hb0.
    replace (vlen buf) with (vlen (<[i := b']> buf)) at 1 by (unfold vlen; by rewrite length_insert).
    rewrite !Hall by (done || by apply bytes_insert). intros [= H]. apply Hne.
    pose proof (lookup_lt_Some _ _ _ Hi) as Hlt. rewrite insert_take_drop in H by done.
    rewrite <- (take_drop_middle buf i b Hi) in H at 3. rewrite !foldl_app in H. cbn [foldl] in H.
    assert (Hpre : u32 (foldl crc_byte crc (take i buf))) by (by apply crc_foldl_u32, Forall_take).
    apply crc_foldl_inj in H; [| by apply crc_byte_u32 | by apply crc_byte_u32 | by apply Forall_drop].
    by apply crc_byte_inj_r in H.
Qed.

Lemma crc32c_divides_and_detects_witness :
  ext4_crc32c EXT4_CRC32_INIT [49; 50; 51; 52; 53; 54; 55; 56; 57] 9 = Some (Z.lxor 0xE3069283 0xFFFFFFFF) /\
  ext4_crc32c EXT4_CRC32_INIT [49; 50; 51; 52; 53; 54; 55; 56; 57] 9 =
    Some (foldl crc_byte EXT4_CRC32_INIT [49; 50; 51; 52; 53; 54; 55; 56; 57]).
Proof.
  assert (Hc : u32 EXT4_CRC32_INIT) by done.
  assert (Hb : bytes [49; 50; 51; 52; 53; 54; 55; 56; 57]) by (by repeat constructor).
  split; [by vm_compute |].
  exact (proj1 (crc32c_divides_and_detects EXT4_CRC32_INIT _ Hc Hb)).
Defined.
