(* ===== verification/Ext4Disk.v ===== *)
(** * ext4: metadata on disk

    The superblock, the block-group descriptors and the inodes of
    [fs/ext4/superblock.rs], [fs/ext4/block_group.rs] and
    [fs/ext4/ext4_inode.rs]: where they lie, how they are read, sealed with
    checksums and written back. A [repr(C)] structure is its bytes, a field the
    little-endian value at its offset. [GLOBAL_BLOCK_SIZE] is the block size of
    the mounted file system. *)

From S2P Require Import Prelude Address Phys Block BlockCache Fat Efs Ext4Bitmap.
#[local] Open Scope kernel_scope.

(** A field of [n] bytes at [off], written. *)
Definition put_field (bs : list Z) (off n : nat) (v : Z) : list Z :=
  splice bs (Z.of_nat off) (le_split n v).

(** ** The superblock: 1024 bytes *)

Definition SUPERBLOCK_OFFSET : Z := 1024.

Definition sb_inodes_count (sb : list Z) : Z := field sb 0 4.
Definition sb_first_data_block (sb : list Z) : Z := field sb 20 4.
Definition sb_log_block_size (sb : list Z) : Z := field sb 24 4.
Definition sb_blocks_per_group (sb : list Z) : Z := field sb 32 4.
Definition sb_inodes_per_group (sb : list Z) : Z := field sb 40 4.
Definition sb_inode_size (sb : list Z) : Z := field sb 88 2.
Definition sb_features_read_only (sb : list Z) : Z := field sb 100 4.
Definition sb_uuid (sb : list Z) : list Z := field_bytes sb 104 16.
Definition sb_desc_size (sb : list Z) : Z := field sb 254 2.

(** [block_size]: a shift of the [u32] 1024, by the low five bits. *)
Definition block_size_of (sb : list Z) : Z :=
  wrap32 (Z.shiftl 1024 (sb_log_block_size sb mod 32)).

Definition block_group_count (sb : list Z) : option Z :=
  let blocks_count := Z.lor (Z.shiftl (field sb 336 4) 32) (field sb 4 4) in
  let per := sb_blocks_per_group sb in
  if per =? 0 then None
  else Some (wrap32 (if negb (blocks_count mod per =? 0) then blocks_count / per + 1
                     else blocks_count / per)).

Definition EXT4_MIN_BLOCK_GROUP_DESCRIPTOR_SIZE : Z := 32.
Definition EXT4_MAX_BLOCK_GROUP_DESCRIPTOR_SIZE : Z := 64.
(** The method, which is not the field. *)
Definition desc_size (sb : list Z) : Z :=
  if sb_desc_size sb <? EXT4_MIN_BLOCK_GROUP_DESCRIPTOR_SIZE
  then EXT4_MIN_BLOCK_GROUP_DESCRIPTOR_SIZE else sb_desc_size sb.

Definition get_inodes_in_group_cnt (sb : list Z) (bgid : Z) : option Z :=
  n ← block_group_count sb;
  Some (if bgid <? wrap32 (n - 1) then sb_inodes_per_group sb
        else wrap32 (sb_inodes_count sb - wrap32 (wrap32 (n - 1) * sb_inodes_per_group sb))).

Definition free_inodes_count (sb : list Z) : Z := field sb 16 4.
Definition decrease_free_inodes_count (sb : list Z) : list Z :=
  put_field sb 16 4 (wrap32 (free_inodes_count sb - 1)).
Definition free_blocks_count (sb : list Z) : Z :=
  Z.lor (field sb 12 4) (Z.shiftl (field sb 344 4) 32).
Definition set_free_blocks_count (sb : list Z) (n : Z) : list Z :=
  put_field (put_field sb 12 4 (Z.land n 0xffffffff)) 344 4 (wrap32 (Z.shiftr n 32)).

Definition ext4_balloc_bitmap_csum (sb bitmap : list Z) : option Z :=
  csum ← ext4_crc32c EXT4_CRC32_INIT (sb_uuid sb) 16;
  ext4_crc32c csum bitmap (sb_blocks_per_group sb / 8).
Definition ext4_ialloc_bitmap_csum (sb bitmap : list Z) : option Z :=
  csum ← ext4_crc32c EXT4_CRC32_INIT (sb_uuid sb) 16;
  ext4_crc32c csum bitmap (wrap32 (sb_inodes_per_group sb + 7) / 8).

(** ** A block-group descriptor: 64 bytes *)

Definition GROUP_SIZE : Z := 64.

Definition get_block_bitmap_block (bg sb : list Z) : Z :=
  if EXT4_MIN_BLOCK_GROUP_DESCRIPTOR_SIZE <? sb_desc_size sb
  then Z.lor (field bg 0 4) (Z.shiftl (field bg 32 4) 32) else field bg 0 4.
Definition get_inode_bitmap_block (bg sb : list Z) : Z :=
  if EXT4_MIN_BLOCK_GROUP_DESCRIPTOR_SIZE <? sb_desc_size sb
  then Z.lor (field bg 4 4) (Z.shiftl (field bg 36 4) 32) else field bg 4 4.

(** The upper half of a count is shifted by 32 and cut off again. *)
Definition lo_hi (lo hi : Z) : Z := Z.lor (wrap32 (Z.shiftl hi 32)) lo.
Definition get_itable_unused (bg sb : list Z) : Z :=
  if EXT4_MIN_BLOCK_GROUP_DESCRIPTOR_SIZE <? desc_size sb
  then lo_hi (field bg 28 2) (field bg 50 2) else field bg 28 2.
Definition get_used_dirs_count (bg sb : list Z) : Z :=
  if EXT4_MIN_BLOCK_GROUP_DESCRIPTOR_SIZE <? desc_size sb
  then lo_hi (field bg 16 2) (field bg 48 2) else field bg 16 2.
Definition get_free_inodes_count (bg : list Z) : Z := lo_hi (field bg 14 2) (field bg 46 2).
Definition get_inode_table_blk_num (bg : list Z) : Z := lo_hi (field bg 8 4) (field bg 40 4).
Definition get_free_blocks_count (bg : list Z) : Z :=
  if negb (field bg 44 2 =? 0) then Z.lor (field bg 12 2) (Z.shiftl (field bg 44 2) 32)
  else field bg 12 2.

(** The halves of a count at [lo] and, in a large descriptor, at [hi]. *)
Definition put_count (bg : list Z) (large : bool) (lo hi : nat) (cnt : Z) : list Z :=
  let bg := put_field bg lo 2 (Z.land cnt 0xffff) in
  if large then put_field bg hi 2 (wrap16 (Z.shiftr cnt 16)) else bg.
Definition large_desc (sb : list Z) : bool := EXT4_MIN_BLOCK_GROUP_DESCRIPTOR_SIZE <? desc_size sb.
(** This one writes the fields of [set_itable_unused]. *)
Definition set_used_dirs_count (bg sb : list Z) (cnt : Z) : list Z :=
  put_count bg (large_desc sb) 28 50 cnt.
Definition set_itable_unused (bg sb : list Z) (cnt : Z) : list Z :=
  put_count bg (large_desc sb) 28 50 cnt.
Definition set_free_inodes_count (bg sb : list Z) (cnt : Z) : list Z :=
  put_count bg (large_desc sb) 14 46 cnt.
Definition bg_set_free_blocks_count (bg : list Z) (cnt : Z) : list Z := put_count bg true 12 44 cnt.

Definition put_csum (bg sb : list Z) (lo hi : nat) (csum : Z) : list Z :=
  if Z.shiftr (Z.land (sb_features_read_only sb) 0x400) 10 =? 0 then bg
  else
    let bg := put_field bg lo 2 (Z.land csum 0xffff) in
    if desc_size sb =? EXT4_MAX_BLOCK_GROUP_DESCRIPTOR_SIZE
    then put_field bg hi 2 (wrap16 (Z.shiftr csum 16)) else bg.
Definition set_block_group_balloc_bitmap_csum (bg sb bitmap : list Z) : option (list Z) :=
  csum ← ext4_balloc_bitmap_csum sb bitmap; Some (put_csum bg sb 24 56 csum).
Definition set_block_group_ialloc_bitmap_csum (bg sb bitmap : list Z) : option (list Z) :=
  csum ← ext4_ialloc_bitmap_csum sb bitmap; Some (put_csum bg sb 26 58 csum).

Definition get_block_group_checksum (bg sb : list Z) (bgid : Z) : option Z :=
  csum ← ext4_crc32c EXT4_CRC32_INIT (sb_uuid sb) 16;
  csum ← ext4_crc32c csum (le_split 4 bgid) 4;
  csum ← ext4_crc32c csum (put_field bg 30 2 0) (desc_size sb);
  Some (Z.land csum 0xffff).
Definition set_block_group_checksum (bg sb : list Z) (bgid : Z) : option (list Z) :=
  csum ← get_block_group_checksum bg sb (wrap32 bgid); Some (put_field bg 30 2 csum).

(** ** An inode: 156 bytes *)

Definition INODE_BYTES : Z := 156.
Record Ext4InodeRef := mkInodeRef { inode_num : Z; inode : list Z }.

Definition inode_size (i : list Z) : Z := Z.lor (field i 4 4) (Z.shiftl (field i 108 4) 32).
Definition set_size (i : list Z) (n : Z) : list Z :=
  put_field (put_field i 4 4 (Z.land n 0xffffffff)) 108 4 (wrap32 (Z.shiftr n 32)).
Definition blocks_count (i : list Z) : Z :=
  if negb (field i 116 2 =? 0) then Z.lor (field i 28 4) (Z.shiftl (field i 116 2) 32)
  else field i 28 4.
Definition set_blocks_count (i : list Z) (n : Z) : list Z :=
  put_field (put_field i 28 4 (Z.land n 0xffffffff)) 116 2 (wrap16 (Z.shiftr n 32)).

Definition set_inode_checksum_value (i sb : list Z) (csum : Z) : list Z :=
  let i := put_field i 124 2 (Z.land csum 0xffff) in
  if 128 <? sb_inode_size sb then put_field i 130 2 (wrap16 (Z.shiftr csum 16)) else i.

(** The checksum, and the inode it leaves behind: over the 256 bytes the inode
    is copied into. *)
Definition get_inode_checksum (i sb : list Z) (num : Z) : option (Z * list Z) :=
  let i := put_field (put_field i 124 2 0) 130 2 0 in
  csum ← ext4_crc32c EXT4_CRC32_INIT (sb_uuid sb) 16;
  csum ← ext4_crc32c csum (le_split 4 num) 4;
  csum ← ext4_crc32c csum (le_split 4 (field i 100 4)) 4;
  csum ← ext4_crc32c csum (i ++ replicate 100 0) (sb_inode_size sb);
  let i := set_inode_checksum_value i sb csum in
  Some (if sb_inode_size sb =? 128 then Z.land csum 0xffff else csum, i).
Definition set_inode_checksum (i sb : list Z) (num : Z) : option (list Z) :=
  '(csum, i) ← get_inode_checksum i sb num;
  Some (set_inode_checksum_value i sb csum).

(** ** Reading and writing them *)

(** What the operations read of [Ext4FileSystem]: the superblock as it was when
    the file system was opened, which [&self] never changes, and the size of a
    block. *)
Record Ext4FileSystem := mkExt4 { superblock : list Z; block_size : Z }.

Section disk.
Context {D : Type} `{!BlockDevice D}.

(** [Block::load_offset], and [read_offset_as]: a read past the end of the
    buffer is undefined. *)
Definition load_offset (d : D) (offset : Z) : option (list Z) := read_block d (offset / BLOCK_SZ) BLOCK_SZ.
Definition read_offset_as (data : list Z) (offset n : Z) : option (list Z) :=
  slice data (offset mod BLOCK_SZ) (offset mod BLOCK_SZ + n).

Definition open_ext4rs (d : D) : option Ext4FileSystem :=
  data ← read_block d 0 BLOCK_SZ;
  sb ← read_offset_as data SUPERBLOCK_OFFSET 1024;
  Some (mkExt4 sb (block_size_of sb)).

(** The block of a descriptor, and its offset there. *)
Definition group_place (fs : Ext4FileSystem) (idx : Z) : option (Z * Z) :=
  let desc := sb_desc_size (superblock fs) in
  if desc =? 0 then None
  else
    let dsc_cnt := block_size fs / desc in
    if dsc_cnt =? 0 then None
    else Some (sb_first_data_block (superblock fs) + idx / dsc_cnt + 1, (idx mod dsc_cnt) * desc).
Definition load_new (fs : Ext4FileSystem) (d : D) (idx : Z) : option (list Z) :=
  '(block_id, offset) ← group_place fs idx;
  data ← load_offset d (block_id *w block_size fs);
  read_offset_as data offset GROUP_SIZE.

Definition sync_block_group_to_disk (fs : Ext4FileSystem) (bg : list Z) (d : D) (bgid : Z) : option D :=
  '(block_id, offset) ← group_place fs bgid;
  if block_size fs <=? offset + vlen bg then None
  else
    data ← read_block d block_id BLOCK_SZ;
    data ← copy_slice data offset (offset + vlen bg) bg;
    write_block d block_id data.
Definition bg_sync_to_disk_with_csum (fs : Ext4FileSystem) (bg : list Z) (d : D) (bgid : Z)
    : option (list Z * D) :=
  bg ← set_block_group_checksum bg (superblock fs) bgid;
  d ← sync_block_group_to_disk fs bg d bgid;
  Some (bg, d).

Definition sb_sync_to_disk_with_csum (sb : list Z) (d : D) : option (list Z * D) :=
  csum ← ext4_crc32c EXT4_CRC32_INIT sb 0x3fc;
  let sb := put_field sb 1020 4 csum in
  data ← read_block d (SUPERBLOCK_OFFSET / BLOCK_SZ) BLOCK_SZ;
  data ← copy_slice data 1024 2048 sb;
  d ← write_block d (SUPERBLOCK_OFFSET / BLOCK_SZ) data;
  Some (sb, d).

Definition inode_disk_pos (fs : Ext4FileSystem) (d : D) (num : Z) : option Z :=
  let per := sb_inodes_per_group (superblock fs) in
  if per =? 0 then None
  else
    let n := wrap32 (num - 1) in
    bg ← load_new fs d (n / per);
    Some (get_inode_table_blk_num bg *w block_size fs +w n mod per *w sb_inode_size (superblock fs)).
Definition get_inode_ref (fs : Ext4FileSystem) (d : D) (num : Z) : option Ext4InodeRef :=
  offset ← inode_disk_pos fs d num;
  data ← load_offset d offset;
  i ← read_offset_as data (offset mod block_size fs) INODE_BYTES;
  Some (mkInodeRef num i).

Definition sync_inode_to_disk (fs : Ext4FileSystem) (i : list Z) (d : D) (pos : Z) : option D :=
  let block_id := pos / block_size fs in
  let offset := pos mod block_size fs in
  data ← read_block d block_id (block_size fs);
  if block_size fs <? offset + vlen i then None
  else
    data ← copy_slice data offset (offset + vlen i) i;
    write_block d block_id data.
Definition write_back_inode (fs : Ext4FileSystem) (r : Ext4InodeRef) (d : D)
    : option (Ext4InodeRef * D) :=
  pos ← inode_disk_pos fs d (inode_num r);
  i ← set_inode_checksum (inode r) (superblock fs) (inode_num r);
  d ← sync_inode_to_disk fs i d pos;
  Some (mkInodeRef (inode_num r) i, d).
End disk.
