(* ===== verification/Ext4Alloc.v ===== *)
(** * ext4: allocation of blocks and inodes

    [fs/ext4/balloc.rs] and [fs/ext4/ialloc.rs], over the metadata of
    [Ext4Disk]. The file system is [fs], the device [d]; an inode reference is
    passed and returned as the code changes it. An error is the positive number
    of [fs/ext4/error.rs]. *)

From S2P Require Import Prelude Address Phys Block BlockCache Fat Efs.
From S2P Require Import Ext4Bitmap Ext4Disk.
#[local] Open Scope kernel_scope.

Definition ENOSPC : Z := 28.

(** ** Block numbers and groups *)

Definition get_bgid_of_block (sb : list Z) (baddr : Z) : option Z :=
  let per := sb_blocks_per_group sb in
  let baddr := if negb (sb_first_data_block sb =? 0) && negb (baddr =? 0) then baddr - 1 else baddr in
  if per =? 0 then None else Some (wrap32 (baddr / per)).
Definition get_block_of_bgid (sb : list Z) (bgid : Z) : Z :=
  (if negb (sb_first_data_block sb =? 0) then 1 else 0) + bgid * sb_blocks_per_group sb.
Definition addr_to_idx_bg (sb : list Z) (baddr : Z) : option Z :=
  let per := sb_blocks_per_group sb in
  let baddr := if negb (sb_first_data_block sb =? 0) && negb (baddr =? 0) then baddr - 1 else baddr in
  if per =? 0 then None else Some (wrap32 (baddr mod per)).
Definition bg_idx_to_addr (sb : list Z) (index bgid : Z) : Z :=
  let index := if negb (sb_first_data_block sb =? 0) then wrap32 (index + 1) else index in
  sb_blocks_per_group sb * bgid + index.

Definition get_bgid_of_inode (sb : list Z) (num : Z) : option Z :=
  if sb_inodes_per_group sb =? 0 then None else Some (num / sb_inodes_per_group sb).
Definition inode_to_bgidx (sb : list Z) (num : Z) : option Z :=
  if sb_inodes_per_group sb =? 0 then None else Some (num mod sb_inodes_per_group sb).

Section alloc.
Context {D : Type} `{!BlockDevice D}.
Context (fs : Ext4FileSystem).

(** What is counted in an inode: [block_size / inode_size] per block. *)
Definition inode_blocks_unit : option Z :=
  if sb_inode_size (superblock fs) =? 0 then None
  else Some (block_size fs / sb_inode_size (superblock fs)).

(** ** Blocks *)

Definition update_free_block_counts (r : Ext4InodeRef) (bg : list Z) (bgid : Z) (d : D)
    : option (Ext4InodeRef * D) :=
  let sb := superblock fs in
  let sb := set_free_blocks_count sb (free_blocks_count sb -w 1) in
  '(_, d) ← sb_sync_to_disk_with_csum sb d;
  u ← inode_blocks_unit;
  let i := set_blocks_count (inode r) (blocks_count (inode r) +w u) in
  '(r, d) ← write_back_inode fs (mkInodeRef (inode_num r) i) d;
  let bg := bg_set_free_blocks_count bg (wrap32 (get_free_blocks_count bg -w 1)) in
  '(_, d) ← bg_sync_to_disk_with_csum fs bg d bgid;
  Some (r, d).

(** Bit [idx] of the bitmap [data] of group [bgid] is taken: the steps the three
    ways to find it share. *)
Definition take_block (r : Ext4InodeRef) (bg data : list Z) (bmp_blk_adr bgid idx : Z) (d : D)
    : option (result Z Z * Ext4InodeRef * D) :=
  data ← ext4_bmap_bit_set data idx;
  bg ← set_block_group_balloc_bitmap_csum bg (superblock fs) data;
  d ← write_block d bmp_blk_adr data;
  let alloc := bg_idx_to_addr (superblock fs) idx bgid in
  '(r, d) ← update_free_block_counts r bg bgid d;
  Some (Ok alloc, r, d).

(** [for tmp_idx in idx..end_idx], the first free one. *)
Fixpoint near_loop (n : nat) (data : list Z) (idx : Z) : option (option Z) :=
  match n with
  | O => Some None
  | S n =>
      c ← ext4_bmap_is_bit_clr data idx;
      if (c : bool) then Some (Some idx) else near_loop n data (idx + 1)
  end.

(** The free bit of a group: the goal, one near it, or any after it. *)
Definition find_in_group (data : list Z) (idx blk_in_bg : Z) : option (option Z) :=
  c ← ext4_bmap_is_bit_clr data idx;
  if (c : bool) then Some (Some idx)
  else
    let end_idx := Z.min (Z.land (wrap32 (idx + 63)) (Z.lxor 63 (Z.ones 32))) blk_in_bg in
    near ← near_loop (Z.to_nat (end_idx - (idx + 1))) data (idx + 1);
    match near with
    | Some k => Some (Some k)
    | None => ext4_bmap_bit_find_clr data idx blk_in_bg
    end.

(** The [while count > 0] of both allocation functions; the third component is
    the group at the end. *)
Fixpoint balloc_loop (count : nat) (groups bgid idx : Z) (r : Ext4InodeRef) (d : D)
    : option (result Z Z * Z * Ext4InodeRef * D) :=
  match count with
  | O => Some (Err ENOSPC, bgid, r, d)
  | S count =>
      bg ← load_new fs d bgid;
      if get_free_blocks_count bg =? 0 then
        balloc_loop count groups (wrap32 (bgid + 1) mod groups) idx r d
      else
        first ← addr_to_idx_bg (superblock fs) (get_block_of_bgid (superblock fs) bgid);
        let idx := if idx <? first then first else idx in
        let bmp := get_block_bitmap_block bg (superblock fs) in
        data ← load_offset d (bmp *w block_size fs);
        found ← find_in_group data idx (sb_blocks_per_group (superblock fs));
        match found with
        | Some k =>
            '(res, r, d) ← take_block r bg data bmp bgid k d;
            Some (res, bgid, r, d)
        | None => balloc_loop count groups (wrap32 (bgid + 1) mod groups) idx r d
        end
  end.

Definition balloc_alloc_block (r : Ext4InodeRef) (goal : option Z) (d : D)
    : option (result Z Z * Ext4InodeRef * D) :=
  '(bgid, idx) ← match goal with
                 | Some g => b ← get_bgid_of_block (superblock fs) g;
                             i ← addr_to_idx_bg (superblock fs) g; Some (b, i)
                 | None => Some (1, 0)
                 end;
  groups ← block_group_count (superblock fs);
  '(res, _, r, d) ← balloc_loop (Z.to_nat groups) groups bgid idx r d;
  Some (res, r, d).

(** [start_bgid] is set when a block is found. *)
Definition balloc_alloc_block_from (r : Ext4InodeRef) (start_bgid : Z) (d : D)
    : option (result Z Z * Z * Ext4InodeRef * D) :=
  groups ← block_group_count (superblock fs);
  '(res, bgid, r, d) ← balloc_loop (Z.to_nat groups) groups start_bgid 0 r d;
  Some (res, match res with Ok _ => bgid | Err _ => start_bgid end, r, d).

(** [while bg_first <= bg_last]: the group loaded is the first one in every
    round. [sb] is the copy of the superblock whose count goes up. *)
Fixpoint balloc_free_loop (rounds : nat) (bgid start count : Z) (sb : list Z) (r : Ext4InodeRef)
    (d : D) : option (Ext4InodeRef * D) :=
  match rounds with
  | O => Some (r, d)
  | S rounds =>
      let idx := start mod sb_blocks_per_group sb in
      bg ← load_new fs d bgid;
      let bmp := get_block_bitmap_block bg sb in
      data ← read_block d bmp BLOCK_SZ;
      let free_cnt := block_size fs *w 8 -w idx in
      let free_cnt := if free_cnt <? count then free_cnt else count in
      data ← ext4_bmap_bits_free data (wrap32 idx) (wrap32 free_cnt);
      bg ← set_block_group_balloc_bitmap_csum bg sb data;
      d ← write_block d bmp data;
      let sb := set_free_blocks_count sb (free_blocks_count sb +w free_cnt) in
      '(sb, d) ← sb_sync_to_disk_with_csum sb d;
      u ← inode_blocks_unit;
      let i := set_blocks_count (inode r) (blocks_count (inode r) -w (free_cnt *w u)) in
      '(r, d) ← write_back_inode fs (mkInodeRef (inode_num r) i) d;
      let bg := bg_set_free_blocks_count bg (wrap32 (get_free_blocks_count bg +w free_cnt)) in
      '(_, d) ← bg_sync_to_disk_with_csum fs bg d bgid;
      balloc_free_loop rounds bgid (start +w free_cnt) (count -w free_cnt) sb r d
  end.
Definition balloc_free_blocks (r : Ext4InodeRef) (start count : Z) (d : D)
    : option (Ext4InodeRef * D) :=
  let per := sb_blocks_per_group (superblock fs) in
  if per =? 0 then None
  else
    let first := start / per in
    let last := (start +w count -w 1) / per in
    balloc_free_loop (Z.to_nat (last - first + 1)) first start count (superblock fs) r d.

(** ** Inodes *)

(** A turn of [while bgid <= bg_count]: it returns an inode number or goes on
    at a group. *)
Inductive ialloc_turn_end := ITake (num : Z) (d : D) | INext (bgid : Z).

Definition ialloc_turn (is_dir : bool) (bg_count bgid : Z) (d : D) : option ialloc_turn_end :=
  let sb := superblock fs in
  if bgid =? bg_count then Some (INext 0)
  else
    bg ← load_new fs d bgid;
    let free_inodes := get_free_inodes_count bg in
    if 0 <? free_inodes then
      let bmp := get_inode_bitmap_block bg sb in
      data ← read_block d bmp BLOCK_SZ;
      inodes_in_bg ← get_inodes_in_group_cnt sb bgid;
      found ← ext4_bmap_bit_find_clr data 0 inodes_in_bg;
      let idx := default 0 found in
      data ← ext4_bmap_bit_set data idx;
      d ← write_block d bmp data;
      bg ← set_block_group_ialloc_bitmap_csum bg sb data;
      let bg := set_free_inodes_count bg sb (free_inodes - 1) in
      let bg := if is_dir then set_used_dirs_count bg sb (wrap32 (get_used_dirs_count bg sb + 1)) else bg in
      let unused := get_itable_unused bg sb in
      let bg := if wrap32 (inodes_in_bg - unused) <=? idx
                then set_itable_unused bg sb (wrap32 (inodes_in_bg - (idx + 1))) else bg in
      '(_, d) ← bg_sync_to_disk_with_csum fs bg d bgid;
      '(_, d) ← sb_sync_to_disk_with_csum (decrease_free_inodes_count sb) d;
      _ ← read_block d 0 (block_size fs);
      Some (ITake (wrap32 (wrap32 (bgid * sb_inodes_per_group sb) + (idx + 1))) d)
    else Some (INext (bgid + 1)).

(** The loop, for a number of turns; [None] is a panic, [Some None] that it has
    not returned yet. *)
Fixpoint ialloc_loop (turns : nat) (is_dir : bool) (bg_count bgid : Z) (d : D)
    : option (option (Z * D)) :=
  match turns with
  | O => Some None
  | S turns =>
      t ← ialloc_turn is_dir bg_count bgid d;
      match t with
      | ITake num d => Some (Some (num, d))
      | INext bgid => ialloc_loop turns is_dir bg_count bgid d
      end
  end.
Definition ialloc_alloc_inode (turns : nat) (is_dir : bool) (d : D) : option (option (Z * D)) :=
  bg_count ← block_group_count (superblock fs);
  ialloc_loop turns is_dir bg_count 0 d.

Definition ialloc_free_inode (index : Z) (is_dir : bool) (d : D) : option D :=
  let sb := superblock fs in
  bgid ← get_bgid_of_inode sb index;
  bg ← load_new fs d bgid;
  let bmp := get_inode_bitmap_block bg sb in
  data ← read_block d bmp BLOCK_SZ;
  idx ← inode_to_bgidx sb index;
  data ← ext4_bmap_bit_clr data idx;
  d ← write_block d bmp data;
  bg ← set_block_group_ialloc_bitmap_csum bg sb data;
  let bg := set_free_inodes_count bg sb (wrap32 (get_free_inodes_count bg + 1)) in
  let bg := if is_dir then set_used_dirs_count bg sb (wrap32 (get_used_dirs_count bg sb - 1)) else bg in
  '(_, d) ← bg_sync_to_disk_with_csum fs bg d bgid;
  '(_, d) ← sb_sync_to_disk_with_csum (decrease_free_inodes_count sb) d;
  Some d.
End alloc.
