(* ===== verification/Ext4Ok.v ===== *)
(** * ext4: the allocators keep the bitmaps

    Blocks handed out were free and are taken from then on, and nothing else in
    a bitmap changes; what goes wrong when blocks are given back and when the
    inodes run out. The proofs see the device as blocks of 4096 bytes. *)

From S2P Require Import Prelude Address Phys Block BlockCache Fat Efs.
From S2P Require Import Ext4Bitmap Ext4Disk Ext4Alloc.
#[local] Open Scope kernel_scope.

(** ** Fields *)

Lemma length_splice b off bs :
  0 <= off -> off + vlen bs <= vlen b -> length (splice b off bs) = length b.
Proof.
  intros H0 H1. unfold splice, vlen in *. rewrite !length_app, length_take, length_drop. lia.
Qed.

Lemma bytes_splice b off bs : bytes b -> bytes bs -> bytes (splice b off bs).
Proof.
  intros Hb Hs. unfold splice, bytes. rewrite !Forall_app.
  split_and!; [by apply Forall_take | done | by apply Forall_drop].
Qed.

Lemma length_put_field bs off n v :
  (off + n <= length bs)%nat -> length (put_field bs off n v) = length bs.
Proof.
  intros H. apply length_splice; [lia |]. unfold vlen. rewrite length_le_split. lia.
Qed.

Lemma bytes_put_field bs off n v : bytes bs -> bytes (put_field bs off n v).
Proof. intros H. apply bytes_splice; [done | apply le_split_bytes]. Qed.

Lemma field_put bs off n v :
  (off + n <= length bs)%nat -> 0 <= v < 256 ^ Z.of_nat n -> field (put_field bs off n v) off n = v.
Proof.
  intros Hl Hv. unfold field, field_bytes, put_field.
  pose proof (splice_read bs (Z.of_nat off) (le_split n v)) as H.
  rewrite length_le_split, Nat2Z.id in H. rewrite H; [by apply le_combine_split | lia |].
  unfold vlen. rewrite length_le_split. lia.
Qed.

Lemma field_put_ne bs off n v off' n' :
  (off + n <= length bs)%nat -> (off' + n' <= off \/ off + n <= off')%nat ->
  field (put_field bs off n v) off' n' = field bs off' n'.
Proof.
  intros Hl Hd. unfold field, field_bytes, put_field. f_equal.
  pose proof (splice_read_out bs (Z.of_nat off) (le_split n v) (Z.of_nat off') (Z.of_nat n')) as H.
  rewrite !Nat2Z.id in H. apply H; unfold vlen; rewrite ?length_le_split; lia.
Qed.

Lemma field_bound bs off n : bytes bs -> 0 <= field bs off n < 256 ^ Z.of_nat n.
Proof.
  intros Hb. unfold field, field_bytes.
  pose proof (le_combine_bound (take n (drop off bs)) ltac:(by apply Forall_take, Forall_drop)) as [H0 H1].
  split; [done |]. eapply Z.lt_le_trans; [exact H1 |]. apply Z.pow_le_mono_r; [lia |].
  unfold vlen. rewrite length_take. lia.
Qed.

(** ** Checksums are always computed *)

Lemma crc_some c buf size :
  u32 c -> bytes buf -> 0 <= size <= vlen buf -> exists c', ext4_crc32c c buf size = Some c' /\ u32 c'.
Proof. intros Hc Hb Hs. eexists. exact (crc32c_ok buf c size Hc Hb Hs). Qed.

Lemma crc_u32_some c v : u32 c -> exists c', ext4_crc32c c (le_split 4 v) 4 = Some c' /\ u32 c'.
Proof.
  intros Hc. apply crc_some; [done | apply le_split_bytes |]. unfold vlen. rewrite length_le_split. lia.
Qed.

Lemma crc_uuid_some sb :
  bytes sb -> length sb = 1024%nat -> exists c', ext4_crc32c EXT4_CRC32_INIT (sb_uuid sb) 16 = Some c' /\ u32 c'.
Proof.
  intros Hb Hl. apply crc_some; [done | by apply Forall_take, Forall_drop |].
  unfold vlen, sb_uuid, field_bytes. rewrite length_take, length_drop. lia.
Qed.

(** ** Blocks of the device *)

Section blocks.
Context {D : Type} `{!BlockDevice D, !BlockDeviceSpec D}.
Implicit Types d : D.

Definition blk (d : D) (id : Z) : list Z := (fun k => bd_byte d (id * BLOCK_SZ + k)) <$> seqZ 0 BLOCK_SZ.
Definition in_range (d : D) (id : Z) : Prop := 0 <= id /\ id * BLOCK_SZ + BLOCK_SZ <= bd_size d.

Lemma length_blk d id : length (blk d id) = 4096%nat.
Proof. unfold blk. by rewrite length_fmap, length_seqZ. Qed.

Lemma vlen_blk d id : vlen (blk d id) = 4096.
Proof. unfold vlen. by rewrite length_blk. Qed.

Lemma bytes_blk d id : bd_inv d -> bytes (blk d id).
Proof.
  intros Hi. apply Forall_fmap, Forall_forall. intros k _. by apply bd_byte_fits.
Qed.

Lemma read_blk d id : bd_inv d -> in_range d id -> read_block d id BLOCK_SZ = Some (blk d id).
Proof. intros Hi [H0 H1]. by rewrite (bd_read_spec d id BLOCK_SZ). Qed.

Lemma load_blk d id :
  bd_inv d -> in_range d id -> id * 4096 < 2 ^ 64 -> load_offset d (id *w 4096) = Some (blk d id).
Proof.
  intros Hi Hr Hb. unfold load_offset, BLOCK_SZ. destruct Hr as [H0 H1]. rewrite wrap64_small by lia.
  rewrite Z.div_mul by lia. by apply read_blk.
Qed.

Lemma load_offset_blk d pos :
  bd_inv d -> in_range d (pos / 4096) -> load_offset d pos = Some (blk d (pos / 4096)).
Proof. intros Hi Hr. exact (read_blk d (pos / 4096) Hi Hr). Qed.

Lemma read_struct d id off n :
  0 <= off -> 0 <= n -> off + n <= 4096 -> off < 4096 ->
  read_offset_as (blk d id) off n = Some (take (Z.to_nat n) (drop (Z.to_nat off) (blk d id))).
Proof.
  intros H0 Hn Hl Hs. unfold read_offset_as, BLOCK_SZ. rewrite Z.mod_small by lia. apply slice_Some.
  rewrite vlen_blk. split; [lia |]. split; [lia |]. f_equal. lia.
Qed.

Lemma lookup_blk d id k : 0 <= k < 4096 -> blk d id !! Z.to_nat k = Some (bd_byte d (id * 4096 + k)).
Proof.
  intros Hk. unfold blk, BLOCK_SZ. rewrite list_lookup_fmap, lookup_seqZ_lt by lia. cbn. do 3 f_equal. lia.
Qed.

(** A write changes its block only. *)
Lemma write_blk d id bs :
  bd_inv d -> in_range d id -> bytes bs -> length bs = 4096%nat ->
  exists d', write_block d id bs = Some d' /\ bd_inv d' /\ bd_size d' = bd_size d /\
    blk d' id = bs /\ forall j, j <> id -> blk d' j = blk d j.
Proof.
  intros Hi [H0 H1] Hb Hl. assert (Hv : vlen bs = 4096) by (unfold vlen; lia).
  destruct (bd_write_spec d id bs) as (d' & E & Hi' & Hs & Hby); try done;
    [lia | by rewrite Hv | unfold BLOCK_SZ in *; lia |].
  exists d'. split; [done |]. split; [done |]. split; [done |]. unfold BLOCK_SZ in *. split.
  - apply list_eq. intros i. destruct (decide (i < 4096)%nat) as [Hlt | Hge].
    + replace i with (Z.to_nat (Z.of_nat i)) by lia. rewrite lookup_blk by lia.
      destruct (lookup_lt_is_Some_2 bs i) as [b Eb]; [lia |].
      rewrite Nat2Z.id, Eb, Hby, decide_True by lia. f_equal.
      replace (Z.to_nat (id * 4096 + Z.of_nat i - id * 4096)) with i by lia. by rewrite Eb.
    + rewrite !lookup_ge_None_2 by (rewrite ?length_blk; lia). done.
  - intros j Hj. unfold blk, BLOCK_SZ. apply list_fmap_ext. intros i k Hk.
    apply lookup_seqZ in Hk as [-> Hk]. rewrite Hby. apply decide_False. lia.
Qed.
End blocks.
#[global] Opaque blk.

(** ** The free bit of a group *)

Lemma near_ok n data idx :
  0 <= idx -> idx + Z.of_nat n <= 8 * vlen data ->
  exists r, near_loop n data idx = Some ((fun k => idx + k) <$> r) /\
    first_clear (fun k => bit_of data (idx + k)) (Z.of_nat n) r.
Proof.
  revert idx. induction n as [| n IH]; intros idx H0 Hl.
  - exists None. split; [done |]. intros j Hj. lia.
  - cbn [near_loop]. rewrite is_bit_clr_ok by lia. cbn [mbind option_bind].
    destruct (bit_of data idx) eqn:E; cbn [negb].
    + destruct (IH (idx + 1)) as (r & -> & Hr); [lia.. |]. exists ((fun k => 1 + k) <$> r).
      split; [destruct r as [k |]; [cbn; do 2 f_equal; lia | done] |].
      destruct r as [k |]; cbn in *.
      * destruct Hr as (H1 & H2 & H3). split; [lia |]. split; [rewrite <- H2; f_equal; lia |].
        intros j Hj. destruct (decide (j = 0)) as [-> |]; [by rewrite Z.add_0_r |].
        rewrite <- (H3 (j - 1)) by lia. f_equal. lia.
      * intros j Hj. destruct (decide (j = 0)) as [-> |]; [by rewrite Z.add_0_r |].
        rewrite <- (Hr (j - 1)) by lia. f_equal. lia.
    + exists (Some 0). split; [cbn; do 2 f_equal; lia |]. split; [lia |]. rewrite Z.add_0_r.
      split; [done | intros j Hj; lia].
Qed.

Lemma round64 idx : 0 <= idx < 2 ^ 31 -> Z.land (wrap32 (idx + 63)) (Z.lxor 63 (Z.ones 32)) = (idx + 63) / 64 * 64.
Proof.
  intros H. rewrite wrapn_small by (unfold fits; lia).
  assert (E : Z.land (idx + 63) (Z.lxor 63 (Z.ones 32)) = Z.ldiff (idx + 63) (Z.ones 6)).
  { apply Z.bits_inj'. intros i Hi. rewrite Z.land_spec, Z.lxor_spec, Z.ldiff_spec.
    change 63 with (Z.ones 6) at 2. rewrite !testbit_ones by lia. destruct (Z.ltb_spec i 32).
    - by rewrite xorb_true_r.
    - rewrite (fits_testbit_high 32) by (done || (unfold fits; lia)). done. }
  rewrite E, Z.ldiff_ones_r, Z.shiftr_div_pow2, Z.shiftl_mul_pow2 by lia. done.
Qed.

(** The three searches together find a free bit at or after the goal, or there
    is none. *)
Lemma find_in_group_ok data idx n :
  0 <= idx < n -> n <= 8 * vlen data -> n < 2 ^ 31 ->
  exists r, find_in_group data idx n = Some r /\
    match r with
    | Some k => idx <= k < n /\ bit_of data k = false
    | None => forall j, idx <= j < n -> bit_of data j = true
    end.
Proof.
  intros Hi Hl Hn. unfold find_in_group. rewrite is_bit_clr_ok by lia. cbn [mbind option_bind].
  destruct (bit_of data idx) eqn:E0; cbn [negb]; [| exists (Some idx); split; [done | split; [lia | done]]].
  rewrite round64 by lia. set (e := Z.min ((idx + 63) / 64 * 64) n).
  destruct (near_ok (Z.to_nat (e - (idx + 1))) data (idx + 1)) as (r & -> & Hr); [lia | lia |].
  cbn [mbind option_bind]. destruct r as [k |]; cbn [fmap option_fmap option_map].
  - exists (Some (idx + 1 + k)). destruct Hr as (H1 & H2 & _). split; [done |]. split; [lia | done].
  - destruct (find_clr_ok data idx n) as (r & -> & Hr'); [lia | lia | lia | |].
    { intros j Hj. destruct (decide (j = idx)) as [-> |]; [done |].
      rewrite <- (Hr (j - (idx + 1))); [f_equal; lia |]. unfold ceil8 in Hj. lia. }
    destruct r as [k |]; cbn [fmap option_fmap option_map].
    + exists (Some (idx + k)). destruct Hr' as (H1 & H2 & _). split; [done |]. split; [lia | done].
    + exists None. split; [done |]. intros j Hj. rewrite <- (Hr' (j - idx)) by lia. f_equal. lia.
Qed.

(** ** Descriptors: what a change keeps *)

(** The fields of [l] are the same in [b'] as in [b]. *)
Definition kept (l : list (nat * nat)) (b b' : list Z) : Prop :=
  length b' = length b /\ bytes b' /\ Forall (fun '(o, n) => field b' o n = field b o n) l.
Definition apart (o n : nat) (f : nat * nat) : Prop := (f.1 + f.2 <= o \/ o + n <= f.1)%nat.

Lemma kept_refl l b : bytes b -> kept l b b.
Proof. intros. split_and!; [done | done |]. apply Forall_forall. by intros [o n] _. Qed.

Lemma kept_trans l b1 b2 b3 : kept l b1 b2 -> kept l b2 b3 -> kept l b1 b3.
Proof.
  intros (L1 & _ & F1) (L2 & B2 & F2). split_and!; [by rewrite L2 | done |].
  apply Forall_forall. intros [o n] Hin. rewrite Forall_forall in F1, F2.
  rewrite (F2 _ Hin). apply (F1 _ Hin).
Qed.

Lemma kept_sub l l' b b' : l' ⊆ l -> kept l b b' -> kept l' b b'.
Proof.
  intros Hs (L & B & F). split_and!; [done | done |]. rewrite Forall_forall in F |- *.
  intros f Hf. by apply F, Hs.
Qed.

Lemma kept_field l b b' o n : kept l b b' -> (o, n) ∈ l -> field b' o n = field b o n.
Proof. intros (_ & _ & F) Hin. rewrite Forall_forall in F. apply (F _ Hin). Qed.

Lemma kept_put l b o n v :
  bytes b -> (o + n <= length b)%nat -> Forall (apart o n) l -> kept l b (put_field b o n v).
Proof.
  intros Hb Hl Ha. split_and!; [by apply length_put_field | by apply bytes_put_field |].
  apply Forall_forall. intros [o' n'] Hin. rewrite Forall_forall in Ha. apply field_put_ne; [done |].
  apply (Ha _ Hin).
Qed.

(** Where the bitmap and the inode table of a group are, and its free count. *)
Definition places : list (nat * nat) := [(0, 4); (8, 4); (32, 4); (40, 4)]%nat.
Definition places_free : list (nat * nat) := [(12, 2); (44, 2)]%nat ++ places.

Ltac apart := repeat (constructor; [unfold apart; cbn [fst snd]; lia |]); constructor.

Lemma kept_csum bg sb csum :
  bytes bg -> length bg = 64%nat -> kept places_free bg (put_csum bg sb 24 56 csum).
Proof.
  intros Hb Hl. unfold put_csum. destruct (_ =? 0); [by apply kept_refl |].
  assert (H1 : kept places_free bg (put_field bg 24 2 (Z.land csum 0xffff)))
    by (apply kept_put; [done | lia | apart]).
  destruct (_ =? _); [| done]. eapply kept_trans; [exact H1 |]. destruct H1 as (L & B & _).
  apply kept_put; [done | lia | apart].
Qed.

Lemma kept_count bg n :
  bytes bg -> length bg = 64%nat -> kept places bg (bg_set_free_blocks_count bg n).
Proof.
  intros Hb Hl. unfold bg_set_free_blocks_count, put_count.
  assert (H1 : kept places bg (put_field bg 12 2 (Z.land n 0xffff)))
    by (apply kept_put; [done | lia | apart]).
  eapply kept_trans; [exact H1 |]. destruct H1 as (L & B & _). apply kept_put; [done | lia | apart].
Qed.

Lemma kept_places bg bg' sb :
  kept places bg bg' ->
  get_block_bitmap_block bg' sb = get_block_bitmap_block bg sb /\
  get_inode_table_blk_num bg' = get_inode_table_blk_num bg.
Proof.
  intros K. unfold get_block_bitmap_block, get_inode_table_blk_num.
  by rewrite !(kept_field _ _ _ _ _ K) by (unfold places; set_solver).
Qed.

Lemma kept_free bg bg' :
  kept places_free bg bg' -> get_free_blocks_count bg' = get_free_blocks_count bg.
Proof.
  intros K. unfold get_free_blocks_count.
  by rewrite !(kept_field _ _ _ _ _ K) by (unfold places_free; set_solver).
Qed.

Lemma kept_free_places bg bg' : kept places_free bg bg' -> kept places bg bg'.
Proof. apply kept_sub. unfold places_free. intros f Hf. apply elem_of_app. by right. Qed.

(** A count of less than [2^16] is read as it was set. *)
Lemma free_count_set bg n :
  bytes bg -> length bg = 64%nat -> u16 n -> get_free_blocks_count (bg_set_free_blocks_count bg n) = n.
Proof.
  intros Hb Hl Hn. unfold get_free_blocks_count, bg_set_free_blocks_count, put_count.
  rewrite (field_put (put_field _ _ _ _) 44 2).
  2: { rewrite length_put_field; lia. }
  2: { apply wrapn_bound; lia. }
  rewrite shiftr_div, Z.div_small, wrapn_small by (unfold fits in *; lia). cbn [negb Z.eqb].
  rewrite field_put_ne by (rewrite ?length_put_field; lia).
  change 0xffff with (Z.ones 16). rewrite land_ones_mod by lia.
  rewrite Z.mod_small by (unfold fits in *; lia). apply field_put; [lia |]. unfold fits in Hn. lia.
Qed.
