(* ===== verification/Ext4AllocOk.v ===== *)
(** * ext4: blocks handed out are free

    The block allocator of [Ext4Alloc] over a device: what each write of the
    metadata changes, and that an allocation takes one free bit of one bitmap
    and leaves every other bit as it was. *)

From S2P Require Import Prelude Address Phys Block BlockCache Fat Efs.
From S2P Require Import Ext4Bitmap Ext4Disk Ext4Alloc Ext4Ok.
#[local] Open Scope kernel_scope.

Section vol.
Context {D : Type} `{!BlockDevice D, !BlockDeviceSpec D}.
Context (fs : Ext4FileSystem) (G : Z).
Implicit Types (d : D) (S : Z -> Prop).

(** ** The volume *)

Definition gdt : Z := sb_first_data_block (superblock fs) + 1.
Definition group d (g : Z) : list Z := take 64 (drop (Z.to_nat (g * 64)) (blk d gdt)).
Definition bitmap_at d (g : Z) : Z := get_block_bitmap_block (group d g) (superblock fs).
Definition bitmap d (g : Z) : list Z := blk d (bitmap_at d g).
Definition free_of d (g : Z) : Z := get_free_blocks_count (group d g).
Definition inode_group (num : Z) : Z := wrap32 (num - 1) / sb_inodes_per_group (superblock fs).
Definition inode_pos d (num : Z) : Z :=
  get_inode_table_blk_num (group d (inode_group num)) *w 4096
  +w wrap32 (num - 1) mod sb_inodes_per_group (superblock fs) *w sb_inode_size (superblock fs).

(** What does not depend on the contents: blocks of 4096 bytes, descriptors of
    64 in one block. *)
Record static_ok d : Prop := {
  so_inv : bd_inv d;
  so_size : bd_size d <= 2 ^ 64;
  so_block : block_size fs = 4096;
  so_sb : length (superblock fs) = 1024%nat;
  so_sb_bytes : bytes (superblock fs);
  so_desc : sb_desc_size (superblock fs) = 64;
  so_per : 0 < sb_blocks_per_group (superblock fs) <= 32768;
  so_count : block_group_count (superblock fs) = Some G;
  so_groups : 1 <= G <= 63;
  so_inodes : 0 < sb_inodes_per_group (superblock fs);
  so_isize : 0 < sb_inode_size (superblock fs) <= 256;
  so_gdt : in_range d gdt
}.

(** [d'] is [d] but for the blocks of [S]. *)
Definition changed (S : Z -> Prop) d d' : Prop :=
  bd_inv d' /\ bd_size d' = bd_size d /\ forall j, ~ S j -> blk d' j = blk d j.

Lemma changed_trans S1 S2 d1 d2 d3 :
  changed S1 d1 d2 -> changed S2 d2 d3 -> changed (fun j => S1 j \/ S2 j) d1 d3.
Proof.
  intros (_ & L1 & F1) (I2 & L2 & F2). split_and!; [done | lia |]. intros j Hj.
  rewrite F2, F1 by tauto. done.
Qed.

Lemma static_changed S d d' : static_ok d -> changed S d d' -> static_ok d'.
Proof.
  intros [] (Hi & Hs & _). split; try done; [by rewrite Hs |]. unfold in_range in *. by rewrite Hs.
Qed.

Lemma gdt_pos d : static_ok d -> 1 <= gdt.
Proof.
  intros H. unfold gdt, sb_first_data_block.
  pose proof (field_bound (superblock fs) 20 4 (so_sb_bytes d H)). lia.
Qed.

Lemma range_zero d : static_ok d -> in_range d 0.
Proof.
  intros H. pose proof (gdt_pos d H). destruct (so_gdt d H) as [_ H1]. unfold in_range, BLOCK_SZ in *. lia.
Qed.

Lemma group_bytes d g : static_ok d -> bytes (group d g).
Proof. intros H. apply Forall_take, Forall_drop, bytes_blk, H. Qed.

Lemma group_length d g : static_ok d -> 0 <= g < G -> length (group d g) = 64%nat.
Proof.
  intros H Hg. pose proof (so_groups d H). unfold group.
  rewrite length_take, length_drop, length_blk. lia.
Qed.

Lemma group_place_ok d g : static_ok d -> 0 <= g < G -> group_place fs g = Some (gdt, g * 64).
Proof.
  intros H Hg. pose proof (so_groups d H). unfold group_place, gdt.
  rewrite (so_desc d H), (so_block d H). change (4096 / 64) with 64. cbn [Z.eqb].
  rewrite Z.div_small, Z.mod_small by lia. do 2 f_equal. lia.
Qed.

Lemma load_new_ok d g : static_ok d -> 0 <= g < G -> load_new fs d g = Some (group d g).
Proof.
  intros H Hg. pose proof (so_groups d H). pose proof (so_size d H). pose proof (so_gdt d H) as Hr.
  unfold load_new. rewrite (group_place_ok d) by done. cbn [mbind option_bind].
  rewrite (so_block d H), load_blk; [| apply H | done | unfold in_range, BLOCK_SZ in Hr; lia].
  cbn [mbind option_bind]. unfold read_offset_as, BLOCK_SZ, GROUP_SIZE. rewrite Z.mod_small by lia.
  apply slice_Some. rewrite vlen_blk. split_and!; [lia.. |]. unfold group. f_equal. lia.
Qed.

(** ** What each write changes *)

Lemma write_changed d id bs :
  static_ok d -> in_range d id -> bytes bs -> length bs = 4096%nat ->
  exists d', write_block d id bs = Some d' /\ changed (fun j => j = id) d d' /\ blk d' id = bs.
Proof.
  intros H Hr Hb Hl. destruct (write_blk d id bs) as (d' & E & Hi & Hs & Hid & Ho); [apply H | done.. |].
  exists d'. split_and!; [done | | done]. by split_and!.
Qed.

Lemma copy_changed d id off bs :
  static_ok d -> in_range d id -> bytes bs -> 0 <= off -> off + vlen bs <= 4096 ->
  exists d', (data ← copy_slice (blk d id) off (off + vlen bs) bs; write_block d id data) = Some d' /\
    changed (fun j => j = id) d d' /\ blk d' id = splice (blk d id) off bs.
Proof.
  intros H Hr Hb H0 H1. assert (Hv : 0 <= vlen bs) by (unfold vlen; lia).
  rewrite (proj2 (copy_slice_Some _ _ _ _ (splice (blk d id) off bs)));
    [| split_and!; [lia | lia | rewrite vlen_blk; lia | lia | by unfold splice]].
  cbn [mbind option_bind]. apply write_changed; [done | done | |].
  - apply bytes_splice; [apply bytes_blk, H | done].
  - rewrite length_splice by (rewrite ?vlen_blk; lia). apply length_blk.
Qed.

Lemma sb_sync_ok d sb :
  static_ok d -> bytes sb -> length sb = 1024%nat ->
  exists sb' d', sb_sync_to_disk_with_csum sb d = Some (sb', d') /\ changed (fun j => j = 0) d d' /\
    bytes sb' /\ length sb' = 1024%nat /\ blk d' 0 = splice (blk d 0) 1024 sb' /\
    forall o n, (o + n <= 1020)%nat -> field sb' o n = field sb o n.
Proof.
  intros H Hb Hl. unfold sb_sync_to_disk_with_csum.
  destruct (crc_some EXT4_CRC32_INIT sb 0x3fc) as (c & -> & _); [done | done | unfold vlen; lia |].
  cbn [mbind option_bind]. change (SUPERBLOCK_OFFSET / BLOCK_SZ) with 0.
  rewrite read_blk; [| apply H | by apply range_zero]. cbn [mbind option_bind].
  set (sb' := put_field sb 1020 4 _). assert (Hl' : length sb' = 1024%nat) by (unfold sb'; rewrite length_put_field; lia).
  assert (Hb' : bytes sb') by (by apply bytes_put_field).
  assert (Hv : vlen sb' = 1024) by (unfold vlen; lia).
  destruct (copy_changed d 0 1024 sb' H (range_zero d H) Hb') as (d' & E & Hc & Hs); [lia | lia |].
  replace (1024 + vlen sb') with 2048 in E by lia. exists sb', d'.
  split; [| split; [exact Hc |]].
  - destruct (copy_slice _ _ _ _) as [data |]; [| discriminate E]. cbn [mbind option_bind] in *.
    rewrite E. reflexivity.
  - split; [exact Hb' |]. split; [exact Hl' |]. split; [exact Hs |].
    intros o n Hn. apply field_put_ne; lia.
Qed.

Lemma bg_sync_ok d g bg :
  static_ok d -> 0 <= g < G -> bytes bg -> length bg = 64%nat ->
  exists bg' d', bg_sync_to_disk_with_csum fs bg d g = Some (bg', d') /\
    changed (fun j => j = gdt) d d' /\ kept places_free bg bg' /\
    blk d' gdt = splice (blk d gdt) (g * 64) bg'.
Proof.
  intros H Hg Hb Hl. pose proof (so_groups d H).
  unfold bg_sync_to_disk_with_csum, set_block_group_checksum, get_block_group_checksum.
  destruct (crc_uuid_some (superblock fs)) as (c1 & -> & U1); [apply H.. |].
  cbn [mbind option_bind]. destruct (crc_u32_some c1 (wrap32 g) U1) as (c2 & -> & U2).
  cbn [mbind option_bind]. unfold desc_size. rewrite (so_desc d H). cbn [Z.ltb Z.compare].
  change (64 <? EXT4_MIN_BLOCK_GROUP_DESCRIPTOR_SIZE) with false. cbv iota.
  destruct (crc_some c2 (put_field bg 30 2 0) 64 U2) as (c3 & -> & _).
  { by apply bytes_put_field. } { unfold vlen. rewrite length_put_field; lia. }
  cbn [mbind option_bind]. set (bg' := put_field bg 30 2 _).
  assert (Hl' : length bg' = 64%nat) by (unfold bg'; rewrite length_put_field; lia).
  assert (Hb' : bytes bg') by (by apply bytes_put_field).
  assert (Hv : vlen bg' = 64) by (unfold vlen; lia).
  unfold sync_block_group_to_disk. rewrite (group_place_ok d) by done. cbn [mbind option_bind].
  rewrite Hv, (so_block d H), (proj2 (Z.leb_gt _ _)) by lia.
  rewrite read_blk; [| apply H.. ]. cbn [mbind option_bind].
  destruct (copy_changed d gdt (g * 64) bg') as (d' & E & Hc & Hs); [done | apply H | done | lia | lia |].
  rewrite Hv in E. exists bg', d'. split_and!; [by rewrite E | done | | done].
  apply kept_put; [done | lia | apart].
Qed.

(** The checksums change the fields that hold them. *)
Definition inode_fields : list (nat * nat) := [(4, 4); (28, 4); (108, 4); (116, 2)]%nat.

Lemma kept_inode_csum i csum :
  bytes i -> length i = 156%nat -> kept inode_fields i (set_inode_checksum_value i (superblock fs) csum).
Proof.
  intros Hb Hl. unfold set_inode_checksum_value.
  assert (H1 : kept inode_fields i (put_field i 124 2 (Z.land csum 0xffff)))
    by (apply kept_put; [done | lia | apart]).
  destruct (_ <? _); [| done]. eapply kept_trans; [exact H1 |]. destruct H1 as (L & B & _).
  apply kept_put; [done | lia | apart].
Qed.

Lemma inode_csum_ok d i num :
  static_ok d -> bytes i -> length i = 156%nat ->
  exists i', set_inode_checksum i (superblock fs) num = Some i' /\ kept inode_fields i i'.
Proof.
  intros H Hb Hl. unfold set_inode_checksum, get_inode_checksum.
  assert (K1 : kept inode_fields i (put_field i 124 2 0)) by (apply kept_put; [done | lia | apart]).
  pose proof K1 as (L1 & B1 & _).
  assert (K2 : kept inode_fields i (put_field (put_field i 124 2 0) 130 2 0)).
  { eapply kept_trans; [exact K1 |]. apply kept_put; [done | lia | apart]. }
  set (j := put_field (put_field i 124 2 0) 130 2 0) in *. pose proof K2 as (L2 & B2 & _).
  destruct (crc_uuid_some (superblock fs)) as (c1 & -> & U1); [apply H.. |].
  cbn [mbind option_bind]. destruct (crc_u32_some c1 num U1) as (c2 & -> & U2).
  cbn [mbind option_bind]. destruct (crc_u32_some c2 (field j 100 4) U2) as (c3 & -> & U3).
  cbn [mbind option_bind].
  destruct (crc_some c3 (j ++ replicate 100 0) (sb_inode_size (superblock fs)) U3) as (c & -> & _).
  { apply Forall_app. split; [done |]. by apply Forall_replicate. }
  { pose proof (so_isize d H). unfold vlen. rewrite length_app, length_replicate. lia. }
  cbn [mbind option_bind]. eexists. split; [reflexivity |]. eapply kept_trans; [exact K2 |].
  pose proof (kept_inode_csum j c B2 ltac:(lia)) as K3. eapply kept_trans; [exact K3 |].
  destruct K3 as (L3 & B3 & _). apply kept_inode_csum; [done | lia].
Qed.

(** An inode in a block of its own table, away from the other metadata. *)
Record inode_ok d (r : Ext4InodeRef) : Prop := {
  io_group : 0 <= inode_group (inode_num r) < G;
  io_len : length (inode r) = 156%nat;
  io_bytes : bytes (inode r);
  io_range : in_range d (inode_pos d (inode_num r) / 4096);
  io_fits : inode_pos d (inode_num r) mod 4096 + 156 <= 4096;
  io_zero : inode_pos d (inode_num r) / 4096 <> 0;
  io_gdt : inode_pos d (inode_num r) / 4096 <> gdt;
  io_bitmap : forall g, 0 <= g < G -> inode_pos d (inode_num r) / 4096 <> bitmap_at d g
}.

Lemma disk_pos_ok d num :
  static_ok d -> 0 <= inode_group num < G -> inode_disk_pos fs d num = Some (inode_pos d num).
Proof.
  intros H Hg. pose proof (so_inodes d H) as Hi. unfold inode_disk_pos.
  rewrite (proj2 (Z.eqb_neq _ _)) by lia. fold (inode_group num). rewrite load_new_ok by done.
  cbn [mbind option_bind]. rewrite (so_block d H). reflexivity.
Qed.

Lemma write_back_ok d r :
  static_ok d -> inode_ok d r ->
  exists r' d', write_back_inode fs r d = Some (r', d') /\
    changed (fun j => j = inode_pos d (inode_num r) / 4096) d d' /\
    inode_num r' = inode_num r /\ kept inode_fields (inode r) (inode r') /\
    blk d' (inode_pos d (inode_num r) / 4096) =
      splice (blk d (inode_pos d (inode_num r) / 4096)) (inode_pos d (inode_num r) mod 4096) (inode r').
Proof.
  intros H Hi. destruct Hi as [Hg Hl Hb Hr Hf _ _ _]. unfold write_back_inode.
  rewrite disk_pos_ok by done. cbn [mbind option_bind]. set (pos := inode_pos d (inode_num r)) in *.
  destruct (inode_csum_ok d (inode r) (inode_num r) H Hb Hl) as (i' & -> & K). cbn [mbind option_bind].
  pose proof K as (L & B & _). assert (Hv : vlen i' = 156) by (unfold vlen; lia).
  unfold sync_inode_to_disk. rewrite (so_block d H), read_blk; [| apply H | done]. cbn [mbind option_bind].
  rewrite (proj2 (Z.ltb_ge _ _)) by lia.
  destruct (copy_changed d (pos / 4096) (pos mod 4096) i') as (d' & E & Hc & Hs); [done | done | done | lia | lia |].
  exists (mkInodeRef (inode_num r) i'), d'. split; [rewrite E; reflexivity |].
  split; [exact Hc |]. split; [reflexivity |]. split; [exact K | exact Hs].
Qed.

(** ** Taking a block *)

Record volume_ok d : Prop := {
  vo_static : static_ok d;
  vo_range : forall g, 0 <= g < G -> in_range d (bitmap_at d g);
  vo_zero : forall g, 0 <= g < G -> bitmap_at d g <> 0;
  vo_gdt : forall g, 0 <= g < G -> bitmap_at d g <> gdt;
  vo_inj : forall g g', 0 <= g < G -> 0 <= g' < G -> bitmap_at d g = bitmap_at d g' -> g = g';
  vo_free : forall g, 0 <= g < G -> u16 (free_of d g)
}.

(** The descriptor table after one of them is written. *)
Lemma group_splice d d' g bg :
  static_ok d -> 0 <= g < G -> length bg = 64%nat -> blk d' gdt = splice (blk d gdt) (g * 64) bg ->
  forall g', 0 <= g' < G -> group d' g' = if decide (g' = g) then bg else group d g'.
Proof.
  intros H Hg Hl E g' Hg'. pose proof (so_groups d H). assert (Hv : vlen bg = 64) by (unfold vlen; lia).
  unfold group. rewrite E. destruct (decide (g' = g)) as [-> | Hne].
  - rewrite <- Hl. apply splice_read; rewrite ?vlen_blk; lia.
  - apply (splice_read_out _ _ _ (g' * 64) 64); rewrite ?vlen_blk; lia.
Qed.

(** The descriptors of [d'] name the same blocks as those of [d]. *)
Definition same_places d d' : Prop :=
  forall g, 0 <= g < G -> bitmap_at d' g = bitmap_at d g /\
    get_inode_table_blk_num (group d' g) = get_inode_table_blk_num (group d g).

Lemma same_places_gdt d d' : blk d' gdt = blk d gdt -> same_places d d'.
Proof. intros E g Hg. unfold bitmap_at, group. rewrite E. by split. Qed.

Lemma inode_ok_move d d' r r' :
  inode_ok d r -> bd_size d' = bd_size d -> same_places d d' ->
  inode_num r' = inode_num r -> length (inode r') = length (inode r) -> bytes (inode r') -> inode_ok d' r'.
Proof.
  intros [Hg Hl Hb Hr Hf Hz Ht Hm] Hs Hp En El Eb.
  assert (Epos : inode_pos d' (inode_num r') = inode_pos d (inode_num r)).
  { rewrite En. unfold inode_pos. by rewrite (proj2 (Hp _ Hg)). }
  split; rewrite ?Epos, ?En, ?El; try done.
  - unfold in_range in *. by rewrite Hs.
  - intros g Hg'. rewrite (proj1 (Hp g Hg')). by apply Hm.
Qed.

Lemma set_blocks_inode i n :
  bytes i -> length i = 156%nat -> length (set_blocks_count i n) = 156%nat /\ bytes (set_blocks_count i n).
Proof.
  intros Hb Hl. unfold set_blocks_count.
  split; [rewrite !length_put_field; rewrite ?length_put_field; lia | by do 2 apply bytes_put_field].
Qed.

Lemma unit_some d : static_ok d -> exists u, inode_blocks_unit fs = Some u.
Proof.
  intros H. pose proof (so_isize d H). unfold inode_blocks_unit.
  rewrite (proj2 (Z.eqb_neq _ _)) by lia. by eexists.
Qed.

Lemma set_free_sb d n :
  static_ok d -> let sb := set_free_blocks_count (superblock fs) n in bytes sb /\ length sb = 1024%nat.
Proof.
  intros H sb. pose proof (so_sb d H). unfold sb, set_free_blocks_count.
  split; [do 2 apply bytes_put_field; apply H |].
  assert (Hl : forall v, length (put_field (superblock fs) 12 4 v) = 1024%nat)
    by (intros v; rewrite length_put_field; lia).
  rewrite length_put_field; rewrite Hl; lia.
Qed.

(** The three writes that follow a change of a bitmap: the superblock, the
    inode with [v] blocks, and the descriptor with [n] free ones. *)
Lemma counts_ok d r bg g sb v n :
  static_ok d -> inode_ok d r -> 0 <= g < G -> kept places_free (group d g) bg -> u16 n ->
  bytes sb -> length sb = 1024%nat ->
  exists sb' d1 r' d2 bg' d', sb_sync_to_disk_with_csum sb d = Some (sb', d1) /\
    write_back_inode fs (mkInodeRef (inode_num r) (set_blocks_count (inode r) v)) d1 = Some (r', d2) /\
    bg_sync_to_disk_with_csum fs (bg_set_free_blocks_count bg n) d2 g = Some (bg', d') /\
    changed (fun j => (j = 0 \/ j = inode_pos d (inode_num r) / 4096) \/ j = gdt) d d' /\
    inode_num r' = inode_num r /\ length (inode r') = length (inode r) /\ bytes (inode r') /\
    kept places (group d g) bg' /\ get_free_blocks_count bg' = n /\
    blk d' gdt = splice (blk d gdt) (g * 64) bg'.
Proof.
  intros H Hi Hg K Hn Bs Ls. pose proof K as (L & B & _).
  rewrite (group_length d g H Hg) in L. pose proof (gdt_pos d H) as Hgdt.
  destruct (sb_sync_ok d sb H Bs Ls) as (sb2 & d1 & E1 & C1 & _).
  assert (T1 : blk d1 gdt = blk d gdt) by (apply C1; lia).
  pose proof (static_changed _ _ _ H C1) as H1. pose proof (same_places_gdt _ _ T1) as P1.
  destruct (set_blocks_inode (inode r) v) as [Ll Bb]; [apply Hi.. |].
  set (r1 := mkInodeRef (inode_num r) (set_blocks_count (inode r) v)).
  assert (I1 : inode_ok d1 r1).
  { apply (inode_ok_move d d1 r r1 Hi); [apply C1 | done | done | | done].
    cbn [r1 inode]. by rewrite Ll, (io_len d r Hi). }
  assert (Epos : inode_pos d1 (inode_num r1) = inode_pos d (inode_num r)).
  { cbn [r1 inode_num]. unfold inode_pos. by rewrite (proj2 (P1 _ (io_group d r Hi))). }
  destruct (write_back_ok d1 r1 H1 I1) as (r2 & d2 & E2 & C2 & En & (L2 & B2 & _) & _).
  rewrite Epos in C2. pose proof (static_changed _ _ _ H1 C2) as H2.
  assert (T2 : blk d2 gdt = blk d1 gdt) by (apply C2; pose proof (io_gdt d r Hi); lia).
  pose proof (kept_count bg n B L) as K3.
  destruct (bg_sync_ok d2 g (bg_set_free_blocks_count bg n) H2 Hg)
    as (bg' & d3 & E3 & C3 & K4 & Es); [apply K3 | rewrite (proj1 K3); lia |].
  rewrite T2, T1 in Es. exists sb2, d1, r2, d2, bg', d3.
  split; [exact E1 |]. split; [exact E2 |]. split; [exact E3 |].
  split; [eapply changed_trans; [| exact C3]; by eapply changed_trans |].
  split; [exact En |]. split; [rewrite L2; cbn [r1 inode]; by rewrite Ll, (io_len d r Hi) |].
  split; [exact B2 |]. split; [| split; [| exact Es]].
  - eapply kept_trans; [apply kept_free_places, K |]. eapply kept_trans; [exact K3 |].
    apply kept_free_places, K4.
  - rewrite (kept_free _ _ K4). by apply free_count_set.
Qed.

Lemma update_ok d r bg g :
  static_ok d -> inode_ok d r -> 0 <= g < G -> kept places_free (group d g) bg ->
  u16 (free_of d g) -> free_of d g <> 0 ->
  exists r' d' bg', update_free_block_counts fs r bg g d = Some (r', d') /\
    changed (fun j => (j = 0 \/ j = inode_pos d (inode_num r) / 4096) \/ j = gdt) d d' /\
    inode_num r' = inode_num r /\ length (inode r') = length (inode r) /\ bytes (inode r') /\
    kept places (group d g) bg' /\ get_free_blocks_count bg' = free_of d g - 1 /\
    blk d' gdt = splice (blk d gdt) (g * 64) bg'.
Proof.
  intros H Hi Hg K Hu Hn. unfold update_free_block_counts. destruct (unit_some d H) as [u Eu].
  destruct (set_free_sb d (free_blocks_count (superblock fs) -w 1) H) as [Bs Ls].
  destruct (counts_ok d r bg g _ (blocks_count (inode r) +w u) (free_of d g - 1) H Hi Hg K
    ltac:(unfold fits in *; lia) Bs Ls) as (sb' & d1 & r' & d2 & bg' & d' & E1 & E2 & E3 & HR).
  rewrite E1. cbn [mbind option_bind]. rewrite Eu. cbn [mbind option_bind]. rewrite E2. cbn [mbind option_bind].
  rewrite (kept_free _ _ K). fold (free_of d g).
  assert (Ew : wrap32 (free_of d g -w 1) = free_of d g - 1).
  { unfold fits in Hu. rewrite (wrapn_small 64), wrapn_small by (unfold fits; lia). done. }
  rewrite Ew, E3. cbn [mbind option_bind]. exists r', d', bg'. split; [reflexivity | exact HR].
Qed.

(** From [d] to [d'] block [k] of group [g] is taken: its bit was clear and is
    set, no other bit of any bitmap changes, the count of the group is one
    less, and no block but the metadata is written. *)
Record took d d' (r : Ext4InodeRef) (g k : Z) : Prop := {
  tk_clear : bit_of (bitmap d g) k = false;
  tk_bits : forall g' j, 0 <= g' < G -> 0 <= j ->
    bit_of (bitmap d' g') j = bool_decide (g' = g /\ j = k) || bit_of (bitmap d g') j;
  tk_free : forall g', 0 <= g' < G -> free_of d' g' = if decide (g' = g) then free_of d g - 1 else free_of d g';
  tk_data : forall j, j <> 0 -> j <> gdt -> j <> bitmap_at d g ->
    j <> inode_pos d (inode_num r) / 4096 -> blk d' j = blk d j;
  tk_volume : volume_ok d'
}.

Lemma balloc_csum_some d data :
  static_ok d -> bytes data -> vlen data = 4096 -> exists c, ext4_balloc_bitmap_csum (superblock fs) data = Some c.
Proof.
  intros H Hb Hl. pose proof (so_per d H). unfold ext4_balloc_bitmap_csum.
  destruct (crc_uuid_some (superblock fs)) as (c1 & -> & U1); [apply H.. |]. cbn [mbind option_bind].
  destruct (crc_some c1 data (sb_blocks_per_group (superblock fs) / 8) U1) as (c & -> & _);
    [done | rewrite Hl; lia |]. by exists c.
Qed.

Lemma volume_ok_move d d' g bg :
  volume_ok d -> static_ok d' -> bd_size d' = bd_size d -> 0 <= g < G ->
  kept places (group d g) bg -> u16 (get_free_blocks_count bg) ->
  (forall g', 0 <= g' < G -> group d' g' = if decide (g' = g) then bg else group d g') ->
  same_places d d' /\ volume_ok d'.
Proof.
  intros [H Hr Hz Ht Hinj Hf] H' Hs Hg K Hu Hgr.
  assert (Hp : same_places d d').
  { intros g' Hg'. unfold bitmap_at. rewrite Hgr by done. case_decide; [subst | done].
    by apply kept_places. }
  split; [done |]. split; [done |..].
  - intros g' Hg'. unfold in_range. rewrite Hs, (proj1 (Hp _ Hg')). by apply Hr.
  - intros g' Hg'. rewrite (proj1 (Hp _ Hg')). by apply Hz.
  - intros g' Hg'. rewrite (proj1 (Hp _ Hg')). by apply Ht.
  - intros g1 g2 H1 H2. rewrite (proj1 (Hp _ H1)), (proj1 (Hp _ H2)). by apply Hinj.
  - intros g' Hg'. unfold free_of. rewrite Hgr by done. case_decide; [done | by apply Hf].
Qed.

Lemma take_block_ok d r g k :
  volume_ok d -> inode_ok d r -> 0 <= g < G -> 0 <= k < sb_blocks_per_group (superblock fs) ->
  bit_of (bitmap d g) k = false -> free_of d g <> 0 ->
  exists r' d', take_block fs r (group d g) (bitmap d g) (bitmap_at d g) g k d =
      Some (Ok (bg_idx_to_addr (superblock fs) k g), r', d') /\
    took d d' r g k /\ inode_ok d' r' /\ inode_num r' = inode_num r.
Proof.
  intros V Hi Hg Hk Hc Hn. pose proof V as [H Hr Hz Ht Hinj Hf]. pose proof (so_per d H). unfold take_block.
  destruct (bit_set_ok (bitmap d g) k) as (data & -> & Bd & Ld & Hbit);
    [apply bytes_blk, H | unfold bitmap; rewrite vlen_blk; lia |]. cbn [mbind option_bind].
  unfold bitmap in Ld. rewrite length_blk in Ld. unfold set_block_group_balloc_bitmap_csum.
  destruct (balloc_csum_some d data H Bd) as [c ->]; [unfold vlen; lia |]. cbn [mbind option_bind].
  pose proof (kept_csum (group d g) (superblock fs) c (group_bytes d g H) (group_length d g H Hg)) as K.
  destruct (write_changed d (bitmap_at d g) data H) as (d1 & -> & C1 & E1); [by apply Hr | done | done |].
  cbn [mbind option_bind]. assert (T1 : blk d1 gdt = blk d gdt) by (apply C1; intros E; by apply (Ht g)).
  assert (Gr : forall g', group d1 g' = group d g') by (intros g'; unfold group; by rewrite T1).
  assert (I1 : inode_ok d1 r).
  { apply (inode_ok_move d d1 r r Hi);
      [apply C1 | by apply same_places_gdt | reflexivity | reflexivity | apply Hi]. }
  rewrite <- (Gr g) in K at 1.
  destruct (update_ok d1 r _ g (static_changed _ _ _ H C1) I1 Hg K) as
    (r' & d2 & bg' & -> & C2 & En & El & Eb & K' & F' & Es).
  { unfold free_of. rewrite Gr. by apply Hf. } { unfold free_of. by rewrite Gr. }
  cbn [mbind option_bind]. exists r', d2. split; [reflexivity |].
  pose proof (changed_trans _ _ _ _ _ C1 C2) as C. rewrite T1 in Es. rewrite Gr in K'.
  unfold free_of in F'. rewrite Gr in F'. fold (free_of d g) in F'.
  assert (Lb : length bg' = 64%nat) by (rewrite (proj1 K'); by apply group_length).
  pose proof (group_splice d d2 g bg' H Hg Lb Es) as Hgr.
  assert (Hu : u16 (get_free_blocks_count bg')).
  { rewrite F'. pose proof (Hf g Hg). unfold fits in *. lia. }
  destruct (volume_ok_move d d2 g bg' V (static_changed _ _ _ H C) (proj1 (proj2 C)) Hg K' Hu Hgr) as [P V'].
  assert (Epos : inode_pos d1 (inode_num r) = inode_pos d (inode_num r)) by (unfold inode_pos; by rewrite Gr).
  rewrite Epos in C2, C. split; [| split; [| done]].
  2: { exact (inode_ok_move d d2 r r' Hi (proj1 (proj2 C)) P En El Eb). }
  split; [done | | | |done].
  - intros g' j Hg' Hj. unfold bitmap. rewrite (proj1 (P g' Hg')).
    assert (Hout : forall b, b = bitmap_at d g' -> ~ ((b = 0 \/ b = inode_pos d (inode_num r) / 4096) \/ b = gdt)).
    { intros b ->. pose proof (Hz g' Hg'). pose proof (Ht g' Hg'). pose proof (io_bitmap d r Hi g' Hg'). intuition. }
    rewrite (proj2 (proj2 C2)) by (by apply Hout). destruct (decide (g' = g)) as [-> | Hne].
    + rewrite E1, Hbit by done. unfold bitmap. f_equal. destruct (Z.eqb_spec j k).
      * subst. rewrite bool_decide_true; [reflexivity | by split].
      * rewrite bool_decide_false; [done | naive_solver].
    + rewrite bool_decide_false by naive_solver. rewrite (proj2 (proj2 C1)); [done |].
      intros E. by apply Hne, Hinj.
  - intros g' Hg'. unfold free_of at 1. rewrite Hgr by done. case_decide; [by rewrite F' | done].
  - intros j J0 J1 J2 J3. apply C. intuition.
Qed.

(** ** The search over the groups *)

Lemma first_index d g : static_ok d -> 0 <= g ->
  addr_to_idx_bg (superblock fs) (get_block_of_bgid (superblock fs) g) = Some 0.
Proof.
  intros H Hg. pose proof (so_per d H) as Hp. unfold addr_to_idx_bg, get_block_of_bgid.
  set (per := sb_blocks_per_group (superblock fs)) in *. rewrite (proj2 (Z.eqb_neq per 0)) by lia.
  destruct (sb_first_data_block (superblock fs) =? 0); cbn [negb andb].
  - by rewrite Z.add_0_l, Z.mod_mul by lia.
  - rewrite (proj2 (Z.eqb_neq _ 0)) by lia. cbn [negb].
    replace (1 + g * per - 1) with (g * per) by lia. by rewrite Z.mod_mul by lia.
Qed.

(** No block of group [g] at [idx] or after it can be taken. *)
Definition full_from d (idx g : Z) : Prop :=
  free_of d g = 0 \/
  forall j, idx <= j < sb_blocks_per_group (superblock fs) -> bit_of (bitmap d g) j = true.

(** How a search of the groups [gs] ends: with a free block that is taken, or
    when there is none and nothing is written. *)
Definition search_end d (r : Ext4InodeRef) (idx : Z) (gs : Z -> Prop)
    (res : result Z Z) (g' : Z) (r' : Ext4InodeRef) d' : Prop :=
  match res with
  | Ok a => 0 <= g' < G /\ (exists k, idx <= k < sb_blocks_per_group (superblock fs) /\
      a = bg_idx_to_addr (superblock fs) k g' /\ took d d' r g' k) /\ inode_ok d' r'
  | Err e => e = ENOSPC /\ d' = d /\ r' = r /\ forall g, gs g -> full_from d idx g
  end.

Lemma search_end_more d r idx (gs gs' : Z -> Prop) res g' r' d' :
  (forall g, gs' g -> full_from d idx g \/ gs g) ->
  search_end d r idx gs res g' r' d' -> search_end d r idx gs' res g' r' d'.
Proof.
  intros Hg. destruct res as [a | e]; [exact id |]. intros (E1 & E2 & E3 & HF).
  split; [exact E1 |]. split; [exact E2 |]. split; [exact E3 |].
  intros g Hg'. destruct (Hg g Hg') as [? | ?]; [assumption | by apply HF].
Qed.

(** The groups [count] turns look at from [g] on. *)
Definition turns (count : nat) (g x : Z) : Prop := exists i, 0 <= i < Z.of_nat count /\ x = (g + i) mod G.

Lemma turns_next d count g x :
  static_ok d -> 0 <= g < G -> turns (S count) g x -> x = g \/ turns count (wrap32 (g + 1) mod G) x.
Proof.
  intros H Hg (i & Hi & ->). pose proof (so_groups d H) as HG.
  rewrite (wrapn_small 32) by (unfold fits; lia). destruct (decide (i = 0)) as [-> | Hne].
  - left. by rewrite Z.add_0_r, Z.mod_small by lia.
  - right. exists (i - 1). split; [lia |]. rewrite Zplus_mod_idemp_l. f_equal. lia.
Qed.

Lemma balloc_loop_ok d r idx count g :
  volume_ok d -> inode_ok d r -> 0 <= g < G -> 0 <= idx < sb_blocks_per_group (superblock fs) ->
  exists res g' r' d', balloc_loop fs count G g idx r d = Some (res, g', r', d') /\
    search_end d r idx (turns count g) res g' r' d'.
Proof.
  intros V Hi Hg Hx. pose proof V as [H Hr _ _ _ _]. pose proof (so_groups d H) as HG.
  pose proof (so_per d H) as Hp. revert g Hg. induction count as [| count IH]; intros g Hg.
  { exists (Err ENOSPC), g, r, d. split; [done |]. split_and!; try done. intros x (i & Hi' & _). lia. }
  assert (Hnext : full_from d idx g -> exists res g' r' d',
    balloc_loop fs count G (wrap32 (g + 1) mod G) idx r d = Some (res, g', r', d') /\
    search_end d r idx (turns (S count) g) res g' r' d').
  { intros Hfull. destruct (IH (wrap32 (g + 1) mod G)) as (res & g' & r' & d' & E & HR);
      [apply Z.mod_pos_bound; lia |].
    exists res, g', r', d'. split; [exact E |]. revert HR. apply search_end_more.
    intros x Hx'. destruct (turns_next d count g x H Hg Hx') as [-> | ?]; [by left | by right]. }
  cbn [balloc_loop]. rewrite load_new_ok by assumption. cbn [mbind option_bind].
  fold (free_of d g). destruct (Z.eqb_spec (free_of d g) 0) as [E0 | Hne]; [apply Hnext; by left |].
  rewrite (first_index d) by (assumption || lia). cbn [mbind option_bind].
  rewrite (proj2 (Z.ltb_ge idx 0)) by lia. fold (bitmap_at d g).
  pose proof (Hr g Hg) as HrB. pose proof (so_size d H).
  rewrite (so_block d H), load_blk; [| apply H | assumption | unfold in_range, BLOCK_SZ in HrB; lia].
  cbn [mbind option_bind]. fold (bitmap d g).
  destruct (find_in_group_ok (bitmap d g) idx (sb_blocks_per_group (superblock fs))) as (f & -> & Hf);
    [lia | unfold bitmap; rewrite vlen_blk; lia | lia |]. cbn [mbind option_bind].
  destruct f as [k |]; [| apply Hnext; by right]. destruct Hf as [Hk Hcl].
  destruct (take_block_ok d r g k V Hi Hg ltac:(lia) Hcl Hne) as (r' & d' & -> & T & I' & _).
  cbn [mbind option_bind]. do 4 eexists. split; [reflexivity |]. split; [exact Hg |]. split; [| exact I'].
  exists k. split; [exact Hk |]. split; [reflexivity | exact T].
Qed.
End vol.
