(* ===== verification/Ext4AllocFacts.v ===== *)
(** * ext4: what the allocators guarantee, and where they fail

    Blocks are handed out once; freeing one block gives back the count and not
    the block; a volume of one group is full from the start; without a free
    inode the search for one never ends. *)

From S2P Require Import Prelude Address Phys Block BlockCache Fat Efs.
From S2P Require Import Ext4Bitmap Ext4Disk Ext4Alloc Ext4Ok Ext4AllocOk.
#[local] Open Scope kernel_scope.

Section facts.
Context {D : Type} `{!BlockDevice D, !BlockDeviceSpec D}.
Context (fs : Ext4FileSystem) (G : Z).
Implicit Types d : D.

(** ** Many allocations *)







(** ** Giving a block back *)

Lemma below_groups per start : 0 < per <= 32768 -> 0 <= start -> start / per < G -> 1 <= G <= 63 ->
  0 <= start / per < G /\ start < 2 ^ 63.
Proof.
  intros Hp Hs Hg HG. split; [split; [apply Z.div_pos; lia | done] |].
  pose proof (Z.mul_succ_div_gt start per ltac:(lia)). assert (start / per + 1 <= 63) by lia. nia.
Qed.

(** One block with a number of 2 or more in its group: the range of bits to
    clear, from the number to the count, is empty. *)
Lemma free_one_eq d r start :
  volume_ok fs G d -> 0 <= start -> start / sb_blocks_per_group (superblock fs) < G ->
  2 <= start mod sb_blocks_per_group (superblock fs) ->
  let g := start / sb_blocks_per_group (superblock fs) in
  balloc_free_blocks fs r start 1 d =
    (bg ← set_block_group_balloc_bitmap_csum (group fs d g) (superblock fs) (bitmap fs d g);
     d ← write_block d (bitmap_at fs d g) (bitmap fs d g);
     '(_, d) ← sb_sync_to_disk_with_csum
       (set_free_blocks_count (superblock fs) (free_blocks_count (superblock fs) +w 1)) d;
     u ← inode_blocks_unit fs;
     '(r, d) ← write_back_inode fs
       (mkInodeRef (inode_num r) (set_blocks_count (inode r) (blocks_count (inode r) -w (1 *w u)))) d;
     '(_, d) ← bg_sync_to_disk_with_csum fs
       (bg_set_free_blocks_count bg (wrap32 (get_free_blocks_count bg +w 1))) d g;
     Some (r, d)).
Proof.
  intros V Hs HgG Hidx g. pose proof (vo_static _ _ _ V) as H. pose proof (so_per _ _ _ H) as Hp.
  destruct (below_groups _ start Hp Hs HgG (so_groups _ _ _ H)) as [Hg Hb]. fold g in Hg.
  unfold balloc_free_blocks. cbv zeta.
  set (per := sb_blocks_per_group (superblock fs)) in *.
  rewrite (proj2 (Z.eqb_neq per 0)) by lia. rewrite (wrap64_small (start + 1)) by lia.
  replace (start + 1 - 1) with start by lia. rewrite (wrap64_small start) by lia. fold g.
  replace (Z.to_nat (g - g + 1)) with 1%nat by lia. cbn [balloc_free_loop]. fold per.
  rewrite (load_new_ok fs G) by assumption. unfold mbind, option_bind.
  rewrite read_blk; [| apply H | by apply (vo_range _ _ _ V)]. rewrite (so_block _ _ _ H).
  pose proof (Z.mod_pos_bound start per ltac:(lia)) as Hm.
  change (wrap64 (4096 * 8)) with 32768. rewrite (wrap64_small (32768 - start mod per)) by lia.
  rewrite (proj2 (Z.ltb_ge (32768 - start mod per) 1)) by lia. unfold ext4_bmap_bits_free.
  rewrite (wrapn_small 32 (start mod per)) by (unfold fits; lia). change (wrap32 1) with 1.
  replace (Z.to_nat (1 - start mod per + 1)) with 0%nat by lia. cbn [bits_free_loop].
  reflexivity.
Qed.

Lemma free_one_ok d r start :
  volume_ok fs G d -> inode_ok fs G d r ->
  let g := start / sb_blocks_per_group (superblock fs) in
  0 <= start -> g < G -> 2 <= start mod sb_blocks_per_group (superblock fs) -> free_of fs d g < 65535 ->
  exists r' d', balloc_free_blocks fs r start 1 d = Some (r', d') /\
    (forall g', 0 <= g' < G -> bitmap fs d' g' = bitmap fs d g') /\
    free_of fs d' g = free_of fs d g + 1.
Proof.
  intros V Hi g Hs HgG Hidx Hfr. rewrite free_one_eq by assumption. fold g.
  pose proof V as [H Hr Hz Ht _ Hf].
  destruct (below_groups _ start (so_per _ _ _ H) Hs HgG (so_groups _ _ _ H)) as [Hg _]. fold g in Hg.
  pose proof (Hf g Hg) as Hu. unfold fits in Hu.
  unfold set_block_group_balloc_bitmap_csum. assert (Bb : bytes (bitmap fs d g)) by (apply bytes_blk, H).
  destruct (balloc_csum_some fs G d (bitmap fs d g) H Bb (vlen_blk _ _)) as [c ->].
  pose proof (kept_csum _ (superblock fs) c (group_bytes _ _ d g H) (group_length _ _ d g H Hg)) as K.
  destruct (write_changed fs G d _ (bitmap fs d g) H (Hr g Hg) Bb (length_blk _ _)) as (d1 & E0 & C1 & E1).
  assert (Eb : forall j, blk d1 j = blk d j).
  { intros j. destruct (decide (j = bitmap_at fs d g)) as [-> | Hj]; [exact E1 | by apply C1]. }
  assert (Gr : forall x, group fs d1 x = group fs d x) by (intros x; unfold group; rewrite Eb; reflexivity).
  assert (I1 : inode_ok fs G d1 r).
  { apply (inode_ok_move fs G d d1 r r Hi);
      [apply C1 | apply same_places_gdt, Eb | reflexivity | reflexivity | apply Hi]. }
  destruct (unit_some fs G d H) as [u Eu].
  destruct (set_free_sb fs G d (free_blocks_count (superblock fs) +w 1) H) as [Bs Ls].
  rewrite <- (Gr g) in K at 1.
  destruct (counts_ok fs G d1 r _ g _ (blocks_count (inode r) -w (1 *w u)) (free_of fs d g + 1)
    (static_changed _ _ _ _ _ H C1) I1 Hg K ltac:(unfold fits; lia) Bs Ls)
    as (sb' & d2 & r' & d3 & bg' & d4 & E2 & E3 & E4 & C4 & _ & _ & _ & K4 & F4 & Es).
  assert (Ef : wrap32 (get_free_blocks_count (put_csum (group fs d g) (superblock fs) 24 56 c) +w 1) = free_of fs d g + 1).
  { rewrite (kept_free _ _ K), Gr. fold (free_of fs d g).
    rewrite (wrap64_small (free_of fs d g + 1)), (wrapn_small 32) by (unfold fits; lia). reflexivity. }
  unfold mbind, option_bind. rewrite E0, E2, Eu, E3, Ef, E4. exists r', d4. split; [reflexivity |].
  rewrite Eb in Es. rewrite Gr in K4.
  assert (Lb : length bg' = 64%nat) by (rewrite (proj1 K4); by apply (group_length _ G)).
  pose proof (group_splice fs G d d4 g bg' H Hg Lb Es) as Hgr. split.
  - intros g' Hg'. unfold bitmap.
    rewrite (proj1 (proj1 (volume_ok_move fs G d d4 g bg' V (static_changed _ _ _ _ _ (static_changed _ _ _ _ _ H C1) C4)
      ltac:(rewrite (proj1 (proj2 C4)); apply C1) Hg K4 ltac:(rewrite F4; unfold fits; lia) Hgr) g' Hg')).
    rewrite (proj2 (proj2 C4)); [apply Eb |].
    assert (Epos : inode_pos fs d1 (inode_num r) = inode_pos fs d (inode_num r)) by (unfold inode_pos; rewrite Gr; reflexivity).
    rewrite Epos. pose proof (Hz g' Hg'). pose proof (Ht g' Hg'). pose proof (io_bitmap _ _ _ _ Hi g' Hg'). intuition.
  - unfold free_of at 1. rewrite Hgr, decide_True by done. exact F4.
Qed.
(** ** Inodes *)

(** An inode written back is read as it was sealed. *)
Lemma get_inode_back d r :
  static_ok fs G d -> inode_ok fs G d r ->
  exists r' d', write_back_inode fs r d = Some (r', d') /\ get_inode_ref fs d' (inode_num r) = Some r' /\
    kept inode_fields (inode r) (inode r').
Proof.
  intros H Hi. destruct (write_back_ok fs G d r H Hi) as (r' & d' & E & C & En & K & Es).
  exists r', d'. split; [exact E |]. split; [| exact K]. pose proof (static_changed _ _ _ _ _ H C) as H'.
  unfold get_inode_ref, mbind, option_bind. rewrite (disk_pos_ok fs G d' _ H' (io_group _ _ _ _ Hi)).
  assert (Eb : blk d' (gdt fs) = blk d (gdt fs)) by (apply C; pose proof (io_gdt _ _ _ _ Hi); lia).
  assert (Ep : inode_pos fs d' (inode_num r) = inode_pos fs d (inode_num r)).
  { unfold inode_pos. rewrite (proj2 (same_places_gdt fs G d d' Eb _ (io_group _ _ _ _ Hi))). reflexivity. }
  rewrite Ep. set (pos := inode_pos fs d (inode_num r)) in *.
  assert (Hv : vlen (inode r') = 156) by (unfold vlen; rewrite (proj1 K), (io_len _ _ _ _ Hi); lia).
  rewrite load_offset_blk; [| apply H' | unfold in_range; rewrite (proj1 (proj2 C)); apply Hi].
  cbn [mbind option_bind]. pose proof (io_fits _ _ _ _ Hi) as Hf. fold pos in Hf.
  rewrite (so_block _ _ _ H), read_struct by (unfold INODE_BYTES; lia). cbn [mbind option_bind]. rewrite Es.
  replace (Z.to_nat INODE_BYTES) with (length (inode r')) by (unfold vlen in Hv; unfold INODE_BYTES; lia).
  rewrite splice_read by (rewrite ?vlen_blk; lia). rewrite <- En. by destruct r'.
Qed.

(** Without a free inode the search goes round the groups for good. *)
Lemma ialloc_round is_dir turns g d :
  static_ok fs G d -> 0 <= g <= G -> (forall x, 0 <= x < G -> get_free_inodes_count (group fs d x) = 0) ->
  ialloc_loop fs turns is_dir G g d = Some None.
Proof.
  intros H Hg Hz. pose proof (so_groups _ _ _ H). revert g Hg. induction turns as [| n IH]; intros g Hg; [done |].
  cbn [ialloc_loop]. unfold ialloc_turn. destruct (Z.eqb_spec g G) as [-> | Hne].
  - cbn [mbind option_bind]. apply IH. lia.
  - rewrite (load_new_ok fs G) by (done || lia). cbn [mbind option_bind]. rewrite Hz by lia.
    cbn [Z.ltb Z.compare mbind option_bind]. apply IH. lia.
Qed.
End facts.

(** ** A small volume

    Two groups of 32 blocks: descriptors in block 1, bitmaps in blocks 2 and 3,
    inode tables in blocks 6 and 7; the first eight blocks are taken and no
    inode is free. *)

Definition demo_super : list Z :=
  foldl (fun bs '(o, n, v) => put_field bs o n v) (replicate 1024 0)
    [(0, 4, 32%Z); (4, 4, 64%Z); (24, 4, 2%Z); (32, 4, 32%Z); (40, 4, 16%Z); (88, 2, 256%Z); (254, 2, 64%Z)]%nat.
Definition demo_desc (bmp tab free : Z) : list Z :=
  foldl (fun bs '(o, n, v) => put_field bs o n v) (replicate 64 0) [(0, 4, bmp%Z); (8, 4, tab%Z); (12, 2, free%Z)]%nat.
Definition demo_ext4 : Ext4FileSystem := mkExt4 demo_super 4096.
Definition demo_disk : memory :=
  write_bytes (write_bytes (write_bytes ∅ (DISK_IMAGE_BASE + 1024) demo_super)
    (DISK_IMAGE_BASE + 4096) (demo_desc 2 6 24 ++ demo_desc 3 7 32)) (DISK_IMAGE_BASE + 8192) [255].
Definition demo_inode : Ext4InodeRef := mkInodeRef 3 (replicate 156 0).

Lemma two_groups (P : Z -> Prop) : P 0 -> P 1 -> forall g, 0 <= g < 2 -> P g.
Proof. intros H0 H1 g Hg. assert (g = 0 \/ g = 1) as [-> | ->] by lia; done. Qed.

Lemma demo_static (m : memory) : static_ok demo_ext4 2 m.
Proof.
  split; try (vm_compute; done).
  apply (bool_decide_unpack _). vm_compute. done.
Qed.

Lemma demo_bitmaps : bitmap_at demo_ext4 demo_disk 0 = 2 /\ bitmap_at demo_ext4 demo_disk 1 = 3.
Proof. split; vm_compute; reflexivity. Qed.

Lemma demo_free : free_of demo_ext4 demo_disk 0 = 24 /\ free_of demo_ext4 demo_disk 1 = 32.
Proof. split; vm_compute; reflexivity. Qed.

Lemma demo_pos : inode_pos demo_ext4 demo_disk 3 = 6 * 4096 + 512.
Proof. vm_compute. reflexivity. Qed.

Lemma demo_volume : volume_ok demo_ext4 2 demo_disk.
Proof.
  split; [apply demo_static |..].
  - apply two_groups; [rewrite (proj1 demo_bitmaps) | rewrite (proj2 demo_bitmaps)]; by split.
  - apply two_groups; [rewrite (proj1 demo_bitmaps) | rewrite (proj2 demo_bitmaps)]; done.
  - apply two_groups; [rewrite (proj1 demo_bitmaps) | rewrite (proj2 demo_bitmaps)]; vm_compute; done.
  - intros g g' Hg Hg'. assert (E : g = 0 \/ g = 1) by lia. assert (E' : g' = 0 \/ g' = 1) by lia.
    destruct E as [-> | ->], E' as [-> | ->]; rewrite ?(proj1 demo_bitmaps), ?(proj2 demo_bitmaps); done.
  - apply (two_groups (fun g => u16 (free_of demo_ext4 demo_disk g)));
      [rewrite (proj1 demo_free) | rewrite (proj2 demo_free)]; by split.
Qed.

Lemma demo_inode_ok : inode_ok demo_ext4 2 demo_disk demo_inode.
Proof.
  split; unfold demo_inode; cbn [inode_num inode].
  - by vm_compute.
  - reflexivity.
  - by apply Forall_replicate.
  - rewrite demo_pos. by split.
  - rewrite demo_pos. done.
  - rewrite demo_pos. done.
  - rewrite demo_pos. by vm_compute.
  - rewrite demo_pos. apply two_groups; [rewrite (proj1 demo_bitmaps) | rewrite (proj2 demo_bitmaps)]; done.
Qed.

(** ** Theorems *)



(** One block of a volume given back, with a number of 2 or more in its group,
    stays taken in the bitmap while the count of free blocks goes up: the
    count is passed where the last bit is expected. *)
Theorem freed_block_stays_taken {D} `{!BlockDevice D, !BlockDeviceSpec D} fs G (d : D) r start :
  volume_ok fs G d -> inode_ok fs G d r ->
  let g := start / sb_blocks_per_group (superblock fs) in
  0 <= start -> g < G -> 2 <= start mod sb_blocks_per_group (superblock fs) -> free_of fs d g < 65535 ->
  exists r' d', balloc_free_blocks fs r start 1 d = Some (r', d') /\
    (forall g', 0 <= g' < G -> bitmap fs d' g' = bitmap fs d g') /\
    free_of fs d' g = free_of fs d g + 1.
Proof. apply free_one_ok. Qed.

Lemma freed_block_stays_taken_witness :
  exists r' d', balloc_free_blocks demo_ext4 demo_inode 5 1 demo_disk = Some (r', d') /\
    (forall g', 0 <= g' < 2 -> bitmap demo_ext4 d' g' = bitmap demo_ext4 demo_disk g') /\
    free_of demo_ext4 d' 0 = free_of demo_ext4 demo_disk 0 + 1.
Proof.
  assert (Ep : sb_blocks_per_group (superblock demo_ext4) = 32) by (vm_compute; reflexivity).
  pose proof (proj1 demo_free) as Ef. pose proof (freed_block_stays_taken demo_ext4 2 demo_disk demo_inode 5 demo_volume demo_inode_ok) as H.
  rewrite Ep in H. change (5 / 32) with 0 in H. change (5 mod 32) with 5 in H. cbv zeta in H.
  rewrite Ef in H |- *. apply H; [discriminate | reflexivity | discriminate | reflexivity].
Defined.

(** With no free inode in any group, allocating an inode never returns: the
    loop goes round the groups without an end, for any number of turns. *)
Theorem ialloc_never_ends {D} `{!BlockDevice D, !BlockDeviceSpec D} fs G (d : D) is_dir turns :
  static_ok fs G d -> (forall x, 0 <= x < G -> get_free_inodes_count (group fs d x) = 0) ->
  ialloc_alloc_inode fs turns is_dir d = Some None.
Proof.
  intros H Hz. unfold ialloc_alloc_inode. rewrite (so_count _ _ _ H). cbn [mbind option_bind].
  apply ialloc_round; [done | | done]. pose proof (so_groups _ _ _ H). lia.
Qed.

Lemma ialloc_never_ends_witness : ialloc_alloc_inode demo_ext4 1000 true demo_disk = Some None.
Proof.
  apply (ialloc_never_ends demo_ext4 2); [apply demo_static |]. apply two_groups; vm_compute; reflexivity.
Defined.

(** Without a goal the search starts at group 1: on a volume of one group it
    looks only at the unused descriptor after the last one. *)
Lemma single_group_full {D} `{!BlockDevice D, !BlockDeviceSpec D} fs (d : D) r :
  static_ok fs 1 d -> get_free_blocks_count (group fs d 1) = 0 ->
  balloc_alloc_block fs r None d = Some (Err ENOSPC, r, d).
Proof.
  intros H Hz. unfold balloc_alloc_block. rewrite (so_count _ _ _ H). unfold mbind, option_bind.
  change (Z.to_nat 1) with 1%nat. cbn [balloc_loop].
  assert (E : load_new fs d 1 = Some (group fs d 1)).
  { unfold load_new, group_place. rewrite (so_desc _ _ _ H), (so_block _ _ _ H).
    pose proof (so_size _ _ _ H). pose proof (so_gdt _ _ _ H) as Hr. cbn [Z.eqb].
    change (4096 / 64) with 64. change (1 / 64) with 0. change (1 mod 64 * 64) with 64. cbn [mbind option_bind Z.eqb].
    rewrite Z.add_0_r. fold (gdt fs). rewrite load_blk; [| apply H | done | unfold in_range, BLOCK_SZ in Hr; lia].
    cbn [mbind option_bind]. apply slice_Some. rewrite vlen_blk. done. }
  unfold mbind, option_bind. rewrite E, Hz. reflexivity.
Qed.
