(* ===== verification/Ext4Extent.v ===== *)
(** * ext4: the extent tree of a file

    [fs/ext4/extent.rs]: which block of the disk holds a block of a file. The
    root of the tree is the 60 bytes [block] of the inode, the other nodes are
    blocks; a node is a header of 12 bytes and entries of 12. A read or a write
    outside a node is undefined and a panic here. *)

From S2P Require Import Prelude Address Phys Block BlockCache Fat Efs.
From S2P Require Import Ext4Bitmap Ext4Disk Ext4Alloc.
#[local] Open Scope kernel_scope.

(** ** Headers, indexes and extents *)

Definition EXT_INIT_MAX_LEN : Z := 32768.
Definition EXT_MAX_BLOCKS : Z := 2 ^ 32 - 1.
Definition EXT4_EXTENT_MAGIC : Z := 0xF30A.

Record Ext4ExtentHeader := mkHeader
  { magic : Z; entries_count : Z; max_entries_count : Z; eh_depth : Z; eh_generation : Z }.
Record Ext4ExtentIndex := mkIndex { ei_first_block : Z; leaf_lo : Z; leaf_hi : Z; ei_padding : Z }.
Record Ext4Extent := mkExtent { first_block : Z; block_count : Z; start_hi : Z; start_lo : Z }.

Definition ENTRY : Z := 12.

Definition header_of (b : list Z) : Ext4ExtentHeader :=
  mkHeader (field b 0 2) (field b 2 2) (field b 4 2) (field b 6 2) (field b 8 4).
Definition index_of (b : list Z) : Ext4ExtentIndex :=
  mkIndex (field b 0 4) (field b 4 4) (field b 8 2) (field b 10 2).
Definition extent_of (b : list Z) : Ext4Extent :=
  mkExtent (field b 0 4) (field b 4 2) (field b 6 2) (field b 8 4).
Definition extent_bytes (e : Ext4Extent) : list Z :=
  le_split 4 (first_block e) ++ le_split 2 (block_count e) ++ le_split 2 (start_hi e) ++ le_split 4 (start_lo e).

Definition load_header (b : list Z) : option Ext4ExtentHeader := header_of <$> slice b 0 ENTRY.
Definition load_index (b : list Z) (off : Z) : option Ext4ExtentIndex := index_of <$> slice b off (off + ENTRY).
Definition load_extent (b : list Z) (off : Z) : option Ext4Extent := extent_of <$> slice b off (off + ENTRY).
Definition store_extent (b : list Z) (off : Z) (e : Ext4Extent) : option (list Z) :=
  copy_slice b off (off + ENTRY) (extent_bytes e).

Definition get_pblock (e : Ext4Extent) : Z := Z.lor (start_lo e) (Z.shiftl (start_hi e) 32).
Definition store_pblock (e : Ext4Extent) (pblock : Z) : Ext4Extent :=
  mkExtent (first_block e) (block_count e) (wrap16 (Z.shiftr pblock 32)) (Z.land pblock 0xffffffff).
Definition is_unwritten (e : Ext4Extent) : bool := EXT_INIT_MAX_LEN <? block_count e.
Definition get_actual_len (e : Ext4Extent) : Z :=
  if is_unwritten e then block_count e - EXT_INIT_MAX_LEN else block_count e.
Definition set_actual_len (e : Ext4Extent) (len : Z) : Ext4Extent :=
  mkExtent (first_block e) len (start_hi e) (start_lo e).
Definition mark_unwritten (e : Ext4Extent) : Ext4Extent :=
  set_actual_len e (Z.lor (block_count e) EXT_INIT_MAX_LEN).

(** ** Nodes *)

(** [NodeData] is [Root] or [Internal]; the words of a root are its bytes. *)
Record ExtentNode := mkNode { header : Ext4ExtentHeader; data : list Z; is_root : bool }.
Definition load_from_data (bs : list Z) (root : bool) (block_size : Z) : option ExtentNode :=
  if vlen bs =? (if root then 60 else block_size) then
    h ← load_header bs; Some (mkNode h bs root)
  else None.

(** [while l <= r] over the first blocks of the entries. *)
Fixpoint search_extent (fuel : nat) (bs : list Z) (lblock l r : Z) : option Z :=
  match fuel with
  | O => None
  | S fuel =>
      if l <=? r then
        let m := l + (r - l) / 2 in
        e ← load_extent bs (ENTRY + m * ENTRY);
        if lblock <? first_block e then search_extent fuel bs lblock l (m - 1)
        else search_extent fuel bs lblock (m + 1) r
      else Some l
  end.
Definition binsearch_extent (n : ExtentNode) (lblock : Z) : option (option (Ext4Extent * Z)) :=
  if entries_count (header n) =? 0 then
    e ← load_extent (data n) ENTRY; Some (Some (e, 0))
  else
    l ← search_extent (Z.to_nat (entries_count (header n))) (data n) lblock 1 (entries_count (header n) - 1);
    e ← load_extent (data n) (ENTRY + (l - 1) * ENTRY);
    Some (Some (e, l - 1)).

Fixpoint search_index (fuel : nat) (bs : list Z) (lblock l r : Z) : option Z :=
  match fuel with
  | O => None
  | S fuel =>
      if l <=? r then
        let m := l + (r - l) / 2 in
        i ← load_index bs (ENTRY + m * ENTRY);
        if lblock <? ei_first_block i then
          if m =? 0 then Some l else search_index fuel bs lblock l (m - 1)
        else search_index fuel bs lblock (m + 1) r
      else Some l
  end.
(** The search starts at the second index in the root and at the first one in
    the other nodes. *)
Definition binsearch_idx (n : ExtentNode) (lblock : Z) : option (option Z) :=
  if entries_count (header n) =? 0 then Some None
  else
    l ← search_index (S (Z.to_nat (entries_count (header n)))) (data n) lblock
          (if is_root n then 1 else 0) (entries_count (header n) - 1);
    Some (if l =? 0 then None else Some (l - 1)).

Definition get_index (n : ExtentNode) (pos : Z) : option Ext4ExtentIndex :=
  load_index (data n) (ENTRY + pos * ENTRY).
Definition get_extent (n : ExtentNode) (pos : Z) : option (option Ext4Extent) :=
  e ← load_extent (data n) (ENTRY + pos * ENTRY); Some (Some e).

(** ** The root in the inode *)

Definition root_block (i : list Z) : list Z := take 60 (drop 40 i).
Definition set_root_block (i root : list Z) : list Z := splice i 40 root.
Definition root_extent_header (i : list Z) : Ext4ExtentHeader := header_of (root_block i).
(** [*root_extent_mut_at(pos) = e]. *)
Definition root_extent_put (i : list Z) (pos : Z) (e : Ext4Extent) : option (list Z) :=
  b ← store_extent (root_block i) (ENTRY + pos * ENTRY) e; Some (set_root_block i b).
Definition root_extent_at (i : list Z) (pos : Z) : option Ext4Extent :=
  load_extent (root_block i) (ENTRY + pos * ENTRY).
Definition root_entries_add (i : list Z) : list Z :=
  let b := root_block i in
  set_root_block i (put_field b 2 2 (wrap16 (field b 2 2 + 1))).
Definition extent_tree_init (i : list Z) : list Z :=
  let b := put_field (root_block i) 0 2 EXT4_EXTENT_MAGIC in
  let b := put_field (put_field (put_field (put_field b 2 2 0) 4 2 4) 6 2 0) 8 4 0 in
  set_root_block i b.

(** ** Searching *)

Record ExtentPathNode := mkPathNode
  { p_header : Ext4ExtentHeader; p_index : option Ext4ExtentIndex; p_extent : option Ext4Extent;
    position : Z; pblock : Z; pblock_of_node : Z }.
Record SearchPath := mkPath { sp_depth : Z; maxdepth : Z; path : list ExtentPathNode }.

Section tree.
Context {D : Type} `{!BlockDevice D}.
Context (fs : Ext4FileSystem).

(** [while depth > 0]: down to a leaf; the node, its block, and the path so far. *)
Fixpoint descend (depth : nat) (n : ExtentNode) (blk_of : Z) (lblock : Z) (p : list ExtentPathNode) (d : D)
    : option (ExtentNode * Z * list ExtentPathNode) :=
  match depth with
  | O => Some (n, blk_of, p)
  | S depth =>
      pos ← binsearch_idx n lblock;
      pos ← pos;
      i ← get_index n pos;
      let next := leaf_lo i in
      bs ← read_block d next (block_size fs);
      n' ← load_from_data bs false (block_size fs);
      descend depth n' next lblock (p ++ [mkPathNode (header n) (Some i) None pos next blk_of]) d
  end.
Definition find_extent (i : list Z) (lblock : Z) (d : D) : option SearchPath :=
  root ← load_from_data (root_block i) true (block_size fs);
  '(n, blk_of, p) ← descend (Z.to_nat (eh_depth (header root))) root 0 lblock [] d;
  found ← binsearch_extent n lblock;
  match found with
  | Some (e, pos) =>
      Some (mkPath (wrap16 (vlen p)) (eh_depth (header n))
        (p ++ [mkPathNode (header n) None (Some e) pos (lblock -w first_block e +w get_pblock e) blk_of]))
  | None => Some (mkPath (wrap16 (vlen p)) 4 (p ++ [mkPathNode (header n) None None 0 0 blk_of]))
  end.

(** ** Inserting *)

(** [Block::sync_blk_to_disk] of a block loaded at [offset]. *)
Definition sync_blk_to_disk (bs : list Z) (offset : Z) (d : D) : option D :=
  if block_size fs =? 0 then None
  else if negb (vlen bs mod block_size fs =? 0) then None
  else if negb (offset mod block_size fs =? 0) then None
  else write_block d (offset / block_size fs) bs.

Definition get_extent_from_node (n : ExtentPathNode) (pos : Z) (d : D) : option (option Ext4Extent) :=
  bs ← read_block d (pblock n) (block_size fs);
  n ← load_from_data bs false (block_size fs);
  get_extent n pos.

Definition can_merge (ex1 ex2 : Ext4Extent) : bool :=
  if negb (eqb (is_unwritten ex1) (is_unwritten ex2)) then false
  else if negb (wrap32 (first_block ex1 + get_actual_len ex1) =? first_block ex2) then false
  else if EXT_INIT_MAX_LEN <? wrap16 (get_actual_len ex1 + get_actual_len ex2) then false
  else get_pblock ex1 +w get_actual_len ex1 =? get_pblock ex2.

(** The length of [left] grows by that of [right]. *)
Definition extend (left right : Ext4Extent) : Ext4Extent :=
  let l := set_actual_len left (wrap16 (get_actual_len left + get_actual_len right)) in
  if is_unwritten left then mark_unwritten l else l.
Definition merge_extent (sp : SearchPath) (left right : Ext4Extent) (d : D) : option (Ext4Extent * D) :=
  node ← vec_get (path sp) (sp_depth sp);
  if 4 <? max_entries_count (p_header node) then
    let offset := pblock_of_node node *w block_size fs in
    bs ← load_offset d offset;
    let at_ := (ENTRY + ENTRY * position node) mod BLOCK_SZ in
    old ← load_extent bs at_;
    bs ← store_extent bs at_ (extend old right);
    d ← sync_blk_to_disk bs offset d;
    Some (extend left right, d)
  else Some (extend left right, d).

Definition insert_new_extent (r : Ext4InodeRef) (sp : SearchPath) (e : Ext4Extent) (d : D)
    : option (Ext4InodeRef * D) :=
  node ← vec_get (path sp) (sp_depth sp);
  if sp_depth sp =? 0 then
    if entries_count (p_header node) =? 0 then
      i ← root_extent_put (inode r) (position node) e;
      write_back_inode fs (mkInodeRef (inode_num r) (root_entries_add i)) d
    else
      i ← root_extent_put (inode r) (position node + 1) e;
      Some (mkInodeRef (inode_num r) (root_entries_add i), d)
  else
    let offset := pblock_of_node node *w block_size fs in
    bs ← load_offset d offset;
    bs ← store_extent bs ((ENTRY + ENTRY * (position node + 1)) mod BLOCK_SZ) e;
    let bs := put_field bs 2 2 (wrap16 (field bs 2 2 + 1)) in
    d ← sync_blk_to_disk bs offset d;
    Some (r, d).

(** The root moves to a new block and becomes an index of one entry, whose
    first block is where that of the first extent was; the result is the error
    of the allocation. *)
Definition ext_grow_indepth (r : Ext4InodeRef) (d : D) : option (result unit Z * Ext4InodeRef * D) :=
  '(res, r, d) ← balloc_alloc_block fs r None d;
  match res with
  | Err e => Some (Err e, r, d)
  | Ok new_block =>
      let offset := new_block *w block_size fs in
      bs ← load_offset d offset;
      let root := root_block (inode r) in
      let bs := root ++ replicate (length bs - 60) 0 in
      let bs := put_field bs 0 2 EXT4_EXTENT_MAGIC in
      let bs := put_field bs 4 2 (wrap16 ((block_size fs -w 12) / 12)) in
      let root := put_field root 2 2 1 in
      let root := put_field root 6 2 (wrap16 (field root 6 2 + 1)) in
      let root := put_field (put_field root 16 4 (Z.land new_block 0xffffffff)) 20 2
                    (wrap16 (Z.shiftr new_block 32)) in
      d ← sync_blk_to_disk bs offset d;
      '(r, d) ← write_back_inode fs (mkInodeRef (inode_num r) (set_root_block (inode r) root)) d;
      Some (Ok tt, r, d)
  end.

(** The merge with the extent on the right or the left, when one is possible. *)
Definition try_merge (sp : SearchPath) (node : ExtentPathNode) (e : Ext4Extent) (r : Ext4InodeRef) (d : D)
    : option (option (Ext4InodeRef * D)) :=
  match p_extent node with
  | None => Some None
  | Some ex =>
      if can_merge ex e then
        '(ex, d) ← merge_extent sp ex e d;
        if pblock_of_node node =? 0 then
          i ← root_extent_put (inode r) (position node) ex;
          Some (Some (mkInodeRef (inode_num r) i, d))
        else Some (Some (r, d))
      else
        right ← (if (position node <? entries_count (p_header node) - 1)
                     && (wrap32 (first_block ex + block_count ex) <? first_block e) then
                   next ← get_extent_from_node node (position node + 1) d;
                   match next with
                   | Some next =>
                       if can_merge next e then '(_, d) ← merge_extent sp e next d; Some (Some (r, d))
                       else Some None
                   | None => Some None
                   end
                 else Some None);
        match right with
        | Some done => Some (Some done)
        | None =>
            if (0 <? position node) && (wrap32 (first_block e + block_count e) <? first_block ex) then
              prev ← get_extent_from_node node (position node - 1) d;
              match prev with
              | Some prev =>
                  if can_merge prev e then '(_, d) ← merge_extent sp prev e d; Some (Some (r, d))
                  else Some None
              | None => Some None
              end
            else Some None
        end
  end.

(** [insert_extent] and [create_new_leaf], which calls it again whether or not
    the tree has grown. Neither returns an error. *)
Fixpoint insert_extent (fuel : nat) (r : Ext4InodeRef) (e : Ext4Extent) (d : D) : run (Ext4InodeRef * D) :=
  match fuel with
  | O => OutOfFuel
  | S fuel =>
      sp ← lift (find_extent (inode r) (first_block e) d);
      node ← lift (vec_get (path sp) (sp_depth sp));
      if entries_count (p_header node) =? 0 then lift (insert_new_extent r sp e d)
      else
        merged ← lift (try_merge sp node e r d);
        match merged with
        | Some done => Ret done
        | None =>
            if entries_count (p_header node) <? max_entries_count (p_header node)
            then lift (insert_new_extent r sp e d)
            else
              '(_, r, d) ← lift (ext_grow_indepth r d);
              insert_extent fuel r e d
        end
  end.
End tree.
