(* ===== verification/Ext4ExtentOk.v ===== *)
(** * ext4: the extent tree finds the blocks of a file

    A tree stands for the list of its extents in order; the two binary searches
    and the descent find the one a linear search of the list finds. *)

From S2P Require Import Prelude Address Phys Block BlockCache Fat Efs.
From S2P Require Import Ext4Bitmap Ext4Disk Ext4Alloc Ext4Extent Ext4Ok.
#[local] Open Scope kernel_scope.

(** ** Binary search *)

(** [f] is increasing on the positions of [n] entries. *)
Definition rising (f : Z -> Z) (n : Z) : Prop := forall a b, 0 <= a < b -> b < n -> f a < f b.

Lemma search_extent_ok fuel bs lblock n l r f :
  rising f n -> (forall k, 0 <= k < n -> exists e, load_extent bs (ENTRY + k * ENTRY) = Some e /\ first_block e = f k) ->
  0 <= l -> l <= r + 1 -> r < n -> r + 1 - l < Z.of_nat fuel ->
  (forall k, 0 <= k < l -> k = 0 \/ f k <= lblock) -> (forall k, r < k < n -> lblock < f k) -> 1 <= l ->
  exists p, search_extent fuel bs lblock l r = Some p /\ 1 <= p <= r + 1 /\
    (forall k, 0 < k < p -> f k <= lblock) /\ (forall k, p <= k < n -> lblock < f k).
Proof.
  intros Hf He. revert l r. induction fuel as [| fuel IH]; intros l r H0 Hlr Hr Hfu Hlo Hhi H1; [lia |].
  cbn [search_extent]. destruct (Z.leb_spec l r).
  - assert (Hm : l <= l + (r - l) / 2 <= r) by lia. set (m := l + (r - l) / 2) in *.
    destruct (He m ltac:(lia)) as (e & -> & Ee). cbn [mbind option_bind]. rewrite Ee.
    destruct (Z.ltb_spec lblock (f m)) as [Hlt | Hge].
    + destruct (IH l (m - 1)) as (p & E & Hp & P1 & P2); try lia; [done | |].
      { intros k Hk. destruct (decide (k = m)) as [-> | Hne]; [done |]. pose proof (Hf m k). lia. }
      exists p. split; [done |]. split; [lia |]. by split.
    + destruct (IH (m + 1) r) as (p & E & Hp & P1 & P2); try lia; [| done |].
      { intros k Hk. destruct (decide (k = m)) as [-> | Hne]; [by right |].
        destruct (decide (k = 0)); [by left |]. right. pose proof (Hf k m). lia. }
      exists p. split; [done |]. split; [lia |]. by split.
  - exists l. split; [done |]. split; [lia |]. split; intros k Hk; [| apply Hhi; lia].
    destruct (Hlo k ltac:(lia)); [lia | done].
Qed.

Lemma search_index_ok fuel bs lblock n l0 l r f :
  rising f n -> (forall k, 0 <= k < n -> exists i, load_index bs (ENTRY + k * ENTRY) = Some i /\ ei_first_block i = f k) ->
  f 0 <= lblock -> 0 <= l0 <= l -> l <= r + 1 -> r < n -> r + 1 - l < Z.of_nat fuel -> l0 <= 1 ->
  (forall k, 0 <= k < l -> f k <= lblock) -> (forall k, r < k < n -> lblock < f k) -> 0 < n ->
  exists p, search_index fuel bs lblock l r = Some p /\ 1 <= p <= n /\
    (forall k, 0 <= k < p -> f k <= lblock) /\ (forall k, p <= k < n -> lblock < f k).
Proof.
  intros Hf He Hf0. revert l r. induction fuel as [| fuel IH]; intros l r H0 Hlr Hr Hfu Hl0 Hlo Hhi Hn; [lia |].
  cbn [search_index]. destruct (Z.leb_spec l r).
  - assert (Hm : l <= l + (r - l) / 2 <= r) by lia. set (m := l + (r - l) / 2) in *.
    destruct (He m ltac:(lia)) as (e & -> & Ee). cbn [mbind option_bind]. rewrite Ee.
    destruct (Z.ltb_spec lblock (f m)) as [Hlt | Hge].
    + destruct (Z.eqb_spec m 0) as [Em | Hm0]; [rewrite Em in Hlt; lia |].
      destruct (IH l (m - 1)) as (p & E & Hp & P1 & P2); try lia; [done | |].
      { intros k Hk. destruct (decide (k = m)) as [-> | Hne]; [done |]. pose proof (Hf m k). lia. }
      exists p. split; [done |]. split; [lia |]. by split.
    + destruct (IH (m + 1) r) as (p & E & Hp & P1 & P2); try lia; [| done |].
      { intros k Hk. destruct (decide (k = m)) as [-> | Hne]; [done |]. pose proof (Hf k m). lia. }
      exists p. split; [done |]. split; [lia |]. by split.
  - exists l. split; [done |]. assert (l <> 0).
    { intros ->. pose proof (Hhi 0). lia. }
    split; [lia |]. split; intros k Hk; [apply Hlo; lia | apply Hhi; lia].
Qed.

(** ** The extents in order *)

Definition extents_sorted : list Ext4Extent -> Prop :=
  StronglySorted (fun a b => first_block a < first_block b).

(** The extent a block falls to: the last one that starts at it or before. *)
Definition covering (xs : list Ext4Extent) (lblock : Z) : option Ext4Extent :=
  last (filter (fun e => first_block e <= lblock) xs).

Lemma sorted_lookup xs i j a b :
  extents_sorted xs -> xs !! i = Some a -> xs !! j = Some b -> (i < j)%nat -> first_block a < first_block b.
Proof.
  intros Hs. revert i j. induction Hs as [| x xs Hs IH Hx]; intros i j Hi Hj Hlt; [done |].
  destruct j as [| j]; [lia |]. destruct i as [| i]; cbn in *.
  - simplify_eq. rewrite Forall_forall in Hx. apply Hx. by eapply list_elem_of_lookup_2.
  - eapply IH; [done | done | lia].
Qed.

Lemma sorted_app xs ys :
  extents_sorted (xs ++ ys) ->
  extents_sorted xs /\ extents_sorted ys /\
  forall a b, a ∈ xs -> b ∈ ys -> first_block a < first_block b.
Proof.
  intros H. apply StronglySorted_app in H as (H1 & H2 & H3). split_and!; [done | done |].
  intros a b Ha Hb. by apply H1.
Qed.

(** What lies before the extent found and what lies after do not matter. *)
Lemma covering_mid xs ys zs lblock e :
  covering ys lblock = Some e -> (forall x, x ∈ zs -> lblock < first_block x) ->
  covering (xs ++ ys ++ zs) lblock = Some e.
Proof.
  intros He Hz. unfold covering in *. rewrite !filter_app.
  rewrite (filter_none _ zs) by (intros x Hx; specialize (Hz x Hx); lia). rewrite app_nil_r.
  by rewrite last_app, He.
Qed.

Lemma covering_at xs lblock p e :
  extents_sorted xs -> xs !! p = Some e -> first_block e <= lblock ->
  (forall e', xs !! S p = Some e' -> lblock < first_block e') -> covering xs lblock = Some e.
Proof.
  intros Hs Hp He Hn. rewrite <- (take_drop_middle xs p e Hp).
  apply (covering_mid _ [e]); [unfold covering; by rewrite filter_cons_True |].
  intros x Hx. apply list_elem_of_lookup in Hx as [j Hj]. rewrite lookup_drop in Hj.
  destruct (lookup_lt_is_Some_2 xs (S p)) as [e' He'].
  { apply lookup_lt_Some in Hj. lia. }
  specialize (Hn e' He'). destruct (decide (j = 0%nat)) as [-> |].
  - rewrite Nat.add_0_r in Hj. by simplify_eq.
  - pose proof (sorted_lookup _ _ _ _ _ Hs He' Hj ltac:(lia)). lia.
Qed.

(** ** Trees *)

Definition leaf_ok (bs : list Z) (xs : list Ext4Extent) : Prop :=
  entries_count (header_of bs) = vlen xs /\ xs <> [] /\
  forall k e, xs !! k = Some e -> load_extent bs (ENTRY + Z.of_nat k * ENTRY) = Some e.

(** The extents at a position that lies inside the leaf. *)
Lemma leaf_search bs xs lblock :
  leaf_ok bs xs -> extents_sorted xs -> (forall e, head xs = Some e -> first_block e <= lblock) ->
  exists e p, covering xs lblock = Some e /\ xs !! Z.to_nat p = Some e /\ 0 <= p < vlen xs /\
    forall n, header n = header_of bs -> data n = bs -> binsearch_extent n lblock = Some (Some (e, p)).
Proof.
  intros (Hc & Hne & Hl) Hs Hh. set (f k := default 0 (first_block <$> xs !! Z.to_nat k)).
  assert (Hlen : 0 < vlen xs) by (destruct xs; [done | unfold vlen; cbn; lia]).
  assert (Hk : forall k, 0 <= k < vlen xs -> exists e, xs !! Z.to_nat k = Some e /\ first_block e = f k /\
    load_extent bs (ENTRY + k * ENTRY) = Some e).
  { intros k Hk. unfold vlen in Hk. destruct (lookup_lt_is_Some_2 xs (Z.to_nat k)) as [e He]; [lia |].
    exists e. split; [done |]. unfold f. rewrite He. split; [done |].
    rewrite <- (Hl _ _ He), Z2Nat.id by lia. done. }
  destruct (search_extent_ok (Z.to_nat (vlen xs)) bs lblock (vlen xs) 1 (vlen xs - 1) f)
    as (p & E & Hp & P1 & P2); try lia.
  { intros a b Hab Hb. destruct (Hk a ltac:(lia)) as (ea & La & <- & _).
    destruct (Hk b ltac:(lia)) as (eb & Lb & <- & _). eapply sorted_lookup; [done.. | lia]. }
  { intros k Hk'. destruct (Hk k Hk') as (e & _ & Hf & He). by exists e. }
  destruct (Hk (p - 1)) as (e & Le & Ef & Hld); [lia |]. exists e, (p - 1).
  split; [| split; [done |]; split; [lia |]].
  - eapply covering_at; [done | exact Le | |].
    + destruct (decide (p = 1)) as [-> |]; [| rewrite Ef; apply P1; lia].
      apply Hh. destruct xs; [done |]. exact Le.
    + intros e' He'. destruct (Hk p) as (e2 & L2 & F2 & _).
      { apply lookup_lt_Some in He'. unfold vlen. lia. }
      replace (S (Z.to_nat (p - 1))) with (Z.to_nat p) in He' by lia. simplify_eq. rewrite F2. apply P2.
      apply lookup_lt_Some in He'. unfold vlen. lia.
  - intros n Hh' Hd. unfold binsearch_extent. rewrite Hh', Hc, Hd, (proj2 (Z.eqb_neq _ _)) by lia.
    rewrite E. cbn [mbind option_bind]. rewrite Hld. done.
Qed.

(** A child of an index node: its block, the extents below it, the blocks of
    the nodes below it. *)
Record child := mkChild { c_blk : Z; c_xs : list Ext4Extent; c_nodes : list Z }.

Lemma elem_of_concat {A B} (g : A -> list B) cs x :
  x ∈ concat (g <$> cs) <-> exists c, c ∈ cs /\ x ∈ g c.
Proof.
  rewrite list_elem_of_In, in_concat. split.
  - intros (l & Hl & Hx). apply list_elem_of_In, list_elem_of_fmap in Hl as (c & -> & Hc).
    exists c. split; [done | by apply list_elem_of_In].
  - intros (c & Hc & Hx). exists (g c). rewrite <- !list_elem_of_In. split; [| done].
    apply list_elem_of_fmap. by exists c.
Qed.

Lemma concat_lookup cs j c :
  cs !! j = Some c -> concat (c_xs <$> cs) = concat (c_xs <$> take j cs) ++ c_xs c ++ concat (c_xs <$> drop (S j) cs).
Proof.
  intros Hj. rewrite <- (take_drop_middle cs j c Hj) at 1.
  by rewrite fmap_app, fmap_cons, concat_app.
Qed.

(** Extents of an earlier child come before those of a later one. *)
Lemma children_sorted cs i j ci cj a b :
  extents_sorted (concat (c_xs <$> cs)) -> cs !! i = Some ci -> cs !! j = Some cj -> (i < j)%nat ->
  a ∈ c_xs ci -> b ∈ c_xs cj -> first_block a < first_block b.
Proof.
  intros Hs Hi Hj Hlt Ha Hb. rewrite (concat_lookup cs j cj Hj) in Hs.
  apply sorted_app in Hs as (_ & _ & H). apply H; [| apply elem_of_app; by left].
  apply elem_of_concat. exists ci. split; [| done].
  apply (list_elem_of_lookup_2 _ i). by rewrite lookup_take_lt.
Qed.

Lemma child_sorted cs j c :
  extents_sorted (concat (c_xs <$> cs)) -> cs !! j = Some c -> extents_sorted (c_xs c).
Proof.
  intros Hs Hj. rewrite (concat_lookup _ _ _ Hj) in Hs. apply sorted_app in Hs as (_ & Hs & _).
  by apply sorted_app in Hs as (Hs & _).
Qed.

Lemma head_least xs e x : extents_sorted xs -> head xs = Some e -> x ∈ xs -> first_block e <= first_block x.
Proof.
  intros Hs He Hx. destruct xs as [| y xs]; [done |]. cbn in He. simplify_eq.
  apply StronglySorted_inv in Hs as [_ Hall]. rewrite Forall_forall in Hall.
  apply elem_of_cons in Hx as [-> | Hx]; [lia |]. specialize (Hall x Hx). lia.
Qed.

Lemma head_elem (l : list Ext4Extent) e : head l = Some e -> e ∈ l.
Proof. destruct l as [| x l]; [done |]. cbn. intros [= ->]. by left. Qed.

Section tree.
Context {D : Type} `{!BlockDevice D, !BlockDeviceSpec D}.
Context (fs : Ext4FileSystem).
Implicit Types d : D.

(** The node [bs] of height [depth] holds the extents [xs] in order, with the
    nodes below it in the blocks [ns]; an index has the first block of its
    child. *)
Fixpoint node_ok (depth : nat) (d : D) (bs : list Z) (xs : list Ext4Extent) (ns : list Z) : Prop :=
  match depth with
  | O => leaf_ok bs xs /\ ns = []
  | S depth => exists cs,
      entries_count (header_of bs) = vlen cs /\ cs <> [] /\
      xs = concat (c_xs <$> cs) /\ ns = concat ((fun c => c_blk c :: c_nodes c) <$> cs) /\
      forall j c, cs !! j = Some c -> exists i,
        load_index bs (ENTRY + Z.of_nat j * ENTRY) = Some i /\ leaf_lo i = c_blk c /\
        (exists e, head (c_xs c) = Some e /\ ei_first_block i = first_block e) /\
        in_range d (c_blk c) /\ node_ok depth d (blk d (c_blk c)) (c_xs c) (c_nodes c)
  end.

Record tree_ok d (i : list Z) (xs : list Ext4Extent) (ns : list Z) : Prop := {
  to_inv : bd_inv d;
  to_block : block_size fs = 4096;
  to_len : length i = 156%nat;
  to_node : node_ok (Z.to_nat (eh_depth (root_extent_header i))) d (root_block i) xs ns;
  to_sorted : extents_sorted xs
}.

(** The child a search of an index node goes to. *)
Lemma index_search d depth n xs ns lblock :
  node_ok (S depth) d (data n) xs ns -> header n = header_of (data n) -> extents_sorted xs ->
  (forall e, head xs = Some e -> first_block e <= lblock) ->
  exists p i c, binsearch_idx n lblock = Some (Some p) /\ get_index n p = Some i /\ leaf_lo i = c_blk c /\
    in_range d (c_blk c) /\ node_ok depth d (blk d (c_blk c)) (c_xs c) (c_nodes c) /\
    extents_sorted (c_xs c) /\ (forall e, head (c_xs c) = Some e -> first_block e <= lblock) /\
    (forall e, covering (c_xs c) lblock = Some e -> covering xs lblock = Some e) /\
    c_blk c ∈ ns /\ c_nodes c ⊆ ns.
Proof.
  intros (cs & Hc & Hne & -> & -> & Hch) Hh Hs Hhd.
  set (f k := default 0 (first_block <$> (cs !! Z.to_nat k ≫= fun c => head (c_xs c)))).
  assert (Hlen : 0 < vlen cs) by (destruct cs; [done | unfold vlen; cbn; lia]).
  assert (Hk : forall k, 0 <= k < vlen cs -> exists c i e, cs !! Z.to_nat k = Some c /\
    load_index (data n) (ENTRY + k * ENTRY) = Some i /\ head (c_xs c) = Some e /\ ei_first_block i = f k /\
    f k = first_block e /\ leaf_lo i = c_blk c /\ in_range d (c_blk c) /\
    node_ok depth d (blk d (c_blk c)) (c_xs c) (c_nodes c)).
  { intros k Hk. unfold vlen in Hk. destruct (lookup_lt_is_Some_2 cs (Z.to_nat k)) as [c E]; [lia |].
    destruct (Hch _ _ E) as (i & Ei & Hlo & (e & He & Hf) & Hr & Hn). rewrite Z2Nat.id in Ei by lia.
    exists c, i, e. unfold f. rewrite E. cbn [mbind option_bind]. rewrite He. cbn. by split_and!. }
  assert (Hf0 : f 0 <= lblock).
  { destruct (Hk 0 ltac:(lia)) as (c & i & e & Ec & _ & He & _ & -> & _). apply Hhd.
    destruct cs as [| c' cs]; [done |]. cbn in Ec. injection Ec as <-. cbn.
    destruct (c_xs c'); [done |]. exact He. }
  destruct (search_index_ok (S (Z.to_nat (vlen cs))) (data n) lblock (vlen cs) (if is_root n then 1 else 0)
    (if is_root n then 1 else 0) (vlen cs - 1) f) as (p & E & Hp & P1 & P2); try (destruct (is_root n); lia); try lia.
  { intros a b Hab Hb. destruct (Hk a ltac:(lia)) as (ca & ia & ea & Ca & _ & Ha & _ & -> & _).
    destruct (Hk b ltac:(lia)) as (cb & ib & eb & Cb & _ & Hb' & _ & -> & _).
    eapply children_sorted; [exact Hs | exact Ca | exact Cb | lia | by apply head_elem | by apply head_elem]. }
  { intros k Hk'. destruct (Hk k Hk') as (c & i & e & _ & Ei & _ & Hf & _). by exists i. }
  { intros k Hk'. destruct (is_root n); [| lia]. replace k with 0 by lia. done. }
  destruct (Hk (p - 1) ltac:(lia)) as (c & i & e & Ec & Ei & He & _ & Hfe & Hlo & Hr & Hn).
  exists (p - 1), i, c. split_and!; try done.
  - unfold binsearch_idx. rewrite Hh, Hc, (proj2 (Z.eqb_neq _ _)), E by lia. cbn [mbind option_bind].
    by rewrite (proj2 (Z.eqb_neq p 0)) by lia.
  - by eapply child_sorted.
  - intros e' He'. rewrite He in He'. simplify_eq. rewrite <- Hfe. apply P1. lia.
  - intros e' He'. rewrite (concat_lookup _ _ _ Ec). apply covering_mid; [done |].
    intros x Hx. apply elem_of_concat in Hx as (c' & Hc' & Hx). apply list_elem_of_lookup in Hc' as [j Hj].
    rewrite lookup_drop in Hj. pose proof (lookup_lt_Some _ _ _ Hj) as Hb.
    set (k := (S (Z.to_nat (p - 1)) + j)%nat) in *.
    destruct (Hk (Z.of_nat k)) as (c2 & i2 & e2 & E2 & _ & H2 & _ & F2 & _); [unfold vlen; lia |].
    rewrite Nat2Z.id in E2. simplify_eq. pose proof (P2 (Z.of_nat k) ltac:(unfold vlen; lia)) as Hgt.
    rewrite F2 in Hgt. pose proof (head_least _ e2 x (child_sorted _ _ _ Hs Hj) H2 Hx). lia.
  - apply elem_of_concat. exists c. split; [by eapply list_elem_of_lookup_2 | by left].
  - intros x Hx. apply elem_of_concat. exists c. split; [by eapply list_elem_of_lookup_2 | by right].
Qed.

Lemma load_node d b :
  block_size fs = 4096 -> load_from_data (blk d b) false (block_size fs) =
    Some (mkNode (header_of (take 12 (blk d b))) (blk d b) false).
Proof.
  intros Hb. unfold load_from_data, load_header. rewrite vlen_blk, Hb. cbn [Z.eqb Pos.eqb].
  rewrite (proj2 (slice_Some (blk d b) 0 ENTRY (take 12 (blk d b)))); [done |].
  rewrite vlen_blk. unfold ENTRY. split; [lia |]. split; [lia |]. by rewrite drop_0.
Qed.

Lemma header_take b : header_of (take 12 b) = header_of b.
Proof.
  unfold header_of. f_equal; unfold field, field_bytes; f_equal;
    rewrite skipn_firstn_comm, take_take; f_equal; lia.
Qed.

Lemma descend_ok depth d n b p xs ns lblock :
  bd_inv d -> block_size fs = 4096 -> node_ok depth d (data n) xs ns -> header n = header_of (data n) ->
  extents_sorted xs -> (forall e, head xs = Some e -> first_block e <= lblock) ->
  exists n' b' p' ys, descend fs depth n b lblock p d = Some (n', b', p ++ p') /\ length p' = depth /\
    leaf_ok (data n') ys /\ header n' = header_of (data n') /\ extents_sorted ys /\
    (forall e, head ys = Some e -> first_block e <= lblock) /\
    (forall e, covering ys lblock = Some e -> covering xs lblock = Some e).
Proof.
  intros Hi Hb. revert n b p xs ns. induction depth as [| depth IH]; intros n b p xs ns Hn Hh Hs Hhd.
  { destruct Hn as [Hl _]. exists n, b, [], xs. rewrite app_nil_r. by split_and!. }
  destruct (index_search d depth n xs ns lblock Hn Hh Hs Hhd)
    as (pos & i & c & E1 & E2 & Hlo & Hr & Hc & Hsc & Hhc & Hcov & _).
  cbn [descend]. rewrite E1. cbn [mbind option_bind]. rewrite E2. cbn [mbind option_bind].
  assert (Er : read_block d (c_blk c) (block_size fs) = Some (blk d (c_blk c))) by (rewrite Hb; by apply read_blk).
  rewrite Hlo, Er. cbn [mbind option_bind]. rewrite load_node by done. cbn [mbind option_bind].
  destruct (IH (mkNode (header_of (take 12 (blk d (c_blk c)))) (blk d (c_blk c)) false) (c_blk c)
    (p ++ [mkPathNode (header n) (Some i) None pos (c_blk c) b]) (c_xs c) (c_nodes c))
    as (n' & b' & p' & ys & E & Lp & Hl & Hh' & Hs' & Hhd' & Hcov'); [done | apply header_take | done | done |].
  exists n', b', (mkPathNode (header n) (Some i) None pos (c_blk c) b :: p'), ys.
  split; [rewrite E; by rewrite <- app_assoc |]. split_and!; [by cbn; rewrite Lp | done.. |].
  intros e He. by apply Hcov, Hcov'.
Qed.

(** The block of the disk for a block of the file, by the list of extents. *)
Definition phys (xs : list Ext4Extent) (lblock : Z) : option Z :=
  (fun e => lblock -w first_block e +w get_pblock e) <$> covering xs lblock.

Lemma find_extent_ok d i xs ns lblock :
  tree_ok d i xs ns -> (forall e, head xs = Some e -> first_block e <= lblock) ->
  exists sp node e, find_extent fs i lblock d = Some sp /\ last (path sp) = Some node /\
    covering xs lblock = Some e /\ p_extent node = Some e /\
    pblock node = lblock -w first_block e +w get_pblock e.
Proof.
  intros [Hi Hb Hl Hn Hs] Hhd. unfold find_extent.
  assert (Lr : vlen (root_block i) = 60).
  { unfold vlen, root_block. rewrite length_take, length_drop. lia. }
  assert (E : load_from_data (root_block i) true (block_size fs) =
    Some (mkNode (header_of (take 12 (root_block i))) (root_block i) true)).
  { unfold load_from_data, load_header. rewrite Lr. cbn [Z.eqb Pos.eqb].
    rewrite (proj2 (slice_Some (root_block i) 0 ENTRY (take 12 (root_block i)))); [done |].
    rewrite Lr. unfold ENTRY. split; [lia |]. split; [lia |]. by rewrite drop_0. }
  rewrite E. cbn [mbind option_bind header]. rewrite header_take. fold (root_extent_header i).
  destruct (descend_ok (Z.to_nat (eh_depth (root_extent_header i))) d
    (mkNode (root_extent_header i) (root_block i) true) 0 [] xs ns lblock)
    as (n & b & p & ys & -> & Lp & Hlf & Hh & Hsy & Hhy & Hcov); [done.. |].
  cbn [mbind option_bind]. rewrite app_nil_l.
  destruct (leaf_search (data n) ys lblock Hlf Hsy Hhy) as (e & pos & Hce & _ & _ & Hbin).
  rewrite (Hbin n Hh eq_refl). cbn [mbind option_bind]. do 3 eexists. split; [reflexivity |].
  cbn [path]. split; [apply last_snoc |]. split; [by apply Hcov |]. by split.
Qed.

(** The search depends on the nodes and on nothing else of the device. *)
Lemma node_ok_move depth d d' bs xs ns :
  bd_size d' = bd_size d -> (forall b, b ∈ ns -> blk d' b = blk d b) ->
  node_ok depth d bs xs ns -> node_ok depth d' bs xs ns.
Proof.
  intros Hs. revert bs xs ns. induction depth as [| depth IH]; intros bs xs ns Hb; [done |].
  intros (cs & Hc & Hne & Hx & Hns & Hch). exists cs. split_and!; try done.
  intros j c Hj. destruct (Hch j c Hj) as (i & Hi & Hlo & He & Hr & Hn). exists i. split_and!; try done.
  - unfold in_range in *. by rewrite Hs.
  - assert (Hin : c ∈ cs) by (by eapply list_elem_of_lookup_2).
    rewrite Hb by (rewrite Hns; apply elem_of_concat; exists c; split; [done | by left]).
    apply IH; [| done]. intros b Hin'. apply Hb. rewrite Hns. apply elem_of_concat. exists c. split; [done | by right].
Qed.

Lemma tree_ok_move d d' i xs ns :
  bd_inv d' -> bd_size d' = bd_size d -> (forall b, b ∈ ns -> blk d' b = blk d b) ->
  tree_ok d i xs ns -> tree_ok d' i xs ns.
Proof. intros Hi Hs Hb [? ? ? ? ?]. split; try done. by eapply node_ok_move. Qed.
End tree.
