(* ===== verification/Ext4File.v ===== *)
(** * ext4: reading and writing a file

    [get_pblock_idx] and the appending of blocks of [fs/ext4/ext4_inode.rs],
    [read_at] and [write_at] of
    [fs/ext4/file.rs]. The last part of [write_at], for bytes the loop leaves, is
    never reached. *)

From S2P Require Import Prelude Address Phys Block BlockCache Fat Efs.
From S2P Require Import Ext4Bitmap Ext4Disk Ext4Alloc Ext4Extent.
#[local] Open Scope kernel_scope.

Section file.
Context {D : Type} `{!BlockDevice D}.
Context (fs : Ext4FileSystem).

Definition get_pblock_idx (i : list Z) (lblock : Z) (d : D) : option Z :=
  sp ← find_extent fs i lblock d;
  pblock <$> last (path sp).

(** The number of blocks [size] bytes take. *)
Definition blocks_of (size : Z) : Z := (size +w block_size fs -w 1) / block_size fs.

(** What [append_inode_pblk] and [append_inode_pblk_from] do with the block they
    have: the extent of one block after the end of the file, and the size. *)
Definition append_block (fuel : nat) (iblock new_block : Z) (r : Ext4InodeRef) (d : D) : run (Ext4InodeRef * D) :=
  let e := store_pblock (mkExtent iblock 0 0 0) new_block in
  let e := set_actual_len e (wrap16 (Z.min 1 (EXT_MAX_BLOCKS - iblock))) in
  '(r, d) ← insert_extent fs fuel r e d;
  let i := set_size (inode r) (inode_size (inode r) +w block_size fs) in
  lift (write_back_inode fs (mkInodeRef (inode_num r) i) d).
Definition append_inode_pblk (fuel : nat) (r : Ext4InodeRef) (d : D) : run (result Z Z * Ext4InodeRef * D) :=
  let iblock := wrap32 (blocks_of (inode_size (inode r))) in
  '(res, r, d) ← lift (balloc_alloc_block fs r None d);
  match res with
  | Ok b => '(r, d) ← append_block fuel iblock b r d; Ret (Ok b, r, d)
  | Err e => Ret (Err e, r, d)
  end.
Definition append_inode_pblk_from (fuel : nat) (r : Ext4InodeRef) (start_bgid : Z) (d : D)
    : run (result Z Z * Z * Ext4InodeRef * D) :=
  let iblock := wrap32 (blocks_of (inode_size (inode r))) in
  '(res, bgid, r, d) ← lift (balloc_alloc_block_from fs r start_bgid d);
  match res with
  | Ok b => '(r, d) ← append_block fuel iblock b r d; Ret (Ok b, bgid, r, d)
  | Err e => Ret (Err e, bgid, r, d)
  end.

(** ** Reading *)

(** The loop over whole blocks: [left] bytes from block [iblock] on. *)
Fixpoint read_loop (fuel : nat) (i : list Z) (iblock left : Z) (d : D) : option (list Z) :=
  match fuel with
  | O => Some []
  | S fuel =>
      if left <=? 0 then Some []
      else
        let n := Z.min (block_size fs) left in
        p ← get_pblock_idx i (wrap32 iblock) d;
        bs ← read_block d p (block_size fs);
        chunk ← slice bs 0 n;
        rest ← read_loop fuel i (iblock + 1) (left - n) d;
        Some (chunk ++ rest)
  end.
(** The bytes read of a buffer of [n]; the file is not read past its end. *)
Definition read_at (num offset n : Z) (d : D) : option (list Z) :=
  if n =? 0 then Some []
  else
    r ← get_inode_ref fs d num;
    let size := inode_size (inode r) in
    if size <=? offset then Some []
    else
      let n := if size <? offset +w n then size - offset else n in
      let n := Z.min n (size - offset) in
      let un := offset mod block_size fs in
      let iblock := offset / block_size fs in
      if 0 <? un then
        let m := Z.min (block_size fs - un) n in
        p ← get_pblock_idx (inode r) (wrap32 iblock) d;
        bs ← read_block d p BLOCK_SZ;
        chunk ← slice bs un (un + m);
        rest ← read_loop (Z.to_nat n) (inode r) (iblock + 1) (n - m) d;
        Some (chunk ++ rest)
      else read_loop (Z.to_nat n) (inode r) iblock n d.

(** ** Writing *)

Definition write_offset (bs : list Z) (offset : Z) (src : list Z) : option (list Z) :=
  if offset + vlen src <=? vlen bs then copy_slice bs offset (offset + vlen src) src else None.

(** A block of the file, appended when it is past the [ifile_blocks] it had. *)
Definition block_for_write (fuel : nat) (ifile_blocks iblk start_bgid : Z) (r : Ext4InodeRef) (d : D)
    : run (result Z Z * Z * Ext4InodeRef * D) :=
  if iblk <? ifile_blocks then
    p ← lift (get_pblock_idx (inode r) (wrap32 iblk) d); Ret (Ok p, start_bgid, r, d)
  else append_inode_pblk_from fuel r start_bgid d.

(** The inner loop: a run of blocks that follow each other on the disk, from
    [fstart] on, [fcount] so far; a block that does not follow ends the run. *)
Record write_state := mkW { w_bgid : Z; w_inode : Ext4InodeRef; w_disk : D }.
Fixpoint gather (n : nat) (fuel : nat) (ifile_blocks iblk fstart fcount : Z) (w : write_state)
    : run (result (Z * Z * Z) Z * write_state) :=
  match n with
  | O => Ret (Ok (iblk, fstart, fcount), w)
  | S n =>
      '(res, bgid, r, d) ← block_for_write fuel ifile_blocks iblk (w_bgid w) (w_inode w) (w_disk w);
      let w := mkW bgid r d in
      match res with
      | Err e => Ret (Err e, w)
      | Ok p =>
          let fstart := if fstart =? 0 then p else fstart in
          if negb (fstart +w fcount =? p) then Ret (Ok (iblk, fstart, fcount), w)
          else gather n fuel ifile_blocks (iblk + 1) fstart (fcount + 1) w
      end
  end.

(** [for i in 0..fblock_count]; the bytes of [buf] that are left. *)
Fixpoint write_run (n : nat) (block : Z) (buf : list Z) (d : D) : option (list Z * D) :=
  match n with
  | O => Some (buf, d)
  | S n =>
      let offset := block *w block_size fs in
      bs ← load_offset d offset;
      let size := Z.min (block_size fs) (vlen buf) in
      bs ← write_offset bs 0 (take (Z.to_nat size) buf);
      d ← sync_blk_to_disk fs bs offset d;
      write_run n (block + 1) (drop (Z.to_nat size) buf) d
  end.

(** [while written < write_buf_len], by the bytes left to write. *)
Fixpoint write_loop (rounds fuel : nat) (ifile_blocks iblock_last iblk : Z) (buf : list Z) (w : write_state)
    : run (result Z Z * list Z * write_state) :=
  match buf with
  | [] => Ret (Ok iblk, [], w)
  | _ =>
      match rounds with
      | O => OutOfFuel
      | S rounds =>
          '(res, w) ← gather (Z.to_nat (iblock_last - iblk)) fuel ifile_blocks iblk 0 0 w;
          match res with
          | Err e => Ret (Err e, buf, w)
          | Ok (iblk, fstart, fcount) =>
              '(buf, d) ← lift (write_run (Z.to_nat fcount) fstart buf (w_disk w));
              write_loop rounds fuel ifile_blocks iblock_last iblk buf (mkW (w_bgid w) (w_inode w) d)
          end
      end
  end.

(** The write before the first whole block. *)
Definition write_head (fuel : nat) (ifile_blocks iblk unaligned : Z) (buf : list Z) (w : write_state)
    : run (result Z Z * list Z * write_state) :=
  if 0 <? unaligned then
    let len := Z.min (vlen buf) (block_size fs - unaligned) in
    '(res, bgid, r, d) ← block_for_write fuel ifile_blocks iblk (w_bgid w) (w_inode w) (w_disk w);
    match res with
    | Err e => Ret (Err e, buf, mkW bgid r d)
    | Ok p =>
        let offset := p *w block_size fs in
        bs ← lift (load_offset d offset);
        bs ← lift (write_offset bs unaligned (take (Z.to_nat len) buf));
        d ← lift (sync_blk_to_disk fs bs offset d);
        Ret (Ok (iblk + 1), drop (Z.to_nat len) buf, mkW bgid r d)
    end
  else Ret (Ok iblk, buf, w).

(** The bytes written, or the error of an allocation; [rounds] and [fuel]
    bound the loop and the insertions. *)
Definition write_at (rounds fuel : nat) (num offset : Z) (buf : list Z) (d : D) : run (result Z Z * D) :=
  if vlen buf =? 0 then Ret (Ok 0, d)
  else
    r ← lift (get_inode_ref fs d num);
    let size := inode_size (inode r) in
    let iblock_last := blocks_of (offset +w vlen buf) in
    '(res, rest, w) ← write_head fuel (blocks_of size) (offset / block_size fs) (offset mod block_size fs) buf
                        (mkW 1 r d);
    match res with
    | Err e => Ret (Err e, w_disk w)
    | Ok iblk =>
        '(res, _, w) ← write_loop rounds fuel (blocks_of size) iblock_last iblk rest w;
        match res with
        | Err e => Ret (Err e, w_disk w)
        | Ok _ =>
            if size <? offset +w vlen buf then
              let i := set_size (inode (w_inode w)) (offset +w vlen buf) in
              '(_, d) ← lift (write_back_inode fs (mkInodeRef (inode_num (w_inode w)) i) (w_disk w));
              Ret (Ok (vlen buf), d)
            else Ret (Ok (vlen buf), w_disk w)
        end
    end.
End file.
