(* ===== verification/Ext4FileOk.v ===== *)
(** * ext4: a file is its bytes

    Reading and writing inside a file, through the inode, the extent tree and
    the blocks, behave as reading and writing the bytes of the file. *)

From S2P Require Import Prelude Address Phys Block BlockCache Fat Efs.
From S2P Require Import Ext4Bitmap Ext4Disk Ext4Alloc Ext4Ok Ext4AllocOk.
From S2P Require Import Ext4Extent Ext4ExtentOk Ext4File.
#[local] Open Scope kernel_scope.

Section bytes.
Context {D : Type} `{!BlockDevice D, !BlockDeviceSpec D}.
Context (fs : Ext4FileSystem) (G : Z).
Context (r : Ext4InodeRef) (xs : list Ext4Extent) (ns : list Z).
Implicit Types d : D.

Definition fsize : Z := inode_size (inode r).
Definition nblocks : Z := (fsize + 4095) / 4096.
Definition inode_blk d : Z := inode_pos fs d (inode_num r) / 4096.

(** The file of inode [r], whose extents are [xs] and whose tree is in the
    blocks [ns]: its blocks are distinct and apart from the metadata. *)
Record file_ok d : Prop := {
  fo_static : static_ok fs G d;
  fo_inode : inode_ok fs G d r;
  fo_on_disk : take 156 (drop (Z.to_nat (inode_pos fs d (inode_num r) mod 4096)) (blk d (inode_blk d))) = inode r;
  fo_tree : tree_ok fs d (inode r) xs ns;
  fo_first : forall e, head xs = Some e -> first_block e = 0;
  fo_size : 0 <= fsize < 2 ^ 43;
  fo_block : forall k, 0 <= k < nblocks -> exists b, phys xs k = Some b /\ in_range d b /\
    b <> 0 /\ b <> gdt fs /\ b <> inode_blk d /\ b ∉ ns;
  fo_inj : forall k k' b, 0 <= k < nblocks -> 0 <= k' < nblocks -> phys xs k = Some b -> phys xs k' = Some b -> k = k'
}.

(** Byte [p] of the file. *)
Definition file_byte d (p : Z) : Z :=
  default 0 (blk d (default 0 (phys xs (p / 4096))) !! Z.to_nat (p mod 4096)).

Lemma nblocks_bound d p : file_ok d -> 0 <= p < fsize -> 0 <= p / 4096 < nblocks.
Proof. intros H Hp. unfold nblocks. lia. Qed.

Lemma nblocks_u32 d : file_ok d -> nblocks < 2 ^ 32.
Proof. intros H. pose proof (fo_size d H). unfold nblocks. lia. Qed.

Lemma get_inode d : file_ok d -> get_inode_ref fs d (inode_num r) = Some r.
Proof.
  intros [Hs [Hg Hl Hb Hr Hf _ _ _] Hd _ _ _ _ _]. unfold get_inode_ref, mbind, option_bind. rewrite (disk_pos_ok fs G) by assumption.
  rewrite load_offset_blk; [| apply Hs | assumption]. cbn [mbind option_bind].
  rewrite (so_block _ _ _ Hs), read_struct by (unfold INODE_BYTES; lia). cbn [mbind option_bind].
  assert (E : Z.to_nat INODE_BYTES = 156%nat) by reflexivity.
  rewrite E. unfold inode_blk in Hd. rewrite Hd. f_equal. by destruct r.
Qed.

Lemma pblock_idx d k :
  file_ok d -> 0 <= k < nblocks -> get_pblock_idx fs (inode r) (wrap32 k) d = phys xs k.
Proof.
  intros H Hk. pose proof (nblocks_u32 d H). rewrite wrapn_small by (unfold fits; lia).
  destruct (find_extent_ok fs d (inode r) xs ns k) as (sp & node & e & E & El & Ec & _ & Ep); [apply H | |].
  { intros e He. rewrite (fo_first d H e He). lia. }
  unfold get_pblock_idx. rewrite E. cbn [mbind option_bind]. rewrite El. unfold phys. rewrite Ec.
  cbn. by rewrite Ep.
Qed.

(** A piece of a block of the file. *)
Lemma chunk_ok d k b un m :
  phys xs k = Some b -> 0 <= un -> 0 <= m -> un + m <= 4096 -> 0 <= k ->
  slice (blk d b) un (un + m) = Some (file_byte d <$> seqZ (k * 4096 + un) m).
Proof.
  intros Hb Hu Hm Hl Hk. apply slice_Some. rewrite vlen_blk. split; [lia |]. split; [lia |].
  replace (un + m - un) with m by lia. apply list_eq. intros j. rewrite list_lookup_fmap.
  destruct (decide (j < Z.to_nat m)%nat).
  - rewrite lookup_seqZ_lt, lookup_take_lt, lookup_drop by lia. cbn. unfold file_byte.
    replace ((k * 4096 + un + Z.of_nat j) / 4096) with k by lia. rewrite Hb. cbn [from_option id].
    replace ((k * 4096 + un + Z.of_nat j) mod 4096) with (un + Z.of_nat j) by lia.
    destruct (lookup_lt_is_Some_2 (blk d b) (Z.to_nat (un + Z.of_nat j))) as [x Hx]; [rewrite length_blk; lia |].
    rewrite Hx. cbn. rewrite <- Hx. f_equal. lia.
  - rewrite lookup_seqZ_ge, lookup_take_ge by lia. done.
Qed.

Lemma read_loop_ok fuel d k left :
  file_ok d -> 0 <= k -> 0 <= left <= Z.of_nat fuel -> (left = 0 \/ k * 4096 + left <= fsize) ->
  read_loop fs fuel (inode r) k left d = Some (file_byte d <$> seqZ (k * 4096) left).
Proof.
  intros H. pose proof (so_block _ _ _ (fo_static d H)) as Hbs. revert k left.
  induction fuel as [| fuel IH]; intros k left Hk Hl Hs.
  { assert (left = 0) as -> by lia. done. }
  cbn [read_loop]. destruct (Z.leb_spec left 0); [assert (left = 0) as -> by lia; done |].
  assert (Hkb : 0 <= k < nblocks) by (unfold nblocks; lia).
  rewrite pblock_idx by done. destruct (fo_block d H k Hkb) as (b & Hb & Hr & _). rewrite Hb, Hbs. cbn [mbind option_bind].
  assert (Er : read_block d b 4096 = Some (blk d b)) by (by apply read_blk; [apply (fo_static d H) |]).
  rewrite Er. cbn [mbind option_bind]. set (n := Z.min 4096 left). pose proof (chunk_ok d k b 0 n Hb) as E. rewrite Z.add_0_l in E.
  rewrite E, IH by lia. cbn [mbind option_bind].
  replace left with (n + (left - n)) at 2 by lia. rewrite seqZ_app, fmap_app by lia. rewrite Z.add_0_r.
  destruct (decide (left <= 4096)); [replace (left - n) with 0 by lia; done |].
  replace (k * 4096 + n) with ((k + 1) * 4096) by lia. done.
Qed.

Lemma read_ok d offset n :
  file_ok d -> 0 <= offset -> 0 <= n -> offset + n < 2 ^ 64 ->
  read_at fs (inode_num r) offset n d = Some (file_byte d <$> seqZ offset (Z.min n (fsize - offset))).
Proof.
  intros H Ho Hn Hw. pose proof (so_block _ _ _ (fo_static d H)) as Hbs. unfold read_at.
  destruct (Z.eqb_spec n 0) as [-> |].
  { rewrite (seqZ_nil _ (Z.min 0 (fsize - offset))) by lia. done. }
  rewrite get_inode by done. cbn [mbind option_bind]. fold fsize.
  destruct (Z.leb_spec fsize offset); [by rewrite seqZ_nil by lia |].
  rewrite (wrap64_small (offset + n)) by lia.
  replace (Z.min (if fsize <? offset + n then fsize - offset else n) (fsize - offset))
    with (Z.min n (fsize - offset)) by (destruct (Z.ltb_spec fsize (offset + n)); lia).
  set (m := Z.min n (fsize - offset)). rewrite Hbs. destruct (Z.ltb_spec 0 (offset mod 4096)).
  - assert (Hk : 0 <= offset / 4096 < nblocks) by (unfold nblocks; lia).
    rewrite pblock_idx by done. destruct (fo_block d H _ Hk) as (b & Hb & Hr & _). rewrite Hb. cbn [mbind option_bind].
    rewrite read_blk by (done || apply (fo_static d H)). cbn [mbind option_bind].
    set (un := offset mod 4096) in *. set (h := Z.min (4096 - un) m).
    rewrite (chunk_ok d (offset / 4096) b un h Hb) by lia. cbn [mbind option_bind].
    rewrite read_loop_ok; [| done | lia | lia |].
    + cbn [mbind option_bind]. replace (offset / 4096 * 4096 + un) with offset by lia.
      replace m with (h + (m - h)) at 2 by lia. rewrite seqZ_app, fmap_app by lia. do 2 f_equal.
      destruct (decide (m <= 4096 - un)); [replace (m - h) with 0 by lia; done |].
      replace (offset + h) with ((offset / 4096 + 1) * 4096) by lia. done.
    + destruct (decide (m <= 4096 - un)); [left | right]; lia.
  - rewrite read_loop_ok; [| done | lia | lia | right; lia].
    replace (offset / 4096 * 4096) with offset by lia. done.
Qed.

(** ** Writing *)

(** [d'] is [d] with the bytes [src] at [pos] of the file, and nothing outside
    the blocks of the file is different. *)
Record wrote d d' (pos : Z) (src : list Z) : Prop := {
  wr_file : file_ok d';
  wr_bytes : forall p, 0 <= p < nblocks * 4096 -> file_byte d' p =
    if decide (pos <= p < pos + vlen src) then default 0 (src !! Z.to_nat (p - pos)) else file_byte d p;
  wr_rest : forall j, (forall k, 0 <= k < nblocks -> phys xs k <> Some j) -> blk d' j = blk d j
}.

Lemma wrote_nil d pos : file_ok d -> wrote d d pos [].
Proof. intros H. split; [done | | done]. intros p Hp. rewrite decide_False; [done |]. unfold vlen. cbn. lia. Qed.

Lemma wrote_app d d1 d2 pos s1 s2 :
  wrote d d1 pos s1 -> wrote d1 d2 (pos + vlen s1) s2 -> wrote d d2 pos (s1 ++ s2).
Proof.
  intros [_ B1 R1] [F2 B2 R2]. split; [done | | intros j Hj; by rewrite R2, R1].
  intros p Hp. rewrite B2, B1 by done. unfold vlen. rewrite length_app. repeat case_decide; try lia; try done.
  - rewrite lookup_app_r by lia. do 2 f_equal. lia.
  - rewrite lookup_app_l by lia. done.
Qed.

Lemma file_ok_changed d d' k b :
  file_ok d -> 0 <= k < nblocks -> phys xs k = Some b -> changed (fun j => j = b) d d' -> file_ok d'.
Proof.
  intros [Hs Hi Hd Ht Hf Hz Hb Hinj] Hk Eb C. destruct (Hb k Hk) as (b' & Eb' & Hr & Hb0 & Hbg & Hbi & Hbn).
  rewrite Eb in Eb'. injection Eb' as <-. pose proof C as (Hinv & Hsz & Hsame).
  assert (Eg : blk d' (gdt fs) = blk d (gdt fs)) by (apply Hsame; done).
  assert (Ep : inode_pos fs d' (inode_num r) = inode_pos fs d (inode_num r)).
  { unfold inode_pos. rewrite (proj2 (same_places_gdt fs G d d' Eg _ (io_group _ _ _ _ Hi))). reflexivity. }
  assert (Ei : inode_blk d' = inode_blk d) by (unfold inode_blk; by rewrite Ep).
  split.
  - by eapply static_changed.
  - apply (inode_ok_move fs G d d' r r Hi);
      [exact Hsz | by apply same_places_gdt | reflexivity | reflexivity | apply Hi].
  - rewrite Ei, Ep, Hsame; [exact Hd |]. intros E. apply Hbi. by rewrite E.
  - apply (tree_ok_move fs d d'); [exact Hinv | exact Hsz | | exact Ht]. intros j Hj. apply Hsame. intros E. apply Hbn. by rewrite <- E.
  - exact Hf.
  - exact Hz.
  - intros k' Hk'. destruct (Hb k' Hk') as (b' & E' & Hr' & Hrest). exists b'. rewrite Ei.
    split; [exact E' |]. split; [| exact Hrest]. unfold in_range in *. by rewrite Hsz.
  - exact Hinj.
Qed.

(** A block of the file, changed in part and written back. *)
Lemma put_block d k b un src :
  file_ok d -> 0 <= k < nblocks -> phys xs k = Some b -> bytes src -> 0 <= un -> un + vlen src <= 4096 ->
  exists bs d', load_offset d (b *w block_size fs) = Some (blk d b) /\ write_offset (blk d b) un src = Some bs /\
    sync_blk_to_disk fs bs (b *w block_size fs) d = Some d' /\ wrote d d' (k * 4096 + un) src.
Proof.
  intros H Hk Eb Hsrc Hun Hlen. pose proof (fo_static d H) as Hs. pose proof (so_block _ _ _ Hs) as Hbs.
  destruct (fo_block d H k Hk) as (b' & Eb' & Hr & _). rewrite Eb in Eb'. injection Eb' as <-.
  assert (Hv : 0 <= vlen src) by (unfold vlen; lia).
  assert (Hw : 0 <= b /\ b * 4096 < 2 ^ 64).
  { destruct Hr as [? Hr]. pose proof (so_size _ _ _ Hs). unfold BLOCK_SZ in Hr. lia. }
  rewrite Hbs. set (bs := splice (blk d b) un src).
  assert (Lbs : length bs = 4096%nat).
  { unfold bs. rewrite length_splice by (rewrite ?vlen_blk; lia). apply length_blk. }
  assert (Bbs : bytes bs) by (apply bytes_splice; [apply bytes_blk, Hs | done]).
  destruct (write_changed fs G d b bs Hs Hr Bbs Lbs) as (d' & E & C & Ed).
  exists bs, d'. split; [apply load_blk; [apply Hs | done | lia] |]. split.
  { unfold write_offset. rewrite vlen_blk, (proj2 (Z.leb_le _ _)) by lia. apply copy_slice_Some.
    rewrite vlen_blk. split; [lia |]. split; [lia |]. split; [lia |]. done. }
  split.
  { unfold sync_blk_to_disk. rewrite Hbs. cbn [Z.eqb]. unfold vlen. rewrite Lbs.
    change (Z.of_nat 4096 mod 4096) with 0. rewrite wrap64_small, Z.mod_mul, Z.div_mul by lia. exact E. }
  split.
  - by eapply file_ok_changed.
  - intros p Hp. unfold file_byte. assert (Hkp : 0 <= p / 4096 < nblocks) by lia.
    destruct (fo_block d H _ Hkp) as (bp & Ebp & _). rewrite Ebp. cbn [from_option id].
    destruct (decide (p / 4096 = k)) as [Ek | Hne].
    + rewrite Ek, Eb in Ebp. injection Ebp as <-. rewrite Ed. unfold bs. case_decide.
      * pose proof (splice_read (blk d b) un src Hun ltac:(rewrite vlen_blk; lia)) as Hsp.
        assert (Hi : (Z.to_nat (p - (k * 4096 + un)) < length src)%nat) by (unfold vlen in *; lia).
        rewrite <- Hsp at 2. rewrite lookup_take_lt, lookup_drop by done. do 2 f_equal. lia.
      * rewrite splice_lookup_out by (rewrite ?vlen_blk; lia). done.
    + rewrite decide_False by lia. rewrite (proj2 (proj2 C)); [done |].
      intros ->. apply Hne. by eapply (fo_inj d H).
  - intros j Hj. apply C. intros ->. by apply (Hj k).
Qed.

Lemma wrote_none d d' pos pos' : wrote d d' pos [] -> wrote d d' pos' [].
Proof.
  intros [F B R]. split; [done | | done]. intros p Hp. rewrite B by done.
  rewrite !decide_False by (unfold vlen; cbn [length]; lia). done.
Qed.

Lemma write_run_ok n d k fstart buf :
  file_ok d -> bytes buf -> 0 <= k -> k + Z.of_nat n <= nblocks ->
  (forall j, k <= j < k + Z.of_nat n -> phys xs j = Some (fstart + (j - k))) ->
  exists d', write_run fs n fstart buf d = Some (drop (n * 4096) buf, d') /\
    wrote d d' (k * 4096) (take (n * 4096) buf).
Proof.
  revert d k fstart buf. induction n as [| n IH]; intros d k fstart buf H Hb Hk Hn Hph.
  { exists d. split; [done |]. by apply wrote_nil. }
  pose proof (so_block _ _ _ (fo_static d H)) as Hbs.
  assert (Hlen : 0 <= vlen buf) by (unfold vlen; lia).
  assert (Et : take (Z.to_nat (Z.min 4096 (vlen buf))) buf = take 4096 buf).
  { destruct (decide (vlen buf <= 4096)).
    - rewrite !take_ge by (unfold vlen in *; lia). done.
    - f_equal. lia. }
  assert (Ed : drop (Z.to_nat (Z.min 4096 (vlen buf))) buf = drop 4096 buf).
  { destruct (decide (vlen buf <= 4096)).
    - rewrite !drop_ge by (unfold vlen in *; lia). done.
    - f_equal. lia. }
  assert (Hph0 : phys xs k = Some fstart) by (rewrite (Hph k) by lia; f_equal; lia).
  destruct (put_block d k fstart 0 (take 4096 buf) H) as (bs & d1 & E1 & E2 & E3 & W1);
    [lia | done | by apply Forall_take | lia | unfold vlen; rewrite length_take; lia |].
  cbn [write_run]. unfold mbind, option_bind. rewrite E1, Hbs, Et, E2, <- Hbs, E3, Hbs, Ed.
  destruct (IH d1 (k + 1) (fstart + 1) (drop 4096 buf)) as (d2 & E & W2);
    [apply W1 | by apply Forall_drop | lia | lia | |].
  { intros j Hj. rewrite (Hph j) by lia. f_equal. lia. }
  exists d2. rewrite E. split; [by rewrite drop_drop |].
  change (S n * 4096)%nat with (4096 + n * 4096)%nat. rewrite <- take_take_drop.
  eapply wrote_app; [rewrite Z.add_0_r in W1; exact W1 |].
  destruct (decide (vlen buf <= 4096)) as [Hs | Hl]; unfold vlen in Hs || unfold vlen in Hl.
  - rewrite (drop_ge buf 4096) in W2 |- * by lia. rewrite take_nil in *. by eapply wrote_none.
  - replace (k * 4096 + vlen (take 4096 buf)) with ((k + 1) * 4096); [exact W2 |].
    unfold vlen. rewrite length_take. lia.
Qed.

Lemma block_in_file fuel k g d :
  file_ok d -> 0 <= k < nblocks -> exists b, phys xs k = Some b /\ 0 < b < 2 ^ 52 /\
    block_for_write fs fuel nblocks k g r d = Ret (Ok b, g, r, d).
Proof.
  intros H Hk. destruct (fo_block d H k Hk) as (b & Eb & [Hr0 Hr1] & Hb0 & _). exists b.
  split; [done |]. pose proof (so_size _ _ _ (fo_static d H)) as Hsz. unfold BLOCK_SZ in Hr1. split; [lia |].
  unfold block_for_write. rewrite (proj2 (Z.ltb_lt _ _)) by lia. rewrite pblock_idx, Eb by done. done.
Qed.

(** The run of blocks from [k0] on that is gathered. *)
Lemma gather_ok n fuel k0 k fstart g d :
  file_ok d -> 0 <= k0 <= k -> k + Z.of_nat n <= nblocks ->
  (k = k0 -> fstart = 0) -> (k <> k0 -> fstart <> 0) ->
  (forall j, k0 <= j < k -> phys xs j = Some (fstart + (j - k0))) ->
  exists k' fstart', gather fs n fuel nblocks k fstart (k - k0) (mkW g r d) =
      Ret (Ok (k', fstart', k' - k0), mkW g r d) /\
    k <= k' <= k + Z.of_nat n /\ ((0 < n)%nat -> k0 < k') /\
    (forall j, k0 <= j < k' -> phys xs j = Some (fstart' + (j - k0))).
Proof.
  intros H. pose proof (nblocks_u32 d H) as Hnb. revert k fstart. induction n as [| n IH]; intros k fstart Hk Hn H0 H1 Hph.
  { exists k, fstart. split; [done |]. split; [lia |]. split; [lia | done]. }
  cbn [gather w_bgid w_inode w_disk]. destruct (block_in_file fuel k g d H) as (b & Eb & Hb & ->); [lia |].
  cbn [mbind run_bind]. destruct (decide (k = k0)) as [-> | Hne].
  - rewrite (H0 eq_refl). cbn [Z.eqb]. rewrite Z.sub_diag, Z.add_0_r, wrap64_small by lia.
    rewrite Z.eqb_refl. cbn [negb]. replace (0 + 1) with (k0 + 1 - k0) by lia.
    destruct (IH (k0 + 1) b) as (k' & fs' & E & Hk' & _ & Hp'); [lia | lia | lia | lia | |].
    { intros j Hj. replace j with k0 by lia. rewrite Eb. f_equal. lia. }
    exists k', fs'. split; [exact E |]. split; [lia |]. split; [lia | done].
  - rewrite (proj2 (Z.eqb_neq fstart 0)) by auto.
    destruct (block_in_file fuel k0 g d H) as (b0 & Eb0 & Hb0 & _); [lia |].
    assert (fstart = b0) as -> by (rewrite (Hph k0) in Eb0 by lia; injection Eb0; lia).
    rewrite wrap64_small by lia. destruct (Z.eqb_spec (b0 + (k - k0)) b) as [Ec | Hc]; cbn [negb].
    + replace (k - k0 + 1) with (k + 1 - k0) by lia.
      destruct (IH (k + 1) b0) as (k' & fs' & E & Hk' & _ & Hp'); [lia | lia | lia | lia | |].
      { intros j Hj. destruct (decide (j = k)) as [-> |]; [rewrite Eb; f_equal; lia | apply Hph; lia]. }
      exists k', fs'. split; [exact E |]. split; [lia |]. split; [lia | done].
    + exists k, b0. split; [done |]. split; [lia |]. split; [lia | done].
Qed.

Lemma write_loop_ok rounds fuel k buf g d :
  file_ok d -> bytes buf -> 0 <= k -> (buf = [] \/ k * 4096 + vlen buf <= fsize) ->
  (vlen buf + 4095) / 4096 <= Z.of_nat rounds ->
  exists k' d', write_loop fs rounds fuel nblocks (k + (vlen buf + 4095) / 4096) k buf (mkW g r d) =
      Ret (Ok k', [], mkW g r d') /\ wrote d d' (k * 4096) buf.
Proof.
  revert k buf d. induction rounds as [| rounds IH]; intros k buf d H Hb Hk Hfit Hr.
  { destruct buf as [| x buf]; [| unfold vlen in Hr; cbn [length] in Hr; lia].
    exists k, d. split; [done | by apply wrote_nil]. }
  destruct buf as [| x buf]; [exists k, d; split; [done | by apply wrote_nil] |].
  destruct Hfit as [? | Hfit]; [done |]. set (bf := x :: buf) in *.
  assert (Hl : 0 < vlen bf) by (unfold vlen; cbn; lia). set (nb := (vlen bf + 4095) / 4096) in *.
  assert (Hnb : 0 < nb) by lia. assert (Hlast : k + nb <= nblocks) by (unfold nb, nblocks; lia).
  destruct (gather_ok (Z.to_nat nb) fuel k k 0 g d H) as (k' & fst' & E & Hk' & Hpos & Hph); [lia.. |].
  specialize (Hpos ltac:(lia)).
  destruct (write_run_ok (Z.to_nat (k' - k)) d k fst' bf H Hb Hk) as (d1 & E1 & W1); [lia | |].
  { intros j Hj. apply Hph. lia. }
  set (m := (Z.to_nat (k' - k) * 4096)%nat) in *. cbn [write_loop]. fold bf. change (match bf with [] => _ | _ => ?x end) with x.
  replace (k + nb - k) with nb by lia. rewrite Z.sub_diag in E. rewrite E. cbn [mbind run_bind w_disk w_bgid w_inode lift].
  rewrite E1. cbn [mbind run_bind lift]. cbn [w_bgid w_inode].
  assert (Hd : drop m bf = [] \/ (m < length bf)%nat) by (destruct (decide (m < length bf)%nat); [by right | left; apply drop_ge; lia]).
  destruct Hd as [Hd | Hd].
  - rewrite Hd. exists k', d1. split; [by destruct rounds |].
    rewrite <- (take_drop m bf), Hd, app_nil_r. exact W1.
  - destruct (IH k' (drop m bf) d1) as (k2 & d2 & E2 & W2).
    { apply W1. } { by apply Forall_drop. } { lia. }
    { right. unfold vlen in *. rewrite length_drop. lia. }
    { unfold vlen in *. rewrite length_drop. lia. }
    exists k2, d2. split.
    + rewrite <- E2. f_equal. unfold nb, vlen in *. rewrite length_drop. lia.
    + rewrite <- (take_drop m bf). eapply wrote_app; [exact W1 |].
      replace (k * 4096 + vlen (take m bf)) with (k' * 4096); [exact W2 |].
      unfold vlen. rewrite length_take. lia.
Qed.

Lemma blocks_of_small d n : file_ok d -> 0 <= n < 2 ^ 63 -> blocks_of fs n = (n + 4095) / 4096.
Proof.
  intros H Hn. unfold blocks_of. rewrite (so_block _ _ _ (fo_static d H)).
  rewrite (wrap64_small (n + 4096)), wrap64_small by lia. f_equal. lia.
Qed.

Lemma write_ok rounds fuel d offset buf :
  file_ok d -> bytes buf -> 0 <= offset -> offset + vlen buf <= fsize -> nblocks <= Z.of_nat rounds ->
  exists d', write_at fs rounds fuel (inode_num r) offset buf d = Ret (Ok (vlen buf), d') /\
    wrote d d' offset buf.
Proof.
  intros H Hb Ho Hfit Hr. pose proof (so_block _ _ _ (fo_static d H)) as Hbs. pose proof (fo_size d H) as Hsz.
  assert (Hlen : 0 <= vlen buf) by (unfold vlen; lia). unfold write_at.
  destruct (Z.eqb_spec (vlen buf) 0) as [E0 | Hne].
  { exists d. rewrite E0. split; [done |]. destruct buf; [by apply wrote_nil | done]. }
  rewrite get_inode by done. cbn [lift mbind run_bind]. fold fsize.
  rewrite !(wrap64_small (offset + vlen buf)) by lia. rewrite !(blocks_of_small d) by (done || lia). fold nblocks.
  rewrite Hbs, (proj2 (Z.ltb_ge fsize (offset + vlen buf))) by lia. unfold write_head. rewrite Hbs.
  destruct (Z.ltb_spec 0 (offset mod 4096)) as [Hun | Hal].
  - set (un := offset mod 4096) in *. set (k := offset / 4096). set (h := Z.min (vlen buf) (4096 - un)).
    destruct (block_in_file fuel k 1 d H) as (b & Eb & _ & Ew); [unfold k, nblocks; lia |].
    cbn [w_bgid w_inode w_disk]. rewrite Ew. cbn [mbind run_bind].
    destruct (put_block d k b un (take (Z.to_nat h) buf) H) as (bs & d1 & E1 & E2 & E3 & W1);
      [unfold k, nblocks; lia | done | by apply Forall_take | lia | unfold vlen; rewrite length_take; lia |].
    rewrite Hbs in E1, E3. rewrite E1. cbn [lift mbind run_bind]. rewrite E2. cbn [lift mbind run_bind].
    rewrite E3. cbn [lift mbind run_bind].
    destruct (write_loop_ok rounds fuel (k + 1) (drop (Z.to_nat h) buf) 1 d1) as (k' & d2 & E & W2).
    { apply W1. } { by apply Forall_drop. } { lia. }
    { destruct (decide (vlen buf <= 4096 - un)); [left; apply drop_ge; unfold vlen in *; lia | right].
      unfold vlen in *. rewrite length_drop. lia. }
    { unfold nblocks in Hr. unfold vlen in *. rewrite length_drop. lia. }
    assert (El : (offset + vlen buf + 4095) / 4096 = k + 1 + (vlen (drop (Z.to_nat h) buf) + 4095) / 4096).
    { unfold vlen in *. rewrite length_drop. lia. }
    rewrite El, E. cbn [mbind run_bind]. exists d2. split; [done |].
    rewrite <- (take_drop (Z.to_nat h) buf). eapply wrote_app.
    { replace offset with (k * 4096 + un) by lia. exact W1. }
    destruct (decide (vlen buf <= 4096 - un)).
    + rewrite (drop_ge buf) in W2 |- * by (unfold vlen in *; lia). by eapply wrote_none.
    + replace (offset + vlen (take (Z.to_nat h) buf)) with ((k + 1) * 4096); [exact W2 |].
      unfold vlen in *. rewrite length_take. lia.
  - cbn [mbind run_bind]. destruct (write_loop_ok rounds fuel (offset / 4096) buf 1 d) as (k' & d2 & E & W);
      [done | done | lia | right; lia | unfold nblocks in Hr; lia |].
    replace ((offset + vlen buf + 4095) / 4096) with (offset / 4096 + (vlen buf + 4095) / 4096) by lia.
    rewrite E. cbn [mbind run_bind]. exists d2. split; [done |].
    replace (offset / 4096 * 4096) with offset in W by lia. exact W.
Qed.
End bytes.
