(* ===== verification/Ext4FileFacts.v ===== *)
(** * ext4: files

    What holds of files and their extent trees, and how a write that extends a
    file loses data. *)

From S2P Require Import Prelude Address Phys Block BlockCache Fat Efs.
From S2P Require Import Ext4Bitmap Ext4Disk Ext4Alloc Ext4Ok Ext4AllocOk Ext4AllocFacts.
From S2P Require Import Ext4Extent Ext4ExtentOk Ext4File Ext4FileOk.
#[local] Open Scope kernel_scope.

(** ** Merging extents *)

(** The block of the disk an extent gives to block [l] of the file. *)
Definition maps (e : Ext4Extent) (l : Z) : Z := l - first_block e + get_pblock e.

(** Two written extents that can be merged become one that maps the blocks of
    both, unless both have the greatest length. *)
Lemma merge_maps a b l :
  is_unwritten a = false -> is_unwritten b = false -> 0 <= block_count a -> 0 <= block_count b ->
  0 <= first_block a -> first_block a + block_count a < 2 ^ 32 -> u64 (get_pblock a + block_count a) ->
  block_count a + block_count b < 2 ^ 16 ->
  can_merge a b = true ->
  is_unwritten (extend a b) = false /\ first_block (extend a b) = first_block a /\
  get_actual_len (extend a b) = get_actual_len a + get_actual_len b /\
  maps (extend a b) l = maps a l /\ maps (extend a b) l = maps b l.
Proof.
  intros Ua Ub Ca Cb Fa Fb Hp Hs. unfold can_merge, extend, get_actual_len. rewrite Ua, Ub. cbn [eqb negb].
  rewrite (wrapn_small 32) by (unfold fits; lia). rewrite (wrapn_small 16) by (unfold fits; lia).
  destruct (Z.eqb_spec (first_block a + block_count a) (first_block b)) as [E1 | ?]; cbn [negb]; [| done].
  destruct (Z.ltb_spec EXT_INIT_MAX_LEN (block_count a + block_count b)) as [? | Hm]; [done |].
  rewrite (wrapn_small 64) by exact Hp. intros E2%Z.eqb_eq.
  assert (Hu : is_unwritten (set_actual_len a (block_count a + block_count b)) = false)
    by (unfold is_unwritten; cbn; by apply Z.ltb_ge).
  rewrite Hu. split_and!; try done. unfold maps. cbn. change (get_pblock (set_actual_len a _)) with (get_pblock a). lia.
Qed.

(** Two of the greatest length merge into one of no length: the sum is zero in
    16 bits. *)
Lemma merge_of_longest a b :
  block_count a = EXT_INIT_MAX_LEN -> block_count b = EXT_INIT_MAX_LEN ->
  wrap32 (first_block a + EXT_INIT_MAX_LEN) = first_block b -> get_pblock a +w EXT_INIT_MAX_LEN = get_pblock b ->
  can_merge a b = true /\ get_actual_len (extend a b) = 0.
Proof.
  intros Ha Hb E1 E2. unfold can_merge, extend, get_actual_len, is_unwritten. rewrite !Ha, !Hb.
  cbn [Z.ltb]. rewrite Z.ltb_irrefl. cbn [eqb negb]. rewrite E1, E2, !Z.eqb_refl. by split.
Qed.

(** ** A tree that cannot grow *)

(** A full node, on a volume without a free block: the insertion calls itself
    again whatever its fuel. *)
Lemma insert_never_returns {D} `{!BlockDevice D} fs r e (d : D) sp node err fuel :
  find_extent fs (inode r) (first_block e) d = Some sp -> vec_get (path sp) (sp_depth sp) = Some node ->
  entries_count (p_header node) <> 0 -> max_entries_count (p_header node) <= entries_count (p_header node) ->
  try_merge fs sp node e r d = Some None -> balloc_alloc_block fs r None d = Some (Err err, r, d) ->
  insert_extent fs fuel r e d = OutOfFuel.
Proof.
  intros E1 E2 Hn Hm E3 E4. induction fuel as [| fuel IH]; [done |]. cbn [insert_extent].
  rewrite E1. cbn [lift mbind run_bind]. rewrite E2. cbn [lift mbind run_bind].
  rewrite (proj2 (Z.eqb_neq _ _)) by done. rewrite E3. cbn [lift mbind run_bind].
  rewrite (proj2 (Z.ltb_ge _ _)) by done. unfold ext_grow_indepth, mbind at 2, option_bind. rewrite E4. exact IH.
Qed.

(** ** A small file

    Inode 3 of the small volume: 5000 bytes in blocks 40 and 41. *)

Definition demo_file : Ext4InodeRef :=
  mkInodeRef 3 (foldl (fun bs '(o, n, v) => put_field bs o n v) (replicate 156 0)
    [(4, 4, 5000%Z); (40, 2, 0xF30A%Z); (42, 2, 1%Z); (44, 2, 4%Z); (56, 2, 2%Z); (60, 4, 40%Z)]%nat).
Definition demo_file_disk : memory :=
  write_bytes demo_disk (DISK_IMAGE_BASE + 6 * 4096 + 512) (inode demo_file).
Definition demo_extents : list Ext4Extent := [mkExtent 0 2 0 40].



Lemma demo_tree : tree_ok demo_ext4 demo_file_disk (inode demo_file) demo_extents [].
Proof.
  split; [done | done | by vm_compute | |].
  - change (Z.to_nat (eh_depth (root_extent_header (inode demo_file)))) with 0%nat. split; [| done].
    split; [by vm_compute |]. split; [done |]. intros [| k] e He; [| done]. cbn in He. injection He as <-. by vm_compute.
  - repeat constructor.
Qed.


(** ** Theorems *)



(** The extent tree of a file, of any depth, implements the list of its extents
    in order: the search goes down through the index nodes to the one extent
    that a linear search of the list finds, the last that starts at the block
    or before it, and gives the block of the disk that extent maps it to. *)
Theorem extent_tree_refines_list {D} `{!BlockDevice D, !BlockDeviceSpec D} fs (d : D) i xs ns lblock :
  tree_ok fs d i xs ns -> (forall e, head xs = Some e -> first_block e <= lblock) ->
  exists sp node e, find_extent fs i lblock d = Some sp /\ last (path sp) = Some node /\
    covering xs lblock = Some e /\ p_extent node = Some e /\
    get_pblock_idx fs i lblock d = Some (lblock -w first_block e +w get_pblock e).
Proof.
  intros H Hh. destruct (find_extent_ok fs d i xs ns lblock H Hh) as (sp & node & e & E1 & E2 & E3 & E4 & E5).
  exists sp, node, e. unfold get_pblock_idx. rewrite E1. cbn [mbind option_bind]. rewrite E2. cbn. by rewrite E5.
Qed.

Lemma extent_tree_refines_list_witness :
  exists sp node e, find_extent demo_ext4 (inode demo_file) 1 demo_file_disk = Some sp /\
    last (path sp) = Some node /\ covering demo_extents 1 = Some e /\ p_extent node = Some e /\
    get_pblock_idx demo_ext4 (inode demo_file) 1 demo_file_disk = Some (1 -w first_block e +w get_pblock e).
Proof.
  apply (extent_tree_refines_list demo_ext4 demo_file_disk (inode demo_file) demo_extents []); [exact demo_tree |].
  intros e [= <-]. discriminate.
Defined.

(** *** A write that extends a file on a fragmented volume *)

(** A disk as the list of its blocks. *)
#[local] Instance block_list : BlockDevice (list (list Z)) := {
  read_block d id n := if n =? BLOCK_SZ then d !! Z.to_nat id else None;
  write_block d id bs := if id <? vlen d then Some (<[Z.to_nat id := bs]> d) else None
}.
Definition zeros : list Z := replicate 4096 0.
(** The small volume with an empty file as inode 3; the second block of group 1
    is taken. *)
Definition frag_disk : list (list Z) :=
  [splice zeros 1024 demo_super; splice zeros 0 (demo_desc 2 6 24 ++ demo_desc 3 7 31);
   splice zeros 0 [255]; splice zeros 0 [2]; zeros; zeros;
   splice zeros 512 (extent_tree_init (replicate 156 0))] ++ replicate 57 zeros.

(** A write of two blocks to an empty file, where the second block allocated
    does not follow the first, returns that everything was written and the
    second block of the file reads as zero: the block that did not follow stays
    in the file as its second block, and the data goes to the third. *)
Theorem fragmented_write_misplaced :
  match write_at demo_ext4 10 10 3 0 (replicate 4096 1 ++ [2]) frag_disk with
  | Ret (res, d') => res = Ok 4097 /\ read_at demo_ext4 3 4096 1 d' = Some [0]
  | _ => False
  end.
Proof. vm_compute. split; reflexivity. Qed.
