(* ===== verification/VirtQueue.v ===== *)
(** * The virtqueue of the VirtIO driver

    [dependency/virtio-drivers/src/queue.rs], with the feature [alloc]: buffers
    are handed to a device through a table of descriptors, an available ring
    and a used ring. The rings and the table are shared with the device; the
    driver keeps a copy of the table it trusts. A buffer is its contents; [Hal]
    says where the device finds them. *)

From S2P Require Import Prelude Address Phys.
#[local] Open Scope kernel_scope.

Inductive BufferDirection := DriverToDevice | DeviceToDriver | Both.
#[export] Instance BufferDirection_eq : EqDecision BufferDirection.
Proof. solve_decision. Defined.
(** [Error], but for the one that wraps an error of the socket device. *)
Inductive Error := QueueFull | NotReady | WrongToken | AlreadyUsed | InvalidParam | DmaError | IoError
                 | Unsupported | ConfigSpaceTooSmall | ConfigSpaceMissing.

(** [share] gives the address at which the device finds the buffer, [unshare]
    the contents the buffer has once the device is done; both may panic. *)
Class Hal (W : Type) := {
  share : list Z -> BufferDirection -> W -> option (Z * W);
  unshare : Z -> list Z -> BufferDirection -> W -> option (list Z * W)
}.

(** ** Descriptors *)

Definition NEXT : Z := 1.
Definition WRITE : Z := 2.
Definition INDIRECT : Z := 4.

Record Descriptor := mkDesc { d_addr : Z; d_len : Z; d_flags : Z; d_next : Z }.
Definition zero_desc : Descriptor := mkDesc 0 0 0 0.
Definition contains (flags f : Z) : bool := Z.land flags f =? f.
Definition set_next (d : Descriptor) (n : Z) : Descriptor := mkDesc (d_addr d) (d_len d) (d_flags d) n.
(** [flags.remove(NEXT)]. *)
Definition end_chain (d : Descriptor) : Descriptor :=
  mkDesc (d_addr d) (d_len d) (Z.ldiff (d_flags d) NEXT) (d_next d).
Definition unset_buf (d : Descriptor) : Descriptor := mkDesc 0 0 (d_flags d) (d_next d).
Definition next_of (d : Descriptor) : option Z := if contains (d_flags d) NEXT then Some (d_next d) else None.

Definition desc_bytes (d : Descriptor) : list Z :=
  le_split 8 (d_addr d) ++ le_split 4 (d_len d) ++ le_split 2 (d_flags d) ++ le_split 2 (d_next d).

(** [InputOutputIter]. *)
Definition items (inputs outputs : list (list Z)) : list (list Z * BufferDirection) :=
  ((fun b => (b, DriverToDevice)) <$> inputs) ++ ((fun b => (b, DeviceToDriver)) <$> outputs).

(** ** The queue *)

(** What the device sees and writes. *)
Record Shared := mkShared
  { s_desc : list Descriptor;
    avail_flags : Z; s_avail_idx : Z; avail_ring : list Z; used_event : Z;
    used_flags : Z; used_idx : Z; used_ring : list (Z * Z); avail_event : Z }.
Record VirtQueue := mkVQ
  { vq_shared : Shared; queue_idx : Z; num_used : Z; free_head : Z; desc_shadow : list Descriptor;
    avail_idx : Z; last_used_idx : Z; event_idx : bool; indirect : bool;
    indirect_lists : list (option (list Descriptor)) }.

Definition put_table (s : Shared) (t : list Descriptor) : Shared :=
  mkShared t (avail_flags s) (s_avail_idx s) (avail_ring s) (used_event s)
    (used_flags s) (used_idx s) (used_ring s) (avail_event s).
Definition put_shadow (q : VirtQueue) (t : list Descriptor) : VirtQueue :=
  mkVQ (vq_shared q) (queue_idx q) (num_used q) (free_head q) t
    (avail_idx q) (last_used_idx q) (event_idx q) (indirect q) (indirect_lists q).
Definition put_free (q : VirtQueue) (n h : Z) : VirtQueue :=
  mkVQ (vq_shared q) (queue_idx q) n h (desc_shadow q)
    (avail_idx q) (last_used_idx q) (event_idx q) (indirect q) (indirect_lists q).
Definition put_shared (q : VirtQueue) (s : Shared) (avail last : Z) : VirtQueue :=
  mkVQ s (queue_idx q) (num_used q) (free_head q) (desc_shadow q)
    avail last (event_idx q) (indirect q) (indirect_lists q).
Definition put_indirect (q : VirtQueue) (l : list (option (list Descriptor))) : VirtQueue :=
  mkVQ (vq_shared q) (queue_idx q) (num_used q) (free_head q) (desc_shadow q)
    (avail_idx q) (last_used_idx q) (event_idx q) (indirect q) l.

Section queue.
(** [SIZE], a power of two. *)
Context (SIZE : Z).

(** [new], by what the transport answers for the queue and how the allocation of
    the areas, which come zeroed, ends. *)
Definition vq_new (queue_used : bool) (max_queue_size : Z) (layout : result unit Error)
    (idx : Z) (indirect event_idx : bool) : result VirtQueue Error :=
  if queue_used then Err AlreadyUsed
  else if max_queue_size <? SIZE then Err InvalidParam
  else match layout with
  | Err e => Err e
  | Ok _ =>
      let n := Z.to_nat SIZE in
      let linked := (fun i => mkDesc 0 0 0 (if i <? SIZE - 1 then i + 1 else 0)) <$> seqZ 0 SIZE in
      Ok (mkVQ (mkShared linked 0 0 (replicate n 0) 0 0 0 (replicate n (0, 0)) 0)
            idx 0 0 linked 0 0 event_idx indirect (replicate n None))
  end.

Definition write_desc (q : VirtQueue) (index : Z) : option VirtQueue :=
  d ← vec_get (desc_shadow q) index;
  t ← vec_set (s_desc (vq_shared q)) index d;
  Some (put_shared q (put_table (vq_shared q) t) (avail_idx q) (last_used_idx q)).

Definition can_pop (q : VirtQueue) : bool := negb (last_used_idx q =? used_idx (vq_shared q)).
Definition slot (i : Z) : Z := Z.land i (SIZE - 1).
Definition peek_used (q : VirtQueue) : option (option Z) :=
  if can_pop q then
    u ← vec_get (used_ring (vq_shared q)) (slot (last_used_idx q)); Some (Some (wrap16 u.1))
  else Some None.
Definition should_notify (q : VirtQueue) : bool :=
  if event_idx q then wrap16 (avail_event (vq_shared q) + 1) <=? avail_idx q
  else Z.land (used_flags (vq_shared q)) 1 =? 0.
Definition set_dev_notify (q : VirtQueue) (enable : bool) : VirtQueue :=
  if event_idx q then q
  else
    let s := vq_shared q in
    put_shared q (mkShared (s_desc s) (if enable then 0 else 1) (s_avail_idx s) (avail_ring s) (used_event s)
      (used_flags s) (used_idx s) (used_ring s) (avail_event s)) (avail_idx q) (last_used_idx q).
Definition available_desc (q : VirtQueue) : Z :=
  if indirect q then if num_used q =? SIZE then 0 else SIZE else SIZE - num_used q.

Context {W : Type} `{!Hal W}.

Definition set_buf (d : Descriptor) (buf : list Z) (dir : BufferDirection) (extra : Z) (w : W)
    : option (Descriptor * W) :=
  '(a, w) ← share buf dir w;
  if vlen buf <? 2 ^ 32 then
    match dir with
    | DeviceToDriver => Some (mkDesc a (vlen buf) (Z.lor extra WRITE) (d_next d), w)
    | DriverToDevice => Some (mkDesc a (vlen buf) extra (d_next d), w)
    | Both => None
    end
  else None.

(** ** Adding buffers *)

(** The loop of [add_direct]; [last] is the descriptor used last. *)
Fixpoint add_loop (its : list (list Z * BufferDirection)) (q : VirtQueue) (last : Z) (w : W)
    : option (VirtQueue * Z * W) :=
  match its with
  | [] => Some (q, last, w)
  | (buf, dir) :: its =>
      if vlen buf =? 0 then None
      else
        let i := free_head q in
        d ← vec_get (desc_shadow q) i;
        '(d, w) ← set_buf d buf dir NEXT w;
        t ← vec_set (desc_shadow q) i d;
        q ← write_desc (put_free (put_shadow q t) (num_used q) (d_next d)) i;
        add_loop its q i w
  end.
Definition add_direct (q : VirtQueue) (inputs outputs : list (list Z)) (w : W) : option (Z * VirtQueue * W) :=
  let head := free_head q in
  '(q, last, w) ← add_loop (items inputs outputs) q head w;
  d ← vec_get (desc_shadow q) last;
  t ← vec_set (desc_shadow q) last (end_chain d);
  q ← write_desc (put_shadow q t) last;
  let n := wrap16 (num_used q + wrap16 (vlen inputs + vlen outputs)) in
  Some (head, put_free q n (free_head q), w).

(** The descriptors of an indirect list, linked one to the next. *)
Fixpoint fill_list (its : list (list Z * BufferDirection)) (i : Z) (w : W) : option (list Descriptor * W) :=
  match its with
  | [] => Some ([], w)
  | (buf, dir) :: its =>
      '(d, w) ← set_buf zero_desc buf dir NEXT w;
      '(l, w) ← fill_list its (i + 1) w;
      Some (set_next d (wrap16 (i + 1)) :: l, w)
  end.
Definition end_list (l : list Descriptor) : option (list Descriptor) :=
  '(d, r) ← vec_pop l; Some (r ++ [end_chain d]).
Definition add_indirect (q : VirtQueue) (inputs outputs : list (list Z)) (w : W) : option (Z * VirtQueue * W) :=
  let head := free_head q in
  '(l, w) ← fill_list (items inputs outputs) 0 w;
  l ← end_list l;
  old ← vec_get (indirect_lists q) head;
  match old with
  | Some _ => None
  | None =>
      il ← vec_set (indirect_lists q) head (Some l);
      d ← vec_get (desc_shadow q) head;
      let next := d_next d in
      '(d, w) ← set_buf d (l ≫= desc_bytes) DriverToDevice INDIRECT w;
      t ← vec_set (desc_shadow q) head d;
      q ← write_desc (put_free (put_indirect (put_shadow q t) il) (num_used q) next) head;
      Some (head, put_free q (wrap16 (num_used q + 1)) (free_head q), w)
  end.

Definition vq_add (q : VirtQueue) (inputs outputs : list (list Z)) (w : W)
    : option (result Z Error * VirtQueue * W) :=
  let needed := vlen inputs + vlen outputs in
  if needed =? 0 then Some (Err InvalidParam, q, w)
  else if (SIZE <? num_used q + 1) || (SIZE <? needed) || (negb (indirect q) && (SIZE <? num_used q + needed))
  then Some (Err QueueFull, q, w)
  else
    '(head, q, w) ← (if indirect q && (1 <? needed) then add_indirect q inputs outputs w
                     else add_direct q inputs outputs w);
    let s := vq_shared q in
    ring ← vec_set (avail_ring s) (slot (avail_idx q)) head;
    let idx := wrap16 (avail_idx q + 1) in
    let s := mkShared (s_desc s) (avail_flags s) idx ring (used_event s)
               (used_flags s) (used_idx s) (used_ring s) (avail_event s) in
    Some (Ok head, put_shared q s idx (last_used_idx q), w).

(** ** Taking them back *)

(** The loop of [recycle_descriptors] over a chain: the contents of the buffers
    and the rest of the chain. *)
Fixpoint recycle_loop (its : list (list Z * BufferDirection)) (next : option Z) (orig : Z) (q : VirtQueue) (w : W)
    : option (list (list Z) * option Z * VirtQueue * W) :=
  match its with
  | [] => Some ([], next, q, w)
  | (buf, dir) :: its =>
      if vlen buf =? 0 then None
      else
        i ← next;
        d ← vec_get (desc_shadow q) i;
        let next := next_of d in
        let d' := match next with Some _ => unset_buf d | None => set_next (unset_buf d) orig end in
        t ← vec_set (desc_shadow q) i d';
        q ← write_desc (put_free (put_shadow q t) (wrap16 (num_used q - 1)) (free_head q)) i;
        '(buf, w) ← unshare (d_addr d) buf dir w;
        '(bufs, next, q, w) ← recycle_loop its next orig q w;
        Some (buf :: bufs, next, q, w)
  end.
Fixpoint unshare_list (its : list (list Z * BufferDirection)) (l : list Descriptor) (w : W)
    : option (list (list Z) * W) :=
  match its, l with
  | (buf, dir) :: its, d :: l =>
      if vlen buf =? 0 then None
      else
        '(buf, w) ← unshare (d_addr d) buf dir w;
        '(bufs, w) ← unshare_list its l w;
        Some (buf :: bufs, w)
  | _, _ => Some ([], w)
  end.
Definition recycle_descriptors (q : VirtQueue) (head : Z) (inputs outputs : list (list Z)) (w : W)
    : option (list (list Z) * VirtQueue * W) :=
  let orig := free_head q in
  let q := put_free q (num_used q) head in
  d ← vec_get (desc_shadow q) head;
  if contains (d_flags d) INDIRECT then
    l ← vec_get (indirect_lists q) head;
    l ← l;
    il ← vec_set (indirect_lists q) head None;
    t ← vec_set (desc_shadow q) head (set_next (unset_buf d) orig);
    let q := put_free (put_indirect (put_shadow q t) il) (wrap16 (num_used q - 1)) head in
    '(_, w) ← unshare (d_addr d) (l ≫= desc_bytes) DriverToDevice w;
    if vlen l =? vlen inputs + vlen outputs then
      '(bufs, w) ← unshare_list (items inputs outputs) l w;
      Some (bufs, q, w)
    else None
  else
    '(bufs, next, q, w) ← recycle_loop (items inputs outputs) (Some head) orig q w;
    match next with
    | Some _ => None
    | None => Some (bufs, q, w)
    end.

(** The length the device wrote, and the contents of the buffers. *)
Definition pop_used (q : VirtQueue) (token : Z) (inputs outputs : list (list Z)) (w : W)
    : option (result (Z * list (list Z)) Error * VirtQueue * W) :=
  if negb (can_pop q) then Some (Err NotReady, q, w)
  else
    u ← vec_get (used_ring (vq_shared q)) (slot (last_used_idx q));
    if negb (wrap16 u.1 =? token) then Some (Err WrongToken, q, w)
    else
      '(bufs, q, w) ← recycle_descriptors q (wrap16 u.1) inputs outputs w;
      let last := wrap16 (last_used_idx q + 1) in
      let s := vq_shared q in
      let s := if event_idx q then
                 mkShared (s_desc s) (avail_flags s) (s_avail_idx s) (avail_ring s) last
                   (used_flags s) (used_idx s) (used_ring s) (avail_event s)
               else s in
      Some (Ok (u.2, bufs), put_shared q s (avail_idx q) last, w).
End queue.
