(* ===== verification/VirtQueueOk.v ===== *)
(** * The virtqueue keeps its descriptors apart

    The descriptors are at any time split into a free list and the chains of
    the requests the device has: the invariant [vq_ok], and that adding and
    taking back buffers keep it. *)

From S2P Require Import Prelude Address Phys VirtQueue.
#[local] Open Scope kernel_scope.

(** Element [i] of a table, for a machine index. *)
Notation "t !z i" := (t !! Z.to_nat i) (at level 20) : kernel_scope.

Lemma vec_get_z {A} (t : list A) i x : 0 <= i -> t !z i = Some x -> vec_get t i = Some x.
Proof.
  intros Hi Hx. apply vec_get_Some. split; [| done]. apply lookup_lt_Some in Hx. unfold vlen. lia.
Qed.

Lemma vec_set_z {A} (t : list A) i x : 0 <= i < vlen t -> vec_set t i x = Some (<[Z.to_nat i := x]> t).
Proof. intros Hi. apply vec_set_Some. split; [lia | done]. Qed.

Lemma z_ne i j : 0 <= i -> 0 <= j -> i <> j -> Z.to_nat i <> Z.to_nat j.
Proof. lia. Qed.

(** ** Free lists and chains *)

(** Each element of [f] links to the next one. *)
Fixpoint linked (t : list Descriptor) (f : list Z) : Prop :=
  match f with
  | a :: (b :: _) as r => (exists d, t !z a = Some d /\ d_next d = b) /\ linked t r
  | _ => True
  end.

Lemma linked_ext t t' f : (forall i, i ∈ f -> t' !z i = t !z i) -> linked t f -> linked t' f.
Proof.
  induction f as [| a [| b f] IH]; intros He; [done | done |]. intros [(d & Hd & Hn) Hl]. split.
  - exists d. rewrite He by (by left). done.
  - apply IH; [| done]. intros i Hi. apply He. by right.
Qed.

Lemma linked_app t c f :
  linked t c -> linked t f ->
  (forall a b, last c = Some a -> head f = Some b -> exists d, t !z a = Some d /\ d_next d = b) ->
  linked t (c ++ f).
Proof.
  induction c as [| a [| b c] IH]; intros Hc Hf Hj; [done | |].
  - destruct f as [| b f]; [done |]. split; [by apply Hj | done].
  - destruct Hc as [Ha Hc]. split; [done |]. by apply IH.
Qed.

Lemma linked_drop t n f : linked t f -> linked t (drop n f).
Proof.
  revert f. induction n as [| n IH]; intros f Hf; [done |]. destruct f as [| a f]; [done |].
  apply IH. destruct f; [done | apply Hf].
Qed.

(** ** What is the same in two queues *)

(** The fields that say nothing of the descriptors. *)
Record same_rest (q q' : VirtQueue) : Prop := {
  sr_qidx : queue_idx q' = queue_idx q;
  sr_avail : avail_idx q' = avail_idx q;
  sr_last : last_used_idx q' = last_used_idx q;
  sr_event : event_idx q' = event_idx q;
  sr_ind : indirect q' = indirect q;
  sr_rings : exists t, vq_shared q' = put_table (vq_shared q) t;
  sr_shadow : length (desc_shadow q') = length (desc_shadow q);
  sr_table : length (s_desc (vq_shared q')) = length (s_desc (vq_shared q))
}.

Lemma same_rest_refl q : same_rest q q.
Proof. split; try done. exists (s_desc (vq_shared q)). by destruct (vq_shared q). Qed.

Lemma same_rest_trans q1 q2 q3 : same_rest q1 q2 -> same_rest q2 q3 -> same_rest q1 q3.
Proof.
  intros [? ? ? ? ? [t1 E1] ? ?] [? ? ? ? ? [t2 E2] ? ?]. split; try congruence.
  exists t2. rewrite E2, E1. done.
Qed.

Section ops.
Context (SIZE : Z).
Context {W : Type} `{!Hal W}.
Implicit Types (q : VirtQueue) (w : W).

(** One descriptor is written, in the copy and in the table. *)
Lemma put_desc_ok q i d n h :
  0 <= i < SIZE -> vlen (desc_shadow q) = SIZE -> vlen (s_desc (vq_shared q)) = SIZE ->
  exists t q', vec_set (desc_shadow q) i d = Some t /\ write_desc (put_free (put_shadow q t) n h) i = Some q' /\
    same_rest q q' /\ num_used q' = n /\ free_head q' = h /\ indirect_lists q' = indirect_lists q /\
    desc_shadow q' = <[Z.to_nat i := d]> (desc_shadow q) /\
    s_desc (vq_shared q') = <[Z.to_nat i := d]> (s_desc (vq_shared q)).
Proof.
  intros Hi Hs Ht. exists (<[Z.to_nat i := d]> (desc_shadow q)). unfold write_desc. cbn [put_free put_shadow desc_shadow vq_shared].
  rewrite (vec_get_z _ i d) by (first [lia | apply list_lookup_insert_eq; unfold vlen in *; lia]). cbn [mbind option_bind].
  rewrite vec_set_z by lia. cbn [mbind option_bind]. eexists. rewrite vec_set_z by lia.
  split; [done |]. split; [done |]. split_and!; try done. split; cbn; rewrite ?length_insert; try done. by eexists.
Qed.

(** ** Sharing the buffers of a request *)

Fixpoint share_all (its : list (list Z * BufferDirection)) w : option (list Z * W) :=
  match its with
  | [] => Some ([], w)
  | (buf, dir) :: its =>
      '(a, w) ← share buf dir w; '(l, w) ← share_all its w; Some (a :: l, w)
  end.
Definition item_ok (it : list Z * BufferDirection) : Prop := 0 < vlen it.1 < 2 ^ 32 /\ it.2 <> Both.
Definition dir_flag (dir : BufferDirection) : Z := match dir with DeviceToDriver => WRITE | _ => 0 end.
(** The descriptor of a buffer. *)
Definition desc_for (it : list Z * BufferDirection) (a extra nx : Z) : Descriptor :=
  mkDesc a (vlen it.1) (Z.lor extra (dir_flag it.2)) nx.

Lemma set_buf_ok d buf dir extra w a w' :
  item_ok (buf, dir) -> share buf dir w = Some (a, w') ->
  set_buf d buf dir extra w = Some (desc_for (buf, dir) a extra (d_next d), w').
Proof.
  intros [Hl Hd] Hs. unfold set_buf, desc_for. rewrite Hs. cbn [mbind option_bind fst snd] in *.
  rewrite (proj2 (Z.ltb_lt _ _)) by lia. destruct dir; cbn [dir_flag]; [by rewrite Z.lor_0_r | done | done].
Qed.

(** Position [k] of the descriptors [cs] holds the buffer [k] of [its], found at
    [addrs]; its link is that of the list [f]. *)
Definition holds (t : list Descriptor) (its : list (list Z * BufferDirection)) (addrs f : list Z) (extra : Z) : Prop :=
  forall k it a i, its !! k = Some it -> addrs !! k = Some a -> f !! k = Some i ->
    exists nx, t !z i = Some (desc_for it a extra nx) /\ forall j, f !! S k = Some j -> nx = j.

Lemma holds_cons t it its a l i f extra nx :
  t !z i = Some (desc_for it a extra nx) -> (forall j, head f = Some j -> nx = j) ->
  holds t its l f extra -> holds t (it :: its) (a :: l) (i :: f) extra.
Proof.
  intros Hi Hn Hh [| k] it' a' i' H1 H2 H3; cbn in H1, H2, H3.
  - injection H1 as <-. injection H2 as <-. injection H3 as <-. exists nx. split; [done |].
    intros j Hj. apply Hn. by destruct f.
  - destruct (Hh k it' a' i' H1 H2 H3) as (nx' & Hnx & Hj). by exists nx'.
Qed.

Record queue_dims q : Prop := {
  qd_shadow : vlen (desc_shadow q) = SIZE;
  qd_table : vlen (s_desc (vq_shared q)) = SIZE
}.

Lemma add_loop_ok its : forall f q last w addrs w',
  (length its <= length f)%nat -> NoDup f -> Forall (fun i => 0 <= i < SIZE) f ->
  linked (desc_shadow q) f -> (its <> [] -> head f = Some (free_head q)) -> queue_dims q ->
  share_all its w = Some (addrs, w') -> Forall item_ok its ->
  exists q', add_loop its q last w = Some (q', default last (list.last (take (length its) f)), w') /\
    same_rest q q' /\ num_used q' = num_used q /\ indirect_lists q' = indirect_lists q /\
    (forall i, 0 <= i -> i ∉ take (length its) f -> desc_shadow q' !z i = desc_shadow q !z i /\
       s_desc (vq_shared q') !z i = s_desc (vq_shared q) !z i) /\
    holds (desc_shadow q') its addrs f NEXT /\ holds (s_desc (vq_shared q')) its addrs f NEXT /\
    (its <> [] -> forall j, head (drop (length its) f) = Some j -> free_head q' = j).
Proof.
  induction its as [| [buf dir] its IH]; intros f q last w addrs w' Hlen Hnd Hr Hlk Hhd Hq Hsh Hok.
  { cbn in Hsh. injection Hsh as <- <-. exists q. split; [done |]. split; [apply same_rest_refl |].
    split; [done |]. split; [done |]. split; [done |]. split; [done |]. split; [done |]. done. }
  destruct f as [| i f]; [cbn in Hlen; lia |]. apply Forall_cons in Hr as [Hi Hr]. apply NoDup_cons in Hnd as [Hin Hnd].
  assert (Hfh : free_head q = i) by (specialize (Hhd ltac:(done)); cbn in Hhd; by injection Hhd).
  apply Forall_cons in Hok as [Hit Hok]. cbn [share_all] in Hsh.
  destruct (share buf dir w) as [[a w1] |] eqn:Es; [| done]. cbn [mbind option_bind] in Hsh.
  destruct (share_all its w1) as [[l w2] |] eqn:Ea; [| done]. cbn [mbind option_bind] in Hsh. injection Hsh as <- <-.
  destruct (lookup_lt_is_Some_2 (desc_shadow q) (Z.to_nat i)) as [d Hd];
    [pose proof (qd_shadow q Hq); unfold vlen in *; lia |].
  cbn [add_loop]. rewrite (proj2 (Z.eqb_neq _ _)) by (destruct Hit as [? _]; cbn in *; lia). rewrite Hfh.
  rewrite (vec_get_z _ i d) by (done || lia). cbn [mbind option_bind].
  rewrite (set_buf_ok d buf dir NEXT w a w1 Hit Es). cbn [mbind option_bind].
  destruct (put_desc_ok q i (desc_for (buf, dir) a NEXT (d_next d)) (num_used q) (d_next d) Hi (qd_shadow q Hq) (qd_table q Hq))
    as (t & q1 & Et & Ew & Hsr & Hnu & Hfh1 & Hil & Hsd & Htd).
  rewrite Et. cbn [mbind option_bind]. change (d_next (desc_for _ _ _ ?n)) with n. rewrite Ew. cbn [mbind option_bind].
  assert (Hlk' : linked (desc_shadow q1) f).
  { apply (linked_ext (desc_shadow q)); [| by destruct f; [| apply Hlk]]. intros j Hj. rewrite Hsd.
    rewrite Forall_forall in Hr. specialize (Hr j Hj). apply list_lookup_insert_ne, z_ne; [lia | lia |]. by intros ->. }
  assert (Hq1 : queue_dims q1) by (split; unfold vlen; [rewrite (sr_shadow _ _ Hsr) | rewrite (sr_table _ _ Hsr)]; apply Hq).
  destruct (IH f q1 i w1 l w2) as (q2 & E2 & Hsr2 & Hnu2 & Hil2 & Hout & Hh1 & Hh2 & Hhd2); try done.
  { cbn in Hlen. lia. }
  { intros Hne. rewrite Hfh1. destruct f as [| j f]; [destruct its; [done | cbn in Hlen; lia] |].
    destruct Hlk as [(d' & Hd' & Hn) _]. rewrite Hd in Hd'. injection Hd' as <-. cbn. by rewrite Hn. }
  exists q2. split.
  { rewrite E2. do 3 f_equal. cbn [length take]. rewrite last_cons. by destruct (list.last (take (length its) f)). }
  split; [by eapply same_rest_trans |]. split; [by rewrite Hnu2 |]. split; [by rewrite Hil2 |].
  assert (Hkeep : i ∉ take (length its) f).
  { intros Hx. apply Hin. apply elem_of_take in Hx as (? & ? & ?). by eapply list_elem_of_lookup_2. }
  destruct (Hout i ltac:(lia) Hkeep) as [Ho1 Ho2].
  assert (Hnext : forall j, head f = Some j -> d_next d = j).
  { intros j Hj. destruct f as [| j' f]; [done |]. injection Hj as <-.
    destruct Hlk as [(d' & Hd' & Hn) _]. rewrite Hd in Hd'. by injection Hd' as <-. }
  split; [| split; [| split]].
  - intros x Hx Hx'. cbn [length take] in Hx'. apply not_elem_of_cons in Hx' as [Hne Hx'].
    destruct (Hout x Hx Hx') as [-> ->]. rewrite Hsd, Htd. rewrite !list_lookup_insert_ne by (apply z_ne; lia). done.
  - apply (holds_cons _ _ _ _ _ _ _ _ (d_next d)); [| done | done]. rewrite Ho1, Hsd.
    apply list_lookup_insert_eq. pose proof (qd_shadow q Hq). unfold vlen in *. lia.
  - apply (holds_cons _ _ _ _ _ _ _ _ (d_next d)); [| done | done]. rewrite Ho2, Htd.
    apply list_lookup_insert_eq. pose proof (qd_table q Hq). unfold vlen in *. lia.
  - intros _ j Hj. cbn [length drop] in Hj. destruct its as [| it its]; [| by apply Hhd2].
    cbn in E2, Hj. injection E2 as <- _. rewrite Hfh1. rewrite drop_0 in Hj. by apply Hnext.
Qed.

(** ** Requests *)

(** The chain [c] as the device follows it in [t]: buffer after buffer, with
    where it is, how long it is and whether the device may write it. *)
Definition carries (t : list Descriptor) (c : list Z) (its : list (list Z * BufferDirection)) (addrs : list Z) : Prop :=
  forall k it a i, its !! k = Some it -> addrs !! k = Some a -> c !! k = Some i ->
    exists d, t !z i = Some d /\ d_addr d = a /\ d_len d = vlen it.1 /\
      contains (d_flags d) WRITE = bool_decide (it.2 = DeviceToDriver) /\
      contains (d_flags d) INDIRECT = false /\ next_of d = c !! S k.

Lemma carries_ext t t' c its addrs :
  (forall i, i ∈ c -> t' !z i = t !z i) -> carries t c its addrs -> carries t' c its addrs.
Proof.
  intros He Hc k it a i H1 H2 H3. rewrite He by (by eapply list_elem_of_lookup_2). by apply (Hc k).
Qed.

Lemma desc_for_flags it a nx last :
  item_ok it ->
  let d := if last : bool then end_chain (desc_for it a NEXT nx) else desc_for it a NEXT nx in
  d_addr d = a /\ d_len d = vlen it.1 /\ d_next d = nx /\
  contains (d_flags d) WRITE = bool_decide (it.2 = DeviceToDriver) /\
  contains (d_flags d) INDIRECT = false /\ next_of d = if last then None else Some nx.
Proof. intros [_ Hd]. by destruct it as [buf []], last. Qed.

Lemma share_all_length its : forall w addrs w',
  share_all its w = Some (addrs, w') -> length addrs = length its.
Proof.
  induction its as [| [buf dir] its IH]; intros w addrs w' H; cbn [share_all] in H; [by injection H as <- _ |].
  destruct (share buf dir w) as [[a w1] |]; [| done]. cbn [mbind option_bind] in H.
  destruct (share_all its w1) as [[l w2] |] eqn:E; [| done]. cbn [mbind option_bind] in H.
  injection H as <- _. cbn. f_equal. by eapply IH.
Qed.

(** The last descriptor of a filled chain is marked as the end of it. *)
Lemma holds_end t its addrs f la :
  holds t its addrs f NEXT -> Forall item_ok its -> length addrs = length its -> NoDup f ->
  Forall (fun i => 0 <= i) f -> its <> [] ->
  list.last (take (length its) f) = Some la -> (length its <= length f)%nat ->
  exists it a nx, its !! pred (length its) = Some it /\ addrs !! pred (length its) = Some a /\
    t !z la = Some (desc_for it a NEXT nx) /\
    forall nx', carries (<[Z.to_nat la := end_chain (desc_for it a NEXT nx')]> t) (take (length its) f) its addrs.
Proof.
  intros Hh Hok Hla Hnd Hr Hne Hlast Hlen. set (n := length its) in *.
  assert (Hn : (0 < n)%nat) by (destruct its; [done | cbn; lia]).
  rewrite last_lookup, length_take, Nat.min_l in Hlast by done.
  assert (Hlf : f !! pred n = Some la) by (rewrite lookup_take_lt in Hlast by lia; done).
  assert (Hr' : forall i, i ∈ f -> 0 <= i) by (by apply Forall_forall).
  destruct (lookup_lt_is_Some_2 its (pred n)) as [itl Hitl]; [lia |].
  destruct (lookup_lt_is_Some_2 addrs (pred n)) as [al Hal]; [lia |].
  destruct (Hh _ _ _ _ Hitl Hal Hlf) as (nxl & Htl & _).
  exists itl, al, nxl. split; [done |]. split; [done |]. split; [done |]. intros nx' k it a i H1 H2 H3.
  assert (Hk : (k < n)%nat) by (by eapply lookup_lt_Some). rewrite lookup_take_lt in H3 by done.
  assert (Hit : item_ok it) by (by eapply Forall_lookup_1).
  destruct (decide (k = pred n)) as [-> | Hkn].
  - rewrite Hlf in H3. rewrite Hitl in H1. rewrite Hal in H2. injection H1 as <-. injection H2 as <-. injection H3 as <-.
    exists (end_chain (desc_for itl al NEXT nx')). split; [apply list_lookup_insert_eq; by eapply lookup_lt_Some |].
    destruct (desc_for_flags itl al nx' true Hit) as (? & ? & _ & ? & ? & ->). split_and!; try done.
    rewrite lookup_take_ge by lia. done.
  - destruct (Hh _ _ _ _ H1 H2 H3) as (nx & Ht & Hj). exists (desc_for it a NEXT nx).
    assert (Hne' : i <> la).
    { intros ->. apply Hkn. by eapply NoDup_lookup. }
    split.
    { rewrite list_lookup_insert_ne; [done |]. apply z_ne; [| | done]; apply Hr'; by eapply list_elem_of_lookup_2. }
    destruct (desc_for_flags it a nx false Hit) as (? & ? & _ & ? & ? & ->). split_and!; try done.
    rewrite lookup_take_lt by lia. destruct (lookup_lt_is_Some_2 f (S k)) as [j Hfj]; [lia |].
    rewrite Hfj. f_equal. by apply Hj.
Qed.

(** [add_direct]: the first descriptors of the free list become a chain of the
    buffers; the others are as they were. *)
Lemma add_direct_ok q ins outs w f addrs w' :
  let its := items ins outs in let n := length its in
  its <> [] -> (n <= length f)%nat -> NoDup f -> Forall (fun i => 0 <= i < SIZE) f ->
  linked (desc_shadow q) f -> head f = Some (free_head q) -> queue_dims q ->
  share_all its w = Some (addrs, w') -> Forall item_ok its -> Z.of_nat n < 2 ^ 16 ->
  exists q', add_direct q ins outs w = Some (free_head q, q', w') /\ same_rest q q' /\
    num_used q' = wrap16 (num_used q + Z.of_nat n) /\ indirect_lists q' = indirect_lists q /\
    (forall i, 0 <= i -> i ∉ take n f -> desc_shadow q' !z i = desc_shadow q !z i /\
       s_desc (vq_shared q') !z i = s_desc (vq_shared q) !z i) /\
    carries (desc_shadow q') (take n f) its addrs /\ carries (s_desc (vq_shared q')) (take n f) its addrs /\
    (forall j, head (drop n f) = Some j -> free_head q' = j).
Proof.
  intros its n Hne Hlen Hnd Hr Hlk Hhd Hq Hsh Hok HS. unfold add_direct. fold its.
  destruct (add_loop_ok its f q (free_head q) w addrs w') as (q1 & -> & Hsr & Hnu & Hil & Hout & Hh1 & Hh2 & Hfh); try done.
  cbn [mbind option_bind]. fold n in Hout, Hfh |- *.
  assert (Hn : (0 < n)%nat) by (unfold n; destruct its; [done | cbn; lia]).
  destruct (list.last (take n f)) as [la |] eqn:Ela.
  2: { apply last_None in Ela. apply (f_equal length) in Ela. rewrite length_take in Ela. cbn in Ela. lia. }
  cbn [default from_option id].
  assert (Hla : la ∈ take n f) by (apply last_Some in Ela as [l ->]; set_solver).
  assert (Hlar : 0 <= la < SIZE).
  { apply elem_of_take in Hla as (k & Hk & _). rewrite Forall_forall in Hr. apply Hr. by eapply list_elem_of_lookup_2. }
  assert (Hla' : length addrs = length its) by (by eapply share_all_length).
  assert (Hr0 : Forall (fun i => 0 <= i) f) by (eapply Forall_impl; [exact Hr |]; intros i [? _]; done).
  destruct (holds_end (desc_shadow q1) its addrs f la) as (it & a & nx & Hit & Ha & Hd1 & Hc1); try done.
  destruct (holds_end (s_desc (vq_shared q1)) its addrs f la) as (it' & a' & _ & Hit' & Ha' & _ & Hc2); try done.
  rewrite Hit in Hit'. injection Hit' as <-. rewrite Ha in Ha'. injection Ha' as <-.
  assert (Hq1 : queue_dims q1) by (split; unfold vlen; [rewrite (sr_shadow _ _ Hsr) | rewrite (sr_table _ _ Hsr)]; apply Hq).
  rewrite (vec_get_z _ la _ (proj1 Hlar) Hd1). cbn [mbind option_bind].
  destruct (put_desc_ok q1 la (end_chain (desc_for it a NEXT nx)) (num_used q1) (free_head q1) Hlar (qd_shadow q1 Hq1) (qd_table q1 Hq1))
    as (t & q2 & Et & Ew & Hsr2 & Hnu2 & Hfh2 & Hil2 & Hsd & Htd).
  rewrite Et. cbn [mbind option_bind].
  change (put_free (put_shadow q1 t) (num_used q1) (free_head q1)) with (put_shadow q1 t) in Ew. rewrite Ew.
  cbn [mbind option_bind]. eexists. split; [reflexivity |].
  split; [destruct (same_rest_trans _ _ _ Hsr Hsr2) as [? ? ? ? ? ? ? ?]; by split |].
  cbn [put_free num_used indirect_lists desc_shadow vq_shared free_head].
  split.
  { rewrite Hnu2, Hnu. f_equal. assert (Hl : vlen ins + vlen outs = Z.of_nat n)
      by (unfold n, its, items, vlen; rewrite length_app, !length_fmap; lia).
    rewrite Hl, (wrapn_small 16) by (unfold fits; lia). done. }
  split; [by rewrite Hil2 |]. split; [| split; [by rewrite Hsd | split; [by rewrite Htd |]]].
  - intros i Hi Hx. destruct (Hout i Hi Hx) as [E1 E2]. rewrite Hsd, Htd.
    assert (la <> i) by (intros ->; done). rewrite !list_lookup_insert_ne by (apply z_ne; lia). done.
  - intros j Hj. rewrite Hfh2. by apply Hfh.
Qed.

(** An indirect list is a table of its own, whose chain is [0, 1, 2, ...]. *)
Lemma fill_list_ok its : forall i w addrs w',
  share_all its w = Some (addrs, w') -> Forall item_ok its ->
  exists l, fill_list its i w = Some (l, w') /\ length l = length its /\
    forall k it a, its !! k = Some it -> addrs !! k = Some a ->
      l !! k = Some (desc_for it a NEXT (wrap16 (i + Z.of_nat k + 1))).
Proof.
  induction its as [| [buf dir] its IH]; intros i w addrs w' Hsh Hok; cbn [share_all] in Hsh.
  { injection Hsh as <- <-. by exists []. }
  apply Forall_cons in Hok as [Hit Hok].
  destruct (share buf dir w) as [[a w1] |] eqn:Es; [| done]. cbn [mbind option_bind] in Hsh.
  destruct (share_all its w1) as [[al w2] |] eqn:Ea; [| done]. cbn [mbind option_bind] in Hsh. injection Hsh as <- <-.
  destruct (IH (i + 1) w1 al w2 Ea Hok) as (l & E & Hl & Hk). cbn [fill_list].
  rewrite (set_buf_ok zero_desc buf dir NEXT w a w1 Hit Es). cbn [mbind option_bind]. rewrite E. cbn [mbind option_bind].
  eexists. split; [reflexivity |]. split; [cbn; by rewrite Hl |]. intros [| k] it a' H1 H2; cbn in H1, H2.
  - injection H1 as <-. injection H2 as <-. unfold desc_for, set_next. cbn. do 3 f_equal. lia.
  - transitivity (l !! k); [done |]. rewrite (Hk k it a' H1 H2). do 3 f_equal. lia.
Qed.

Lemma indirect_list_ok its w addrs w' :
  share_all its w = Some (addrs, w') -> Forall item_ok its -> its <> [] -> Z.of_nat (length its) < 2 ^ 16 ->
  exists l0 l, fill_list its 0 w = Some (l0, w') /\ end_list l0 = Some l /\ length l = length its /\
    carries l (seqZ 0 (Z.of_nat (length its))) its addrs.
Proof.
  intros Hsh Hok Hne Hn. destruct (fill_list_ok its 0 w addrs w' Hsh Hok) as (l0 & E & Hl & Hk).
  pose proof (share_all_length its w addrs w' Hsh) as Hla. set (n := length its) in *.
  assert (Hn0 : (0 < n)%nat) by (unfold n; destruct its; [done | cbn; lia]).
  assert (Hh : holds l0 its addrs (seqZ 0 (Z.of_nat n)) NEXT).
  { intros k it a i H1 H2 H3. apply lookup_seqZ in H3 as [-> H3]. eexists.
    replace (Z.to_nat (0 + Z.of_nat k)) with k by lia. rewrite (Hk k it a H1 H2). split; [done |].
    intros j Hj. apply lookup_seqZ in Hj as [-> Hj]. rewrite wrapn_small by (unfold fits; lia). lia. }
  assert (Ht : take n (seqZ 0 (Z.of_nat n)) = seqZ 0 (Z.of_nat n)) by (apply take_ge; rewrite length_seqZ; lia).
  destruct (holds_end l0 its addrs (seqZ 0 (Z.of_nat n)) (Z.of_nat n - 1)) as (it & a & nx & Hit & Ha & Hd & Hc); try done.
  { apply NoDup_seqZ. }
  { apply Forall_forall. intros i Hi. apply elem_of_seqZ in Hi. lia. }
  { fold n. rewrite Ht, last_lookup, length_seqZ, lookup_seqZ_lt by lia. f_equal. lia. }
  { rewrite length_seqZ. unfold n. lia. }
  fold n in Hc. rewrite Ht in Hc. exists l0, (<[Z.to_nat (Z.of_nat n - 1) := end_chain (desc_for it a NEXT nx)]> l0).
  split; [exact E |]. split; [| split; [by rewrite length_insert, Hl | apply Hc]].
  unfold end_list. destruct (vec_pop l0) as [[x r] |] eqn:Ep.
  - apply vec_pop_Some in Ep as ->. cbn [mbind option_bind]. rewrite length_app in Hl. cbn in Hl.
    replace (Z.to_nat (Z.of_nat n - 1)) with (length r) in * by lia.
    rewrite list_lookup_middle in Hd by done. injection Hd as ->. f_equal.
    rewrite insert_app_r_alt, Nat.sub_diag by lia. done.
  - apply vec_pop_None in Ep as ->. cbn in Hl. lia.
Qed.

(** ** Taking a chain back *)

Fixpoint unshare_all (its : list (list Z * BufferDirection)) (addrs : list Z) w : option (list (list Z) * W) :=
  match its, addrs with
  | (buf, dir) :: its, a :: addrs =>
      '(buf, w) ← unshare a buf dir w; '(bufs, w) ← unshare_all its addrs w; Some (buf :: bufs, w)
  | _, _ => Some ([], w)
  end.

Lemma carries_tail t i c it its a addrs :
  carries t (i :: c) (it :: its) (a :: addrs) ->
  (exists d, t !z i = Some d /\ d_addr d = a /\ next_of d = head c /\
     contains (d_flags d) INDIRECT = false) /\ carries t c its addrs.
Proof.
  intros H. split.
  - destruct (H 0%nat it a i eq_refl eq_refl eq_refl) as (d & Hd & Ha & _ & _ & Hi & Hn). exists d.
    split_and!; try done. rewrite Hn. by destruct c.
  - intros k it' a' i' H1 H2 H3. apply (H (S k) it' a' i' H1 H2 H3).
Qed.

Lemma recycle_loop_ok its : forall c q w orig addrs bufs w',
  length c = length its -> length addrs = length its -> NoDup c -> Forall (fun i => 0 <= i < SIZE) c ->
  carries (desc_shadow q) c its addrs -> queue_dims q -> Forall item_ok its ->
  unshare_all its addrs w = Some (bufs, w') -> Z.of_nat (length its) <= num_used q < 2 ^ 16 ->
  exists q', recycle_loop its (head c) orig q w = Some (bufs, None, q', w') /\ same_rest q q' /\
    num_used q' = num_used q - Z.of_nat (length its) /\ free_head q' = free_head q /\
    indirect_lists q' = indirect_lists q /\
    (forall i, 0 <= i -> i ∉ c -> desc_shadow q' !z i = desc_shadow q !z i /\
       s_desc (vq_shared q') !z i = s_desc (vq_shared q) !z i) /\
    linked (desc_shadow q') c /\
    (forall la, list.last c = Some la -> exists d, desc_shadow q' !z la = Some d /\ d_next d = orig).
Proof.
  induction its as [| [buf dir] its IH]; intros c q w orig addrs bufs w' Hc Ha Hnd Hr Hcar Hq Hok Hun Hnu.
  { destruct c; [| done]. cbn in Hun. injection Hun as <- <-. exists q. cbn [recycle_loop head length] in *.
    split; [done |]. split; [apply same_rest_refl |]. split; [lia |]. by split_and!. }
  destruct c as [| i c]; [done |]. destruct addrs as [| a addrs]; [done |].
  apply Forall_cons in Hr as [Hi Hr]. apply NoDup_cons in Hnd as [Hin Hnd]. apply Forall_cons in Hok as [Hit Hok].
  cbn [unshare_all] in Hun. destruct (unshare a buf dir w) as [[b w1] |] eqn:Eu; [| done].
  cbn [mbind option_bind] in Hun. destruct (unshare_all its addrs w1) as [[bs w2] |] eqn:Ea; [| done].
  cbn [mbind option_bind] in Hun. injection Hun as <- <-.
  destruct (carries_tail _ _ _ _ _ _ _ Hcar) as [(d & Hd & Hda & Hdn & _) Hcar'].
  cbn [recycle_loop head]. rewrite (proj2 (Z.eqb_neq _ _)) by (destruct Hit as [? _]; cbn in *; lia).
  cbn [mbind option_bind]. rewrite (vec_get_z _ i d) by (done || lia). cbn [mbind option_bind]. rewrite Hdn, Hda.
  set (d' := match head c with Some _ => unset_buf d | None => set_next (unset_buf d) orig end).
  assert (Hd'n : d_next d' = match head c with Some j => j | None => orig end).
  { unfold d'. unfold next_of in Hdn. destruct c as [| j c]; cbn in *; [done |].
    destruct (contains _ _); [| done]. by injection Hdn. }
  destruct (put_desc_ok q i d' (wrap16 (num_used q - 1)) (free_head q) Hi (qd_shadow q Hq) (qd_table q Hq))
    as (t & q1 & Et & Ew & Hsr & Hnu1 & Hfh1 & Hil1 & Hsd & Htd).
  rewrite Et. cbn [mbind option_bind]. rewrite Ew. cbn [mbind option_bind]. rewrite Eu. cbn [mbind option_bind].
  cbn [length] in Hnu. rewrite (wrapn_small 16) in Hnu1 by (unfold fits; lia).
  assert (Hq1 : queue_dims q1) by (split; unfold vlen; [rewrite (sr_shadow _ _ Hsr) | rewrite (sr_table _ _ Hsr)]; apply Hq).
  assert (Hne : forall j, j ∈ c -> Z.to_nat i <> Z.to_nat j).
  { intros j Hj. rewrite Forall_forall in Hr. specialize (Hr j Hj). apply z_ne; [lia | lia |]. by intros ->. }
  destruct (IH c q1 w1 orig addrs bs w2) as (q2 & E2 & Hsr2 & Hnu2 & Hfh2 & Hil2 & Hout & Hlk & Hla); try done.
  { cbn in Hc. lia. } { cbn in Ha. lia. }
  { apply (carries_ext (desc_shadow q)); [| done]. intros j Hj. rewrite Hsd. by apply list_lookup_insert_ne, Hne. }
  { lia. }
  exists q2. rewrite E2. cbn [mbind option_bind]. split; [done |]. split; [by eapply same_rest_trans |].
  split; [cbn [length]; lia |]. split; [by rewrite Hfh2 |]. split; [by rewrite Hil2 |].
  destruct (Hout i ltac:(lia) Hin) as [Ho _].
  assert (Hi2 : desc_shadow q2 !z i = Some d').
  { rewrite Ho, Hsd. apply list_lookup_insert_eq. by eapply lookup_lt_Some. }
  split; [| split].
  - intros x Hx Hx'. apply not_elem_of_cons in Hx' as [Hnx Hx']. destruct (Hout x Hx Hx') as [-> ->].
    rewrite Hsd, Htd, !list_lookup_insert_ne by (apply z_ne; lia). done.
  - destruct c as [| j c]; [done |]. split; [| done]. exists d'. by split.
  - intros la Hl. destruct c as [| j c].
    + cbn in Hl. injection Hl as <-. exists d'. by split.
    + apply Hla. done.
Qed.
End ops.
