(* ===== verification/VirtQueueInv.v ===== *)
(** * The virtqueue: requests in flight

    The invariant of the queue, with the requests the device has as a map from
    tokens; adding a request and taking one back. *)

From S2P Require Import Prelude Address Phys VirtQueue VirtQueueOk.
#[local] Open Scope kernel_scope.

(** A request: its buffers, where the device finds them, its descriptors, and
    its list of descriptors and where the device finds it, when it has one. *)
Record request := mkReq
  { rq_items : list (list Z * BufferDirection); rq_addrs : list Z; rq_chain : list Z; 
    rq_list : option (Z * list Descriptor) }.

Section inv.
Context (SIZE : Z).
Implicit Types (q : VirtQueue) (rq : request) (free : list Z) (reqs : gmap Z request).

Definition req_ok q (t : Z) rq : Prop :=
  head (rq_chain rq) = Some t /\ NoDup (rq_chain rq) /\ Forall (fun i => 0 <= i < SIZE) (rq_chain rq) /\
  Forall item_ok (rq_items rq) /\ rq_items rq <> [] /\ length (rq_addrs rq) = length (rq_items rq) /\
  match rq_list rq with
  | None =>
      length (rq_chain rq) = length (rq_items rq) /\
      carries (desc_shadow q) (rq_chain rq) (rq_items rq) (rq_addrs rq) /\
      carries (s_desc (vq_shared q)) (rq_chain rq) (rq_items rq) (rq_addrs rq) /\
      forall i, i ∈ rq_chain rq -> indirect_lists q !z i = Some None
  | Some (a, l) =>
      rq_chain rq = [t] /\ exists nx, indirect_lists q !z t = Some (Some l) /\
        length l = length (rq_items rq) /\
        carries l (seqZ 0 (Z.of_nat (length (rq_items rq)))) (rq_items rq) (rq_addrs rq) /\
        desc_shadow q !z t = Some (mkDesc a (vlen (l ≫= desc_bytes)) INDIRECT nx) /\
        s_desc (vq_shared q) !z t = Some (mkDesc a (vlen (l ≫= desc_bytes)) INDIRECT nx)
  end.

(** The descriptors are the free list and the chains of [reqs]. *)
Record vq_ok q free reqs : Prop := {
  vk_size : exists k, SIZE = 2 ^ k /\ 0 <= k <= 15;
  vk_dims : queue_dims SIZE q;
  vk_lists : vlen (indirect_lists q) = SIZE;
  vk_rings : vlen (avail_ring (vq_shared q)) = SIZE /\ vlen (used_ring (vq_shared q)) = SIZE;
  vk_idx : u16 (avail_idx q) /\ u16 (last_used_idx q) /\ s_avail_idx (vq_shared q) = avail_idx q;
  vk_nodup : NoDup free;
  vk_range : Forall (fun i => 0 <= i < SIZE) free;
  vk_linked : linked (desc_shadow q) free;
  vk_head : forall j, head free = Some j -> free_head q = j;
  vk_count : num_used q = SIZE - vlen free;
  vk_none : forall i, i ∈ free -> indirect_lists q !z i = Some None;
  vk_reqs : forall t rq, reqs !! t = Some rq -> req_ok q t rq;
  vk_free : forall t rq i, reqs !! t = Some rq -> i ∈ rq_chain rq -> i ∉ free;
  vk_apart : forall t t' rq rq' i, reqs !! t = Some rq -> reqs !! t' = Some rq' -> t <> t' ->
    i ∈ rq_chain rq -> i ∉ rq_chain rq';
  vk_all : forall i, 0 <= i < SIZE -> i ∈ free \/ exists t rq, reqs !! t = Some rq /\ i ∈ rq_chain rq
}.

Lemma slot_range i : (exists k, SIZE = 2 ^ k /\ 0 <= k <= 15) -> 0 <= i -> slot SIZE i = i mod SIZE /\ 0 <= slot SIZE i < SIZE.
Proof.
  intros (k & -> & Hk) Hi. assert (E : slot (2 ^ k) i = i mod 2 ^ k).
  { unfold slot. replace (2 ^ k - 1) with (Z.ones k) by (rewrite Z.ones_equiv; lia). apply Z.land_ones. lia. }
  rewrite E. split; [done |]. apply Z.mod_pos_bound. lia.
Qed.

(** A request only depends on its own descriptors. *)
Lemma req_ok_move q q' t rq :
  (forall i, i ∈ rq_chain rq -> desc_shadow q' !z i = desc_shadow q !z i /\
     s_desc (vq_shared q') !z i = s_desc (vq_shared q) !z i /\ indirect_lists q' !z i = indirect_lists q !z i) ->
  req_ok q t rq -> req_ok q' t rq.
Proof.
  intros He (Hh & Hnd & Hr & Hok & Hne & Hl & Hm). split_and!; try done.
  destruct (rq_list rq) as [[a l] |].
  - destruct Hm as (Hc & nx & H1 & H2 & H3 & H4 & H5). split; [done |]. exists nx.
    destruct (He t) as (-> & -> & ->); [rewrite Hc; by left |]. by split_and!.
  - destruct Hm as (H1 & H2 & H3 & H4). split; [done |]. split; [| split].
    + eapply carries_ext; [| exact H2]. intros i Hi. apply He. done.
    + eapply carries_ext; [| exact H3]. intros i Hi. by apply He.
    + intros i Hi. destruct (He i Hi) as (_ & _ & ->). by apply H4.
Qed.

Lemma head_elem_z (l : list Z) j : head l = Some j -> j ∈ l.
Proof. destruct l; [done |]. cbn. intros [= ->]. by left. Qed.

(** A token in use is not free. *)
Lemma token_fresh q free reqs j : vq_ok q free reqs -> j ∈ free -> reqs !! j = None.
Proof.
  intros H Hj. destruct (reqs !! j) as [rq |] eqn:E; [| done]. destruct (vk_reqs _ _ _ H j rq E) as (Hh & _).
  destruct (vk_free _ _ _ H j rq j E); [by apply head_elem_z | done].
Qed.

(** A new request takes the first [n] free descriptors. *)
Lemma vq_ok_add q q' free reqs n rq :
  vq_ok q free reqs -> (0 < n <= length free)%nat -> rq_chain rq = take n free ->
  queue_dims SIZE q' -> vlen (indirect_lists q') = SIZE -> vlen (avail_ring (vq_shared q')) = SIZE /\ vlen (used_ring (vq_shared q')) = SIZE ->
  u16 (avail_idx q') /\ u16 (last_used_idx q') /\ s_avail_idx (vq_shared q') = avail_idx q' ->
  num_used q' = num_used q + Z.of_nat n ->
  (forall i, 0 <= i -> i ∉ take n free -> desc_shadow q' !z i = desc_shadow q !z i /\
     s_desc (vq_shared q') !z i = s_desc (vq_shared q) !z i /\ indirect_lists q' !z i = indirect_lists q !z i) ->
  (forall j, head (drop n free) = Some j -> free_head q' = j) ->
  req_ok q' (free_head q) rq ->
  vq_ok q' (drop n free) (<[free_head q := rq]> reqs).
Proof.
  intros H Hn Hc Hd Hl Ha Hx Hnu Hout Hfh Hrq. pose proof (vk_nodup _ _ _ H) as Hnd.
  rewrite <- (take_drop n free) in Hnd. apply NoDup_app in Hnd as (_ & Hdis & Hnd').
  assert (Hsub : forall i, i ∈ drop n free -> i ∈ free) by (intros i Hi; rewrite <- (take_drop n free); apply elem_of_app; by right).
  assert (Hsubt : forall i, i ∈ take n free -> i ∈ free) by (intros i Hi; rewrite <- (take_drop n free); apply elem_of_app; by left).
  assert (Hpos : forall i, i ∈ free -> 0 <= i) by (intros i Hi; pose proof (vk_range _ _ _ H) as Hr; rewrite Forall_forall in Hr; specialize (Hr i Hi); lia).
  assert (Hold : forall t rq0, reqs !! t = Some rq0 -> forall i, i ∈ rq_chain rq0 -> 0 <= i /\ i ∉ take n free).
  { intros t rq0 Ht i Hi. destruct (vk_reqs _ _ _ H t rq0 Ht) as (_ & _ & Hr & _). rewrite Forall_forall in Hr.
    specialize (Hr i Hi). split; [lia |]. intros Hi'. by apply (vk_free _ _ _ H t rq0 i Ht Hi), Hsubt. }
  split; try done.
  - apply H.
  - apply Forall_drop, (vk_range _ _ _ H).
  - apply (linked_ext (desc_shadow q)); [| apply linked_drop, (vk_linked _ _ _ H)].
    intros i Hi. apply Hout; [by apply Hpos, Hsub |]. intros Hi'. by apply (Hdis i Hi').
  - rewrite Hnu, (vk_count _ _ _ H). unfold vlen. rewrite length_drop. lia.
  - intros i Hi. destruct (Hout i) as (_ & _ & ->); [by apply Hpos, Hsub | intros Hi'; by apply (Hdis i Hi') |].
    by apply (vk_none _ _ _ H), Hsub.
  - intros t rq0 Ht. apply lookup_insert_Some in Ht as [[<- <-] | [Hne Ht]]; [done |].
    apply (req_ok_move q); [| by apply (vk_reqs _ _ _ H)]. intros i Hi. destruct (Hold t rq0 Ht i Hi). by apply Hout.
  - intros t rq0 i Ht Hi Hi'. apply lookup_insert_Some in Ht as [[<- <-] | [Hne Ht]].
    + rewrite Hc in Hi. by apply (Hdis i Hi).
    + by apply (vk_free _ _ _ H t rq0 i Ht Hi), Hsub.
  - intros t t' rq1 rq2 i Ht Ht' Hne Hi Hi'.
    apply lookup_insert_Some in Ht as [[<- <-] | [Hne1 Ht]]; apply lookup_insert_Some in Ht' as [[<- <-] | [Hne2 Ht']].
    + done.
    + rewrite Hc in Hi. by apply (proj2 (Hold t' rq2 Ht' i Hi')).
    + rewrite Hc in Hi'. by apply (proj2 (Hold t rq1 Ht i Hi)).
    + by apply (vk_apart _ _ _ H t t' rq1 rq2 i).
  - intros i Hi. destruct (vk_all _ _ _ H i Hi) as [Hf | (t & rq0 & Ht & Hi')].
    + rewrite <- (take_drop n free) in Hf. apply elem_of_app in Hf as [Hf | Hf]; [right | by left].
      exists (free_head q), rq. rewrite lookup_insert_eq, Hc. done.
    + right. exists t, rq0. split; [| done]. rewrite lookup_insert_ne; [done |]. intros <-.
      destruct Hrq as (Hh & _). apply head_elem_z in Hh. rewrite Hc in Hh.
      by rewrite (token_fresh q free reqs _ H (Hsubt _ Hh)) in Ht.
Qed.

Context {W : Type} `{!Hal W}.
Implicit Types w : W.

(** The last step of [vq_add]: the token goes into the available ring. *)
Definition published q (tok : Z) : VirtQueue :=
  let s := vq_shared q in let idx := wrap16 (avail_idx q + 1) in
  put_shared q (mkShared (s_desc s) (avail_flags s) idx (<[Z.to_nat (slot SIZE (avail_idx q)) := tok]> (avail_ring s))
    (used_event s) (used_flags s) (used_idx s) (used_ring s) (avail_event s)) idx (last_used_idx q).

Lemma vq_ok_published q free reqs tok : vq_ok q free reqs -> vq_ok (published q tok) free reqs.
Proof.
  intros H. split; try apply H.
  - split; apply H.
  - cbn. unfold vlen. rewrite length_insert. apply H.
  - cbn. split; [apply wrapn_bound; lia |]. split; [apply H | done].
Qed.

Lemma items_length ins outs : Z.of_nat (length (items ins outs)) = vlen ins + vlen outs.
Proof. unfold items, vlen. rewrite length_app, !length_fmap. lia. Qed.

Lemma size_bounds q free reqs : vq_ok q free reqs -> 1 <= SIZE <= 32768 /\ 0 <= vlen free <= SIZE.
Proof.
  intros H. destruct (vk_size _ _ _ H) as (k & -> & Hk).
  assert (Hs : 1 <= 2 ^ k <= 32768).
  { split; [pose proof (Z.pow_pos_nonneg 2 k); lia |]. change 32768 with (2 ^ 15). apply Z.pow_le_mono_r; lia. }
  split; [done |]. split; [unfold vlen; lia |].
  assert (Hle : (length free <= length (seqZ 0 (2 ^ k)))%nat).
  { apply NoDup_incl_length; [by apply NoDup_ListNoDup, (vk_nodup _ _ _ H) |]. intros x Hx.
    apply list_elem_of_In, elem_of_seqZ. pose proof (vk_range _ _ _ H) as Hr. rewrite Forall_forall in Hr.
    apply list_elem_of_In in Hx. specialize (Hr x Hx). lia. }
  rewrite length_seqZ in Hle. unfold vlen. lia.
Qed.

(** Not enough descriptors, or nothing to send. *)
Lemma vq_add_refused q free reqs ins outs w :
  vq_ok q free reqs ->
  let n := vlen ins + vlen outs in
  (n = 0 -> vq_add SIZE q ins outs w = Some (Err InvalidParam, q, w)) /\
  (0 < n -> free = [] \/ SIZE < n \/ (indirect q = false /\ vlen free < n) ->
    vq_add SIZE q ins outs w = Some (Err QueueFull, q, w)).
Proof.
  intros H n. destruct (size_bounds q free reqs H) as [HS Hf]. pose proof (vk_count _ _ _ H) as Hc. unfold vq_add. fold n.
  split; intros Hn.
  - by rewrite Hn.
  - intros Hfull. rewrite (proj2 (Z.eqb_neq n 0)) by lia. rewrite Hc.
    assert (E : (SIZE <? SIZE - vlen free + 1) || (SIZE <? n) || (negb (indirect q) && (SIZE <? SIZE - vlen free + n)) = true).
    { destruct Hfull as [-> | [Hf' | [-> Hf']]].
      - rewrite (proj2 (Z.ltb_lt _ _)) by (unfold vlen; cbn; lia). done.
      - rewrite (proj2 (Z.ltb_lt SIZE n)) by lia. by rewrite orb_true_r.
      - rewrite (proj2 (Z.ltb_lt SIZE (SIZE - vlen free + n))) by lia. by rewrite !orb_true_r. }
    by rewrite E.
Qed.

Lemma room_ok q free reqs n :
  vq_ok q free reqs -> free <> [] -> n <= SIZE -> (indirect q = false -> n <= vlen free) ->
  (SIZE <? num_used q + 1) || (SIZE <? n) || (negb (indirect q) && (SIZE <? num_used q + n)) = false.
Proof.
  intros H Hne Hn Hd. rewrite (vk_count _ _ _ H).
  assert (Hf : 0 < vlen free) by (destruct free; [done | unfold vlen; cbn; lia]).
  rewrite (proj2 (Z.ltb_ge SIZE (SIZE - vlen free + 1))), (proj2 (Z.ltb_ge SIZE n)) by lia.
  destruct (indirect q); [done |]. specialize (Hd eq_refl). cbn.
  apply Z.ltb_ge. lia.
Qed.

(** A queue that [same_rest] relates to [q] has dimensions and rings of its own. *)
Lemma vq_ok_rest q q' free reqs : vq_ok q free reqs -> same_rest q q' ->
  queue_dims SIZE q' /\
  (vlen (avail_ring (vq_shared q')) = SIZE /\ vlen (used_ring (vq_shared q')) = SIZE) /\
  u16 (avail_idx q') /\ u16 (last_used_idx q') /\ s_avail_idx (vq_shared q') = avail_idx q'.
Proof.
  intros H Hs. destruct (sr_rings _ _ Hs) as [t Ht]. destruct (vk_dims _ _ _ H) as [Hd1 Hd2]. unfold vlen in *.
  split; [split; unfold vlen; [by rewrite (sr_shadow _ _ Hs) | by rewrite (sr_table _ _ Hs)] |].
  rewrite Ht, (sr_avail _ _ Hs), (sr_last _ _ Hs). split; apply H.
Qed.

Lemma vq_add_runs q free reqs ins outs w tok q0 w' free' reqs' :
  let n := vlen ins + vlen outs in
  vq_ok q free reqs -> free <> [] -> 0 < n <= SIZE -> (indirect q = false -> n <= vlen free) ->
  (if indirect q && (1 <? n) then add_indirect q ins outs w else add_direct q ins outs w) = Some (tok, q0, w') ->
  vq_ok q0 free' reqs' ->
  vq_add SIZE q ins outs w = Some (Ok tok, published q0 tok, w').
Proof.
  intros n H Hne Hn Hd E H0. unfold vq_add. fold n.
  rewrite (proj2 (Z.eqb_neq n 0)) by lia. rewrite (room_ok q free reqs) by (done || lia). rewrite E.
  cbn [mbind option_bind]. destruct (vk_idx _ _ _ H0) as (Hia & _).
  destruct (slot_range (avail_idx q0) (vk_size _ _ _ H0) ltac:(unfold fits in Hia; lia)) as [_ Hslot].
  by rewrite vec_set_z by (rewrite (proj1 (vk_rings _ _ _ H0)); lia).
Qed.

Lemma free_cons q free reqs : vq_ok q free reqs -> free <> [] -> exists fr, free = free_head q :: fr.
Proof. intros H Hne. destruct free as [| j fr]; [done |]. exists fr. f_equal. symmetry. by apply (vk_head _ _ _ H). Qed.

(** The buffers of a request in descriptors of their own. *)
Lemma add_direct_vq q free reqs ins outs w addrs w' :
  vq_ok q free reqs ->
  let its := items ins outs in let n := length its in
  its <> [] -> Forall item_ok its -> (n <= length free)%nat -> share_all its w = Some (addrs, w') ->
  exists q', add_direct q ins outs w = Some (free_head q, q', w') /\ same_rest q q' /\
    vq_ok q' (drop n free) (<[free_head q := mkReq its addrs (take n free) None]> reqs).
Proof.
  intros H its n Hne Hok Hlen Hsh. destruct (size_bounds q free reqs H) as [HS Hf].
  assert (Hn : (0 < n)%nat) by (unfold n; destruct its; [done | cbn; lia]).
  assert (Hfne : free <> []) by (intros ->; cbn in Hlen; lia).
  destruct (free_cons q free reqs H Hfne) as [fr Efr].
  assert (Hhd : head free = Some (free_head q)) by by rewrite Efr.
  destruct (add_direct_ok SIZE q ins outs w free addrs w') as (q0 & E & Hsr & Hnu & Hil0 & Hout & Hc1 & Hc2 & Hfh);
    try done; try apply H; [fold its; fold n; unfold vlen in *; lia |].
  fold its n in Hout, Hnu, Hfh, Hc1, Hc2. exists q0. split; [done |]. split; [done |].
  destruct (vq_ok_rest q q0 free reqs H Hsr) as (Hd & Ha & Hx).
  apply (vq_ok_add q); [done | lia | done | done | | done | done | | | done |].
  - rewrite Hil0. apply H.
  - rewrite Hnu, (vk_count _ _ _ H). apply wrapn_small. unfold fits, vlen in *. lia.
  - intros i Hi Hx'. rewrite Hil0. destruct (Hout i Hi Hx') as [-> ->]. done.
  - pose proof (vk_nodup _ _ _ H) as Hnd. split; cbn [rq_chain rq_items rq_addrs rq_list].
    { rewrite Efr. by destruct n; [lia |]. }
    split; [rewrite <- (take_drop n free) in Hnd; by apply NoDup_app in Hnd as (? & _) |].
    split; [apply Forall_take, (vk_range _ _ _ H) |]. split; [done |]. split; [done |].
    split; [by eapply share_all_length |]. split; [rewrite length_take; unfold n; fold its; lia |].
    split; [exact Hc1 |]. split; [exact Hc2 |].
    intros i Hi. rewrite Hil0. apply (vk_none _ _ _ H). rewrite <- (take_drop n free). apply elem_of_app. by left.
Qed.

Lemma desc_bytes_length l : vlen (l ≫= desc_bytes) = 16 * vlen l.
Proof.
  unfold vlen. induction l as [| d l IH]; [done |]. change ((d :: l) ≫= desc_bytes) with (desc_bytes d ++ (l ≫= desc_bytes)).
  rewrite length_app. cbn [length]. change (length (desc_bytes d)) with 16%nat. lia.
Qed.

(** ... or in a list of their own, behind one descriptor. *)
Lemma add_indirect_vq q free reqs ins outs w addrs w1 :
  vq_ok q free reqs ->
  let its := items ins outs in let n := length its in
  its <> [] -> Forall item_ok its -> Z.of_nat n <= SIZE -> free <> [] -> share_all its w = Some (addrs, w1) ->
  (forall l0 l, fill_list its 0 w = Some (l0, w1) -> end_list l0 = Some l ->
     is_Some (share (l ≫= desc_bytes) DriverToDevice w1)) ->
  exists q' l a w', add_indirect q ins outs w = Some (free_head q, q', w') /\ same_rest q q' /\
    length l = n /\ share (l ≫= desc_bytes) DriverToDevice w1 = Some (a, w') /\
    vq_ok q' (drop 1 free) (<[free_head q := mkReq its addrs [free_head q] (Some (a, l))]> reqs).
Proof.
  intros H its n Hne Hok Hlen Hfne Hsh Hshl. destruct (size_bounds q free reqs H) as [HS Hf].
  destruct (free_cons q free reqs H Hfne) as [fr Efr].
  assert (Hmem : free_head q ∈ free) by (rewrite Efr; by left).
  pose proof (vk_range _ _ _ H) as Hr. rewrite Forall_forall in Hr. specialize (Hr _ Hmem). cbn in Hr.
  destruct (indirect_list_ok its w addrs w1 Hsh Hok Hne ltac:(fold n; lia)) as (l0 & l & E1 & E2 & Hll & Hcar).
  pose proof (vk_none _ _ _ H _ Hmem) as Hnone. destruct (vk_dims _ _ _ H) as [Hd1 Hd2].
  destruct (lookup_lt_is_Some_2 (desc_shadow q) (Z.to_nat (free_head q))) as [d Hd]; [unfold vlen in Hd1; lia |].
  destruct (Hshl l0 l E1 E2) as [[a w'] Hsl].
  assert (Hlpos : 0 < vlen l <= SIZE) by (unfold vlen; rewrite Hll; fold n; destruct its; [done |]; unfold n in *; cbn [length] in *; lia).
  set (il := <[Z.to_nat (free_head q) := Some l]> (indirect_lists q)).
  set (dd := mkDesc a (vlen (l ≫= desc_bytes)) INDIRECT (d_next d)).
  destruct (put_desc_ok SIZE (put_indirect q il) (free_head q) dd (num_used q) (d_next d))
    as (t & q0 & Ht & Hq0 & Hsr0 & Hnu & Hfh & Hil & Hsh0 & Htb); [lia | done | done |]. cbn in Ht.
  assert (Hsr : same_rest q (put_free q0 (wrap16 (num_used q0 + 1)) (free_head q0))) by (destruct Hsr0; by split).
  exists (put_free q0 (wrap16 (num_used q0 + 1)) (free_head q0)), l, a, w'.
  split.
  { unfold add_indirect. fold its. unfold mbind, option_bind. rewrite E1, E2, (vec_get_z _ _ _ (proj1 Hr) Hnone).
    rewrite vec_set_z by (rewrite (vk_lists _ _ _ H); lia). rewrite (vec_get_z _ _ _ (proj1 Hr) Hd).
    rewrite (set_buf_ok _ _ _ _ _ a w') by (exact Hsl || (split; [cbn [fst]; rewrite desc_bytes_length; lia | done])).
    change (desc_for _ a INDIRECT (d_next d)) with dd. rewrite Ht.
    change (put_indirect (put_shadow q t) _) with (put_shadow (put_indirect q il) t). by rewrite Hq0. }
  split; [done |]. split; [done |]. split; [done |].
  destruct (vq_ok_rest q _ free reqs H Hsr) as (Hd' & Ha & Hx). cbn in Hil, Hsh0, Htb.
  apply (vq_ok_add q); [done | rewrite Efr; cbn; lia | by rewrite Efr | done | | done | done | | | |].
  - cbn. rewrite Hil. unfold il, vlen. rewrite length_insert. apply H.
  - cbn. rewrite Hnu, (vk_count _ _ _ H). apply wrapn_small. rewrite Efr in *. unfold fits, vlen in *. cbn [length] in *. lia.
  - intros i Hi Hx'. cbn. rewrite Hil, Hsh0, Htb. unfold il.
    assert (Hi' : i <> free_head q) by (intros ->; rewrite Efr in Hx'; apply Hx'; cbn; by left).
    rewrite !list_lookup_insert_ne by lia. done.
  - cbn. rewrite Hfh. intros j Hj. rewrite Efr in Hj. pose proof (vk_linked _ _ _ H) as Hlk. rewrite Efr in Hlk.
    destruct fr as [| b fr]; [done |]. cbn in Hj. injection Hj as ->. destruct Hlk as [(d' & Hd2' & Hnx) _].
    rewrite Hd in Hd2'. injection Hd2' as <-. done.
  - split; [done |]. split; [apply NoDup_singleton |]. cbn [rq_chain rq_items rq_addrs rq_list].
    split; [by apply Forall_singleton |]. split; [done |]. split; [done |]. split; [by eapply share_all_length |].
    split; [done |]. exists (d_next d). cbn. rewrite Hil, Hsh0, Htb. unfold il, vlen in *.
    pose proof (vk_lists _ _ _ H) as Hls. unfold vlen in Hls.
    rewrite !list_lookup_insert_eq by lia. by split_and!.
Qed.

(** ** Taking a request back *)

(** What unsharing the buffers of a request gives. *)
Definition unshare_req rq w : option (list (list Z) * W) :=
  match rq_list rq with
  | None => unshare_all (rq_items rq) (rq_addrs rq) w
  | Some (a, l) =>
      '(_, w) ← unshare a (l ≫= desc_bytes) DriverToDevice w; unshare_all (rq_items rq) (rq_addrs rq) w
  end.

Lemma unshare_list_ok its : forall l addrs w,
  length l = length its -> length addrs = length its -> Forall item_ok its ->
  (forall i a, addrs !! i = Some a -> exists d, l !! i = Some d /\ d_addr d = a) ->
  unshare_list its l w = unshare_all its addrs w.
Proof.
  induction its as [| [buf dir] its IH]; intros l addrs w Hl Ha Hok Hm; [done |].
  destruct l as [| d l]; [done |]. destruct addrs as [| a addrs]; [done |].
  apply Forall_cons in Hok as [[Hb _] Hok]. cbn in Hb. cbn [unshare_list unshare_all].
  rewrite (proj2 (Z.eqb_neq _ 0)) by lia.
  destruct (Hm 0%nat a eq_refl) as (d' & [= <-] & Hd). rewrite Hd.
  destruct (unshare a buf dir w) as [[b w1] |]; [| done]. unfold mbind, option_bind.
  rewrite (IH l addrs w1); [done | cbn in Hl; lia | cbn in Ha; lia | done |].
  intros i a' Hi. by apply (Hm (S i) a').
Qed.

Lemma list_addrs l its addrs :
  length addrs = length its -> carries l (seqZ 0 (Z.of_nat (length its))) its addrs ->
  forall i a, addrs !! i = Some a -> exists d, l !! i = Some d /\ d_addr d = a.
Proof.
  intros Hal Hcar i a' Hi. destruct (lookup_lt_is_Some_2 its i) as [it Hiti]; [apply lookup_lt_Some in Hi; lia |].
  destruct (Hcar i it a' (Z.of_nat i) Hiti Hi) as (d & Hd & Hda & _).
  { apply lookup_seqZ. split; [lia |]. apply lookup_lt_Some in Hiti. lia. }
  exists d. by rewrite Nat2Z.id in Hd.
Qed.

(** The request leaves the queue, its descriptors go to the front of the free list. *)
Lemma vq_ok_pop q q' free reqs t rq :
  vq_ok q free reqs -> reqs !! t = Some rq ->
  queue_dims SIZE q' -> vlen (indirect_lists q') = SIZE -> vlen (avail_ring (vq_shared q')) = SIZE /\ vlen (used_ring (vq_shared q')) = SIZE ->
  u16 (avail_idx q') /\ u16 (last_used_idx q') /\ s_avail_idx (vq_shared q') = avail_idx q' ->
  num_used q' = num_used q - vlen (rq_chain rq) -> free_head q' = t ->
  (forall i, 0 <= i -> i ∉ rq_chain rq -> desc_shadow q' !z i = desc_shadow q !z i /\
     s_desc (vq_shared q') !z i = s_desc (vq_shared q) !z i /\ indirect_lists q' !z i = indirect_lists q !z i) ->
  linked (desc_shadow q') (rq_chain rq) ->
  (forall la, list.last (rq_chain rq) = Some la -> exists d, desc_shadow q' !z la = Some d /\ d_next d = free_head q) ->
  (forall i, i ∈ rq_chain rq -> indirect_lists q' !z i = Some None) ->
  vq_ok q' (rq_chain rq ++ free) (delete t reqs).
Proof.
  intros H Ht Hd Hl Ha Hx Hnu Hfh Hout Hlk Hla Hil.
  destruct (vk_reqs _ _ _ H t rq Ht) as (Hh & Hnd & Hr & _).
  assert (Hpos : forall i, i ∈ free -> 0 <= i) by (intros i Hi; pose proof (vk_range _ _ _ H) as Hr'; rewrite Forall_forall in Hr'; specialize (Hr' i Hi); lia).
  assert (Hold : forall i, i ∈ free -> 0 <= i /\ i ∉ rq_chain rq).
  { intros i Hi. split; [by apply Hpos |]. intros Hi'. by apply (vk_free _ _ _ H t rq i Ht Hi'). }
  split; try done.
  - apply H.
  - apply NoDup_app. split; [done |]. split; [| apply H]. intros i Hi. by apply (vk_free _ _ _ H t rq).
  - apply Forall_app. split; [done | apply H].
  - apply linked_app; [done | |].
    + apply (linked_ext (desc_shadow q)); [| apply H]. intros i Hi. destruct (Hold i Hi). by apply Hout.
    + intros a b Hla' Hb. rewrite (vk_head _ _ _ H b Hb) in Hla. by apply Hla.
  - intros j. destruct (rq_chain rq); [done |]. cbn in *. congruence.
  - rewrite Hnu, (vk_count _ _ _ H). unfold vlen. rewrite length_app. lia.
  - intros i [Hi | Hi]%elem_of_app; [by apply Hil |]. destruct (Hold i Hi) as [Hp Hn].
    destruct (Hout i Hp Hn) as (_ & _ & ->). by apply (vk_none _ _ _ H).
  - intros t' rq' [Hne Ht']%lookup_delete_Some. apply (req_ok_move q); [| by apply (vk_reqs _ _ _ H)].
    intros i Hi. destruct (vk_reqs _ _ _ H t' rq' Ht') as (_ & _ & Hr' & _). rewrite Forall_forall in Hr'.
    specialize (Hr' i Hi). apply Hout; [cbn in Hr'; lia |]. by apply (vk_apart _ _ _ H t' t rq' rq i).
  - intros t' rq' i [Hne Ht']%lookup_delete_Some Hi [Hi' | Hi']%elem_of_app.
    + by apply (vk_apart _ _ _ H t' t rq' rq i).
    + by apply (vk_free _ _ _ H t' rq' i).
  - intros t1 t2 rq1 rq2 i [_ H1]%lookup_delete_Some [_ H2]%lookup_delete_Some. by apply (vk_apart _ _ _ H).
  - intros i Hi. destruct (vk_all _ _ _ H i Hi) as [Hf | (t' & rq' & Ht' & Hi')].
    + left. apply elem_of_app. by right.
    + destruct (decide (t = t')) as [<- | Hne].
      * left. apply elem_of_app. left. congruence.
      * right. exists t', rq'. split; [by rewrite lookup_delete_ne | done].
Qed.

Lemma chain_used q free reqs t rq : vq_ok q free reqs -> reqs !! t = Some rq -> vlen (rq_chain rq) + vlen free <= SIZE.
Proof.
  intros H Ht. destruct (size_bounds q free reqs H) as [HS _]. destruct (vk_reqs _ _ _ H t rq Ht) as (_ & Hnd & Hr & _).
  assert (Hle : (length (rq_chain rq ++ free) <= length (seqZ 0 SIZE))%nat).
  { apply NoDup_incl_length.
    - apply NoDup_ListNoDup, NoDup_app. split; [done |]. split; [| apply H]. intros i Hi. by apply (vk_free _ _ _ H t rq).
    - intros x Hx. apply list_elem_of_In in Hx. apply list_elem_of_In, elem_of_seqZ.
      pose proof (vk_range _ _ _ H) as Hr'. rewrite Forall_forall in Hr, Hr'.
      apply elem_of_app in Hx as [Hx | Hx]; [specialize (Hr x Hx) | specialize (Hr' x Hx)]; cbn in *; lia. }
  rewrite length_app, length_seqZ in Hle. unfold vlen. lia.
Qed.

(** The descriptors of a request as they were added are recycled. *)
Lemma recycle_indirect_vq q free reqs t rq a l ins outs w bufs w' :
  vq_ok q free reqs -> rq_list rq = Some (a, l) ->
  reqs !! t = Some rq -> rq_items rq = items ins outs -> unshare_req rq w = Some (bufs, w') ->
  exists q', recycle_descriptors q t ins outs w = Some (bufs, q', w') /\ same_rest q q' /\
    vq_ok q' (rq_chain rq ++ free) (delete t reqs).
Proof.
  intros H El Ht Hit Hun.
  pose proof (vk_reqs _ _ _ H t rq Ht) as Hrq. pose proof (chain_used q free reqs t rq H Ht) as Hcu.
  destruct Hrq as (Hh & Hnd & Hr & Hok & Hne & Hal & Hm). rewrite El in Hm. destruct (size_bounds q free reqs H) as [HS Hf].
  pose proof (vk_count _ _ _ H) as Hcnt. unfold unshare_req in Hun. rewrite El in Hun. destruct (vk_dims _ _ _ H) as [Hd1 Hd2].
  pose proof (head_elem_z _ _ Hh) as Hmem. rewrite Forall_forall in Hr. pose proof (Hr t Hmem) as Htr. cbn in Htr.
  destruct Hm as (Hch & nx & Hl1 & Hl2 & Hcar & Hsd & _). unfold recycle_descriptors. cbn [desc_shadow put_free indirect_lists].
  unfold mbind, option_bind in Hun |- *. rewrite (vec_get_z _ _ _ (proj1 Htr) Hsd). cbn [d_flags].
  change (contains INDIRECT INDIRECT) with true. cbv iota.
  rewrite (vec_get_z _ _ _ (proj1 Htr) Hl1). rewrite vec_set_z by (rewrite (vk_lists _ _ _ H); lia).
  rewrite vec_set_z by lia. cbn [d_addr].
  destruct (unshare a (l ≫= desc_bytes) DriverToDevice w) as [[bb w1] |] eqn:E1;
    change (list_bind Descriptor Z desc_bytes l) with (l ≫= desc_bytes) in Hun |- *; rewrite E1 in Hun |- *; [| done].
  rewrite (proj2 (Z.eqb_eq (vlen l) _)) by (rewrite <- items_length, <- Hit; unfold vlen; lia).
  rewrite <- Hit, (unshare_list_ok _ l (rq_addrs rq)), Hun; try done.
  2: { by apply (list_addrs l (rq_items rq)). }
  eexists. split; [reflexivity |]. split.
  { split; cbn; rewrite ?length_insert; try done. exists (s_desc (vq_shared q)). by destruct (vq_shared q). }
  apply (vq_ok_pop q); try done; rewrite ?Hch; cbn.
  - split; cbn; unfold vlen; rewrite ?length_insert; done.
  - unfold vlen. rewrite length_insert. apply H.
  - apply H.
  - apply H.
  - rewrite wrapn_small; [unfold vlen; cbn; lia |]. rewrite Hch in Hcu. unfold fits, vlen in *. cbn in Hcu. lia.
  - intros i Hi Hx. apply not_elem_of_cons in Hx as [Hx _]. rewrite !list_lookup_insert_ne by lia. done.
  - done.
  - intros la [= <-]. unfold vlen in Hd1. rewrite list_lookup_insert_eq by lia. by eexists.
  - intros i [-> | Hi]%elem_of_cons; [| by apply elem_of_nil in Hi].
    pose proof (vk_lists _ _ _ H) as Hls. unfold vlen in Hls. by rewrite list_lookup_insert_eq by lia.
Qed.

Lemma recycle_direct_vq q free reqs t rq ins outs w bufs w' :
  vq_ok q free reqs -> rq_list rq = None ->
  reqs !! t = Some rq -> rq_items rq = items ins outs -> unshare_req rq w = Some (bufs, w') ->
  exists q', recycle_descriptors q t ins outs w = Some (bufs, q', w') /\ same_rest q q' /\
    vq_ok q' (rq_chain rq ++ free) (delete t reqs).
Proof.
  intros H El Ht Hit Hun.
  pose proof (vk_reqs _ _ _ H t rq Ht) as Hrq. pose proof (chain_used q free reqs t rq H Ht) as Hcu.
  destruct Hrq as (Hh & Hnd & Hr & Hok & Hne & Hal & Hm). rewrite El in Hm. destruct (size_bounds q free reqs H) as [HS Hf].
  pose proof (vk_count _ _ _ H) as Hcnt. unfold unshare_req in Hun. rewrite El in Hun. destruct (vk_dims _ _ _ H) as [Hd1 Hd2].
  pose proof (head_elem_z _ _ Hh) as Hmem. rewrite Forall_forall in Hr. pose proof (Hr t Hmem) as Htr. cbn in Htr.
  destruct Hm as (Hlen & Hc1 & _ & Hnone). unfold recycle_descriptors. cbn [desc_shadow put_free].
  destruct (lookup_lt_is_Some_2 (rq_items rq) 0) as [it0 Hit0]; [destruct (rq_items rq); [done | cbn; lia] |].
  destruct (lookup_lt_is_Some_2 (rq_addrs rq) 0) as [a0 Ha0]; [rewrite Hal; by eapply lookup_lt_Some |].
  destruct (Hc1 0%nat it0 a0 t Hit0 Ha0) as (d & Hd & _ & _ & _ & Hind & _); [by rewrite <- head_lookup |].
  unfold mbind, option_bind. rewrite (vec_get_z _ _ _ (proj1 Htr) Hd), Hind, <- Hit.
  destruct (recycle_loop_ok SIZE (rq_items rq) (rq_chain rq) (put_free q (num_used q) t) w (free_head q) (rq_addrs rq) bufs w')
    as (q' & E & Hsr & Hnu & Hfh & Hil & Hout & Hlk & Hla); try done.
  { by apply Forall_forall. }
  { cbn. unfold vlen in *. lia. }
  rewrite Hh in E. rewrite E.
  assert (Hsr' : same_rest q q') by (destruct Hsr; by split).
  exists q'. split; [done |]. split; [done |]. destruct (vq_ok_rest q q' free reqs H Hsr') as (Hd' & Ha & Hx).
  apply (vq_ok_pop q); try done.
  - rewrite Hil. apply H.
  - rewrite Hnu. unfold vlen. cbn. lia.
  - intros i Hi Hx'. rewrite Hil. cbn. destruct (Hout i Hi Hx') as [-> ->]. done.
  - intros i Hi. rewrite Hil. by apply Hnone.
Qed.

Lemma recycle_vq q free reqs t rq ins outs w bufs w' :
  vq_ok q free reqs ->
  reqs !! t = Some rq -> rq_items rq = items ins outs -> unshare_req rq w = Some (bufs, w') ->
  exists q', recycle_descriptors q t ins outs w = Some (bufs, q', w') /\ same_rest q q' /\
    vq_ok q' (rq_chain rq ++ free) (delete t reqs).
Proof.
  intros H. destruct (rq_list rq) as [[a l] |] eqn:El; [by apply (recycle_indirect_vq _ _ _ _ _ a l) | by apply recycle_direct_vq].
Qed.
End inv.
