(* ===== verification/VirtQueueFacts.v ===== *)
(** * The virtqueue: every run of a driver

    A driver that adds requests and takes them back, a device that writes its
    ring as it likes: the descriptors of the requests stay apart and each
    request comes back as it was added. *)

From S2P Require Import Prelude Address Phys VirtQueue VirtQueueOk VirtQueueInv.
#[local] Open Scope kernel_scope.

Section run.
Context (SIZE : Z).
Context {W : Type} `{!Hal W}.
Implicit Types (q : VirtQueue) (w : W) (its : list (list Z * BufferDirection)) (free : list Z) (reqs : gmap Z request).

(** ** What a result says of the sharing *)





(** ** Adding *)

(** A request of [n] buffers finds no place. *)
Definition queue_full q (free : list Z) (n : Z) : Prop := free = [] \/ SIZE < n \/ (indirect q = false /\ vlen free < n).


#[global] Instance queue_full_dec q free n : Decision (queue_full q free n).
Proof. unfold queue_full. apply _. Defined.







(** ** Taking back *)






(** ** Every run *)







End run.

(** A memory of shared buffers, each at an address of its own. *)
#[local] Instance demo_hal : Hal (list (list Z)) := {
  share buf dir w := Some (4096 * (1 + vlen w), w ++ [buf]);
  unshare a buf dir w :=
    match dir with
    | DriverToDevice => Some (buf, w)
    | _ => b ← vec_get w (a / 4096 - 1); Some (b, w)
    end
}.

